(** * HaruQuantCBot: a shallow embedding of the back-testing core

    The C++ engine is embedded function by function:
    - [int64_t], [int32_t], [uint64_t], [uint32_t] are [Z] with the
      two's-complement wrap-around written out ([wrap64], [wrap32], ...);
    - [double] is the kernel's IEEE-754 binary64 type [float];
    - [std::unordered_map] is stdpp's [gmap], [std::vector] is [list];
    - methods that mutate [*this] are state-passing functions.  *)

From Stdlib Require Import ZArith Lia List Floats Uint63 Ascii String.
From stdpp Require Import base option list gmap strings fin_maps.

Local Open Scope Z_scope.

(** ** Machine integers *)

Module Int.

Definition INT64_MIN : Z := - 2 ^ 63.
Definition INT64_MAX : Z := 2 ^ 63 - 1.
Definition INT32_MIN : Z := - 2 ^ 31.
Definition INT32_MAX : Z := 2 ^ 31 - 1.
Definition UINT64_MAX : Z := 2 ^ 64 - 1.

(** Two's-complement reduction of a mathematical result to the target type.
    For the unsigned types this is what C++ prescribes.  For the signed
    types C++ leaves overflow undefined; the model gives the value the
    two's-complement hardware produces, and the theorems that need more
    than that carry hypotheses saying that no signed overflow occurs. *)
Definition wrap64 (z : Z) : Z := (z + 2 ^ 63) mod 2 ^ 64 - 2 ^ 63.
Definition wrap32 (z : Z) : Z := (z + 2 ^ 31) mod 2 ^ 32 - 2 ^ 31.
Definition wrapU64 (z : Z) : Z := z mod 2 ^ 64.
Definition wrapU32 (z : Z) : Z := z mod 2 ^ 32.

Definition in_int64 (z : Z) : Prop := INT64_MIN <= z <= INT64_MAX.
Definition in_int32 (z : Z) : Prop := INT32_MIN <= z <= INT32_MAX.
Definition in_uint64 (z : Z) : Prop := 0 <= z <= UINT64_MAX.

(** [a / b] on [int64_t]: truncation toward zero.  C++ leaves [a / 0] and
    [INT64_MIN / -1] undefined (the x86-64 instruction traps); the model
    gives [0] and [INT64_MIN] there, and the theorems about division carry
    hypotheses under which neither case arises. *)
Definition div64 (a b : Z) : Z := wrap64 (a ÷ b).



End Int.

Import Int.

(** ** IEEE-754 binary64 *)

Module Double.

(** [static_cast<double>(i)] for an integer [i]: the nearest binary64 value,
    ties to even. *)
Definition of_int (z : Z) : float :=
  SF2Prim (SpecFloat.binary_normalize prec emax z 0 false).

(** The integer part of a finite [double], truncated toward zero. *)
Definition trunc (x : float) : option Z :=
  match Prim2SF x with
  | S754_zero _ => Some 0
  | S754_finite s m e =>
      let v := if 0 <=? e then Z.pos m * 2 ^ e else Z.pos m / 2 ^ (- e) in
      Some (if s then - v else v)
  | S754_infinity _ | S754_nan => None
  end.

(** [static_cast<int64_t>(x)].  C++ leaves the conversion undefined when the
    truncated value does not fit (or [x] is NaN or infinite); the model
    returns what the x86-64 conversion instruction returns there,
    [INT64_MIN].  No theorem below depends on that choice. *)
Definition to_int64 (x : float) : Z :=
  match trunc x with
  | Some v => if (INT64_MIN <=? v) && (v <=? INT64_MAX) then v else INT64_MIN
  | None => INT64_MIN
  end.

(** [static_cast<int32_t>(x)], with the same convention. *)
Definition to_int32 (x : float) : Z :=
  match trunc x with
  | Some v => if (INT32_MIN <=? v) && (v <=? INT32_MAX) then v else INT32_MIN
  | None => INT32_MIN
  end.

(** [std::pow(10.0, d)] for an integral [d]: the binary64 value nearest to
    [10^d] (exact up to [10^22]); for a negative [d] the correctly rounded
    reciprocal. *)
Definition pow10 (d : Z) : float :=
  if 0 <=? d then of_int (10 ^ d) else (1 / of_int (10 ^ (- d)))%float.

(** [a > b], [a >= b], [a < b], [a <= b] on doubles (false on NaN). *)
Definition gt (a b : float) : bool := PrimFloat.ltb b a.
Definition ge (a b : float) : bool := PrimFloat.leb b a.
Definition lt (a b : float) : bool := PrimFloat.ltb a b.
Definition le (a b : float) : bool := PrimFloat.leb a b.

(** [std::min(a, b)] is [(b < a) ? b : a]. *)
Definition min (a b : float) : float := if PrimFloat.ltb b a then b else a.

End Double.

(** ** fixed_point.hpp *)

Module FixedPoint.




(** [FixedPoint::add], [subtract], [multiply_int]. *)
Definition add (a b : Z) : Z := wrap64 (a + b).
Definition subtract (a b : Z) : Z := wrap64 (a - b).
Definition multiply_int (fixed_value multiplier : Z) : Z :=
  wrap64 (fixed_value * multiplier).


(** [FixedPoint::abs], [compare], [min], [max], [clamp]. *)
Definition abs (fixed_value : Z) : Z :=
  if 0 <=? fixed_value then fixed_value else wrap64 (- fixed_value).
Definition compare (a b : Z) : Z :=
  if a <? b then -1 else if b <? a then 1 else 0.
Definition min (a b : Z) : Z := if a <? b then a else b.
Definition max (a b : Z) : Z := if b <? a then a else b.
Definition clamp (value min_val max_val : Z) : Z :=
  if value <? min_val then min_val
  else if max_val <? value then max_val
  else value.



End FixedPoint.

(** ** util/timestamp.hpp: the arithmetic on microsecond timestamps *)

Module Timestamp.

Definition MICROS_PER_DAY : Z := 86400 * 1000000.
Definition MICROS_PER_HOUR : Z := 3600 * 1000000.
Definition MICROS_PER_MINUTE : Z := 60 * 1000000.

(** [to_seconds], [to_milliseconds], [from_seconds], [from_milliseconds]. *)
Definition to_seconds (timestamp_us : Z) : Z := div64 timestamp_us 1000000.
Definition to_milliseconds (timestamp_us : Z) : Z := div64 timestamp_us 1000.
Definition from_seconds (seconds : Z) : Z := wrap64 (seconds * 1000000).
Definition from_milliseconds (milliseconds : Z) : Z := wrap64 (milliseconds * 1000).

(** [floor_to_day], [floor_to_hour], [floor_to_minute]. *)
Definition floor_to_day (timestamp_us : Z) : Z :=
  wrap64 (div64 timestamp_us MICROS_PER_DAY * MICROS_PER_DAY).
Definition floor_to_hour (timestamp_us : Z) : Z :=
  wrap64 (div64 timestamp_us MICROS_PER_HOUR * MICROS_PER_HOUR).
Definition floor_to_minute (timestamp_us : Z) : Z :=
  wrap64 (div64 timestamp_us MICROS_PER_MINUTE * MICROS_PER_MINUTE).

End Timestamp.

(** ** core/global_clock.hpp *)

Module GlobalClock.

(** [class GlobalClock]: the (mutex-protected) data members.  Keys are
    [uint32_t] symbol ids, values [int64_t] timestamps. *)
Record t := mk {
  symbol_timestamps_ : gmap Z Z;
  global_time_ : Z
}.

Definition init : t := mk ∅ 0.

(** [recalculate_global_time_locked]. *)
Definition recalculate_global_time_locked (c : t) : t :=
  if decide (symbol_timestamps_ c = ∅) then mk (symbol_timestamps_ c) 0
  else
    let min_time :=
      map_fold (fun _ timestamp min_time => Z.min min_time timestamp)
               INT64_MAX (symbol_timestamps_ c) in
    mk (symbol_timestamps_ c) min_time.

(** [update_symbol]. *)
Definition update_symbol (symbol_id timestamp : Z) (c : t) : t :=
  recalculate_global_time_locked
    (mk (<[symbol_id := timestamp]> (symbol_timestamps_ c)) (global_time_ c)).

(** [remove_symbol]. *)
Definition remove_symbol (symbol_id : Z) (c : t) : t :=
  recalculate_global_time_locked
    (mk (delete symbol_id (symbol_timestamps_ c)) (global_time_ c)).

(** The loop of [can_advance]: the minimum over every entry whose key is
    not [symbol_id], starting from [INT64_MAX]. *)
Definition min_time_excluding (symbol_id : Z) (m : gmap Z Z) : Z :=
  map_fold (fun other_id other_time acc =>
              if decide (other_id <> symbol_id) then Z.min acc other_time
              else acc)
           INT64_MAX m.

(** [can_advance]. *)
Definition can_advance (c : t) (symbol_id target_timestamp : Z) : bool :=
  if (size (symbol_timestamps_ c) <=? 1)%nat then true
  else target_timestamp <=? min_time_excluding symbol_id (symbol_timestamps_ c).

(** [current_time]. *)
Definition current_time (c : t) : Z := global_time_ c.

(** [get_symbol_time]. *)
Definition get_symbol_time (c : t) (symbol_id : Z) : Z :=
  default 0 (symbol_timestamps_ c !! symbol_id).

(** [symbol_count]. *)
Definition symbol_count (c : t) : nat := size (symbol_timestamps_ c).

(** [update_batch]: every entry of [updates] is stored, then the global
    time is recalculated once. *)
Definition update_batch (updates : gmap Z Z) (c : t) : t :=
  recalculate_global_time_locked
    (mk (map_fold (fun symbol_id timestamp m => <[symbol_id := timestamp]> m)
                  (symbol_timestamps_ c) updates)
        (global_time_ c)).

(** [get_all_timestamps]. *)
Definition get_all_timestamps (c : t) : gmap Z Z := symbol_timestamps_ c.

(** [get_symbol_lag]. *)
Definition get_symbol_lag (c : t) (symbol_id : Z) : Z :=
  match symbol_timestamps_ c !! symbol_id with
  | Some timestamp => wrap64 (timestamp - global_time_ c)
  | None => 0
  end.

(** [get_slowest_symbol]: the loop keeps the pair [(slowest_id, min_time)].
    C++ leaves the iteration order of the hash map unspecified; the model
    iterates in the order of [map_fold]. *)
Definition get_slowest_symbol (c : t) : Z :=
  if decide (symbol_timestamps_ c = ∅) then 0
  else
    fst (map_fold
           (fun symbol_id timestamp (acc : Z * Z) =>
              if timestamp <? snd acc then (symbol_id, timestamp) else acc)
           (0, INT64_MAX) (symbol_timestamps_ c)).

(** [clear] and [reset]. *)
Definition clear (c : t) : t := mk ∅ 0.
Definition reset (initial_time : Z) (c : t) : t := mk ∅ initial_time.

End GlobalClock.

(** [class PITEnforcer] of global_clock.hpp; [clock_] is a reference to the
    clock, passed here as an argument. *)

Module PITEnforcer.

(** [clamp_query_time]. *)
Definition clamp_query_time (clock_ : GlobalClock.t) (query_time : Z) : Z :=
  let global_time := GlobalClock.current_time clock_ in
  Z.min query_time global_time.

(** [is_valid_query]. *)
Definition is_valid_query (clock_ : GlobalClock.t) (query_time : Z) : bool :=
  query_time <=? GlobalClock.current_time clock_.

(** [max_query_time]. *)
Definition max_query_time (clock_ : GlobalClock.t) : Z :=
  GlobalClock.current_time clock_.

End PITEnforcer.

(** ** util/currency_converter.hpp *)

Module CurrencyConverter.

(** [struct CurrencyPair]. *)
Record CurrencyPair := mkPair {
  base : string;
  quote : string;
  rate : float;
  timestamp_us : Z
}.

(** [class CurrencyConverter].  [graph_] maps a currency to a
    [std::unordered_set<std::string>]; the set is kept as a duplicate-free
    list and iterated in insertion order (C++ leaves the order unspecified). *)
Record t := mk {
  pairs_ : gmap string CurrencyPair;
  graph_ : gmap string (list string)
}.

Definition empty : t := mk ∅ ∅.

(** [ConversionPathError], one constructor per [throw] site of [convert]. *)
Inductive ConversionPathError :=
| NoConversionPath (from to : string)
| PathValidationFailed (curr next : string).

(** What a call produces: a value, an exception, or (model only) the
    exhaustion of the fuel that bounds the BFS loops. *)
Inductive outcome (A : Type) :=
| Return (a : A)
| Throw (e : ConversionPathError)
| OutOfFuel.
Arguments Return {A} a.
Arguments Throw {A} e.
Arguments OutOfFuel {A}.

Definition pair_id (b q : string) : string := b +:+ "/" +:+ q.

(** [std::unordered_set::insert]. *)
Definition set_insert (x : string) (l : list string) : list string :=
  if decide (x ∈ l) then l else l ++ [x].

(** [graph_[k].insert(x)]: [operator[]] creates the empty set when absent. *)
Definition graph_insert (k x : string) (g : gmap string (list string))
  : gmap string (list string) :=
  <[k := set_insert x (default [] (g !! k))]> g.

(** [register_pair]. *)
Definition register_pair (b q : string) (r : float) (ts : Z) (c : t) : t :=
  let pairs := <[pair_id b q := mkPair b q r ts]> (pairs_ c) in
  let g := graph_insert b q (graph_ c) in
  let g := graph_insert q b g in
  mk pairs g.

(** [has_pair]. *)
Definition has_pair (c : t) (b q : string) : bool :=
  bool_decide (is_Some (pairs_ c !! pair_id b q)).

(** The [throw] sites of [update_rate] and [get_rate]; the argument is the
    pair id of the message. *)
Inductive RateError :=
| PairNotRegistered (pair : string)
| NoDirectPair (pair : string).

(** [update_rate]. *)
Definition update_rate (b q : string) (r : float) (ts : Z) (c : t)
  : RateError + t :=
  match pairs_ c !! pair_id b q with
  | None => inl (PairNotRegistered (pair_id b q))
  | Some p =>
      inr (mk (<[pair_id b q := mkPair (base p) (quote p) r ts]> (pairs_ c))
              (graph_ c))
  end.

(** [get_rate]. *)
Definition get_rate (c : t) (b q : string) : RateError + float :=
  match pairs_ c !! pair_id b q with
  | None => inl (NoDirectPair (pair_id b q))
  | Some p => inr (rate p)
  end.

(** [pair_count] and [clear]. *)
Definition pair_count (c : t) : nat := size (pairs_ c).
Definition clear (c : t) : t := mk ∅ ∅.

(** The BFS bookkeeping of [find_path]. *)
Record bfs_state := mkBfs {
  parent : gmap string string;
  visited : gset string;
  queue : list string
}.

(** The body of [for (const auto& neighbor : neighbors_it->second)]. *)
Definition explore (current : string) (st : bfs_state) (neighbor : string)
  : bfs_state :=
  if decide (neighbor ∈ visited st) then st
  else mkBfs (<[neighbor := current]> (parent st))
             ({[neighbor]} ∪ visited st)
             (queue st ++ [neighbor]).

(** [while (!node.empty()) { path.push_back(node); node = parent[node]; }]
    ([parent[node]] yields the empty string for an absent key). *)
Fixpoint reconstruct (fuel : nat) (par : gmap string string) (node : string)
  : option (list string) :=
  match fuel with
  | O => None
  | S fuel' =>
      if String.eqb node "" then Some []
      else option_map (cons node)
             (reconstruct fuel' par (default ""%string (par !! node)))
  end.

(** [while (!queue.empty()) { ... }] of [find_path]. *)
Fixpoint bfs (fuel : nat) (g : gmap string (list string)) (to : string)
  (st : bfs_state) : option (list string) :=
  match fuel with
  | O => None
  | S fuel' =>
      match queue st with
      | [] => Some []
      | current :: rest =>
          if String.eqb current to then
            option_map (@rev string)
              (reconstruct (S (size (parent st))) (parent st) to)
          else
            let st := mkBfs (parent st) (visited st) rest in
            let st :=
              match g !! current with
              | Some neighbors => fold_left (explore current) neighbors st
              | None => st
              end in
            bfs fuel' g to st
      end
  end.

(** Every loop iteration dequeues one element and every element is enqueued
    at most once, through one adjacency entry; this bounds the iterations. *)
Definition bfs_fuel (g : gmap string (list string)) : nat :=
  S (S (map_fold (fun _ l acc => (length l + acc)%nat) O g)).

(** [find_path]: [None] only when the model's fuel runs out. *)
Definition find_path (c : t) (from to : string) : option (list string) :=
  if String.eqb from to then Some [from]
  else if bool_decide (graph_ c !! from = None) then Some []
  else if bool_decide (graph_ c !! to = None) then Some []
  else
    bfs (bfs_fuel (graph_ c)) (graph_ c) to
        (mkBfs {[from := ""%string]} {[from]} [from]).

(** The loop of [convert] over consecutive currencies of the path. *)
Fixpoint apply_path (pairs : gmap string CurrencyPair) (path : list string)
  (result : float) : outcome float :=
  match path with
  | curr :: ((next :: _) as rest) =>
      match pairs !! pair_id curr next with
      | Some p => apply_path pairs rest (result * rate p)%float
      | None =>
          match pairs !! pair_id next curr with
          | Some p => apply_path pairs rest (result / rate p)%float
          | None => Throw (PathValidationFailed curr next)
          end
      end
  | _ => Return result
  end.

(** [convert]. *)
Definition convert (c : t) (amount : float) (from to : string)
  : outcome float :=
  if String.eqb from to then Return amount
  else
    match pairs_ c !! pair_id from to with
    | Some p => Return (amount * rate p)%float
    | None =>
        match pairs_ c !! pair_id to from with
        | Some p => Return (amount / rate p)%float
        | None =>
            match find_path c from to with
            | None => OutOfFuel
            | Some [] => Throw (NoConversionPath from to)
            | Some path => apply_path (pairs_ c) path amount
            end
        end
    end.

End CurrencyConverter.

(** ** core/write_ahead_log.hpp *)

Module WriteAheadLog.

(** Bytes are integers in [0, 256). *)
Definition byte := Z.

(** [enum class WALEntryType : uint8_t]. *)
Definition POSITION_OPEN : Z := 1.
Definition POSITION_CLOSE : Z := 2.
Definition POSITION_MODIFY : Z := 3.
Definition ORDER_PLACE : Z := 4.
Definition ORDER_CANCEL : Z := 5.
Definition BALANCE_CHANGE : Z := 6.
Definition CHECKPOINT : Z := 7.

(** [struct WALEntryHeader]: four data members, declared in this order. *)
Record WALEntryHeader := mkHeader {
  magic : Z;    (* uint32_t *)
  type : Z;     (* uint8_t  *)
  length : Z;   (* uint32_t *)
  crc32 : Z     (* uint32_t *)
}.

Definition MAGIC : Z := 0x48515457.
(** [WALEntryHeader::SIZE = 4 + 1 + 4 + 4]. *)
Definition SIZE : nat := 13.

(** Little-endian object representation of a [uint32_t]. *)
Definition le32 (v : Z) : list byte :=
  [Z.land v 255; Z.land (Z.shiftr v 8) 255;
   Z.land (Z.shiftr v 16) 255; Z.land (Z.shiftr v 24) 255].

Definition le32_decode (bs : list byte) : Z :=
  match bs with
  | [b0; b1; b2; b3] =>
      Z.lor b0 (Z.lor (Z.shiftl b1 8) (Z.lor (Z.shiftl b2 16) (Z.shiftl b3 24)))
  | _ => 0
  end.

(** The object representation of a [WALEntryHeader].  The struct is not
    packed: with [uint32_t] aligned to 4 bytes, [magic] is at offset 0,
    [type] at 4, three padding bytes at 5..7, [length] at 8 and [crc32] at
    12, 16 bytes in all.  [pad] is the content of the padding bytes. *)
Definition object_bytes (pad : list byte) (h : WALEntryHeader) : list byte :=
  le32 (magic h) ++ [type h] ++ take 3 (pad ++ [0; 0; 0]) ++
  le32 (length h) ++ le32 (crc32 h).

(** Reading the members back from a 16-byte object representation. *)
Definition of_object_bytes (bs : list byte) : WALEntryHeader :=
  mkHeader (le32_decode (take 4 bs))
           (nth 4 bs 0)
           (le32_decode (take 4 (drop 8 bs)))
           (le32_decode (take 4 (drop 12 bs))).

(** One entry of [crc_table]. *)
Definition crc_table (i : Z) : Z :=
  Nat.iter 8
    (fun crc => Z.lxor (Z.shiftr crc 1)
                       (if Z.testbit crc 0 then 0xEDB88320 else 0))
    i.

(** [calculate_crc32]. *)
Definition calculate_crc32 (data : list byte) : Z :=
  let crc :=
    fold_left
      (fun crc b =>
         let index := Z.land (Z.lxor crc b) 255 in
         Z.lxor (Z.shiftr crc 8) (crc_table index))
      data 0xFFFFFFFF in
  Z.lxor crc 0xFFFFFFFF.

(** [class WriteAheadLog]; [file_] is the content of the file on disk. *)
Record t := mk {
  file_ : list byte;
  is_open_ : bool;
  entry_count_ : Z;
  bytes_written_ : Z;
  last_checkpoint_pos_ : Z
}.

(** The [throw] sites of [append] and [read_all]. *)
Inductive WALError :=
| NotOpen
| InvalidMagic
| IncompleteData
| CRC32Mismatch.

(** [open(truncate)] on a file holding [content]. *)
Definition open (truncate : bool) (content : list byte) : t :=
  let content := if truncate then [] else content in
  mk content true 0 (Z.of_nat (List.length content)) (-1).

(** [append(type, data, size)].  [pad] is the indeterminate content of the
    padding bytes of the local [header].  The stream is opened in append
    mode, so the bytes go to the end of the file. *)
Definition append (pad : list byte) (ty : Z) (data : list byte) (w : t)
  : WALError + t :=
  if negb (is_open_ w) then inl NotOpen
  else
    let size := Z.of_nat (List.length data) in
    let header := mkHeader MAGIC ty (wrapU32 size) (calculate_crc32 data) in
    let written := take SIZE (object_bytes pad header) ++ data in
    inr (mk (file_ w ++ written) true
            (wrapU64 (entry_count_ w + 1))
            (wrapU64 (bytes_written_ w + Z.of_nat SIZE + size))
            (last_checkpoint_pos_ w)).

(** The [while] loop of [read_all].  [stale i] is the indeterminate object
    representation of the local [header] at the start of iteration [i]:
    [file_.read] overwrites its first [SIZE] bytes only. *)
Fixpoint read_loop (fuel : nat) (stale : nat -> list byte) (i : nat)
  (rest : list byte) (entries : list (Z * list byte))
  : option (WALError + list (Z * list byte)) :=
  match fuel with
  | O => None
  | S fuel' =>
      match rest with
      | [] => Some (inr entries)
      | _ =>
          let got := take SIZE rest in
          if negb (List.length got =? SIZE)%nat then Some (inr entries)
          else
            let header := of_object_bytes (got ++ drop SIZE (stale i)) in
            if negb (magic header =? MAGIC) then Some (inl InvalidMagic)
            else
              let rest := drop SIZE rest in
              let n := Z.to_nat (length header) in
              if 0 <? length header then
                let data := take n rest in
                if negb (List.length data =? n)%nat
                then Some (inl IncompleteData)
                else if negb (calculate_crc32 data =? crc32 header)
                then Some (inl CRC32Mismatch)
                else read_loop fuel' stale (S i) (drop n rest)
                               (entries ++ [(type header, data)])
              else read_loop fuel' stale (S i) rest
                             (entries ++ [(type header, [])])
      end
  end.

(** [read_all]: every iteration consumes at least [SIZE] bytes, which
    bounds the loop; [None] only when the model's fuel runs out. *)
Definition read_all (stale : nat -> list byte) (w : t)
  : option (WALError + list (Z * list byte)) :=
  if negb (is_open_ w) then Some (inl NotOpen)
  else read_loop (S (List.length (file_ w))) stale 0 (file_ w) [].

(** [close], [is_wal_open], [entry_count], [bytes_written]. *)
Definition close (w : t) : t :=
  if negb (is_open_ w) then w
  else mk (file_ w) false (entry_count_ w) (bytes_written_ w)
          (last_checkpoint_pos_ w).
Definition is_wal_open (w : t) : bool := is_open_ w.
Definition entry_count (w : t) : Z := entry_count_ w.
Definition bytes_written (w : t) : Z := bytes_written_ w.

(** The first loop of [read_uncommitted]: [checkpoint_idx] is one past the
    index of the last CHECKPOINT entry, 0 when there is none.  The pair is
    [(checkpoint_idx, i)]. *)
Definition checkpoint_index (all_entries : list (Z * list byte)) : nat :=
  fst (fold_left
         (fun (acc : nat * nat) (entry : Z * list byte) =>
            let '(checkpoint_idx, i) := acc in
            (if fst entry =? CHECKPOINT then S i else checkpoint_idx, S i))
         all_entries (O, O)).

(** [read_uncommitted]; an exception of [read_all] passes through. *)
Definition read_uncommitted (stale : nat -> list byte) (w : t)
  : option (WALError + list (Z * list byte)) :=
  match read_all stale w with
  | Some (inr all_entries) =>
      let checkpoint_idx := checkpoint_index all_entries in
      if (checkpoint_idx <? List.length all_entries)%nat
      then Some (inr (drop checkpoint_idx all_entries))
      else Some (inr [])
  | other => other
  end.

(** Appending a sequence of entries, stopping at the first failure. *)
Fixpoint append_all (pad : list byte) (es : list (Z * list byte)) (w : t)
  : WALError + t :=
  match es with
  | [] => inr w
  | (ty, data) :: es' =>
      match append pad ty data w with
      | inl e => inl e
      | inr w' => append_all pad es' w'
      end
  end.

End WriteAheadLog.

(** ** trading: enumerations *)

Module Enums.

Inductive ENUM_POSITION_TYPE := POSITION_TYPE_BUY | POSITION_TYPE_SELL.

Inductive ENUM_ORDER_TYPE :=
| ORDER_TYPE_BUY | ORDER_TYPE_SELL
| ORDER_TYPE_BUY_LIMIT | ORDER_TYPE_SELL_LIMIT
| ORDER_TYPE_BUY_STOP | ORDER_TYPE_SELL_STOP
| ORDER_TYPE_BUY_STOP_LIMIT | ORDER_TYPE_SELL_STOP_LIMIT.

Inductive ENUM_ORDER_STATE :=
| ORDER_STATE_STARTED | ORDER_STATE_PLACED | ORDER_STATE_CANCELED
| ORDER_STATE_PARTIAL | ORDER_STATE_FILLED | ORDER_STATE_REJECTED
| ORDER_STATE_EXPIRED | ORDER_STATE_REQUEST_ADD | ORDER_STATE_REQUEST_MODIFY
| ORDER_STATE_REQUEST_CANCEL.

Inductive ENUM_ORDER_TYPE_FILLING :=
| ORDER_FILLING_FOK | ORDER_FILLING_IOC | ORDER_FILLING_RETURN.

Inductive ENUM_ORDER_TYPE_TIME :=
| ORDER_TIME_GTC | ORDER_TIME_DAY | ORDER_TIME_SPECIFIED
| ORDER_TIME_SPECIFIED_DAY.

Inductive ENUM_DEAL_TYPE :=
| DEAL_TYPE_BUY | DEAL_TYPE_SELL | DEAL_TYPE_BALANCE | DEAL_TYPE_CREDIT
| DEAL_TYPE_CHARGE | DEAL_TYPE_CORRECTION | DEAL_TYPE_BONUS
| DEAL_TYPE_COMMISSION | DEAL_TYPE_COMMISSION_DAILY
| DEAL_TYPE_COMMISSION_MONTHLY | DEAL_TYPE_COMMISSION_AGENT_DAILY
| DEAL_TYPE_COMMISSION_AGENT_MONTHLY | DEAL_TYPE_INTEREST
| DEAL_TYPE_BUY_CANCELED | DEAL_TYPE_SELL_CANCELED | DEAL_DIVIDEND
| DEAL_DIVIDEND_FRANKED | DEAL_TAX.

Inductive ENUM_DEAL_ENTRY :=
| DEAL_ENTRY_IN | DEAL_ENTRY_OUT | DEAL_ENTRY_INOUT | DEAL_ENTRY_OUT_BY.

Inductive ENUM_TRADE_REQUEST_ACTIONS :=
| TRADE_ACTION_DEAL | TRADE_ACTION_PENDING | TRADE_ACTION_SLTP
| TRADE_ACTION_MODIFY | TRADE_ACTION_REMOVE | TRADE_ACTION_CLOSE_BY.

Inductive ENUM_TRADE_RETCODE :=
| TRADE_RETCODE_DONE | TRADE_RETCODE_PLACED | TRADE_RETCODE_DONE_PARTIAL
| TRADE_RETCODE_ERROR | TRADE_RETCODE_TIMEOUT | TRADE_RETCODE_INVALID
| TRADE_RETCODE_INVALID_VOLUME | TRADE_RETCODE_INVALID_PRICE
| TRADE_RETCODE_INVALID_STOPS | TRADE_RETCODE_TRADE_DISABLED
| TRADE_RETCODE_MARKET_CLOSED | TRADE_RETCODE_NO_MONEY
| TRADE_RETCODE_PRICE_CHANGED | TRADE_RETCODE_PRICE_OFF
| TRADE_RETCODE_INVALID_EXPIRATION | TRADE_RETCODE_ORDER_CHANGED
| TRADE_RETCODE_TOO_MANY_REQUESTS | TRADE_RETCODE_NO_CHANGES
| TRADE_RETCODE_REJECT | TRADE_RETCODE_CANCEL | TRADE_RETCODE_FROZEN
| TRADE_RETCODE_INVALID_FILL | TRADE_RETCODE_CONNECTION
| TRADE_RETCODE_ONLY_REAL | TRADE_RETCODE_LIMIT_ORDERS
| TRADE_RETCODE_LIMIT_VOLUME | TRADE_RETCODE_INVALID_ORDER
| TRADE_RETCODE_POSITION_CLOSED.

(** The numeric value of a return code. *)
Definition retcode_value (r : ENUM_TRADE_RETCODE) : Z :=
  match r with
  | TRADE_RETCODE_PLACED => 10008 | TRADE_RETCODE_DONE => 10009
  | TRADE_RETCODE_DONE_PARTIAL => 10010 | TRADE_RETCODE_ERROR => 10011
  | TRADE_RETCODE_TIMEOUT => 10012 | TRADE_RETCODE_INVALID => 10013
  | TRADE_RETCODE_INVALID_VOLUME => 10014 | TRADE_RETCODE_INVALID_PRICE => 10015
  | TRADE_RETCODE_INVALID_STOPS => 10016 | TRADE_RETCODE_TRADE_DISABLED => 10017
  | TRADE_RETCODE_MARKET_CLOSED => 10018 | TRADE_RETCODE_NO_MONEY => 10019
  | TRADE_RETCODE_PRICE_CHANGED => 10020 | TRADE_RETCODE_PRICE_OFF => 10021
  | TRADE_RETCODE_INVALID_EXPIRATION => 10022
  | TRADE_RETCODE_ORDER_CHANGED => 10023
  | TRADE_RETCODE_TOO_MANY_REQUESTS => 10024 | TRADE_RETCODE_NO_CHANGES => 10025
  | TRADE_RETCODE_REJECT => 10026 | TRADE_RETCODE_CANCEL => 10027
  | TRADE_RETCODE_FROZEN => 10029 | TRADE_RETCODE_INVALID_FILL => 10030
  | TRADE_RETCODE_CONNECTION => 10031 | TRADE_RETCODE_ONLY_REAL => 10032
  | TRADE_RETCODE_LIMIT_ORDERS => 10033 | TRADE_RETCODE_LIMIT_VOLUME => 10034
  | TRADE_RETCODE_INVALID_ORDER => 10035
  | TRADE_RETCODE_POSITION_CLOSED => 10036
  end.

#[export] Instance ENUM_POSITION_TYPE_eq_dec : EqDecision ENUM_POSITION_TYPE.
Proof. solve_decision. Defined.
#[export] Instance ENUM_ORDER_TYPE_eq_dec : EqDecision ENUM_ORDER_TYPE.
Proof. solve_decision. Defined.
#[export] Instance ENUM_TRADE_REQUEST_ACTIONS_eq_dec :
  EqDecision ENUM_TRADE_REQUEST_ACTIONS.
Proof. solve_decision. Defined.

End Enums.

Export Enums.

(** ** trading/symbol_info.hpp *)

Module SymbolInfo.

(** [class SymbolInfo]: the data members the ledger and the cost models
    read or write (the session statistics, margin rates and swap settings,
    which no embedded path touches, are left out). *)
Record t := mk {
  name_ : string;
  symbol_id_ : Z  (* uint32_t *);
  bid_ : Z;
  bid_high_ : Z;
  bid_low_ : Z;
  ask_ : Z;
  ask_high_ : Z;
  ask_low_ : Z;
  time_ : Z;
  digits_ : Z  (* int32_t *);
  point_ : float;
  spread_ : Z  (* int32_t *);
  contract_size_ : float;
  volume_min_ : float;
  volume_max_ : float;
  volume_step_ : float;
  stops_level_ : Z  (* int32_t *);
  freeze_level_ : Z  (* int32_t *);
  currency_base_ : string;
  currency_profit_ : string;
  currency_margin_ : string
}.

(** Assignment to a single data member. *)
Definition with_name_ (v : string) (r : t) : t :=
  mk v (symbol_id_ r) (bid_ r) (bid_high_ r) (bid_low_ r) (ask_ r)
    (ask_high_ r) (ask_low_ r) (time_ r) (digits_ r) (point_ r) (spread_ r)
    (contract_size_ r) (volume_min_ r) (volume_max_ r) (volume_step_ r)
    (stops_level_ r) (freeze_level_ r) (currency_base_ r)
    (currency_profit_ r) (currency_margin_ r).
Definition with_symbol_id_ (v : Z) (r : t) : t :=
  mk (name_ r) v (bid_ r) (bid_high_ r) (bid_low_ r) (ask_ r) (ask_high_ r)
    (ask_low_ r) (time_ r) (digits_ r) (point_ r) (spread_ r)
    (contract_size_ r) (volume_min_ r) (volume_max_ r) (volume_step_ r)
    (stops_level_ r) (freeze_level_ r) (currency_base_ r)
    (currency_profit_ r) (currency_margin_ r).
Definition with_bid_ (v : Z) (r : t) : t :=
  mk (name_ r) (symbol_id_ r) v (bid_high_ r) (bid_low_ r) (ask_ r)
    (ask_high_ r) (ask_low_ r) (time_ r) (digits_ r) (point_ r) (spread_ r)
    (contract_size_ r) (volume_min_ r) (volume_max_ r) (volume_step_ r)
    (stops_level_ r) (freeze_level_ r) (currency_base_ r)
    (currency_profit_ r) (currency_margin_ r).
Definition with_bid_high_ (v : Z) (r : t) : t :=
  mk (name_ r) (symbol_id_ r) (bid_ r) v (bid_low_ r) (ask_ r) (ask_high_ r)
    (ask_low_ r) (time_ r) (digits_ r) (point_ r) (spread_ r)
    (contract_size_ r) (volume_min_ r) (volume_max_ r) (volume_step_ r)
    (stops_level_ r) (freeze_level_ r) (currency_base_ r)
    (currency_profit_ r) (currency_margin_ r).
Definition with_bid_low_ (v : Z) (r : t) : t :=
  mk (name_ r) (symbol_id_ r) (bid_ r) (bid_high_ r) v (ask_ r) (ask_high_ r)
    (ask_low_ r) (time_ r) (digits_ r) (point_ r) (spread_ r)
    (contract_size_ r) (volume_min_ r) (volume_max_ r) (volume_step_ r)
    (stops_level_ r) (freeze_level_ r) (currency_base_ r)
    (currency_profit_ r) (currency_margin_ r).
Definition with_ask_ (v : Z) (r : t) : t :=
  mk (name_ r) (symbol_id_ r) (bid_ r) (bid_high_ r) (bid_low_ r) v
    (ask_high_ r) (ask_low_ r) (time_ r) (digits_ r) (point_ r) (spread_ r)
    (contract_size_ r) (volume_min_ r) (volume_max_ r) (volume_step_ r)
    (stops_level_ r) (freeze_level_ r) (currency_base_ r)
    (currency_profit_ r) (currency_margin_ r).
Definition with_ask_high_ (v : Z) (r : t) : t :=
  mk (name_ r) (symbol_id_ r) (bid_ r) (bid_high_ r) (bid_low_ r) (ask_ r) v
    (ask_low_ r) (time_ r) (digits_ r) (point_ r) (spread_ r)
    (contract_size_ r) (volume_min_ r) (volume_max_ r) (volume_step_ r)
    (stops_level_ r) (freeze_level_ r) (currency_base_ r)
    (currency_profit_ r) (currency_margin_ r).
Definition with_ask_low_ (v : Z) (r : t) : t :=
  mk (name_ r) (symbol_id_ r) (bid_ r) (bid_high_ r) (bid_low_ r) (ask_ r)
    (ask_high_ r) v (time_ r) (digits_ r) (point_ r) (spread_ r)
    (contract_size_ r) (volume_min_ r) (volume_max_ r) (volume_step_ r)
    (stops_level_ r) (freeze_level_ r) (currency_base_ r)
    (currency_profit_ r) (currency_margin_ r).
Definition with_time_ (v : Z) (r : t) : t :=
  mk (name_ r) (symbol_id_ r) (bid_ r) (bid_high_ r) (bid_low_ r) (ask_ r)
    (ask_high_ r) (ask_low_ r) v (digits_ r) (point_ r) (spread_ r)
    (contract_size_ r) (volume_min_ r) (volume_max_ r) (volume_step_ r)
    (stops_level_ r) (freeze_level_ r) (currency_base_ r)
    (currency_profit_ r) (currency_margin_ r).
Definition with_digits_ (v : Z) (r : t) : t :=
  mk (name_ r) (symbol_id_ r) (bid_ r) (bid_high_ r) (bid_low_ r) (ask_ r)
    (ask_high_ r) (ask_low_ r) (time_ r) v (point_ r) (spread_ r)
    (contract_size_ r) (volume_min_ r) (volume_max_ r) (volume_step_ r)
    (stops_level_ r) (freeze_level_ r) (currency_base_ r)
    (currency_profit_ r) (currency_margin_ r).
Definition with_point_ (v : float) (r : t) : t :=
  mk (name_ r) (symbol_id_ r) (bid_ r) (bid_high_ r) (bid_low_ r) (ask_ r)
    (ask_high_ r) (ask_low_ r) (time_ r) (digits_ r) v (spread_ r)
    (contract_size_ r) (volume_min_ r) (volume_max_ r) (volume_step_ r)
    (stops_level_ r) (freeze_level_ r) (currency_base_ r)
    (currency_profit_ r) (currency_margin_ r).
Definition with_spread_ (v : Z) (r : t) : t :=
  mk (name_ r) (symbol_id_ r) (bid_ r) (bid_high_ r) (bid_low_ r) (ask_ r)
    (ask_high_ r) (ask_low_ r) (time_ r) (digits_ r) (point_ r) v
    (contract_size_ r) (volume_min_ r) (volume_max_ r) (volume_step_ r)
    (stops_level_ r) (freeze_level_ r) (currency_base_ r)
    (currency_profit_ r) (currency_margin_ r).
Definition with_contract_size_ (v : float) (r : t) : t :=
  mk (name_ r) (symbol_id_ r) (bid_ r) (bid_high_ r) (bid_low_ r) (ask_ r)
    (ask_high_ r) (ask_low_ r) (time_ r) (digits_ r) (point_ r) (spread_ r) v
    (volume_min_ r) (volume_max_ r) (volume_step_ r) (stops_level_ r)
    (freeze_level_ r) (currency_base_ r) (currency_profit_ r)
    (currency_margin_ r).
Definition with_volume_min_ (v : float) (r : t) : t :=
  mk (name_ r) (symbol_id_ r) (bid_ r) (bid_high_ r) (bid_low_ r) (ask_ r)
    (ask_high_ r) (ask_low_ r) (time_ r) (digits_ r) (point_ r) (spread_ r)
    (contract_size_ r) v (volume_max_ r) (volume_step_ r) (stops_level_ r)
    (freeze_level_ r) (currency_base_ r) (currency_profit_ r)
    (currency_margin_ r).
Definition with_volume_max_ (v : float) (r : t) : t :=
  mk (name_ r) (symbol_id_ r) (bid_ r) (bid_high_ r) (bid_low_ r) (ask_ r)
    (ask_high_ r) (ask_low_ r) (time_ r) (digits_ r) (point_ r) (spread_ r)
    (contract_size_ r) (volume_min_ r) v (volume_step_ r) (stops_level_ r)
    (freeze_level_ r) (currency_base_ r) (currency_profit_ r)
    (currency_margin_ r).
Definition with_volume_step_ (v : float) (r : t) : t :=
  mk (name_ r) (symbol_id_ r) (bid_ r) (bid_high_ r) (bid_low_ r) (ask_ r)
    (ask_high_ r) (ask_low_ r) (time_ r) (digits_ r) (point_ r) (spread_ r)
    (contract_size_ r) (volume_min_ r) (volume_max_ r) v (stops_level_ r)
    (freeze_level_ r) (currency_base_ r) (currency_profit_ r)
    (currency_margin_ r).
Definition with_stops_level_ (v : Z) (r : t) : t :=
  mk (name_ r) (symbol_id_ r) (bid_ r) (bid_high_ r) (bid_low_ r) (ask_ r)
    (ask_high_ r) (ask_low_ r) (time_ r) (digits_ r) (point_ r) (spread_ r)
    (contract_size_ r) (volume_min_ r) (volume_max_ r) (volume_step_ r) v
    (freeze_level_ r) (currency_base_ r) (currency_profit_ r)
    (currency_margin_ r).
Definition with_currency_profit_ (v : string) (r : t) : t :=
  mk (name_ r) (symbol_id_ r) (bid_ r) (bid_high_ r) (bid_low_ r) (ask_ r)
    (ask_high_ r) (ask_low_ r) (time_ r) (digits_ r) (point_ r) (spread_ r)
    (contract_size_ r) (volume_min_ r) (volume_max_ r) (volume_step_ r)
    (stops_level_ r) (freeze_level_ r) (currency_base_ r) v
    (currency_margin_ r).

(** [SymbolInfo()]. *)
Definition default : t :=
  mk "" 0 0 0 0 0 0 0 0 0 0%float 0 0%float 0%float 0%float 0%float 0 0 "" "" "".

Definition Name (s : t) : string := name_ s.
Definition SymbolId (s : t) : Z := symbol_id_ s.
Definition Digits (s : t) : Z := digits_ s.
Definition Point (s : t) : float := point_ s.
Definition ContractSize (s : t) : float := contract_size_ s.
Definition LotsMin (s : t) : float := volume_min_ s.
Definition LotsMax (s : t) : float := volume_max_ s.
Definition StopsLevel (s : t) : Z := stops_level_ s.
Definition CurrencyProfit (s : t) : string := currency_profit_ s.

(** [Bid()] and [Ask()]. *)
Definition Bid (s : t) : float :=
  (Double.of_int (bid_ s) / Double.pow10 (digits_ s))%float.
Definition Ask (s : t) : float :=
  (Double.of_int (ask_ s) / Double.pow10 (digits_ s))%float.

(** [UpdatePrice(bid, ask, timestamp)]. *)
Definition UpdatePrice (bid ask : float) (timestamp : Z) (s : t) : t :=
  let multiplier := Double.pow10 (digits_ s) in
  let s := with_bid_ (Double.to_int64 (bid * multiplier + 0.5)%float) s in
  let s := with_ask_ (Double.to_int64 (ask * multiplier + 0.5)%float) s in
  let s := with_spread_
             (Double.to_int32
                (Double.of_int (wrap64 (ask_ s - bid_ s)) / point_ s)%float) s in
  let s := with_time_ timestamp s in
  let s := if (bid_high_ s <? bid_ s) || (bid_high_ s =? 0)
           then with_bid_high_ (bid_ s) s else s in
  let s := if (bid_ s <? bid_low_ s) || (bid_low_ s =? 0)
           then with_bid_low_ (bid_ s) s else s in
  let s := if (ask_high_ s <? ask_ s) || (ask_high_ s =? 0)
           then with_ask_high_ (ask_ s) s else s in
  let s := if (ask_ s <? ask_low_ s) || (ask_low_ s =? 0)
           then with_ask_low_ (ask_ s) s else s in
  s.

End SymbolInfo.

(** ** trading/position_info.hpp *)

Module PositionInfo.

(** [class PositionInfo] (without the [StoreState] cache and
    [trailing_mode_], which the ledger never touches). *)
Record t := mk {
  ticket_ : Z  (* uint64_t *);
  identifier_ : Z  (* uint64_t *);
  symbol_ : string;
  magic_ : Z  (* uint32_t *);
  type_ : ENUM_POSITION_TYPE;
  volume_ : float;
  price_open_ : Z;
  price_current_ : Z;
  stop_loss_ : Z;
  take_profit_ : Z;
  profit_ : Z;
  commission_ : Z;
  swap_ : Z;
  time_ : Z;
  time_msc_ : Z;
  time_update_ : Z;
  time_update_msc_ : Z;
  comment_ : string;
  trailing_distance_ : Z  (* int32_t *);
  trailing_step_ : Z  (* int32_t *);
  trailing_trigger_ : Z;
  digits_ : Z  (* int32_t *);
  point_ : float;
  contract_size_ : float
}.

(** Assignment to a single data member. *)
Definition with_ticket_ (v : Z) (r : t) : t :=
  mk v (identifier_ r) (symbol_ r) (magic_ r) (type_ r) (volume_ r)
    (price_open_ r) (price_current_ r) (stop_loss_ r) (take_profit_ r)
    (profit_ r) (commission_ r) (swap_ r) (time_ r) (time_msc_ r)
    (time_update_ r) (time_update_msc_ r) (comment_ r) (trailing_distance_ r)
    (trailing_step_ r) (trailing_trigger_ r) (digits_ r) (point_ r)
    (contract_size_ r).
Definition with_identifier_ (v : Z) (r : t) : t :=
  mk (ticket_ r) v (symbol_ r) (magic_ r) (type_ r) (volume_ r)
    (price_open_ r) (price_current_ r) (stop_loss_ r) (take_profit_ r)
    (profit_ r) (commission_ r) (swap_ r) (time_ r) (time_msc_ r)
    (time_update_ r) (time_update_msc_ r) (comment_ r) (trailing_distance_ r)
    (trailing_step_ r) (trailing_trigger_ r) (digits_ r) (point_ r)
    (contract_size_ r).
Definition with_symbol_ (v : string) (r : t) : t :=
  mk (ticket_ r) (identifier_ r) v (magic_ r) (type_ r) (volume_ r)
    (price_open_ r) (price_current_ r) (stop_loss_ r) (take_profit_ r)
    (profit_ r) (commission_ r) (swap_ r) (time_ r) (time_msc_ r)
    (time_update_ r) (time_update_msc_ r) (comment_ r) (trailing_distance_ r)
    (trailing_step_ r) (trailing_trigger_ r) (digits_ r) (point_ r)
    (contract_size_ r).
Definition with_magic_ (v : Z) (r : t) : t :=
  mk (ticket_ r) (identifier_ r) (symbol_ r) v (type_ r) (volume_ r)
    (price_open_ r) (price_current_ r) (stop_loss_ r) (take_profit_ r)
    (profit_ r) (commission_ r) (swap_ r) (time_ r) (time_msc_ r)
    (time_update_ r) (time_update_msc_ r) (comment_ r) (trailing_distance_ r)
    (trailing_step_ r) (trailing_trigger_ r) (digits_ r) (point_ r)
    (contract_size_ r).
Definition with_type_ (v : ENUM_POSITION_TYPE) (r : t) : t :=
  mk (ticket_ r) (identifier_ r) (symbol_ r) (magic_ r) v (volume_ r)
    (price_open_ r) (price_current_ r) (stop_loss_ r) (take_profit_ r)
    (profit_ r) (commission_ r) (swap_ r) (time_ r) (time_msc_ r)
    (time_update_ r) (time_update_msc_ r) (comment_ r) (trailing_distance_ r)
    (trailing_step_ r) (trailing_trigger_ r) (digits_ r) (point_ r)
    (contract_size_ r).
Definition with_volume_ (v : float) (r : t) : t :=
  mk (ticket_ r) (identifier_ r) (symbol_ r) (magic_ r) (type_ r) v
    (price_open_ r) (price_current_ r) (stop_loss_ r) (take_profit_ r)
    (profit_ r) (commission_ r) (swap_ r) (time_ r) (time_msc_ r)
    (time_update_ r) (time_update_msc_ r) (comment_ r) (trailing_distance_ r)
    (trailing_step_ r) (trailing_trigger_ r) (digits_ r) (point_ r)
    (contract_size_ r).
Definition with_price_open_ (v : Z) (r : t) : t :=
  mk (ticket_ r) (identifier_ r) (symbol_ r) (magic_ r) (type_ r) (volume_ r)
    v (price_current_ r) (stop_loss_ r) (take_profit_ r) (profit_ r)
    (commission_ r) (swap_ r) (time_ r) (time_msc_ r) (time_update_ r)
    (time_update_msc_ r) (comment_ r) (trailing_distance_ r)
    (trailing_step_ r) (trailing_trigger_ r) (digits_ r) (point_ r)
    (contract_size_ r).
Definition with_price_current_ (v : Z) (r : t) : t :=
  mk (ticket_ r) (identifier_ r) (symbol_ r) (magic_ r) (type_ r) (volume_ r)
    (price_open_ r) v (stop_loss_ r) (take_profit_ r) (profit_ r)
    (commission_ r) (swap_ r) (time_ r) (time_msc_ r) (time_update_ r)
    (time_update_msc_ r) (comment_ r) (trailing_distance_ r)
    (trailing_step_ r) (trailing_trigger_ r) (digits_ r) (point_ r)
    (contract_size_ r).
Definition with_stop_loss_ (v : Z) (r : t) : t :=
  mk (ticket_ r) (identifier_ r) (symbol_ r) (magic_ r) (type_ r) (volume_ r)
    (price_open_ r) (price_current_ r) v (take_profit_ r) (profit_ r)
    (commission_ r) (swap_ r) (time_ r) (time_msc_ r) (time_update_ r)
    (time_update_msc_ r) (comment_ r) (trailing_distance_ r)
    (trailing_step_ r) (trailing_trigger_ r) (digits_ r) (point_ r)
    (contract_size_ r).
Definition with_take_profit_ (v : Z) (r : t) : t :=
  mk (ticket_ r) (identifier_ r) (symbol_ r) (magic_ r) (type_ r) (volume_ r)
    (price_open_ r) (price_current_ r) (stop_loss_ r) v (profit_ r)
    (commission_ r) (swap_ r) (time_ r) (time_msc_ r) (time_update_ r)
    (time_update_msc_ r) (comment_ r) (trailing_distance_ r)
    (trailing_step_ r) (trailing_trigger_ r) (digits_ r) (point_ r)
    (contract_size_ r).
Definition with_profit_ (v : Z) (r : t) : t :=
  mk (ticket_ r) (identifier_ r) (symbol_ r) (magic_ r) (type_ r) (volume_ r)
    (price_open_ r) (price_current_ r) (stop_loss_ r) (take_profit_ r) v
    (commission_ r) (swap_ r) (time_ r) (time_msc_ r) (time_update_ r)
    (time_update_msc_ r) (comment_ r) (trailing_distance_ r)
    (trailing_step_ r) (trailing_trigger_ r) (digits_ r) (point_ r)
    (contract_size_ r).
Definition with_commission_ (v : Z) (r : t) : t :=
  mk (ticket_ r) (identifier_ r) (symbol_ r) (magic_ r) (type_ r) (volume_ r)
    (price_open_ r) (price_current_ r) (stop_loss_ r) (take_profit_ r)
    (profit_ r) v (swap_ r) (time_ r) (time_msc_ r) (time_update_ r)
    (time_update_msc_ r) (comment_ r) (trailing_distance_ r)
    (trailing_step_ r) (trailing_trigger_ r) (digits_ r) (point_ r)
    (contract_size_ r).
Definition with_swap_ (v : Z) (r : t) : t :=
  mk (ticket_ r) (identifier_ r) (symbol_ r) (magic_ r) (type_ r) (volume_ r)
    (price_open_ r) (price_current_ r) (stop_loss_ r) (take_profit_ r)
    (profit_ r) (commission_ r) v (time_ r) (time_msc_ r) (time_update_ r)
    (time_update_msc_ r) (comment_ r) (trailing_distance_ r)
    (trailing_step_ r) (trailing_trigger_ r) (digits_ r) (point_ r)
    (contract_size_ r).
Definition with_time_ (v : Z) (r : t) : t :=
  mk (ticket_ r) (identifier_ r) (symbol_ r) (magic_ r) (type_ r) (volume_ r)
    (price_open_ r) (price_current_ r) (stop_loss_ r) (take_profit_ r)
    (profit_ r) (commission_ r) (swap_ r) v (time_msc_ r) (time_update_ r)
    (time_update_msc_ r) (comment_ r) (trailing_distance_ r)
    (trailing_step_ r) (trailing_trigger_ r) (digits_ r) (point_ r)
    (contract_size_ r).
Definition with_time_msc_ (v : Z) (r : t) : t :=
  mk (ticket_ r) (identifier_ r) (symbol_ r) (magic_ r) (type_ r) (volume_ r)
    (price_open_ r) (price_current_ r) (stop_loss_ r) (take_profit_ r)
    (profit_ r) (commission_ r) (swap_ r) (time_ r) v (time_update_ r)
    (time_update_msc_ r) (comment_ r) (trailing_distance_ r)
    (trailing_step_ r) (trailing_trigger_ r) (digits_ r) (point_ r)
    (contract_size_ r).
Definition with_time_update_ (v : Z) (r : t) : t :=
  mk (ticket_ r) (identifier_ r) (symbol_ r) (magic_ r) (type_ r) (volume_ r)
    (price_open_ r) (price_current_ r) (stop_loss_ r) (take_profit_ r)
    (profit_ r) (commission_ r) (swap_ r) (time_ r) (time_msc_ r) v
    (time_update_msc_ r) (comment_ r) (trailing_distance_ r)
    (trailing_step_ r) (trailing_trigger_ r) (digits_ r) (point_ r)
    (contract_size_ r).
Definition with_time_update_msc_ (v : Z) (r : t) : t :=
  mk (ticket_ r) (identifier_ r) (symbol_ r) (magic_ r) (type_ r) (volume_ r)
    (price_open_ r) (price_current_ r) (stop_loss_ r) (take_profit_ r)
    (profit_ r) (commission_ r) (swap_ r) (time_ r) (time_msc_ r)
    (time_update_ r) v (comment_ r) (trailing_distance_ r) (trailing_step_ r)
    (trailing_trigger_ r) (digits_ r) (point_ r) (contract_size_ r).
Definition with_comment_ (v : string) (r : t) : t :=
  mk (ticket_ r) (identifier_ r) (symbol_ r) (magic_ r) (type_ r) (volume_ r)
    (price_open_ r) (price_current_ r) (stop_loss_ r) (take_profit_ r)
    (profit_ r) (commission_ r) (swap_ r) (time_ r) (time_msc_ r)
    (time_update_ r) (time_update_msc_ r) v (trailing_distance_ r)
    (trailing_step_ r) (trailing_trigger_ r) (digits_ r) (point_ r)
    (contract_size_ r).
Definition with_trailing_distance_ (v : Z) (r : t) : t :=
  mk (ticket_ r) (identifier_ r) (symbol_ r) (magic_ r) (type_ r) (volume_ r)
    (price_open_ r) (price_current_ r) (stop_loss_ r) (take_profit_ r)
    (profit_ r) (commission_ r) (swap_ r) (time_ r) (time_msc_ r)
    (time_update_ r) (time_update_msc_ r) (comment_ r) v (trailing_step_ r)
    (trailing_trigger_ r) (digits_ r) (point_ r) (contract_size_ r).
Definition with_trailing_step_ (v : Z) (r : t) : t :=
  mk (ticket_ r) (identifier_ r) (symbol_ r) (magic_ r) (type_ r) (volume_ r)
    (price_open_ r) (price_current_ r) (stop_loss_ r) (take_profit_ r)
    (profit_ r) (commission_ r) (swap_ r) (time_ r) (time_msc_ r)
    (time_update_ r) (time_update_msc_ r) (comment_ r) (trailing_distance_ r)
    v (trailing_trigger_ r) (digits_ r) (point_ r) (contract_size_ r).
Definition with_trailing_trigger_ (v : Z) (r : t) : t :=
  mk (ticket_ r) (identifier_ r) (symbol_ r) (magic_ r) (type_ r) (volume_ r)
    (price_open_ r) (price_current_ r) (stop_loss_ r) (take_profit_ r)
    (profit_ r) (commission_ r) (swap_ r) (time_ r) (time_msc_ r)
    (time_update_ r) (time_update_msc_ r) (comment_ r) (trailing_distance_ r)
    (trailing_step_ r) v (digits_ r) (point_ r) (contract_size_ r).
Definition with_digits_ (v : Z) (r : t) : t :=
  mk (ticket_ r) (identifier_ r) (symbol_ r) (magic_ r) (type_ r) (volume_ r)
    (price_open_ r) (price_current_ r) (stop_loss_ r) (take_profit_ r)
    (profit_ r) (commission_ r) (swap_ r) (time_ r) (time_msc_ r)
    (time_update_ r) (time_update_msc_ r) (comment_ r) (trailing_distance_ r)
    (trailing_step_ r) (trailing_trigger_ r) v (point_ r) (contract_size_ r).
Definition with_point_ (v : float) (r : t) : t :=
  mk (ticket_ r) (identifier_ r) (symbol_ r) (magic_ r) (type_ r) (volume_ r)
    (price_open_ r) (price_current_ r) (stop_loss_ r) (take_profit_ r)
    (profit_ r) (commission_ r) (swap_ r) (time_ r) (time_msc_ r)
    (time_update_ r) (time_update_msc_ r) (comment_ r) (trailing_distance_ r)
    (trailing_step_ r) (trailing_trigger_ r) (digits_ r) v (contract_size_ r).
Definition with_contract_size_ (v : float) (r : t) : t :=
  mk (ticket_ r) (identifier_ r) (symbol_ r) (magic_ r) (type_ r) (volume_ r)
    (price_open_ r) (price_current_ r) (stop_loss_ r) (take_profit_ r)
    (profit_ r) (commission_ r) (swap_ r) (time_ r) (time_msc_ r)
    (time_update_ r) (time_update_msc_ r) (comment_ r) (trailing_distance_ r)
    (trailing_step_ r) (trailing_trigger_ r) (digits_ r) (point_ r) v.

(** [PositionInfo()]. *)
Definition default : t :=
  mk 0 0 "" 0 POSITION_TYPE_BUY 0%float 0 0 0 0 0 0 0 0 0 0 0 "" 0 0 0
     5 0x1.4f8b588e368f1p-17%float 100000%float.

Definition Ticket (p : t) : Z := ticket_ p.
Definition Symbol (p : t) : string := symbol_ p.
Definition Magic (p : t) : Z := magic_ p.
Definition PositionType (p : t) : ENUM_POSITION_TYPE := type_ p.
Definition Volume (p : t) : float := volume_ p.
Definition Time (p : t) : Z := time_ p.
Definition Comment (p : t) : string := comment_ p.

Definition PriceOpen (p : t) : float :=
  (Double.of_int (price_open_ p) / Double.pow10 (digits_ p))%float.
Definition StopLoss (p : t) : float :=
  (Double.of_int (stop_loss_ p) / Double.pow10 (digits_ p))%float.
Definition TakeProfit (p : t) : float :=
  (Double.of_int (take_profit_ p) / Double.pow10 (digits_ p))%float.
Definition PriceCurrent (p : t) : float :=
  (Double.of_int (price_current_ p) / Double.pow10 (digits_ p))%float.
Definition Commission (p : t) : float :=
  (Double.of_int (commission_ p) / 1000000)%float.
Definition Swap (p : t) : float :=
  (Double.of_int (swap_ p) / 1000000)%float.
Definition Profit (p : t) : float :=
  (Double.of_int (profit_ p) / 1000000)%float.

(** The setters, in the order of the header. *)
Definition SetTicket (ticket : Z) (p : t) : t :=
  with_identifier_ ticket (with_ticket_ ticket p).
Definition SetIdentifier (id : Z) (p : t) : t := with_identifier_ id p.
Definition SetSymbol (s : string) (p : t) : t := with_symbol_ s p.
Definition SetMagic (m : Z) (p : t) : t := with_magic_ m p.
Definition SetType (ty : ENUM_POSITION_TYPE) (p : t) : t := with_type_ ty p.
Definition SetVolume (v : float) (p : t) : t := with_volume_ v p.
Definition SetCommission (c : float) (p : t) : t :=
  with_commission_ (Double.to_int64 (c * 1000000)%float) p.
Definition SetSwap (sw : float) (p : t) : t :=
  with_swap_ (Double.to_int64 (sw * 1000000)%float) p.
Definition SetComment (c : string) (p : t) : t := with_comment_ c p.
Definition SetDigits (d : Z) (p : t) : t := with_digits_ d p.
Definition SetPoint (pt : float) (p : t) : t := with_point_ pt p.
Definition SetContractSize (sz : float) (p : t) : t := with_contract_size_ sz p.

(** [SetTime(time_sec, time_msc = 0)] and [SetTimeUpdate]. *)
Definition SetTime (time_sec time_msc : Z) (p : t) : t :=
  with_time_msc_ (if 0 <? time_msc then time_msc else wrap64 (time_sec * 1000))
    (with_time_ time_sec p).
Definition SetTimeUpdate (time_sec time_msc : Z) (p : t) : t :=
  with_time_update_msc_
    (if 0 <? time_msc then time_msc else wrap64 (time_sec * 1000))
    (with_time_update_ time_sec p).

(** [price * std::pow(10.0, digits_) + 0.5], truncated. *)
Definition to_fixed (p : t) (price : float) : Z :=
  Double.to_int64 (price * Double.pow10 (digits_ p) + 0.5)%float.

Definition SetPriceOpen (price : float) (p : t) : t :=
  with_price_open_ (to_fixed p price) p.
Definition SetPriceCurrent (price : float) (p : t) : t :=
  with_price_current_ (to_fixed p price) p.
Definition SetStopLoss (sl : float) (p : t) : t :=
  let p := with_stop_loss_ (to_fixed p sl) p in
  SetTimeUpdate (if 0 <? time_update_ p then time_update_ p else time_ p) 0 p.
Definition SetTakeProfit (tp : float) (p : t) : t :=
  let p := with_take_profit_ (to_fixed p tp) p in
  SetTimeUpdate (if 0 <? time_update_ p then time_update_ p else time_ p) 0 p.

Definition SetTrailingDistance (d : Z) (p : t) : t := with_trailing_distance_ d p.
Definition SetTrailingStep (st : Z) (p : t) : t := with_trailing_step_ st p.
Definition SetTrailingTrigger (trigger : float) (p : t) : t :=
  with_trailing_trigger_ (to_fixed p trigger) p.
Definition GetTrailingDistance (p : t) : Z := trailing_distance_ p.
Definition GetTrailingStep (p : t) : Z := trailing_step_ p.
Definition GetTrailingTrigger (p : t) : Z := trailing_trigger_ p.

(** [RecalculateProfit]. *)
Definition RecalculateProfit (p : t) : t :=
  let price_diff :=
    match type_ p with
    | POSITION_TYPE_BUY => wrap64 (price_current_ p - price_open_ p)
    | POSITION_TYPE_SELL => wrap64 (price_open_ p - price_current_ p)
    end in
  let price_diff_double :=
    (Double.of_int price_diff / Double.pow10 (digits_ p))%float in
  with_profit_
    (Double.to_int64
       (price_diff_double * volume_ p * contract_size_ p * 1000000)%float) p.

(** [UpdatePrice]. *)
Definition UpdatePrice (new_price : float) (p : t) : t :=
  let p := SetPriceCurrent new_price p in
  let p := RecalculateProfit p in
  SetTimeUpdate (wrap64 (time_update_ p + 1)) 0 p.

End PositionInfo.

(** ** trading/order_info.hpp *)

Module OrderInfo.

(** [class OrderInfo] (without the [StoreState] cache). *)
Record t := mk {
  ticket_ : Z  (* uint64_t *);
  symbol_ : string;
  magic_ : Z  (* uint32_t *);
  position_id_ : Z  (* uint64_t *);
  order_type_ : ENUM_ORDER_TYPE;
  state_ : ENUM_ORDER_STATE;
  volume_initial_ : float;
  volume_current_ : float;
  price_open_ : Z;
  price_current_ : Z;
  price_stoplimit_ : Z;
  stop_loss_ : Z;
  take_profit_ : Z;
  time_setup_ : Z;
  time_setup_msc_ : Z;
  time_expiration_ : Z;
  time_done_ : Z;
  time_done_msc_ : Z;
  type_filling_ : ENUM_ORDER_TYPE_FILLING;
  type_time_ : ENUM_ORDER_TYPE_TIME;
  comment_ : string;
  digits_ : Z  (* int32_t *)
}.

(** Assignment to a single data member. *)
Definition with_ticket_ (v : Z) (r : t) : t :=
  mk v (symbol_ r) (magic_ r) (position_id_ r) (order_type_ r) (state_ r)
    (volume_initial_ r) (volume_current_ r) (price_open_ r)
    (price_current_ r) (price_stoplimit_ r) (stop_loss_ r) (take_profit_ r)
    (time_setup_ r) (time_setup_msc_ r) (time_expiration_ r) (time_done_ r)
    (time_done_msc_ r) (type_filling_ r) (type_time_ r) (comment_ r)
    (digits_ r).
Definition with_symbol_ (v : string) (r : t) : t :=
  mk (ticket_ r) v (magic_ r) (position_id_ r) (order_type_ r) (state_ r)
    (volume_initial_ r) (volume_current_ r) (price_open_ r)
    (price_current_ r) (price_stoplimit_ r) (stop_loss_ r) (take_profit_ r)
    (time_setup_ r) (time_setup_msc_ r) (time_expiration_ r) (time_done_ r)
    (time_done_msc_ r) (type_filling_ r) (type_time_ r) (comment_ r)
    (digits_ r).
Definition with_magic_ (v : Z) (r : t) : t :=
  mk (ticket_ r) (symbol_ r) v (position_id_ r) (order_type_ r) (state_ r)
    (volume_initial_ r) (volume_current_ r) (price_open_ r)
    (price_current_ r) (price_stoplimit_ r) (stop_loss_ r) (take_profit_ r)
    (time_setup_ r) (time_setup_msc_ r) (time_expiration_ r) (time_done_ r)
    (time_done_msc_ r) (type_filling_ r) (type_time_ r) (comment_ r)
    (digits_ r).
Definition with_order_type_ (v : ENUM_ORDER_TYPE) (r : t) : t :=
  mk (ticket_ r) (symbol_ r) (magic_ r) (position_id_ r) v (state_ r)
    (volume_initial_ r) (volume_current_ r) (price_open_ r)
    (price_current_ r) (price_stoplimit_ r) (stop_loss_ r) (take_profit_ r)
    (time_setup_ r) (time_setup_msc_ r) (time_expiration_ r) (time_done_ r)
    (time_done_msc_ r) (type_filling_ r) (type_time_ r) (comment_ r)
    (digits_ r).
Definition with_state_ (v : ENUM_ORDER_STATE) (r : t) : t :=
  mk (ticket_ r) (symbol_ r) (magic_ r) (position_id_ r) (order_type_ r) v
    (volume_initial_ r) (volume_current_ r) (price_open_ r)
    (price_current_ r) (price_stoplimit_ r) (stop_loss_ r) (take_profit_ r)
    (time_setup_ r) (time_setup_msc_ r) (time_expiration_ r) (time_done_ r)
    (time_done_msc_ r) (type_filling_ r) (type_time_ r) (comment_ r)
    (digits_ r).
Definition with_volume_initial_ (v : float) (r : t) : t :=
  mk (ticket_ r) (symbol_ r) (magic_ r) (position_id_ r) (order_type_ r)
    (state_ r) v (volume_current_ r) (price_open_ r) (price_current_ r)
    (price_stoplimit_ r) (stop_loss_ r) (take_profit_ r) (time_setup_ r)
    (time_setup_msc_ r) (time_expiration_ r) (time_done_ r)
    (time_done_msc_ r) (type_filling_ r) (type_time_ r) (comment_ r)
    (digits_ r).
Definition with_volume_current_ (v : float) (r : t) : t :=
  mk (ticket_ r) (symbol_ r) (magic_ r) (position_id_ r) (order_type_ r)
    (state_ r) (volume_initial_ r) v (price_open_ r) (price_current_ r)
    (price_stoplimit_ r) (stop_loss_ r) (take_profit_ r) (time_setup_ r)
    (time_setup_msc_ r) (time_expiration_ r) (time_done_ r)
    (time_done_msc_ r) (type_filling_ r) (type_time_ r) (comment_ r)
    (digits_ r).
Definition with_price_open_ (v : Z) (r : t) : t :=
  mk (ticket_ r) (symbol_ r) (magic_ r) (position_id_ r) (order_type_ r)
    (state_ r) (volume_initial_ r) (volume_current_ r) v (price_current_ r)
    (price_stoplimit_ r) (stop_loss_ r) (take_profit_ r) (time_setup_ r)
    (time_setup_msc_ r) (time_expiration_ r) (time_done_ r)
    (time_done_msc_ r) (type_filling_ r) (type_time_ r) (comment_ r)
    (digits_ r).
Definition with_price_stoplimit_ (v : Z) (r : t) : t :=
  mk (ticket_ r) (symbol_ r) (magic_ r) (position_id_ r) (order_type_ r)
    (state_ r) (volume_initial_ r) (volume_current_ r) (price_open_ r)
    (price_current_ r) v (stop_loss_ r) (take_profit_ r) (time_setup_ r)
    (time_setup_msc_ r) (time_expiration_ r) (time_done_ r)
    (time_done_msc_ r) (type_filling_ r) (type_time_ r) (comment_ r)
    (digits_ r).
Definition with_stop_loss_ (v : Z) (r : t) : t :=
  mk (ticket_ r) (symbol_ r) (magic_ r) (position_id_ r) (order_type_ r)
    (state_ r) (volume_initial_ r) (volume_current_ r) (price_open_ r)
    (price_current_ r) (price_stoplimit_ r) v (take_profit_ r)
    (time_setup_ r) (time_setup_msc_ r) (time_expiration_ r) (time_done_ r)
    (time_done_msc_ r) (type_filling_ r) (type_time_ r) (comment_ r)
    (digits_ r).
Definition with_take_profit_ (v : Z) (r : t) : t :=
  mk (ticket_ r) (symbol_ r) (magic_ r) (position_id_ r) (order_type_ r)
    (state_ r) (volume_initial_ r) (volume_current_ r) (price_open_ r)
    (price_current_ r) (price_stoplimit_ r) (stop_loss_ r) v (time_setup_ r)
    (time_setup_msc_ r) (time_expiration_ r) (time_done_ r)
    (time_done_msc_ r) (type_filling_ r) (type_time_ r) (comment_ r)
    (digits_ r).
Definition with_time_setup_ (v : Z) (r : t) : t :=
  mk (ticket_ r) (symbol_ r) (magic_ r) (position_id_ r) (order_type_ r)
    (state_ r) (volume_initial_ r) (volume_current_ r) (price_open_ r)
    (price_current_ r) (price_stoplimit_ r) (stop_loss_ r) (take_profit_ r) v
    (time_setup_msc_ r) (time_expiration_ r) (time_done_ r)
    (time_done_msc_ r) (type_filling_ r) (type_time_ r) (comment_ r)
    (digits_ r).
Definition with_time_setup_msc_ (v : Z) (r : t) : t :=
  mk (ticket_ r) (symbol_ r) (magic_ r) (position_id_ r) (order_type_ r)
    (state_ r) (volume_initial_ r) (volume_current_ r) (price_open_ r)
    (price_current_ r) (price_stoplimit_ r) (stop_loss_ r) (take_profit_ r)
    (time_setup_ r) v (time_expiration_ r) (time_done_ r) (time_done_msc_ r)
    (type_filling_ r) (type_time_ r) (comment_ r) (digits_ r).
Definition with_time_expiration_ (v : Z) (r : t) : t :=
  mk (ticket_ r) (symbol_ r) (magic_ r) (position_id_ r) (order_type_ r)
    (state_ r) (volume_initial_ r) (volume_current_ r) (price_open_ r)
    (price_current_ r) (price_stoplimit_ r) (stop_loss_ r) (take_profit_ r)
    (time_setup_ r) (time_setup_msc_ r) v (time_done_ r) (time_done_msc_ r)
    (type_filling_ r) (type_time_ r) (comment_ r) (digits_ r).
Definition with_time_done_ (v : Z) (r : t) : t :=
  mk (ticket_ r) (symbol_ r) (magic_ r) (position_id_ r) (order_type_ r)
    (state_ r) (volume_initial_ r) (volume_current_ r) (price_open_ r)
    (price_current_ r) (price_stoplimit_ r) (stop_loss_ r) (take_profit_ r)
    (time_setup_ r) (time_setup_msc_ r) (time_expiration_ r) v
    (time_done_msc_ r) (type_filling_ r) (type_time_ r) (comment_ r)
    (digits_ r).
Definition with_time_done_msc_ (v : Z) (r : t) : t :=
  mk (ticket_ r) (symbol_ r) (magic_ r) (position_id_ r) (order_type_ r)
    (state_ r) (volume_initial_ r) (volume_current_ r) (price_open_ r)
    (price_current_ r) (price_stoplimit_ r) (stop_loss_ r) (take_profit_ r)
    (time_setup_ r) (time_setup_msc_ r) (time_expiration_ r) (time_done_ r) v
    (type_filling_ r) (type_time_ r) (comment_ r) (digits_ r).
Definition with_type_filling_ (v : ENUM_ORDER_TYPE_FILLING) (r : t) : t :=
  mk (ticket_ r) (symbol_ r) (magic_ r) (position_id_ r) (order_type_ r)
    (state_ r) (volume_initial_ r) (volume_current_ r) (price_open_ r)
    (price_current_ r) (price_stoplimit_ r) (stop_loss_ r) (take_profit_ r)
    (time_setup_ r) (time_setup_msc_ r) (time_expiration_ r) (time_done_ r)
    (time_done_msc_ r) v (type_time_ r) (comment_ r) (digits_ r).
Definition with_type_time_ (v : ENUM_ORDER_TYPE_TIME) (r : t) : t :=
  mk (ticket_ r) (symbol_ r) (magic_ r) (position_id_ r) (order_type_ r)
    (state_ r) (volume_initial_ r) (volume_current_ r) (price_open_ r)
    (price_current_ r) (price_stoplimit_ r) (stop_loss_ r) (take_profit_ r)
    (time_setup_ r) (time_setup_msc_ r) (time_expiration_ r) (time_done_ r)
    (time_done_msc_ r) (type_filling_ r) v (comment_ r) (digits_ r).
Definition with_comment_ (v : string) (r : t) : t :=
  mk (ticket_ r) (symbol_ r) (magic_ r) (position_id_ r) (order_type_ r)
    (state_ r) (volume_initial_ r) (volume_current_ r) (price_open_ r)
    (price_current_ r) (price_stoplimit_ r) (stop_loss_ r) (take_profit_ r)
    (time_setup_ r) (time_setup_msc_ r) (time_expiration_ r) (time_done_ r)
    (time_done_msc_ r) (type_filling_ r) (type_time_ r) v (digits_ r).

(** [OrderInfo()]. *)
Definition default : t :=
  mk 0 "" 0 0 ORDER_TYPE_BUY ORDER_STATE_PLACED 0%float 0%float 0 0 0 0 0
     0 0 0 0 0 ORDER_FILLING_FOK ORDER_TIME_GTC "" 5.

Definition Ticket (o : t) : Z := ticket_ o.

Definition to_fixed (o : t) (price : float) : Z :=
  Double.to_int64 (price * Double.pow10 (digits_ o) + 0.5)%float.

Definition SetTicket (ticket : Z) (o : t) : t := with_ticket_ ticket o.
Definition SetSymbol (s : string) (o : t) : t := with_symbol_ s o.
Definition SetMagic (m : Z) (o : t) : t := with_magic_ m o.
Definition SetOrderType (ty : ENUM_ORDER_TYPE) (o : t) : t := with_order_type_ ty o.
Definition SetState (st : ENUM_ORDER_STATE) (o : t) : t := with_state_ st o.
Definition SetVolumeInitial (v : float) (o : t) : t := with_volume_initial_ v o.
Definition SetVolumeCurrent (v : float) (o : t) : t := with_volume_current_ v o.
Definition SetTimeSetup (time_sec time_msc : Z) (o : t) : t :=
  with_time_setup_msc_
    (if 0 <? time_msc then time_msc else wrap64 (time_sec * 1000))
    (with_time_setup_ time_sec o).
Definition SetTimeExpiration (time : Z) (o : t) : t := with_time_expiration_ time o.
Definition SetTimeDone (time_sec time_msc : Z) (o : t) : t :=
  with_time_done_msc_
    (if 0 <? time_msc then time_msc else wrap64 (time_sec * 1000))
    (with_time_done_ time_sec o).
Definition SetTypeFilling (f : ENUM_ORDER_TYPE_FILLING) (o : t) : t :=
  with_type_filling_ f o.
Definition SetTypeTime (tt : ENUM_ORDER_TYPE_TIME) (o : t) : t := with_type_time_ tt o.
Definition SetComment (c : string) (o : t) : t := with_comment_ c o.
Definition SetPriceOpen (price : float) (o : t) : t :=
  with_price_open_ (to_fixed o price) o.
Definition SetPriceStopLimit (price : float) (o : t) : t :=
  with_price_stoplimit_ (to_fixed o price) o.
Definition SetStopLoss (sl : float) (o : t) : t :=
  with_stop_loss_ (to_fixed o sl) o.
Definition SetTakeProfit (tp : float) (o : t) : t :=
  with_take_profit_ (to_fixed o tp) o.

End OrderInfo.

(** ** trading/deal_info.hpp *)

Module DealInfo.

(** [class DealInfo]. *)
Record t := mk {
  ticket_ : Z  (* uint64_t *);
  order_ : Z  (* uint64_t *);
  position_id_ : Z  (* uint64_t *);
  symbol_ : string;
  magic_ : Z  (* uint32_t *);
  type_ : ENUM_DEAL_TYPE;
  entry_ : ENUM_DEAL_ENTRY;
  volume_ : float;
  price_ : Z;
  profit_ : Z;
  commission_ : Z;
  swap_ : Z;
  time_ : Z;
  time_msc_ : Z;
  comment_ : string;
  digits_ : Z  (* int32_t *);
  entry_price_ : Z;
  exit_price_ : Z;
  entry_time_ : Z;
  exit_time_ : Z
}.

(** Assignment to a single data member. *)
Definition with_ticket_ (v : Z) (r : t) : t :=
  mk v (order_ r) (position_id_ r) (symbol_ r) (magic_ r) (type_ r)
    (entry_ r) (volume_ r) (price_ r) (profit_ r) (commission_ r) (swap_ r)
    (time_ r) (time_msc_ r) (comment_ r) (digits_ r) (entry_price_ r)
    (exit_price_ r) (entry_time_ r) (exit_time_ r).
Definition with_order_ (v : Z) (r : t) : t :=
  mk (ticket_ r) v (position_id_ r) (symbol_ r) (magic_ r) (type_ r)
    (entry_ r) (volume_ r) (price_ r) (profit_ r) (commission_ r) (swap_ r)
    (time_ r) (time_msc_ r) (comment_ r) (digits_ r) (entry_price_ r)
    (exit_price_ r) (entry_time_ r) (exit_time_ r).
Definition with_position_id_ (v : Z) (r : t) : t :=
  mk (ticket_ r) (order_ r) v (symbol_ r) (magic_ r) (type_ r) (entry_ r)
    (volume_ r) (price_ r) (profit_ r) (commission_ r) (swap_ r) (time_ r)
    (time_msc_ r) (comment_ r) (digits_ r) (entry_price_ r) (exit_price_ r)
    (entry_time_ r) (exit_time_ r).
Definition with_symbol_ (v : string) (r : t) : t :=
  mk (ticket_ r) (order_ r) (position_id_ r) v (magic_ r) (type_ r)
    (entry_ r) (volume_ r) (price_ r) (profit_ r) (commission_ r) (swap_ r)
    (time_ r) (time_msc_ r) (comment_ r) (digits_ r) (entry_price_ r)
    (exit_price_ r) (entry_time_ r) (exit_time_ r).
Definition with_magic_ (v : Z) (r : t) : t :=
  mk (ticket_ r) (order_ r) (position_id_ r) (symbol_ r) v (type_ r)
    (entry_ r) (volume_ r) (price_ r) (profit_ r) (commission_ r) (swap_ r)
    (time_ r) (time_msc_ r) (comment_ r) (digits_ r) (entry_price_ r)
    (exit_price_ r) (entry_time_ r) (exit_time_ r).
Definition with_type_ (v : ENUM_DEAL_TYPE) (r : t) : t :=
  mk (ticket_ r) (order_ r) (position_id_ r) (symbol_ r) (magic_ r) v
    (entry_ r) (volume_ r) (price_ r) (profit_ r) (commission_ r) (swap_ r)
    (time_ r) (time_msc_ r) (comment_ r) (digits_ r) (entry_price_ r)
    (exit_price_ r) (entry_time_ r) (exit_time_ r).
Definition with_entry_ (v : ENUM_DEAL_ENTRY) (r : t) : t :=
  mk (ticket_ r) (order_ r) (position_id_ r) (symbol_ r) (magic_ r) (type_ r)
    v (volume_ r) (price_ r) (profit_ r) (commission_ r) (swap_ r) (time_ r)
    (time_msc_ r) (comment_ r) (digits_ r) (entry_price_ r) (exit_price_ r)
    (entry_time_ r) (exit_time_ r).
Definition with_volume_ (v : float) (r : t) : t :=
  mk (ticket_ r) (order_ r) (position_id_ r) (symbol_ r) (magic_ r) (type_ r)
    (entry_ r) v (price_ r) (profit_ r) (commission_ r) (swap_ r) (time_ r)
    (time_msc_ r) (comment_ r) (digits_ r) (entry_price_ r) (exit_price_ r)
    (entry_time_ r) (exit_time_ r).
Definition with_price_ (v : Z) (r : t) : t :=
  mk (ticket_ r) (order_ r) (position_id_ r) (symbol_ r) (magic_ r) (type_ r)
    (entry_ r) (volume_ r) v (profit_ r) (commission_ r) (swap_ r) (time_ r)
    (time_msc_ r) (comment_ r) (digits_ r) (entry_price_ r) (exit_price_ r)
    (entry_time_ r) (exit_time_ r).
Definition with_profit_ (v : Z) (r : t) : t :=
  mk (ticket_ r) (order_ r) (position_id_ r) (symbol_ r) (magic_ r) (type_ r)
    (entry_ r) (volume_ r) (price_ r) v (commission_ r) (swap_ r) (time_ r)
    (time_msc_ r) (comment_ r) (digits_ r) (entry_price_ r) (exit_price_ r)
    (entry_time_ r) (exit_time_ r).
Definition with_commission_ (v : Z) (r : t) : t :=
  mk (ticket_ r) (order_ r) (position_id_ r) (symbol_ r) (magic_ r) (type_ r)
    (entry_ r) (volume_ r) (price_ r) (profit_ r) v (swap_ r) (time_ r)
    (time_msc_ r) (comment_ r) (digits_ r) (entry_price_ r) (exit_price_ r)
    (entry_time_ r) (exit_time_ r).
Definition with_swap_ (v : Z) (r : t) : t :=
  mk (ticket_ r) (order_ r) (position_id_ r) (symbol_ r) (magic_ r) (type_ r)
    (entry_ r) (volume_ r) (price_ r) (profit_ r) (commission_ r) v (time_ r)
    (time_msc_ r) (comment_ r) (digits_ r) (entry_price_ r) (exit_price_ r)
    (entry_time_ r) (exit_time_ r).
Definition with_time_ (v : Z) (r : t) : t :=
  mk (ticket_ r) (order_ r) (position_id_ r) (symbol_ r) (magic_ r) (type_ r)
    (entry_ r) (volume_ r) (price_ r) (profit_ r) (commission_ r) (swap_ r) v
    (time_msc_ r) (comment_ r) (digits_ r) (entry_price_ r) (exit_price_ r)
    (entry_time_ r) (exit_time_ r).
Definition with_time_msc_ (v : Z) (r : t) : t :=
  mk (ticket_ r) (order_ r) (position_id_ r) (symbol_ r) (magic_ r) (type_ r)
    (entry_ r) (volume_ r) (price_ r) (profit_ r) (commission_ r) (swap_ r)
    (time_ r) v (comment_ r) (digits_ r) (entry_price_ r) (exit_price_ r)
    (entry_time_ r) (exit_time_ r).
Definition with_comment_ (v : string) (r : t) : t :=
  mk (ticket_ r) (order_ r) (position_id_ r) (symbol_ r) (magic_ r) (type_ r)
    (entry_ r) (volume_ r) (price_ r) (profit_ r) (commission_ r) (swap_ r)
    (time_ r) (time_msc_ r) v (digits_ r) (entry_price_ r) (exit_price_ r)
    (entry_time_ r) (exit_time_ r).
Definition with_digits_ (v : Z) (r : t) : t :=
  mk (ticket_ r) (order_ r) (position_id_ r) (symbol_ r) (magic_ r) (type_ r)
    (entry_ r) (volume_ r) (price_ r) (profit_ r) (commission_ r) (swap_ r)
    (time_ r) (time_msc_ r) (comment_ r) v (entry_price_ r) (exit_price_ r)
    (entry_time_ r) (exit_time_ r).
Definition with_entry_price_ (v : Z) (r : t) : t :=
  mk (ticket_ r) (order_ r) (position_id_ r) (symbol_ r) (magic_ r) (type_ r)
    (entry_ r) (volume_ r) (price_ r) (profit_ r) (commission_ r) (swap_ r)
    (time_ r) (time_msc_ r) (comment_ r) (digits_ r) v (exit_price_ r)
    (entry_time_ r) (exit_time_ r).
Definition with_exit_price_ (v : Z) (r : t) : t :=
  mk (ticket_ r) (order_ r) (position_id_ r) (symbol_ r) (magic_ r) (type_ r)
    (entry_ r) (volume_ r) (price_ r) (profit_ r) (commission_ r) (swap_ r)
    (time_ r) (time_msc_ r) (comment_ r) (digits_ r) (entry_price_ r) v
    (entry_time_ r) (exit_time_ r).
Definition with_entry_time_ (v : Z) (r : t) : t :=
  mk (ticket_ r) (order_ r) (position_id_ r) (symbol_ r) (magic_ r) (type_ r)
    (entry_ r) (volume_ r) (price_ r) (profit_ r) (commission_ r) (swap_ r)
    (time_ r) (time_msc_ r) (comment_ r) (digits_ r) (entry_price_ r)
    (exit_price_ r) v (exit_time_ r).
Definition with_exit_time_ (v : Z) (r : t) : t :=
  mk (ticket_ r) (order_ r) (position_id_ r) (symbol_ r) (magic_ r) (type_ r)
    (entry_ r) (volume_ r) (price_ r) (profit_ r) (commission_ r) (swap_ r)
    (time_ r) (time_msc_ r) (comment_ r) (digits_ r) (entry_price_ r)
    (exit_price_ r) (entry_time_ r) v.

(** [DealInfo()]. *)
Definition default : t :=
  mk 0 0 0 "" 0 DEAL_TYPE_BUY DEAL_ENTRY_IN 0%float 0 0 0 0 0 0 "" 5 0 0 0 0.

Definition Ticket (d : t) : Z := ticket_ d.
Definition Commission (d : t) : float :=
  (Double.of_int (commission_ d) / 1000000)%float.
Definition Swap (d : t) : float := (Double.of_int (swap_ d) / 1000000)%float.
Definition Profit (d : t) : float := (Double.of_int (profit_ d) / 1000000)%float.

Definition to_fixed (d : t) (price : float) : Z :=
  Double.to_int64 (price * Double.pow10 (digits_ d) + 0.5)%float.

Definition SetTicket (ticket : Z) (d : t) : t := with_ticket_ ticket d.
Definition SetOrder (o : Z) (d : t) : t := with_order_ o d.
Definition SetPositionId (id : Z) (d : t) : t := with_position_id_ id d.
Definition SetSymbol (s : string) (d : t) : t := with_symbol_ s d.
Definition SetMagic (m : Z) (d : t) : t := with_magic_ m d.
Definition SetType (ty : ENUM_DEAL_TYPE) (d : t) : t := with_type_ ty d.
Definition SetEntry (e : ENUM_DEAL_ENTRY) (d : t) : t := with_entry_ e d.
Definition SetVolume (v : float) (d : t) : t := with_volume_ v d.
Definition SetComment (c : string) (d : t) : t := with_comment_ c d.
Definition SetTime (time_sec time_msc : Z) (d : t) : t :=
  with_time_msc_ (if 0 <? time_msc then time_msc else wrap64 (time_sec * 1000))
    (with_time_ time_sec d).
Definition SetPrice (price : float) (d : t) : t := with_price_ (to_fixed d price) d.
Definition SetProfit (profit : float) (d : t) : t :=
  with_profit_ (Double.to_int64 (profit * 1000000)%float) d.
Definition SetCommission (c : float) (d : t) : t :=
  with_commission_ (Double.to_int64 (c * 1000000)%float) d.
Definition SetSwap (sw : float) (d : t) : t :=
  with_swap_ (Double.to_int64 (sw * 1000000)%float) d.
Definition SetEntryPrice (price : float) (d : t) : t :=
  with_entry_price_ (to_fixed d price) d.
Definition SetExitPrice (price : float) (d : t) : t :=
  with_exit_price_ (to_fixed d price) d.
Definition SetEntryTime (time : Z) (d : t) : t := with_entry_time_ time d.
Definition SetExitTime (time : Z) (d : t) : t := with_exit_time_ time d.

End DealInfo.

(** ** trading/history_order_info.hpp *)

Module HistoryOrderInfo.

(** [class HistoryOrderInfo]: the members its converting constructor sets. *)
Record t := mk {
  ticket_ : Z;
  symbol_ : string;
  magic_ : Z;
  position_id_ : Z;
  order_type_ : ENUM_ORDER_TYPE;
  state_ : ENUM_ORDER_STATE;
  volume_initial_ : float;
  volume_current_ : float;
  price_open_ : Z;
  price_current_ : Z;
  price_stoplimit_ : Z;
  stop_loss_ : Z;
  take_profit_ : Z;
  time_setup_ : Z;
  time_setup_msc_ : Z;
  time_expiration_ : Z;
  time_done_ : Z;
  time_done_msc_ : Z;
  type_filling_ : ENUM_ORDER_TYPE_FILLING;
  type_time_ : ENUM_ORDER_TYPE_TIME;
  comment_ : string;
  digits_ : Z
}.

(** [explicit HistoryOrderInfo(const OrderInfo& order)]: the prices are
    zeroed and [digits_] is 5. *)
Definition of_order (o : OrderInfo.t) : t :=
  mk (OrderInfo.ticket_ o) (OrderInfo.symbol_ o) (OrderInfo.magic_ o)
     (OrderInfo.position_id_ o) (OrderInfo.order_type_ o) (OrderInfo.state_ o)
     (OrderInfo.volume_initial_ o) (OrderInfo.volume_current_ o)
     0 0 0 0 0
     (OrderInfo.time_setup_ o) (OrderInfo.time_setup_msc_ o)
     (OrderInfo.time_expiration_ o) (OrderInfo.time_done_ o)
     (OrderInfo.time_done_msc_ o) (OrderInfo.type_filling_ o)
     (OrderInfo.type_time_ o) (OrderInfo.comment_ o) 5.

End HistoryOrderInfo.

(** ** trading/account_info.hpp *)

Module AccountInfo.

(** [class AccountInfo] (without the login, name, server and company
    strings and the mode flags, which the ledger never reads). *)
Record t := mk {
  balance_ : Z;
  equity_ : Z;
  margin_ : Z;
  margin_free_ : Z;
  profit_ : Z;
  credit_ : Z;
  margin_level_ : float;
  margin_so_call_ : float;
  margin_so_so_ : float;
  currency_ : string;
  leverage_ : Z  (* int *);
  total_profit_ : Z;
  total_loss_ : Z;
  total_commission_ : Z;
  total_swap_ : Z;
  total_trades_ : Z  (* uint32_t *);
  winning_trades_ : Z  (* uint32_t *);
  losing_trades_ : Z  (* uint32_t *);
  daily_trades_ : Z  (* uint32_t *);
  daily_profit_ : Z;
  daily_high_equity_ : Z;
  daily_low_equity_ : Z
}.

(** Assignment to a single data member. *)
Definition with_balance_ (v : Z) (r : t) : t :=
  mk v (equity_ r) (margin_ r) (margin_free_ r) (profit_ r) (credit_ r)
    (margin_level_ r) (margin_so_call_ r) (margin_so_so_ r) (currency_ r)
    (leverage_ r) (total_profit_ r) (total_loss_ r) (total_commission_ r)
    (total_swap_ r) (total_trades_ r) (winning_trades_ r) (losing_trades_ r)
    (daily_trades_ r) (daily_profit_ r) (daily_high_equity_ r)
    (daily_low_equity_ r).
Definition with_equity_ (v : Z) (r : t) : t :=
  mk (balance_ r) v (margin_ r) (margin_free_ r) (profit_ r) (credit_ r)
    (margin_level_ r) (margin_so_call_ r) (margin_so_so_ r) (currency_ r)
    (leverage_ r) (total_profit_ r) (total_loss_ r) (total_commission_ r)
    (total_swap_ r) (total_trades_ r) (winning_trades_ r) (losing_trades_ r)
    (daily_trades_ r) (daily_profit_ r) (daily_high_equity_ r)
    (daily_low_equity_ r).
Definition with_margin_ (v : Z) (r : t) : t :=
  mk (balance_ r) (equity_ r) v (margin_free_ r) (profit_ r) (credit_ r)
    (margin_level_ r) (margin_so_call_ r) (margin_so_so_ r) (currency_ r)
    (leverage_ r) (total_profit_ r) (total_loss_ r) (total_commission_ r)
    (total_swap_ r) (total_trades_ r) (winning_trades_ r) (losing_trades_ r)
    (daily_trades_ r) (daily_profit_ r) (daily_high_equity_ r)
    (daily_low_equity_ r).
Definition with_margin_free_ (v : Z) (r : t) : t :=
  mk (balance_ r) (equity_ r) (margin_ r) v (profit_ r) (credit_ r)
    (margin_level_ r) (margin_so_call_ r) (margin_so_so_ r) (currency_ r)
    (leverage_ r) (total_profit_ r) (total_loss_ r) (total_commission_ r)
    (total_swap_ r) (total_trades_ r) (winning_trades_ r) (losing_trades_ r)
    (daily_trades_ r) (daily_profit_ r) (daily_high_equity_ r)
    (daily_low_equity_ r).
Definition with_profit_ (v : Z) (r : t) : t :=
  mk (balance_ r) (equity_ r) (margin_ r) (margin_free_ r) v (credit_ r)
    (margin_level_ r) (margin_so_call_ r) (margin_so_so_ r) (currency_ r)
    (leverage_ r) (total_profit_ r) (total_loss_ r) (total_commission_ r)
    (total_swap_ r) (total_trades_ r) (winning_trades_ r) (losing_trades_ r)
    (daily_trades_ r) (daily_profit_ r) (daily_high_equity_ r)
    (daily_low_equity_ r).
Definition with_margin_level_ (v : float) (r : t) : t :=
  mk (balance_ r) (equity_ r) (margin_ r) (margin_free_ r) (profit_ r)
    (credit_ r) v (margin_so_call_ r) (margin_so_so_ r) (currency_ r)
    (leverage_ r) (total_profit_ r) (total_loss_ r) (total_commission_ r)
    (total_swap_ r) (total_trades_ r) (winning_trades_ r) (losing_trades_ r)
    (daily_trades_ r) (daily_profit_ r) (daily_high_equity_ r)
    (daily_low_equity_ r).
Definition with_total_profit_ (v : Z) (r : t) : t :=
  mk (balance_ r) (equity_ r) (margin_ r) (margin_free_ r) (profit_ r)
    (credit_ r) (margin_level_ r) (margin_so_call_ r) (margin_so_so_ r)
    (currency_ r) (leverage_ r) v (total_loss_ r) (total_commission_ r)
    (total_swap_ r) (total_trades_ r) (winning_trades_ r) (losing_trades_ r)
    (daily_trades_ r) (daily_profit_ r) (daily_high_equity_ r)
    (daily_low_equity_ r).
Definition with_total_loss_ (v : Z) (r : t) : t :=
  mk (balance_ r) (equity_ r) (margin_ r) (margin_free_ r) (profit_ r)
    (credit_ r) (margin_level_ r) (margin_so_call_ r) (margin_so_so_ r)
    (currency_ r) (leverage_ r) (total_profit_ r) v (total_commission_ r)
    (total_swap_ r) (total_trades_ r) (winning_trades_ r) (losing_trades_ r)
    (daily_trades_ r) (daily_profit_ r) (daily_high_equity_ r)
    (daily_low_equity_ r).
Definition with_total_commission_ (v : Z) (r : t) : t :=
  mk (balance_ r) (equity_ r) (margin_ r) (margin_free_ r) (profit_ r)
    (credit_ r) (margin_level_ r) (margin_so_call_ r) (margin_so_so_ r)
    (currency_ r) (leverage_ r) (total_profit_ r) (total_loss_ r) v
    (total_swap_ r) (total_trades_ r) (winning_trades_ r) (losing_trades_ r)
    (daily_trades_ r) (daily_profit_ r) (daily_high_equity_ r)
    (daily_low_equity_ r).
Definition with_total_swap_ (v : Z) (r : t) : t :=
  mk (balance_ r) (equity_ r) (margin_ r) (margin_free_ r) (profit_ r)
    (credit_ r) (margin_level_ r) (margin_so_call_ r) (margin_so_so_ r)
    (currency_ r) (leverage_ r) (total_profit_ r) (total_loss_ r)
    (total_commission_ r) v (total_trades_ r) (winning_trades_ r)
    (losing_trades_ r) (daily_trades_ r) (daily_profit_ r)
    (daily_high_equity_ r) (daily_low_equity_ r).
Definition with_total_trades_ (v : Z) (r : t) : t :=
  mk (balance_ r) (equity_ r) (margin_ r) (margin_free_ r) (profit_ r)
    (credit_ r) (margin_level_ r) (margin_so_call_ r) (margin_so_so_ r)
    (currency_ r) (leverage_ r) (total_profit_ r) (total_loss_ r)
    (total_commission_ r) (total_swap_ r) v (winning_trades_ r)
    (losing_trades_ r) (daily_trades_ r) (daily_profit_ r)
    (daily_high_equity_ r) (daily_low_equity_ r).
Definition with_winning_trades_ (v : Z) (r : t) : t :=
  mk (balance_ r) (equity_ r) (margin_ r) (margin_free_ r) (profit_ r)
    (credit_ r) (margin_level_ r) (margin_so_call_ r) (margin_so_so_ r)
    (currency_ r) (leverage_ r) (total_profit_ r) (total_loss_ r)
    (total_commission_ r) (total_swap_ r) (total_trades_ r) v
    (losing_trades_ r) (daily_trades_ r) (daily_profit_ r)
    (daily_high_equity_ r) (daily_low_equity_ r).
Definition with_losing_trades_ (v : Z) (r : t) : t :=
  mk (balance_ r) (equity_ r) (margin_ r) (margin_free_ r) (profit_ r)
    (credit_ r) (margin_level_ r) (margin_so_call_ r) (margin_so_so_ r)
    (currency_ r) (leverage_ r) (total_profit_ r) (total_loss_ r)
    (total_commission_ r) (total_swap_ r) (total_trades_ r)
    (winning_trades_ r) v (daily_trades_ r) (daily_profit_ r)
    (daily_high_equity_ r) (daily_low_equity_ r).
Definition with_daily_trades_ (v : Z) (r : t) : t :=
  mk (balance_ r) (equity_ r) (margin_ r) (margin_free_ r) (profit_ r)
    (credit_ r) (margin_level_ r) (margin_so_call_ r) (margin_so_so_ r)
    (currency_ r) (leverage_ r) (total_profit_ r) (total_loss_ r)
    (total_commission_ r) (total_swap_ r) (total_trades_ r)
    (winning_trades_ r) (losing_trades_ r) v (daily_profit_ r)
    (daily_high_equity_ r) (daily_low_equity_ r).
Definition with_daily_profit_ (v : Z) (r : t) : t :=
  mk (balance_ r) (equity_ r) (margin_ r) (margin_free_ r) (profit_ r)
    (credit_ r) (margin_level_ r) (margin_so_call_ r) (margin_so_so_ r)
    (currency_ r) (leverage_ r) (total_profit_ r) (total_loss_ r)
    (total_commission_ r) (total_swap_ r) (total_trades_ r)
    (winning_trades_ r) (losing_trades_ r) (daily_trades_ r) v
    (daily_high_equity_ r) (daily_low_equity_ r).
Definition with_daily_high_equity_ (v : Z) (r : t) : t :=
  mk (balance_ r) (equity_ r) (margin_ r) (margin_free_ r) (profit_ r)
    (credit_ r) (margin_level_ r) (margin_so_call_ r) (margin_so_so_ r)
    (currency_ r) (leverage_ r) (total_profit_ r) (total_loss_ r)
    (total_commission_ r) (total_swap_ r) (total_trades_ r)
    (winning_trades_ r) (losing_trades_ r) (daily_trades_ r)
    (daily_profit_ r) v (daily_low_equity_ r).
Definition with_daily_low_equity_ (v : Z) (r : t) : t :=
  mk (balance_ r) (equity_ r) (margin_ r) (margin_free_ r) (profit_ r)
    (credit_ r) (margin_level_ r) (margin_so_call_ r) (margin_so_so_ r)
    (currency_ r) (leverage_ r) (total_profit_ r) (total_loss_ r)
    (total_commission_ r) (total_swap_ r) (total_trades_ r)
    (winning_trades_ r) (losing_trades_ r) (daily_trades_ r)
    (daily_profit_ r) (daily_high_equity_ r) v.

(** [AccountInfo(initial_balance, currency, leverage)]. *)
Definition init (initial_balance : float) (currency : string) (leverage : Z) : t :=
  let b := Double.to_int64 (initial_balance * 1000000)%float in
  mk b b 0 b 0 0 0%float 100%float 50%float currency leverage
     0 0 0 0 0 0 0 0 0 b b.

Definition Leverage (a : t) : Z := leverage_ a.
Definition Balance (a : t) : float := (Double.of_int (balance_ a) / 1000000)%float.
Definition Equity (a : t) : float := (Double.of_int (equity_ a) / 1000000)%float.
Definition Margin (a : t) : float := (Double.of_int (margin_ a) / 1000000)%float.
Definition FreeMargin (a : t) : float :=
  (Double.of_int (margin_free_ a) / 1000000)%float.
Definition MarginLevel (a : t) : float := margin_level_ a.

(** [UpdateEquity(total_unrealized_pnl)]. *)
Definition UpdateEquity (total_unrealized_pnl : Z) (a : t) : t :=
  let a := with_profit_ total_unrealized_pnl a in
  let a := with_equity_ (wrap64 (balance_ a + total_unrealized_pnl)) a in
  let a :=
    if 0 <? margin_ a
    then with_margin_level_
           (Double.of_int (equity_ a) / Double.of_int (margin_ a) * 100)%float a
    else with_margin_level_ 0%float a in
  let a := with_margin_free_ (wrap64 (equity_ a - margin_ a)) a in
  let a := if daily_high_equity_ a <? equity_ a
           then with_daily_high_equity_ (equity_ a) a else a in
  let a := if (equity_ a <? daily_low_equity_ a) || (daily_low_equity_ a =? 0)
           then with_daily_low_equity_ (equity_ a) a else a in
  a.

(** [AddMargin], [SubtractMargin], [AddBalance]. *)
Definition AddMargin (amount : Z) (a : t) : t :=
  let a := with_margin_ (wrap64 (margin_ a + amount)) a in
  UpdateEquity (profit_ a) a.
Definition SubtractMargin (amount : Z) (a : t) : t :=
  let a := with_margin_ (wrap64 (margin_ a - amount)) a in
  UpdateEquity (profit_ a) a.
Definition AddBalance (amount : Z) (a : t) : t :=
  let a := with_balance_ (wrap64 (balance_ a + amount)) a in
  UpdateEquity (profit_ a) a.

(** [ApplyRealizedPnL(realized_pnl, commission, swap)]. *)
Definition ApplyRealizedPnL (realized_pnl commission swap : Z) (a : t) : t :=
  let net_pnl := wrap64 (wrap64 (realized_pnl - commission) + swap) in
  let a := with_balance_ (wrap64 (balance_ a + net_pnl)) a in
  let a := with_total_commission_ (wrap64 (total_commission_ a + commission)) a in
  let a := with_total_swap_ (wrap64 (total_swap_ a + swap)) a in
  let a := with_total_trades_ (wrapU32 (total_trades_ a + 1)) a in
  let a :=
    if 0 <? realized_pnl then
      with_winning_trades_ (wrapU32 (winning_trades_ a + 1))
        (with_total_profit_ (wrap64 (total_profit_ a + realized_pnl)) a)
    else if realized_pnl <? 0 then
      with_losing_trades_ (wrapU32 (losing_trades_ a + 1))
        (with_total_loss_ (wrap64 (total_loss_ a + wrap64 (- realized_pnl))) a)
    else a in
  let a := with_daily_trades_ (wrapU32 (daily_trades_ a + 1)) a in
  with_daily_profit_ (wrap64 (daily_profit_ a + net_pnl)) a.

End AccountInfo.

(** ** data/tick.hpp *)

Module Tick.

(** [struct Tick] (the cache-line padding carries no data). *)
Record t := mk {
  timestamp_us : Z;
  bid : Z;
  ask : Z;
  bid_volume : Z;
  ask_volume : Z;
  symbol_id : Z;      (* uint32_t *)
  spread_points : Z   (* int32_t *)
}.

(** [is_valid]. *)
Definition is_valid (k : t) : bool :=
  (0 <? bid k) && (0 <? ask k) && (bid k <=? ask k).

End Tick.

(** ** costs: the model interfaces and the engine *)

Module Costs.

(** [struct ExecutionResult]. *)
Record ExecutionResult := mkResult {
  executed : bool;
  fill_price : Z;
  slippage : Z;
  commission : Z;
  spread_cost : Z
}.

(** [ExecutionResult()]. *)
Definition no_execution : ExecutionResult := mkResult false 0 0 0 0.

(** [struct PendingOrder] of costs_engine.hpp. *)
Record PendingOrder := mkOrder {
  order_ticket : Z;
  order_symbol_id : Z;
  order_type : ENUM_ORDER_TYPE;
  order_volume : float;
  order_price : Z;
  order_sl : Z;
  order_tp : Z;
  order_timestamp_us : Z
}.

(** [struct Position] of costs_engine.hpp. *)
Record Position := mkPosition {
  ticket : Z;
  symbol_id : Z;
  type : ENUM_POSITION_TYPE;
  volume : float;
  open_price : Z;
  sl : Z;
  tp : Z;
  open_time_us : Z;
  position_commission : Z;
  position_swap : Z
}.

(** [struct LastPrice]. *)
Record LastPrice := mkLast {
  last_bid : Z;
  last_ask : Z;
  last_timestamp_us : Z
}.

(** The four abstract base classes.  A model is a value of some type [M];
    [calculate] takes the engine's generator by reference, so the generator
    state [RNG] is threaded through.  The spread models may update
    [mutable] members, so [calculate] also returns the model. *)
Class ISlippageModel (M RNG : Type) :=
  slippage_calculate :
    M -> ENUM_POSITION_TYPE -> float -> Tick.t -> SymbolInfo.t -> RNG -> Z * RNG.

Class ICommissionModel (M : Type) :=
  commission_calculate :
    M -> ENUM_POSITION_TYPE -> float -> Z -> SymbolInfo.t -> Z.

Class ISpreadModel (M RNG : Type) :=
  spread_calculate :
    M -> Tick.t -> SymbolInfo.t -> Z -> RNG -> Z * M * RNG.

Class ISwapModel (M : Type) := {
  swap_calculate :
    M -> ENUM_POSITION_TYPE -> float -> Z -> Z -> SymbolInfo.t -> Z -> Z;
  should_apply : M -> Z -> bool;
  get_multiplier : M -> Z -> Z
}.

(** [class ZeroSlippage]. *)
Inductive ZeroSlippage := mkZeroSlippage.
#[export] Instance ZeroSlippage_model RNG : ISlippageModel ZeroSlippage RNG :=
  fun _ _ _ _ _ rng => (0, rng).

(** [class FixedSlippage]. *)
Record FixedSlippage := mkFixedSlippage { slippage_points_ : Z }.
#[export] Instance FixedSlippage_model RNG : ISlippageModel FixedSlippage RNG :=
  fun m _ _ _ info rng =>
    (Double.to_int64
       (Double.of_int (slippage_points_ m) * SymbolInfo.Point info)%float, rng).

(** [class ZeroCommission]. *)
Inductive ZeroCommission := mkZeroCommission.
#[export] Instance ZeroCommission_model : ICommissionModel ZeroCommission :=
  fun _ _ _ _ _ => 0.

(** [class FixedPerLot]. *)
Record FixedPerLot := mkFixedPerLot { commission_per_lot_ : Z }.
#[export] Instance FixedPerLot_model : ICommissionModel FixedPerLot :=
  fun m _ vol _ _ =>
    Double.to_int64 (vol * Double.of_int (commission_per_lot_ m))%float.

(** [class FixedPerTrade]. *)
Record FixedPerTrade := mkFixedPerTrade { commission_per_trade_ : Z }.
#[export] Instance FixedPerTrade_model : ICommissionModel FixedPerTrade :=
  fun m _ _ _ _ => commission_per_trade_ m.

(** [class ZeroSwap]. *)
Inductive ZeroSwap := mkZeroSwap.
#[export] Instance ZeroSwap_model : ISwapModel ZeroSwap := {
  swap_calculate := fun _ _ _ _ _ _ _ => 0;
  should_apply := fun _ _ => false;
  get_multiplier := fun _ _ => 1
}.

(** [class IslamicSwap]: a holding fee after a grace period. *)
Record IslamicSwap := mkIslamicSwap {
  holding_fee_ : Z;
  grace_period_days_ : Z  (* int *)
}.

(** [IslamicSwap(holding_fee_double, grace_period_days)]. *)
Definition IslamicSwap_new (holding_fee_double : float) (grace_period_days : Z)
  : IslamicSwap :=
  mkIslamicSwap (Double.to_int64 (holding_fee_double * 1000000)%float)
                grace_period_days.

#[export] Instance IslamicSwap_model : ISwapModel IslamicSwap := {
  swap_calculate := fun m _ volume _ _ _ days_held =>
    if days_held <=? grace_period_days_ m then 0
    else
      let billable_days := wrap32 (days_held - grace_period_days_ m) in
      Double.to_int64
        (volume * Double.of_int (holding_fee_ m) * Double.of_int billable_days)%float;
  should_apply := fun _ _ => true;
  get_multiplier := fun _ _ => 1
}.

(** [class HistoricalSpread] ([info.point] read as the symbol's point size). *)
Record HistoricalSpread := mkHistoricalSpread { min_spread_points_ : Z }.
#[export] Instance HistoricalSpread_model RNG : ISpreadModel HistoricalSpread RNG :=
  fun m tick info _ rng =>
    let actual_spread := wrap64 (Tick.ask tick - Tick.bid tick) in
    let min_spread :=
      Double.to_int64
        (Double.of_int (min_spread_points_ m) * SymbolInfo.Point info)%float in
    (Z.max actual_spread min_spread, m, rng).

Section Engine.

Context {S C W P RNG : Type}.
Context `{!ISlippageModel S RNG, !ICommissionModel C, !ISwapModel W,
          !ISpreadModel P RNG}.

(** [class CostsEngine]. *)
Record CostsEngine := mkEngine {
  slippage_model_ : S;
  commission_model_ : C;
  swap_model_ : W;
  spread_model_ : P;
  rng_ : RNG;
  last_prices_ : gmap Z LastPrice
}.

(** [update_market]. *)
Definition update_market (id : Z) (tick : Tick.t) (e : CostsEngine)
  : CostsEngine :=
  mkEngine (slippage_model_ e) (commission_model_ e) (swap_model_ e)
           (spread_model_ e) (rng_ e)
           (<[id := mkLast (Tick.bid tick) (Tick.ask tick) (Tick.timestamp_us tick)]>
              (last_prices_ e)).

(** [is_buy] of [evaluate_order]. *)
Definition is_buy_order (ty : ENUM_ORDER_TYPE) : bool :=
  match ty with
  | ORDER_TYPE_BUY | ORDER_TYPE_BUY_LIMIT | ORDER_TYPE_BUY_STOP
  | ORDER_TYPE_BUY_STOP_LIMIT => true
  | _ => false
  end.

(** The [switch] of [evaluate_order]: [Some trigger_price] when the order
    triggers. *)
Definition order_trigger (order : PendingOrder) (tick : Tick.t) : option Z :=
  match order_type order with
  | ORDER_TYPE_BUY | ORDER_TYPE_SELL =>
      Some (if is_buy_order (order_type order) then Tick.ask tick
            else Tick.bid tick)
  | ORDER_TYPE_BUY_LIMIT =>
      if Tick.ask tick <=? order_price order then Some (order_price order)
      else None
  | ORDER_TYPE_SELL_LIMIT =>
      if order_price order <=? Tick.bid tick then Some (order_price order)
      else None
  | ORDER_TYPE_BUY_STOP =>
      if order_price order <=? Tick.ask tick then Some (Tick.ask tick)
      else None
  | ORDER_TYPE_SELL_STOP =>
      if Tick.bid tick <=? order_price order then Some (Tick.bid tick)
      else None
  | ORDER_TYPE_BUY_STOP_LIMIT =>
      if order_price order <=? Tick.ask tick
      then Some (Z.min (Tick.ask tick) (order_price order))
      else None
  | ORDER_TYPE_SELL_STOP_LIMIT =>
      if Tick.bid tick <=? order_price order
      then Some (Z.max (Tick.bid tick) (order_price order))
      else None
  end.

(** The common tail of [evaluate_order] and [evaluate_position]: slippage,
    spread, fill price and commission for a fill on side [side]. *)
Definition execute (side : ENUM_POSITION_TYPE) (vol : float)
  (trigger_price : Z) (tick : Tick.t) (info : SymbolInfo.t) (e : CostsEngine)
  : ExecutionResult * CostsEngine :=
  let '(slip, rng) :=
    slippage_calculate (slippage_model_ e) side vol tick info (rng_ e) in
  let '(spread, spread_model, rng) :=
    spread_calculate (spread_model_ e) tick info (Tick.timestamp_us tick) rng in
  let fill :=
    match side with
    | POSITION_TYPE_BUY => wrap64 (trigger_price + slip)
    | POSITION_TYPE_SELL => wrap64 (trigger_price - slip)
    end in
  let comm := commission_calculate (commission_model_ e) side vol fill info in
  (mkResult true fill slip comm spread,
   mkEngine (slippage_model_ e) (commission_model_ e) (swap_model_ e)
            spread_model rng (last_prices_ e)).

(** [evaluate_order]. *)
Definition evaluate_order (order : PendingOrder) (tick : Tick.t)
  (info : SymbolInfo.t) (e : CostsEngine) : ExecutionResult * CostsEngine :=
  match order_trigger order tick with
  | None => (no_execution, e)
  | Some trigger_price =>
      let pos_type := if is_buy_order (order_type order)
                      then POSITION_TYPE_BUY else POSITION_TYPE_SELL in
      execute pos_type (order_volume order) trigger_price tick info e
  end.

(** The SL/TP tests of [evaluate_position]: [Some trigger_price] when the
    position's exit triggers. *)
Definition position_trigger (position : Position) (tick : Tick.t) : option Z :=
  match type position with
  | POSITION_TYPE_BUY =>
      if (0 <? sl position) && (Tick.bid tick <=? sl position)
      then Some (Z.min (Tick.bid tick) (sl position))
      else if (0 <? tp position) && (tp position <=? Tick.bid tick)
      then Some (Z.max (Tick.bid tick) (tp position))
      else None
  | POSITION_TYPE_SELL =>
      if (0 <? sl position) && (sl position <=? Tick.ask tick)
      then Some (Z.max (Tick.ask tick) (sl position))
      else if (0 <? tp position) && (Tick.ask tick <=? tp position)
      then Some (Z.min (Tick.ask tick) (tp position))
      else None
  end.

(** [evaluate_position]. *)
Definition evaluate_position (position : Position) (tick : Tick.t)
  (info : SymbolInfo.t) (e : CostsEngine) : ExecutionResult * CostsEngine :=
  let close_type :=
    match type position with
    | POSITION_TYPE_BUY => POSITION_TYPE_SELL
    | POSITION_TYPE_SELL => POSITION_TYPE_BUY
    end in
  match position_trigger position tick with
  | None => (no_execution, e)
  | Some trigger_price =>
      execute close_type (volume position) trigger_price tick info e
  end.

(** [execute_market_order]. *)
Definition execute_market_order (side : ENUM_POSITION_TYPE) (vol : float)
  (tick : Tick.t) (info : SymbolInfo.t) (e : CostsEngine)
  : ExecutionResult * CostsEngine :=
  let order :=
    mkOrder 0 0
      (match side with
       | POSITION_TYPE_BUY => ORDER_TYPE_BUY
       | POSITION_TYPE_SELL => ORDER_TYPE_SELL
       end)
      vol 0 0 0 (Tick.timestamp_us tick) in
  evaluate_order order tick info e.

(** [calculate_swap]; [days_held] is an [int]. *)
Definition calculate_swap (position : Position) (current_price : Z)
  (info : SymbolInfo.t) (timestamp_us : Z) (e : CostsEngine) : Z :=
  if negb (should_apply (swap_model_ e) timestamp_us) then 0
  else
    let duration_us := wrap64 (timestamp_us - open_time_us position) in
    let days_held := wrap32 (div64 duration_us (24 * 3600 * 1000000)) in
    if days_held =? 0 then 0
    else
      let multiplier := get_multiplier (swap_model_ e) timestamp_us in
      let swap :=
        swap_calculate (swap_model_ e) (type position) (volume position)
          (open_price position) current_price info days_held in
      wrap64 (swap * multiplier).

End Engine.

Arguments CostsEngine : clear implicits.

End Costs.

(** ** trading/trade.hpp: request and result structures *)

Module MqlTradeRequest.

(** [struct MqlTradeRequest]. *)
Record t := mk {
  action : ENUM_TRADE_REQUEST_ACTIONS;
  magic : Z  (* uint64_t *);
  order : Z  (* uint64_t *);
  symbol : string;
  volume : float;
  price : float;
  stoplimit : float;
  sl : float;
  tp : float;
  deviation : Z  (* uint64_t *);
  type : ENUM_ORDER_TYPE;
  type_filling : ENUM_ORDER_TYPE_FILLING;
  type_time : ENUM_ORDER_TYPE_TIME;
  expiration : Z;
  comment : string;
  position : Z  (* uint64_t *);
  position_by : Z  (* uint64_t *)
}.

(** Assignment to a single data member. *)
Definition with_action (v : ENUM_TRADE_REQUEST_ACTIONS) (r : t) : t :=
  mk v (magic r) (order r) (symbol r) (volume r) (price r) (stoplimit r)
    (sl r) (tp r) (deviation r) (type r) (type_filling r) (type_time r)
    (expiration r) (comment r) (position r) (position_by r).
Definition with_magic (v : Z) (r : t) : t :=
  mk (action r) v (order r) (symbol r) (volume r) (price r) (stoplimit r)
    (sl r) (tp r) (deviation r) (type r) (type_filling r) (type_time r)
    (expiration r) (comment r) (position r) (position_by r).
Definition with_order (v : Z) (r : t) : t :=
  mk (action r) (magic r) v (symbol r) (volume r) (price r) (stoplimit r)
    (sl r) (tp r) (deviation r) (type r) (type_filling r) (type_time r)
    (expiration r) (comment r) (position r) (position_by r).
Definition with_symbol (v : string) (r : t) : t :=
  mk (action r) (magic r) (order r) v (volume r) (price r) (stoplimit r)
    (sl r) (tp r) (deviation r) (type r) (type_filling r) (type_time r)
    (expiration r) (comment r) (position r) (position_by r).
Definition with_volume (v : float) (r : t) : t :=
  mk (action r) (magic r) (order r) (symbol r) v (price r) (stoplimit r)
    (sl r) (tp r) (deviation r) (type r) (type_filling r) (type_time r)
    (expiration r) (comment r) (position r) (position_by r).
Definition with_price (v : float) (r : t) : t :=
  mk (action r) (magic r) (order r) (symbol r) (volume r) v (stoplimit r)
    (sl r) (tp r) (deviation r) (type r) (type_filling r) (type_time r)
    (expiration r) (comment r) (position r) (position_by r).
Definition with_stoplimit (v : float) (r : t) : t :=
  mk (action r) (magic r) (order r) (symbol r) (volume r) (price r) v (sl r)
    (tp r) (deviation r) (type r) (type_filling r) (type_time r)
    (expiration r) (comment r) (position r) (position_by r).
Definition with_sl (v : float) (r : t) : t :=
  mk (action r) (magic r) (order r) (symbol r) (volume r) (price r)
    (stoplimit r) v (tp r) (deviation r) (type r) (type_filling r)
    (type_time r) (expiration r) (comment r) (position r) (position_by r).
Definition with_tp (v : float) (r : t) : t :=
  mk (action r) (magic r) (order r) (symbol r) (volume r) (price r)
    (stoplimit r) (sl r) v (deviation r) (type r) (type_filling r)
    (type_time r) (expiration r) (comment r) (position r) (position_by r).
Definition with_deviation (v : Z) (r : t) : t :=
  mk (action r) (magic r) (order r) (symbol r) (volume r) (price r)
    (stoplimit r) (sl r) (tp r) v (type r) (type_filling r) (type_time r)
    (expiration r) (comment r) (position r) (position_by r).
Definition with_type (v : ENUM_ORDER_TYPE) (r : t) : t :=
  mk (action r) (magic r) (order r) (symbol r) (volume r) (price r)
    (stoplimit r) (sl r) (tp r) (deviation r) v (type_filling r)
    (type_time r) (expiration r) (comment r) (position r) (position_by r).
Definition with_type_filling (v : ENUM_ORDER_TYPE_FILLING) (r : t) : t :=
  mk (action r) (magic r) (order r) (symbol r) (volume r) (price r)
    (stoplimit r) (sl r) (tp r) (deviation r) (type r) v (type_time r)
    (expiration r) (comment r) (position r) (position_by r).
Definition with_type_time (v : ENUM_ORDER_TYPE_TIME) (r : t) : t :=
  mk (action r) (magic r) (order r) (symbol r) (volume r) (price r)
    (stoplimit r) (sl r) (tp r) (deviation r) (type r) (type_filling r) v
    (expiration r) (comment r) (position r) (position_by r).
Definition with_expiration (v : Z) (r : t) : t :=
  mk (action r) (magic r) (order r) (symbol r) (volume r) (price r)
    (stoplimit r) (sl r) (tp r) (deviation r) (type r) (type_filling r)
    (type_time r) v (comment r) (position r) (position_by r).
Definition with_comment (v : string) (r : t) : t :=
  mk (action r) (magic r) (order r) (symbol r) (volume r) (price r)
    (stoplimit r) (sl r) (tp r) (deviation r) (type r) (type_filling r)
    (type_time r) (expiration r) v (position r) (position_by r).
Definition with_position (v : Z) (r : t) : t :=
  mk (action r) (magic r) (order r) (symbol r) (volume r) (price r)
    (stoplimit r) (sl r) (tp r) (deviation r) (type r) (type_filling r)
    (type_time r) (expiration r) (comment r) v (position_by r).
Definition with_position_by (v : Z) (r : t) : t :=
  mk (action r) (magic r) (order r) (symbol r) (volume r) (price r)
    (stoplimit r) (sl r) (tp r) (deviation r) (type r) (type_filling r)
    (type_time r) (expiration r) (comment r) (position r) v.

(** [MqlTradeRequest()]. *)
Definition default : t :=
  mk TRADE_ACTION_DEAL 0 0 "" 0%float 0%float 0%float 0%float 0%float 0
     ORDER_TYPE_BUY ORDER_FILLING_FOK ORDER_TIME_GTC 0 "" 0 0.

End MqlTradeRequest.

Module MqlTradeResult.

(** [struct MqlTradeResult]. *)
Record t := mk {
  retcode : ENUM_TRADE_RETCODE;
  deal : Z  (* uint64_t *);
  order : Z  (* uint64_t *);
  volume : float;
  price : float;
  bid : float;
  ask : float;
  comment : string;
  request_id : Z  (* uint32_t *);
  retcode_external : Z  (* uint32_t *)
}.

(** Assignment to a single data member. *)
Definition with_retcode (v : ENUM_TRADE_RETCODE) (r : t) : t :=
  mk v (deal r) (order r) (volume r) (price r) (bid r) (ask r) (comment r)
    (request_id r) (retcode_external r).
Definition with_deal (v : Z) (r : t) : t :=
  mk (retcode r) v (order r) (volume r) (price r) (bid r) (ask r) (comment r)
    (request_id r) (retcode_external r).
Definition with_order (v : Z) (r : t) : t :=
  mk (retcode r) (deal r) v (volume r) (price r) (bid r) (ask r) (comment r)
    (request_id r) (retcode_external r).
Definition with_volume (v : float) (r : t) : t :=
  mk (retcode r) (deal r) (order r) v (price r) (bid r) (ask r) (comment r)
    (request_id r) (retcode_external r).
Definition with_price (v : float) (r : t) : t :=
  mk (retcode r) (deal r) (order r) (volume r) v (bid r) (ask r) (comment r)
    (request_id r) (retcode_external r).
Definition with_bid (v : float) (r : t) : t :=
  mk (retcode r) (deal r) (order r) (volume r) (price r) v (ask r)
    (comment r) (request_id r) (retcode_external r).
Definition with_ask (v : float) (r : t) : t :=
  mk (retcode r) (deal r) (order r) (volume r) (price r) (bid r) v
    (comment r) (request_id r) (retcode_external r).
Definition with_comment (v : string) (r : t) : t :=
  mk (retcode r) (deal r) (order r) (volume r) (price r) (bid r) (ask r) v
    (request_id r) (retcode_external r).
Definition with_request_id (v : Z) (r : t) : t :=
  mk (retcode r) (deal r) (order r) (volume r) (price r) (bid r) (ask r)
    (comment r) v (retcode_external r).
Definition with_retcode_external (v : Z) (r : t) : t :=
  mk (retcode r) (deal r) (order r) (volume r) (price r) (bid r) (ask r)
    (comment r) (request_id r) v.

(** [MqlTradeResult()]. *)
Definition default : t :=
  mk TRADE_RETCODE_ERROR 0 0 0%float 0%float 0%float 0%float "" 0 0.

End MqlTradeResult.

Module MqlTradeCheckResult.

(** [struct MqlTradeCheckResult]. *)
Record t := mk {
  retcode : ENUM_TRADE_RETCODE;
  balance : float;
  equity : float;
  profit : float;
  margin : float;
  margin_free : float;
  margin_level : float;
  comment : string
}.

(** Assignment to a single data member. *)
Definition with_retcode (v : ENUM_TRADE_RETCODE) (r : t) : t :=
  mk v (balance r) (equity r) (profit r) (margin r) (margin_free r)
    (margin_level r) (comment r).
Definition with_balance (v : float) (r : t) : t :=
  mk (retcode r) v (equity r) (profit r) (margin r) (margin_free r)
    (margin_level r) (comment r).
Definition with_equity (v : float) (r : t) : t :=
  mk (retcode r) (balance r) v (profit r) (margin r) (margin_free r)
    (margin_level r) (comment r).
Definition with_profit (v : float) (r : t) : t :=
  mk (retcode r) (balance r) (equity r) v (margin r) (margin_free r)
    (margin_level r) (comment r).
Definition with_margin (v : float) (r : t) : t :=
  mk (retcode r) (balance r) (equity r) (profit r) v (margin_free r)
    (margin_level r) (comment r).
Definition with_margin_free (v : float) (r : t) : t :=
  mk (retcode r) (balance r) (equity r) (profit r) (margin r) v
    (margin_level r) (comment r).
Definition with_margin_level (v : float) (r : t) : t :=
  mk (retcode r) (balance r) (equity r) (profit r) (margin r) (margin_free r)
    v (comment r).
Definition with_comment (v : string) (r : t) : t :=
  mk (retcode r) (balance r) (equity r) (profit r) (margin r) (margin_free r)
    (margin_level r) v.

(** [MqlTradeCheckResult()]. *)
Definition default : t :=
  mk TRADE_RETCODE_DONE 0%float 0%float 0%float 0%float 0%float 0%float "".

End MqlTradeCheckResult.

(** ** trading/trade.hpp and trading/trade.cpp: the ledger *)

Module CTrade.

(** [class CTrade]: the data members. *)
Record t := mk {
  account_ : AccountInfo.t;
  positions_ : gmap Z PositionInfo.t;
  orders_ : gmap Z OrderInfo.t;
  deals_ : list DealInfo.t;
  history_orders_ : list HistoryOrderInfo.t;
  next_ticket_ : Z  (* uint64_t *);
  symbols_ : gmap Z SymbolInfo.t;
  symbol_name_to_id_ : gmap string Z;
  magic_number_ : Z  (* uint32_t *);
  deviation_ : Z  (* uint64_t *);
  type_filling_ : ENUM_ORDER_TYPE_FILLING;
  async_mode_ : bool;
  log_level_ : Z  (* int *);
  last_request_ : MqlTradeRequest.t;
  last_result_ : MqlTradeResult.t;
  last_check_ : MqlTradeCheckResult.t;
  current_time_us_ : Z
}.

(** Assignment to a single data member. *)
Definition with_account_ (v : AccountInfo.t) (r : t) : t :=
  mk v (positions_ r) (orders_ r) (deals_ r) (history_orders_ r)
    (next_ticket_ r) (symbols_ r) (symbol_name_to_id_ r) (magic_number_ r)
    (deviation_ r) (type_filling_ r) (async_mode_ r) (log_level_ r)
    (last_request_ r) (last_result_ r) (last_check_ r) (current_time_us_ r).
Definition with_positions_ (v : gmap Z PositionInfo.t) (r : t) : t :=
  mk (account_ r) v (orders_ r) (deals_ r) (history_orders_ r)
    (next_ticket_ r) (symbols_ r) (symbol_name_to_id_ r) (magic_number_ r)
    (deviation_ r) (type_filling_ r) (async_mode_ r) (log_level_ r)
    (last_request_ r) (last_result_ r) (last_check_ r) (current_time_us_ r).
Definition with_orders_ (v : gmap Z OrderInfo.t) (r : t) : t :=
  mk (account_ r) (positions_ r) v (deals_ r) (history_orders_ r)
    (next_ticket_ r) (symbols_ r) (symbol_name_to_id_ r) (magic_number_ r)
    (deviation_ r) (type_filling_ r) (async_mode_ r) (log_level_ r)
    (last_request_ r) (last_result_ r) (last_check_ r) (current_time_us_ r).
Definition with_deals_ (v : list DealInfo.t) (r : t) : t :=
  mk (account_ r) (positions_ r) (orders_ r) v (history_orders_ r)
    (next_ticket_ r) (symbols_ r) (symbol_name_to_id_ r) (magic_number_ r)
    (deviation_ r) (type_filling_ r) (async_mode_ r) (log_level_ r)
    (last_request_ r) (last_result_ r) (last_check_ r) (current_time_us_ r).
Definition with_history_orders_ (v : list HistoryOrderInfo.t) (r : t) : t :=
  mk (account_ r) (positions_ r) (orders_ r) (deals_ r) v (next_ticket_ r)
    (symbols_ r) (symbol_name_to_id_ r) (magic_number_ r) (deviation_ r)
    (type_filling_ r) (async_mode_ r) (log_level_ r) (last_request_ r)
    (last_result_ r) (last_check_ r) (current_time_us_ r).
Definition with_next_ticket_ (v : Z) (r : t) : t :=
  mk (account_ r) (positions_ r) (orders_ r) (deals_ r) (history_orders_ r) v
    (symbols_ r) (symbol_name_to_id_ r) (magic_number_ r) (deviation_ r)
    (type_filling_ r) (async_mode_ r) (log_level_ r) (last_request_ r)
    (last_result_ r) (last_check_ r) (current_time_us_ r).
Definition with_symbols_ (v : gmap Z SymbolInfo.t) (r : t) : t :=
  mk (account_ r) (positions_ r) (orders_ r) (deals_ r) (history_orders_ r)
    (next_ticket_ r) v (symbol_name_to_id_ r) (magic_number_ r)
    (deviation_ r) (type_filling_ r) (async_mode_ r) (log_level_ r)
    (last_request_ r) (last_result_ r) (last_check_ r) (current_time_us_ r).
Definition with_symbol_name_to_id_ (v : gmap string Z) (r : t) : t :=
  mk (account_ r) (positions_ r) (orders_ r) (deals_ r) (history_orders_ r)
    (next_ticket_ r) (symbols_ r) v (magic_number_ r) (deviation_ r)
    (type_filling_ r) (async_mode_ r) (log_level_ r) (last_request_ r)
    (last_result_ r) (last_check_ r) (current_time_us_ r).
Definition with_magic_number_ (v : Z) (r : t) : t :=
  mk (account_ r) (positions_ r) (orders_ r) (deals_ r) (history_orders_ r)
    (next_ticket_ r) (symbols_ r) (symbol_name_to_id_ r) v (deviation_ r)
    (type_filling_ r) (async_mode_ r) (log_level_ r) (last_request_ r)
    (last_result_ r) (last_check_ r) (current_time_us_ r).
Definition with_deviation_ (v : Z) (r : t) : t :=
  mk (account_ r) (positions_ r) (orders_ r) (deals_ r) (history_orders_ r)
    (next_ticket_ r) (symbols_ r) (symbol_name_to_id_ r) (magic_number_ r) v
    (type_filling_ r) (async_mode_ r) (log_level_ r) (last_request_ r)
    (last_result_ r) (last_check_ r) (current_time_us_ r).
Definition with_type_filling_ (v : ENUM_ORDER_TYPE_FILLING) (r : t) : t :=
  mk (account_ r) (positions_ r) (orders_ r) (deals_ r) (history_orders_ r)
    (next_ticket_ r) (symbols_ r) (symbol_name_to_id_ r) (magic_number_ r)
    (deviation_ r) v (async_mode_ r) (log_level_ r) (last_request_ r)
    (last_result_ r) (last_check_ r) (current_time_us_ r).
Definition with_async_mode_ (v : bool) (r : t) : t :=
  mk (account_ r) (positions_ r) (orders_ r) (deals_ r) (history_orders_ r)
    (next_ticket_ r) (symbols_ r) (symbol_name_to_id_ r) (magic_number_ r)
    (deviation_ r) (type_filling_ r) v (log_level_ r) (last_request_ r)
    (last_result_ r) (last_check_ r) (current_time_us_ r).
Definition with_log_level_ (v : Z) (r : t) : t :=
  mk (account_ r) (positions_ r) (orders_ r) (deals_ r) (history_orders_ r)
    (next_ticket_ r) (symbols_ r) (symbol_name_to_id_ r) (magic_number_ r)
    (deviation_ r) (type_filling_ r) (async_mode_ r) v (last_request_ r)
    (last_result_ r) (last_check_ r) (current_time_us_ r).
Definition with_last_request_ (v : MqlTradeRequest.t) (r : t) : t :=
  mk (account_ r) (positions_ r) (orders_ r) (deals_ r) (history_orders_ r)
    (next_ticket_ r) (symbols_ r) (symbol_name_to_id_ r) (magic_number_ r)
    (deviation_ r) (type_filling_ r) (async_mode_ r) (log_level_ r) v
    (last_result_ r) (last_check_ r) (current_time_us_ r).
Definition with_last_result_ (v : MqlTradeResult.t) (r : t) : t :=
  mk (account_ r) (positions_ r) (orders_ r) (deals_ r) (history_orders_ r)
    (next_ticket_ r) (symbols_ r) (symbol_name_to_id_ r) (magic_number_ r)
    (deviation_ r) (type_filling_ r) (async_mode_ r) (log_level_ r)
    (last_request_ r) v (last_check_ r) (current_time_us_ r).
Definition with_last_check_ (v : MqlTradeCheckResult.t) (r : t) : t :=
  mk (account_ r) (positions_ r) (orders_ r) (deals_ r) (history_orders_ r)
    (next_ticket_ r) (symbols_ r) (symbol_name_to_id_ r) (magic_number_ r)
    (deviation_ r) (type_filling_ r) (async_mode_ r) (log_level_ r)
    (last_request_ r) (last_result_ r) v (current_time_us_ r).
Definition with_current_time_us_ (v : Z) (r : t) : t :=
  mk (account_ r) (positions_ r) (orders_ r) (deals_ r) (history_orders_ r)
    (next_ticket_ r) (symbols_ r) (symbol_name_to_id_ r) (magic_number_ r)
    (deviation_ r) (type_filling_ r) (async_mode_ r) (log_level_ r)
    (last_request_ r) (last_result_ r) (last_check_ r) v.

(** [CTrade(initial_balance, currency, leverage)]. *)
Definition init (initial_balance : float) (currency : string) (leverage : Z) : t :=
  mk (AccountInfo.init initial_balance currency leverage)
     ∅ ∅ [] [] 1000 ∅ ∅ 0 10 ORDER_FILLING_FOK false 0
     MqlTradeRequest.default MqlTradeResult.default MqlTradeCheckResult.default 0.

(** [struct Snapshot]. *)
Record Snapshot := mkSnapshot {
  snap_account : AccountInfo.t;
  snap_positions : list PositionInfo.t;
  snap_orders : list OrderInfo.t;
  snap_deals : list DealInfo.t;
  snap_history_orders : list HistoryOrderInfo.t;
  snap_next_ticket : Z;
  snap_symbols : gmap Z SymbolInfo.t
}.

(** [next_ticket_++]: the value drawn and the ledger with the counter
    advanced.  All three issuance sites go through it. *)
Definition take_ticket (t0 : t) : Z * t :=
  (next_ticket_ t0, with_next_ticket_ (wrapU64 (next_ticket_ t0 + 1)) t0).

(** [GetSymbolInfo]. *)
Definition GetSymbolInfo (t0 : t) (symbol : string) : option SymbolInfo.t :=
  match symbol_name_to_id_ t0 !! symbol with
  | None => None
  | Some id => symbols_ t0 !! id
  end.

(** The first position on [symbol] met by [for (auto& [ticket, p] :
    positions_)].  C++ leaves the iteration order of the hash map
    unspecified; the model iterates in the order of [map_to_list]. *)
Definition find_position_by_symbol (t0 : t) (symbol : string)
  : option (Z * PositionInfo.t) :=
  List.find (fun kp => bool_decide (PositionInfo.Symbol (snd kp) = symbol))
            (map_to_list (positions_ t0)).

(** The loop of [UpdateEquity]. *)
Definition profit_units (pos : PositionInfo.t) : Z :=
  Double.to_int64 (PositionInfo.Profit pos * 1000000)%float.

Definition total_unrealized_pnl (positions : gmap Z PositionInfo.t) : Z :=
  map_fold (fun _ pos total => wrap64 (total + profit_units pos)) 0 positions.

(** [UpdateEquity]. *)
Definition UpdateEquity (t0 : t) : t :=
  with_account_
    (AccountInfo.UpdateEquity (total_unrealized_pnl (positions_ t0)) (account_ t0))
    t0.

(** [CalculateMargin]. *)
Definition CalculateMargin (t0 : t) (volume price : float) (info : SymbolInfo.t)
  : float :=
  let notional := (volume * SymbolInfo.ContractSize info * price)%float in
  (notional / Double.of_int (AccountInfo.Leverage (account_ t0)))%float.

(** [CheckRequest(request, check)]; [check] is updated in place. *)
Definition CheckRequest (t0 : t) (request : MqlTradeRequest.t)
  (check : MqlTradeCheckResult.t) : bool * MqlTradeCheckResult.t :=
  let check := MqlTradeCheckResult.with_retcode TRADE_RETCODE_DONE check in
  let check :=
    MqlTradeCheckResult.with_balance (AccountInfo.Balance (account_ t0)) check in
  let check :=
    MqlTradeCheckResult.with_equity (AccountInfo.Equity (account_ t0)) check in
  let check :=
    MqlTradeCheckResult.with_margin (AccountInfo.Margin (account_ t0)) check in
  let check :=
    MqlTradeCheckResult.with_margin_free (AccountInfo.FreeMargin (account_ t0)) check in
  let check :=
    MqlTradeCheckResult.with_margin_level (AccountInfo.MarginLevel (account_ t0)) check in
  let fail rc msg check :=
    (false, MqlTradeCheckResult.with_comment msg
              (MqlTradeCheckResult.with_retcode rc check)) in
  match GetSymbolInfo t0 (MqlTradeRequest.symbol request) with
  | None => fail TRADE_RETCODE_INVALID "Unknown symbol"%string check
  | Some info =>
      if Double.le (MqlTradeRequest.volume request) 0 then
        fail TRADE_RETCODE_INVALID_VOLUME "Invalid volume"%string check
      else if Double.lt (MqlTradeRequest.volume request) (SymbolInfo.LotsMin info)
              || Double.gt (MqlTradeRequest.volume request) (SymbolInfo.LotsMax info)
      then fail TRADE_RETCODE_INVALID_VOLUME "Volume out of range"%string check
      else
        let ok check :=
          (true, MqlTradeCheckResult.with_comment "Request valid"%string check) in
        match MqlTradeRequest.action request with
        | TRADE_ACTION_DEAL | TRADE_ACTION_PENDING =>
            let price :=
              if Double.gt (MqlTradeRequest.price request) 0
              then MqlTradeRequest.price request
              else match MqlTradeRequest.type request with
                   | ORDER_TYPE_BUY => SymbolInfo.Ask info
                   | _ => SymbolInfo.Bid info
                   end in
            let required_margin :=
              CalculateMargin t0 (MqlTradeRequest.volume request) price info in
            let check :=
              MqlTradeCheckResult.with_margin
                (MqlTradeCheckResult.margin check + required_margin)%float check in
            let check :=
              MqlTradeCheckResult.with_margin_free
                (MqlTradeCheckResult.equity check
                 - MqlTradeCheckResult.margin check)%float check in
            if Double.lt (MqlTradeCheckResult.margin_free check) 0 then
              fail TRADE_RETCODE_NO_MONEY "Insufficient margin"%string check
            else
              let check :=
                MqlTradeCheckResult.with_margin_level
                  (if Double.gt (MqlTradeCheckResult.margin check) 0
                   then (MqlTradeCheckResult.equity check
                         / MqlTradeCheckResult.margin check * 100)%float
                   else 0%float) check in
              ok check
        | _ => ok check
        end
  end.

(** [InternalPositionOpen]: the ticket (0 on failure) and the new ledger. *)
Definition InternalPositionOpen (symbol : string) (type : ENUM_POSITION_TYPE)
  (volume price sl tp : float) (comment : string) (t0 : t) : Z * t :=
  match GetSymbolInfo t0 symbol with
  | None => (0, t0)
  | Some info =>
      let '(ticket, t1) := take_ticket t0 in
      let pos := PositionInfo.default in
      let pos := PositionInfo.SetTicket ticket pos in
      let pos := PositionInfo.SetIdentifier ticket pos in
      let pos := PositionInfo.SetSymbol symbol pos in
      let pos := PositionInfo.SetType type pos in
      let pos := PositionInfo.SetVolume volume pos in
      let pos := PositionInfo.SetPriceOpen price pos in
      let pos := PositionInfo.SetPriceCurrent price pos in
      let pos := PositionInfo.SetStopLoss sl pos in
      let pos := PositionInfo.SetTakeProfit tp pos in
      let pos := PositionInfo.SetCommission 0 pos in
      let pos := PositionInfo.SetSwap 0 pos in
      let pos := PositionInfo.SetTime (current_time_us_ t1) 0 pos in
      let pos := PositionInfo.SetTimeUpdate (current_time_us_ t1) 0 pos in
      let pos := PositionInfo.SetMagic (magic_number_ t1) pos in
      let pos := PositionInfo.SetComment comment pos in
      let pos := PositionInfo.SetDigits (SymbolInfo.Digits info) pos in
      let pos := PositionInfo.SetPoint (SymbolInfo.Point info) pos in
      let pos := PositionInfo.SetContractSize (SymbolInfo.ContractSize info) pos in
      let pos := PositionInfo.RecalculateProfit pos in
      let t1 := with_positions_ (<[ticket := pos]> (positions_ t1)) t1 in
      let margin := CalculateMargin t1 volume price info in
      let t1 :=
        with_account_
          (AccountInfo.AddMargin (Double.to_int64 (margin * 1000000)%float)
             (account_ t1)) t1 in
      (ticket, UpdateEquity t1)
  end.

(** [InternalPositionClose]. *)
Definition InternalPositionClose (ticket : Z) (volume price : float) (t0 : t)
  : bool * t :=
  match positions_ t0 !! ticket with
  | None => (false, t0)
  | Some pos =>
      match GetSymbolInfo t0 (PositionInfo.Symbol pos) with
      | None => (false, t0)
      | Some info =>
          let pos := PositionInfo.UpdatePrice price pos in
          let close_volume := Double.min volume (PositionInfo.Volume pos) in
          let full_close := Double.ge close_volume (PositionInfo.Volume pos) in
          let profit_ratio := (close_volume / PositionInfo.Volume pos)%float in
          let realized_profit := (PositionInfo.Profit pos * profit_ratio)%float in
          let '(deal_ticket, t1) := take_ticket t0 in
          let deal := DealInfo.default in
          let deal := DealInfo.SetTicket deal_ticket deal in
          let deal := DealInfo.SetPositionId ticket deal in
          let deal := DealInfo.SetOrder 0 deal in
          let deal := DealInfo.SetSymbol (PositionInfo.Symbol pos) deal in
          let deal_type :=
            match PositionInfo.PositionType pos with
            | POSITION_TYPE_BUY => DEAL_TYPE_SELL
            | POSITION_TYPE_SELL => DEAL_TYPE_BUY
            end in
          let deal := DealInfo.SetType deal_type deal in
          let deal := DealInfo.SetEntry DEAL_ENTRY_OUT deal in
          let deal := DealInfo.SetVolume close_volume deal in
          let deal := DealInfo.SetPrice price deal in
          let deal := DealInfo.SetProfit realized_profit deal in
          let deal := DealInfo.SetCommission
                        (PositionInfo.Commission pos * profit_ratio)%float deal in
          let deal := DealInfo.SetSwap
                        (PositionInfo.Swap pos * profit_ratio)%float deal in
          let deal := DealInfo.SetTime (current_time_us_ t1) 0 deal in
          let deal := DealInfo.SetMagic (PositionInfo.Magic pos) deal in
          let deal := DealInfo.SetComment (PositionInfo.Comment pos) deal in
          let deal := DealInfo.SetEntryPrice (PositionInfo.PriceOpen pos) deal in
          let deal := DealInfo.SetExitPrice price deal in
          let deal := DealInfo.SetEntryTime (PositionInfo.Time pos) deal in
          let deal := DealInfo.SetExitTime (current_time_us_ t1) deal in
          let t1 := with_deals_ (deals_ t1 ++ [deal]) t1 in
          let realized_pnl_fp := Double.to_int64 (realized_profit * 1000000)%float in
          let commission_fp :=
            Double.to_int64 (DealInfo.Commission deal * 1000000)%float in
          let swap_fp := Double.to_int64 (DealInfo.Swap deal * 1000000)%float in
          let t1 :=
            with_account_
              (AccountInfo.ApplyRealizedPnL realized_pnl_fp commission_fp swap_fp
                 (account_ t1)) t1 in
          let t1 :=
            if full_close then
              let margin :=
                CalculateMargin t1 (PositionInfo.Volume pos)
                                (PositionInfo.PriceOpen pos) info in
              let t1 :=
                with_account_
                  (AccountInfo.SubtractMargin
                     (Double.to_int64 (margin * 1000000)%float) (account_ t1)) t1 in
              with_positions_ (delete ticket (positions_ t1)) t1
            else
              let pos :=
                PositionInfo.SetVolume
                  (PositionInfo.Volume pos - close_volume)%float pos in
              let pos := PositionInfo.RecalculateProfit pos in
              let old_margin :=
                CalculateMargin t1 (PositionInfo.Volume pos + close_volume)%float
                                (PositionInfo.PriceOpen pos) info in
              let new_margin :=
                CalculateMargin t1 (PositionInfo.Volume pos)
                                (PositionInfo.PriceOpen pos) info in
              let t1 :=
                with_account_
                  (AccountInfo.SubtractMargin
                     (Double.to_int64 ((old_margin - new_margin) * 1000000)%float)
                     (account_ t1)) t1 in
              with_positions_ (<[ticket := pos]> (positions_ t1)) t1 in
          let t1 := UpdateEquity t1 in
          let result := last_result_ t1 in
          let result := MqlTradeResult.with_retcode TRADE_RETCODE_DONE result in
          let result := MqlTradeResult.with_deal (DealInfo.Ticket deal) result in
          let result := MqlTradeResult.with_volume close_volume result in
          let result := MqlTradeResult.with_price price result in
          let result :=
            MqlTradeResult.with_comment
              (if full_close then "Position closed"
               else "Position partially closed")%string result in
          (true, with_last_result_ result t1)
      end
  end.

(** [InternalOrderPlace]. *)
Definition InternalOrderPlace (symbol : string) (type : ENUM_ORDER_TYPE)
  (volume price stop_limit sl tp : float) (type_time : ENUM_ORDER_TYPE_TIME)
  (expiration : Z) (comment : string) (t0 : t) : Z * t :=
  match GetSymbolInfo t0 symbol with
  | None => (0, t0)
  | Some info =>
      let '(ticket, t1) := take_ticket t0 in
      let order := OrderInfo.default in
      let order := OrderInfo.SetTicket ticket order in
      let order := OrderInfo.SetSymbol symbol order in
      let order := OrderInfo.SetOrderType type order in
      let order := OrderInfo.SetState ORDER_STATE_PLACED order in
      let order := OrderInfo.SetVolumeInitial volume order in
      let order := OrderInfo.SetVolumeCurrent volume order in
      let order := OrderInfo.SetPriceOpen price order in
      let order := OrderInfo.SetStopLoss sl order in
      let order := OrderInfo.SetTakeProfit tp order in
      let order := OrderInfo.SetPriceStopLimit stop_limit order in
      let order := OrderInfo.SetTypeFilling (type_filling_ t1) order in
      let order := OrderInfo.SetTypeTime type_time order in
      let order := OrderInfo.SetTimeExpiration expiration order in
      let order := OrderInfo.SetTimeSetup (current_time_us_ t1) 0 order in
      let order := OrderInfo.SetTimeDone 0 0 order in
      let order := OrderInfo.SetMagic (magic_number_ t1) order in
      let order := OrderInfo.SetComment comment order in
      (ticket, with_orders_ (<[ticket := order]> (orders_ t1)) t1)
  end.

(** [ExecuteRequest(request, result)] with [result = last_result_]. *)
Definition ExecuteRequest (request : MqlTradeRequest.t) (t0 : t) : bool * t :=
  let result := MqlTradeResult.default in
  let finish (b : bool) result t1 := (b, with_last_result_ result t1) in
  let fail rc msg result t1 :=
    finish false
      (MqlTradeResult.with_comment msg (MqlTradeResult.with_retcode rc result)) t1 in
  match GetSymbolInfo t0 (MqlTradeRequest.symbol request) with
  | None => fail TRADE_RETCODE_INVALID "Symbol not found"%string result t0
  | Some info =>
      let result := MqlTradeResult.with_bid (SymbolInfo.Bid info) result in
      let result := MqlTradeResult.with_ask (SymbolInfo.Ask info) result in
      match MqlTradeRequest.action request with
      | TRADE_ACTION_DEAL =>
          let side :=
            match MqlTradeRequest.type request with
            | ORDER_TYPE_BUY => Some (POSITION_TYPE_BUY, SymbolInfo.Ask info)
            | ORDER_TYPE_SELL => Some (POSITION_TYPE_SELL, SymbolInfo.Bid info)
            | _ => None
            end in
          match side with
          | None =>
              fail TRADE_RETCODE_INVALID
                   "Invalid order type for market execution"%string result t0
          | Some (pos_type, exec_price) =>
              let '(ticket, t1) :=
                InternalPositionOpen (MqlTradeRequest.symbol request) pos_type
                  (MqlTradeRequest.volume request) exec_price
                  (MqlTradeRequest.sl request) (MqlTradeRequest.tp request)
                  (MqlTradeRequest.comment request) t0 in
              if 0 <? ticket then
                let result := MqlTradeResult.with_retcode TRADE_RETCODE_DONE result in
                let result := MqlTradeResult.with_order ticket result in
                let result :=
                  MqlTradeResult.with_volume (MqlTradeRequest.volume request) result in
                let result := MqlTradeResult.with_price exec_price result in
                let result :=
                  MqlTradeResult.with_comment "Position opened"%string result in
                finish true result t1
              else
                fail TRADE_RETCODE_ERROR "Failed to open position"%string result t1
          end
      | TRADE_ACTION_PENDING =>
          let '(ticket, t1) :=
            InternalOrderPlace (MqlTradeRequest.symbol request)
              (MqlTradeRequest.type request) (MqlTradeRequest.volume request)
              (MqlTradeRequest.price request) (MqlTradeRequest.stoplimit request)
              (MqlTradeRequest.sl request) (MqlTradeRequest.tp request)
              (MqlTradeRequest.type_time request)
              (MqlTradeRequest.expiration request)
              (MqlTradeRequest.comment request) t0 in
          if 0 <? ticket then
            let result := MqlTradeResult.with_retcode TRADE_RETCODE_PLACED result in
            let result := MqlTradeResult.with_order ticket result in
            let result :=
              MqlTradeResult.with_volume (MqlTradeRequest.volume request) result in
            let result :=
              MqlTradeResult.with_price (MqlTradeRequest.price request) result in
            let result := MqlTradeResult.with_comment "Order placed"%string result in
            finish true result t1
          else fail TRADE_RETCODE_ERROR "Failed to place order"%string result t1
      | _ => fail TRADE_RETCODE_INVALID "Unsupported action"%string result t0
      end
  end.

(** The tail shared by [PositionOpen] and [OrderOpen]: check, then execute
    (the logging calls have no effect on the ledger). *)
Definition check_and_execute (t0 : t) : bool * t :=
  let '(ok, check) := CheckRequest t0 (last_request_ t0) (last_check_ t0) in
  let t1 := with_last_check_ check t0 in
  if negb ok then
    let result := last_result_ t1 in
    let result :=
      MqlTradeResult.with_retcode (MqlTradeCheckResult.retcode check) result in
    let result :=
      MqlTradeResult.with_comment (MqlTradeCheckResult.comment check) result in
    (false, with_last_result_ result t1)
  else ExecuteRequest (last_request_ t1) t1.

(** [PositionOpen]. *)
Definition PositionOpen (symbol : string) (order_type : ENUM_ORDER_TYPE)
  (volume price sl tp : float) (comment : string) (t0 : t) : bool * t :=
  let r := MqlTradeRequest.default in
  let r := MqlTradeRequest.with_action TRADE_ACTION_DEAL r in
  let r := MqlTradeRequest.with_symbol symbol r in
  let r := MqlTradeRequest.with_type order_type r in
  let r := MqlTradeRequest.with_volume volume r in
  let r := MqlTradeRequest.with_price price r in
  let r := MqlTradeRequest.with_sl sl r in
  let r := MqlTradeRequest.with_tp tp r in
  let r := MqlTradeRequest.with_deviation (deviation_ t0) r in
  let r := MqlTradeRequest.with_type_filling (type_filling_ t0) r in
  let r := MqlTradeRequest.with_magic (magic_number_ t0) r in
  let r := MqlTradeRequest.with_comment comment r in
  check_and_execute (with_last_request_ r t0).

(** The failure exit: [last_result_.retcode] and [.comment], [return false]. *)
Definition fail_with (rc : ENUM_TRADE_RETCODE) (msg : string) (t0 : t) : bool * t :=
  (false,
   with_last_result_
     (MqlTradeResult.with_comment msg
        (MqlTradeResult.with_retcode rc (last_result_ t0))) t0).

(** [PositionModify(ticket, sl, tp)]. *)
Definition PositionModify (ticket : Z) (sl tp : float) (t0 : t) : bool * t :=
  match positions_ t0 !! ticket with
  | None => fail_with TRADE_RETCODE_INVALID_ORDER "Position not found" t0
  | Some pos =>
      let r := MqlTradeRequest.default in
      let r := MqlTradeRequest.with_action TRADE_ACTION_SLTP r in
      let r := MqlTradeRequest.with_position ticket r in
      let r := MqlTradeRequest.with_symbol (PositionInfo.Symbol pos) r in
      let r := MqlTradeRequest.with_sl sl r in
      let r := MqlTradeRequest.with_tp tp r in
      let r := MqlTradeRequest.with_magic (magic_number_ t0) r in
      let t1 := with_last_request_ r t0 in
      let pos := if Double.gt sl 0 then PositionInfo.SetStopLoss sl pos else pos in
      let pos := if Double.gt tp 0 then PositionInfo.SetTakeProfit tp pos else pos in
      let t1 := with_positions_ (<[ticket := pos]> (positions_ t1)) t1 in
      let result := last_result_ t1 in
      let result := MqlTradeResult.with_retcode TRADE_RETCODE_DONE result in
      let result := MqlTradeResult.with_comment "Position modified"%string result in
      (true, with_last_result_ result t1)
  end.

(** [PositionModify(symbol, sl, tp)]. *)
Definition PositionModifyBySymbol (symbol : string) (sl tp : float) (t0 : t)
  : bool * t :=
  match find_position_by_symbol t0 symbol with
  | None => fail_with TRADE_RETCODE_INVALID_ORDER "Position not found" t0
  | Some (_, pos) => PositionModify (PositionInfo.Ticket pos) sl tp t0
  end.

(** [PositionClose(ticket, deviation)]. *)
Definition PositionClose (ticket deviation : Z) (t0 : t) : bool * t :=
  match positions_ t0 !! ticket with
  | None => fail_with TRADE_RETCODE_POSITION_CLOSED "Position not found" t0
  | Some pos =>
      let r := MqlTradeRequest.default in
      let r := MqlTradeRequest.with_action TRADE_ACTION_DEAL r in
      let r := MqlTradeRequest.with_position ticket r in
      let r := MqlTradeRequest.with_symbol (PositionInfo.Symbol pos) r in
      let r := MqlTradeRequest.with_volume (PositionInfo.Volume pos) r in
      let r := MqlTradeRequest.with_deviation
                 (if 0 <? deviation then deviation else deviation_ t0) r in
      let r := MqlTradeRequest.with_magic (magic_number_ t0) r in
      let t1 := with_last_request_ r t0 in
      match GetSymbolInfo t1 (PositionInfo.Symbol pos) with
      | None => fail_with TRADE_RETCODE_INVALID "Symbol not found" t1
      | Some info =>
          let close_price :=
            match PositionInfo.PositionType pos with
            | POSITION_TYPE_BUY => SymbolInfo.Bid info
            | POSITION_TYPE_SELL => SymbolInfo.Ask info
            end in
          InternalPositionClose ticket (PositionInfo.Volume pos) close_price t1
      end
  end.

(** [PositionClose(symbol, deviation)]. *)
Definition PositionCloseBySymbol (symbol : string) (deviation : Z) (t0 : t)
  : bool * t :=
  match find_position_by_symbol t0 symbol with
  | None => fail_with TRADE_RETCODE_INVALID_ORDER "Position not found" t0
  | Some (ticket, _) =>
      if ticket =? 0
      then fail_with TRADE_RETCODE_INVALID_ORDER "Position not found" t0
      else PositionClose ticket deviation t0
  end.

(** [PositionClosePartial(ticket, volume, deviation)]. *)
Definition PositionClosePartial (ticket : Z) (volume : float) (deviation : Z)
  (t0 : t) : bool * t :=
  match positions_ t0 !! ticket with
  | None => fail_with TRADE_RETCODE_POSITION_CLOSED "Position not found" t0
  | Some pos =>
      if Double.ge volume (PositionInfo.Volume pos) then
        PositionClose ticket deviation t0
      else
        match GetSymbolInfo t0 (PositionInfo.Symbol pos) with
        | None => fail_with TRADE_RETCODE_INVALID "Symbol not found" t0
        | Some info =>
            let close_price :=
              match PositionInfo.PositionType pos with
              | POSITION_TYPE_BUY => SymbolInfo.Bid info
              | POSITION_TYPE_SELL => SymbolInfo.Ask info
              end in
            let r := MqlTradeRequest.default in
            let r := MqlTradeRequest.with_action TRADE_ACTION_DEAL r in
            let r := MqlTradeRequest.with_position ticket r in
            let r := MqlTradeRequest.with_symbol (PositionInfo.Symbol pos) r in
            let r := MqlTradeRequest.with_volume volume r in
            let r := MqlTradeRequest.with_deviation
                       (if 0 <? deviation then deviation else deviation_ t0) r in
            let r := MqlTradeRequest.with_magic (magic_number_ t0) r in
            InternalPositionClose ticket volume close_price
              (with_last_request_ r t0)
        end
  end.

(** [PositionClosePartial(symbol, volume, deviation)]. *)
Definition PositionClosePartialBySymbol (symbol : string) (volume : float)
  (deviation : Z) (t0 : t) : bool * t :=
  match find_position_by_symbol t0 symbol with
  | None => fail_with TRADE_RETCODE_INVALID_ORDER "Position not found" t0
  | Some (ticket, _) =>
      if ticket =? 0
      then fail_with TRADE_RETCODE_INVALID_ORDER "Position not found" t0
      else PositionClosePartial ticket volume deviation t0
  end.

(** [PositionCloseBy(ticket, ticket_by)]. *)
Definition PositionCloseBy (ticket ticket_by : Z) (t0 : t) : bool * t :=
  match positions_ t0 !! ticket, positions_ t0 !! ticket_by with
  | Some pos1, Some pos2 =>
      if negb (bool_decide (PositionInfo.Symbol pos1 = PositionInfo.Symbol pos2))
      then fail_with TRADE_RETCODE_INVALID "Positions must be on same symbol" t0
      else if bool_decide (PositionInfo.PositionType pos1
                           = PositionInfo.PositionType pos2)
      then fail_with TRADE_RETCODE_INVALID "Positions must be opposite types" t0
      else
        let r := MqlTradeRequest.default in
        let r := MqlTradeRequest.with_action TRADE_ACTION_CLOSE_BY r in
        let r := MqlTradeRequest.with_position ticket r in
        let r := MqlTradeRequest.with_position_by ticket_by r in
        let r := MqlTradeRequest.with_magic (magic_number_ t0) r in
        let t1 := with_last_request_ r t0 in
        let volume :=
          Double.min (PositionInfo.Volume pos1) (PositionInfo.Volume pos2) in
        match GetSymbolInfo t1 (PositionInfo.Symbol pos1) with
        | None => fail_with TRADE_RETCODE_INVALID "Symbol not found" t1
        | Some info =>
            let price := SymbolInfo.Bid info in
            let '(success, t2) := InternalPositionClose ticket volume price t1 in
            if success
            then (success, snd (InternalPositionClose ticket_by volume price t2))
            else (success, t2)
        end
  | _, _ => fail_with TRADE_RETCODE_INVALID_ORDER "Position not found" t0
  end.

(** [OrderOpen]. *)
Definition OrderOpen (symbol : string) (order_type : ENUM_ORDER_TYPE)
  (volume limit_price stop_price sl tp : float)
  (type_time : ENUM_ORDER_TYPE_TIME) (expiration : Z) (comment : string)
  (t0 : t) : bool * t :=
  let r := MqlTradeRequest.default in
  let r := MqlTradeRequest.with_action TRADE_ACTION_PENDING r in
  let r := MqlTradeRequest.with_symbol symbol r in
  let r := MqlTradeRequest.with_type order_type r in
  let r := MqlTradeRequest.with_volume volume r in
  let r := MqlTradeRequest.with_price limit_price r in
  let r := MqlTradeRequest.with_stoplimit stop_price r in
  let r := MqlTradeRequest.with_sl sl r in
  let r := MqlTradeRequest.with_tp tp r in
  let r := MqlTradeRequest.with_type_filling (type_filling_ t0) r in
  let r := MqlTradeRequest.with_type_time type_time r in
  let r := MqlTradeRequest.with_expiration expiration r in
  let r := MqlTradeRequest.with_magic (magic_number_ t0) r in
  let r := MqlTradeRequest.with_comment comment r in
  check_and_execute (with_last_request_ r t0).

(** [OrderModify]. *)
Definition OrderModify (ticket : Z) (price sl tp stop_limit : float)
  (expiration : Z) (t0 : t) : bool * t :=
  match orders_ t0 !! ticket with
  | None => fail_with TRADE_RETCODE_INVALID_ORDER "Order not found" t0
  | Some order =>
      let r := MqlTradeRequest.default in
      let r := MqlTradeRequest.with_action TRADE_ACTION_MODIFY r in
      let r := MqlTradeRequest.with_order ticket r in
      let r := MqlTradeRequest.with_price price r in
      let r := MqlTradeRequest.with_stoplimit stop_limit r in
      let r := MqlTradeRequest.with_sl sl r in
      let r := MqlTradeRequest.with_tp tp r in
      let r := MqlTradeRequest.with_expiration expiration r in
      let r := MqlTradeRequest.with_magic (magic_number_ t0) r in
      let t1 := with_last_request_ r t0 in
      let order := if Double.gt price 0 then OrderInfo.SetPriceOpen price order
                   else order in
      let order := if Double.gt sl 0 then OrderInfo.SetStopLoss sl order
                   else order in
      let order := if Double.gt tp 0 then OrderInfo.SetTakeProfit tp order
                   else order in
      let order := if Double.gt stop_limit 0
                   then OrderInfo.SetPriceStopLimit stop_limit order else order in
      let order := if 0 <? expiration
                   then OrderInfo.SetTimeExpiration expiration order else order in
      let t1 := with_orders_ (<[ticket := order]> (orders_ t1)) t1 in
      let result := last_result_ t1 in
      let result := MqlTradeResult.with_retcode TRADE_RETCODE_DONE result in
      let result := MqlTradeResult.with_order ticket result in
      let result := MqlTradeResult.with_comment "Order modified"%string result in
      (true, with_last_result_ result t1)
  end.

(** [OrderDelete]. *)
Definition OrderDelete (ticket : Z) (t0 : t) : bool * t :=
  match orders_ t0 !! ticket with
  | None => fail_with TRADE_RETCODE_INVALID_ORDER "Order not found" t0
  | Some order =>
      let r := MqlTradeRequest.default in
      let r := MqlTradeRequest.with_action TRADE_ACTION_REMOVE r in
      let r := MqlTradeRequest.with_order ticket r in
      let r := MqlTradeRequest.with_magic (magic_number_ t0) r in
      let t1 := with_last_request_ r t0 in
      let order := OrderInfo.SetState ORDER_STATE_CANCELED order in
      let order := OrderInfo.SetTimeDone (current_time_us_ t1) 0 order in
      let t1 :=
        with_history_orders_
          (history_orders_ t1 ++ [HistoryOrderInfo.of_order order]) t1 in
      let t1 := with_orders_ (delete ticket (orders_ t1)) t1 in
      let result := last_result_ t1 in
      let result := MqlTradeResult.with_retcode TRADE_RETCODE_DONE result in
      let result := MqlTradeResult.with_comment "Order deleted"%string result in
      (true, with_last_result_ result t1)
  end.

(** [RegisterSymbol]. *)
Definition RegisterSymbol (info : SymbolInfo.t) (t0 : t) : t :=
  let id := SymbolInfo.SymbolId info in
  let t1 := with_symbols_ (<[id := info]> (symbols_ t0)) t0 in
  with_symbol_name_to_id_
    (<[SymbolInfo.Name info := id]> (symbol_name_to_id_ t1)) t1.

(** [UpdatePrices]. *)
Definition UpdatePrices (symbol : string) (bid ask : float) (timestamp : Z)
  (t0 : t) : t :=
  match symbol_name_to_id_ t0 !! symbol with
  | None => t0
  | Some id =>
      match symbols_ t0 !! id with
      | None => t0
      | Some sym =>
          let t1 :=
            with_symbols_
              (<[id := SymbolInfo.UpdatePrice bid ask timestamp sym]> (symbols_ t0))
              t0 in
          let t1 := if 0 <? timestamp then with_current_time_us_ timestamp t1
                    else t1 in
          let update (pos : PositionInfo.t) :=
            if bool_decide (PositionInfo.Symbol pos = symbol) then
              let current_price :=
                match PositionInfo.PositionType pos with
                | POSITION_TYPE_BUY => bid
                | POSITION_TYPE_SELL => ask
                end in
              PositionInfo.UpdatePrice current_price pos
            else pos in
          let t1 := with_positions_ (update <$> positions_ t1) t1 in
          UpdateEquity t1
      end
  end.

(** [SetCurrentTime], [SetExpertMagicNumber], [SetDeviationInPoints],
    [SetTypeFilling]. *)
Definition SetCurrentTime (timestamp_us : Z) (t0 : t) : t :=
  with_current_time_us_ timestamp_us t0.
Definition SetExpertMagicNumber (magic : Z) (t0 : t) : t :=
  with_magic_number_ magic t0.
Definition SetDeviationInPoints (deviation : Z) (t0 : t) : t :=
  with_deviation_ deviation t0.
Definition SetTypeFilling (filling : ENUM_ORDER_TYPE_FILLING) (t0 : t) : t :=
  with_type_filling_ filling t0.

(** [LogLevel(int)] and [SetAsyncMode]. *)
Definition LogLevel (log_level : Z) (t0 : t) : t := with_log_level_ log_level t0.
Definition SetAsyncMode (mode : bool) (t0 : t) : t := with_async_mode_ mode t0.

(** [TrailingStopEnable] and [TrailingStopDisable]. *)
Definition TrailingStopEnable (ticket distance step : Z) (t0 : t) : bool * t :=
  match positions_ t0 !! ticket with
  | None => (false, t0)
  | Some pos =>
      let pos := PositionInfo.SetTrailingDistance distance pos in
      let pos := PositionInfo.SetTrailingStep step pos in
      let pos := PositionInfo.SetTrailingTrigger (PositionInfo.PriceCurrent pos) pos in
      (true, with_positions_ (<[ticket := pos]> (positions_ t0)) t0)
  end.

Definition TrailingStopDisable (ticket : Z) (t0 : t) : bool * t :=
  match positions_ t0 !! ticket with
  | None => (false, t0)
  | Some pos =>
      let pos := PositionInfo.SetTrailingDistance 0 pos in
      let pos := PositionInfo.SetTrailingStep 0 pos in
      (true, with_positions_ (<[ticket := pos]> (positions_ t0)) t0)
  end.

(** The body of the loop of [UpdateTrailingStops] for one position. *)
Definition trail_position (t0 : t) (pos : PositionInfo.t) : PositionInfo.t :=
  let distance := PositionInfo.GetTrailingDistance pos in
  if distance =? 0 then pos
  else
    match GetSymbolInfo t0 (PositionInfo.Symbol pos) with
    | None => pos
    | Some info =>
        let trail_distance := (Double.of_int distance * SymbolInfo.Point info)%float in
        let step := PositionInfo.GetTrailingStep pos in
        let current_price := PositionInfo.PriceCurrent pos in
        let current_sl := PositionInfo.StopLoss pos in
        let step_distance := (Double.of_int step * SymbolInfo.Point info)%float in
        let trigger_price :=
          (Double.of_int (PositionInfo.GetTrailingTrigger pos)
           / Double.pow10 (SymbolInfo.Digits info))%float in
        let move new_sl :=
          PositionInfo.SetTrailingTrigger current_price
            (PositionInfo.SetStopLoss new_sl pos) in
        match PositionInfo.PositionType pos with
        | POSITION_TYPE_BUY =>
            let new_sl := (current_price - trail_distance)%float in
            if PrimFloat.eqb current_sl 0 || Double.gt new_sl current_sl then
              if 0 <? step then
                if Double.gt current_sl 0 then
                  if Double.lt (new_sl - current_sl) step_distance then pos
                  else move new_sl
                else
                  if Double.lt (current_price - trigger_price) step_distance
                  then pos else move new_sl
              else move new_sl
            else pos
        | POSITION_TYPE_SELL =>
            let new_sl := (current_price + trail_distance)%float in
            if PrimFloat.eqb current_sl 0 || Double.lt new_sl current_sl then
              if 0 <? step then
                if Double.gt current_sl 0 then
                  if Double.lt (current_sl - new_sl) step_distance then pos
                  else move new_sl
                else
                  if Double.lt (trigger_price - current_price) step_distance
                  then pos else move new_sl
              else move new_sl
            else pos
        end
    end.

(** [UpdateTrailingStops]: each position is updated on its own. *)
Definition UpdateTrailingStops (t0 : t) : t :=
  with_positions_ (trail_position t0 <$> positions_ t0) t0.

(** [CreateSnapshot] and [RestoreSnapshot]. *)
Definition CreateSnapshot (t0 : t) : Snapshot :=
  mkSnapshot (account_ t0)
             (snd <$> map_to_list (positions_ t0))
             (snd <$> map_to_list (orders_ t0))
             (deals_ t0) (history_orders_ t0) (next_ticket_ t0) (symbols_ t0).

Definition RestoreSnapshot (snap : Snapshot) (t0 : t) : t :=
  let t1 := with_account_ (snap_account snap) t0 in
  let t1 := with_next_ticket_ (snap_next_ticket snap) t1 in
  let t1 := with_symbols_ (snap_symbols snap) t1 in
  let t1 := with_deals_ (snap_deals snap) t1 in
  let t1 := with_history_orders_ (snap_history_orders snap) t1 in
  let t1 :=
    with_positions_
      (fold_left (fun m pos => <[PositionInfo.Ticket pos := pos]> m)
                 (snap_positions snap) ∅) t1 in
  with_orders_
    (fold_left (fun m order => <[OrderInfo.Ticket order := order]> m)
               (snap_orders snap) ∅) t1.

(** The public commands that change the ledger, other than
    [RestoreSnapshot].  The quick-trade methods [Buy], [Sell], [BuyLimit],
    [BuyStop], [SellLimit] and [SellStop] are [PositionOpen] and [OrderOpen]
    with some arguments fixed, and are covered by those two. *)
Inductive Command :=
| CmdPositionOpen (symbol : string) (order_type : ENUM_ORDER_TYPE)
    (volume price sl tp : float) (comment : string)
| CmdPositionModify (ticket : Z) (sl tp : float)
| CmdPositionModifyBySymbol (symbol : string) (sl tp : float)
| CmdPositionClose (ticket deviation : Z)
| CmdPositionCloseBySymbol (symbol : string) (deviation : Z)
| CmdPositionClosePartial (ticket : Z) (volume : float) (deviation : Z)
| CmdPositionClosePartialBySymbol (symbol : string) (volume : float)
    (deviation : Z)
| CmdPositionCloseBy (ticket ticket_by : Z)
| CmdOrderOpen (symbol : string) (order_type : ENUM_ORDER_TYPE)
    (volume limit_price stop_price sl tp : float)
    (type_time : ENUM_ORDER_TYPE_TIME) (expiration : Z) (comment : string)
| CmdOrderModify (ticket : Z) (price sl tp stop_limit : float) (expiration : Z)
| CmdOrderDelete (ticket : Z)
| CmdRegisterSymbol (info : SymbolInfo.t)
| CmdUpdatePrices (symbol : string) (bid ask : float) (timestamp : Z)
| CmdSetCurrentTime (timestamp_us : Z)
| CmdSetExpertMagicNumber (magic : Z)
| CmdSetDeviationInPoints (deviation : Z)
| CmdSetTypeFilling (filling : ENUM_ORDER_TYPE_FILLING)
| CmdLogLevel (log_level : Z)
| CmdSetAsyncMode (mode : bool)
| CmdTrailingStopEnable (ticket distance step : Z)
| CmdTrailingStopDisable (ticket : Z)
| CmdUpdateTrailingStops.

(** Running one command: its [bool] result ([true] for the [void] ones) and
    the ledger afterwards. *)
Definition exec (c : Command) (t0 : t) : bool * t :=
  match c with
  | CmdPositionOpen symbol ty volume price sl tp comment =>
      PositionOpen symbol ty volume price sl tp comment t0
  | CmdPositionModify ticket sl tp => PositionModify ticket sl tp t0
  | CmdPositionModifyBySymbol symbol sl tp => PositionModifyBySymbol symbol sl tp t0
  | CmdPositionClose ticket deviation => PositionClose ticket deviation t0
  | CmdPositionCloseBySymbol symbol deviation =>
      PositionCloseBySymbol symbol deviation t0
  | CmdPositionClosePartial ticket volume deviation =>
      PositionClosePartial ticket volume deviation t0
  | CmdPositionClosePartialBySymbol symbol volume deviation =>
      PositionClosePartialBySymbol symbol volume deviation t0
  | CmdPositionCloseBy ticket ticket_by => PositionCloseBy ticket ticket_by t0
  | CmdOrderOpen symbol ty volume limit stop sl tp type_time expiration comment =>
      OrderOpen symbol ty volume limit stop sl tp type_time expiration comment t0
  | CmdOrderModify ticket price sl tp stop_limit expiration =>
      OrderModify ticket price sl tp stop_limit expiration t0
  | CmdOrderDelete ticket => OrderDelete ticket t0
  | CmdRegisterSymbol info => (true, RegisterSymbol info t0)
  | CmdUpdatePrices symbol bid ask timestamp =>
      (true, UpdatePrices symbol bid ask timestamp t0)
  | CmdSetCurrentTime ts => (true, SetCurrentTime ts t0)
  | CmdSetExpertMagicNumber magic => (true, SetExpertMagicNumber magic t0)
  | CmdSetDeviationInPoints deviation => (true, SetDeviationInPoints deviation t0)
  | CmdSetTypeFilling filling => (true, SetTypeFilling filling t0)
  | CmdLogLevel log_level => (true, LogLevel log_level t0)
  | CmdSetAsyncMode mode => (true, SetAsyncMode mode t0)
  | CmdTrailingStopEnable ticket distance step =>
      TrailingStopEnable ticket distance step t0
  | CmdTrailingStopDisable ticket => TrailingStopDisable ticket t0
  | CmdUpdateTrailingStops => (true, UpdateTrailingStops t0)
  end.

(** Running a sequence of commands from left to right. *)
Definition run (cs : list Command) (t0 : t) : t :=
  fold_left (fun acc c => snd (exec c acc)) cs t0.

End CTrade.

(** * Part II: the properties, and the data of the examples *)

(** ** Concrete symbols and ledgers used by the examples *)

Module Fixtures.

Import CTrade.

Local Set Warnings "-inexact-float".

(** EURUSD: five digits, point 0.00001, contract 100000, volumes 0.01 to
    100 in steps of 0.01, stops level 10 points, profit currency USD. *)
Definition eurusd : SymbolInfo.t :=
  SymbolInfo.with_currency_profit_ "USD"
    (SymbolInfo.with_stops_level_ 10
       (SymbolInfo.with_volume_step_ 0.01%float
          (SymbolInfo.with_volume_max_ 100%float
             (SymbolInfo.with_volume_min_ 0.01%float
                (SymbolInfo.with_contract_size_ 100000%float
                   (SymbolInfo.with_point_ 0.00001%float
                      (SymbolInfo.with_digits_ 5
                         (SymbolInfo.with_symbol_id_ 1
                            (SymbolInfo.with_name_ "EURUSD"
                               SymbolInfo.default))))))))).

(** EURGBP: five digits, point 0.00001, profit currency GBP. *)
Definition eurgbp : SymbolInfo.t :=
  SymbolInfo.with_currency_profit_ "GBP"
    (SymbolInfo.with_volume_step_ 0.01%float
       (SymbolInfo.with_volume_max_ 100%float
          (SymbolInfo.with_volume_min_ 0.01%float
             (SymbolInfo.with_contract_size_ 100000%float
                (SymbolInfo.with_point_ 0.00001%float
                   (SymbolInfo.with_digits_ 5
                      (SymbolInfo.with_symbol_id_ 2
                         (SymbolInfo.with_name_ "EURGBP"
                            SymbolInfo.default)))))))).

(** A five-digit instrument with a contract size of one unit. *)
Definition unit_cfd : SymbolInfo.t :=
  SymbolInfo.with_currency_profit_ "USD"
    (SymbolInfo.with_volume_step_ 0.01%float
       (SymbolInfo.with_volume_max_ 100%float
          (SymbolInfo.with_volume_min_ 0.01%float
             (SymbolInfo.with_contract_size_ 1%float
                (SymbolInfo.with_point_ 0.00001%float
                   (SymbolInfo.with_digits_ 5
                      (SymbolInfo.with_symbol_id_ 3
                         (SymbolInfo.with_name_ "UNIT"
                            SymbolInfo.default)))))))).

(** A USD account of 10000 at leverage 100. *)
Definition fresh : t := init 10000 "USD" 100.

(** Scenario S1 up to the open position: EURUSD registered, the tick
    1.10000 / 1.10015 at t = 1 s, and BUY 0.1 with SL 1.09500 and
    TP 1.10500.  The position gets ticket 1000. *)
Definition open_eurusd : list Command :=
  [CmdRegisterSymbol eurusd;
   CmdUpdatePrices "EURUSD" 1.10000 1.10015 1000000;
   CmdPositionOpen "EURUSD" ORDER_TYPE_BUY 0.1 0 1.09500 1.10500 ""].

Definition ledger_eurusd : t := run open_eurusd fresh.

(** The position with ticket 1000 of [ledger_eurusd]. *)
Definition position_1000 : PositionInfo.t :=
  default PositionInfo.default (positions_ ledger_eurusd !! 1000).

(** A stop-loss request one point below the bid. *)
Definition sl_one_point_below_bid : float := 1.09999%float.

(** The next tick of scenario S1 and the close. *)
Definition tick_and_close : list Command :=
  [CmdUpdatePrices "EURUSD" 1.10100 1.10115 2000000;
   CmdPositionClose 1000 0].

(** A USD account holding BUY 0.1 EURGBP opened at 0.85015, after the bid
    moved to 0.85100: a profit of 8.5 GBP. *)
Definition open_eurgbp : list Command :=
  [CmdRegisterSymbol eurgbp;
   CmdUpdatePrices "EURGBP" 0.85000 0.85015 1000000;
   CmdPositionOpen "EURGBP" ORDER_TYPE_BUY 0.1 0 0 0 "";
   CmdUpdatePrices "EURGBP" 0.85100 0.85115 2000000].

Definition ledger_eurgbp : t := run open_eurgbp fresh.

(** Its position, ticket 1000. *)
Definition position_eurgbp : PositionInfo.t :=
  default PositionInfo.default (positions_ ledger_eurgbp !! 1000).

(** BUY 0.01 of the one-unit instrument at 1.00000, after the bid moved to
    1.02491: a profit of 0.000249. *)
Definition open_unit_cfd : list Command :=
  [CmdRegisterSymbol unit_cfd;
   CmdUpdatePrices "UNIT" 0.99990 1.00000 1000000;
   CmdPositionOpen "UNIT" ORDER_TYPE_BUY 0.01 0 0 0 "";
   CmdUpdatePrices "UNIT" 1.02491 1.02501 2000000].

Definition ledger_unit_cfd : t := run open_unit_cfd fresh.

(** The conversion graph of an engine whose account is in USD: one pound is
    1.25 dollars. *)
Definition gbp_usd_rates : CurrencyConverter.t :=
  CurrencyConverter.register_pair "GBP" "USD" 1.25 0 CurrencyConverter.empty.

End Fixtures.

(** ** fixed_point.hpp: the range conditions and the specified rounding *)

Module FixedPointSpec.

Import FixedPoint.





End FixedPointSpec.

(** ** global_clock.hpp: the specified condition *)

Module GlobalClockSpec.

Import GlobalClock.

(** The specification's reading: [target] is at most the timestamp of
    every tracked symbol other than [symbol_id] (at most their minimum). *)
Definition le_all_others (c : t) (symbol_id target : Z) : Prop :=
  forall k v, symbol_timestamps_ c !! k = Some v -> k <> symbol_id -> target <= v.

(** The public operations that change a clock. *)
Inductive Operation :=
| OpUpdateSymbol (symbol_id timestamp : Z)
| OpUpdateBatch (updates : gmap Z Z)
| OpRemoveSymbol (symbol_id : Z)
| OpClear
| OpReset (initial_time : Z).

Definition apply (o : Operation) (c : t) : t :=
  match o with
  | OpUpdateSymbol symbol_id timestamp => update_symbol symbol_id timestamp c
  | OpUpdateBatch updates => update_batch updates c
  | OpRemoveSymbol symbol_id => remove_symbol symbol_id c
  | OpClear => clear c
  | OpReset initial_time => reset initial_time c
  end.

(** Running a sequence of operations from left to right. *)
Definition run (os : list Operation) (c : t) : t :=
  fold_left (fun acc o => apply o acc) os c.

(** The timestamps an operation passes are [int64_t] values of at least
    [lo]. *)
Definition timestamps_from (lo : Z) (o : Operation) : Prop :=
  match o with
  | OpUpdateSymbol _ timestamp => lo <= timestamp <= INT64_MAX
  | OpUpdateBatch updates =>
      forall k v, updates !! k = Some v -> lo <= v <= INT64_MAX
  | OpRemoveSymbol _ | OpClear => True
  | OpReset initial_time => lo <= initial_time <= INT64_MAX
  end.

(** Every tracked timestamp lies in [[lo, INT64_MAX]]. *)
Definition tracked_from (lo : Z) (c : t) : Prop :=
  forall k v, symbol_timestamps_ c !! k = Some v -> lo <= v <= INT64_MAX.

(** The global time is the minimum of the tracked timestamps. *)
Definition is_minimum (c : t) : Prop :=
  (forall k v, symbol_timestamps_ c !! k = Some v -> global_time_ c <= v) /\
  (symbol_timestamps_ c <> ∅ ->
   exists k, symbol_timestamps_ c !! k = Some (global_time_ c)).

End GlobalClockSpec.

(** ** currency_converter.hpp: the specified scenario and reachability *)

Module CurrencyConverterSpec.

Import CurrencyConverter.

(** The binary64 value nearest to 1.10, which is what the C++ literal
    [1.10] denotes. *)
Definition rate_1_10 : float := 0x1.199999999999ap+0%float.

(** Exactly the pairs EUR/USD at 1.10 and USD/JPY at 150, in this order. *)
Definition scenario : t :=
  register_pair "USD" "JPY" 150 0 (register_pair "EUR" "USD" rate_1_10 0 empty).

(** The same registrations in the other order. *)
Definition scenario_swapped : t :=
  register_pair "EUR" "USD" rate_1_10 0 (register_pair "USD" "JPY" 150 0 empty).



(** One conversion step: [y] is in the adjacency set of [x]. *)
Definition edge (g : gmap string (list string)) (x y : string) : Prop :=
  exists l, g !! x = Some l /\ y ∈ l.

(** A chain of conversion steps connects [x] to [y]. *)
Definition reachable (g : gmap string (list string)) : relation string :=
  rtc (edge g).

(** Every currency that occurs in some adjacency set. *)
Definition targets (g : gmap string (list string)) : gset string :=
  map_fold (fun _ l acc => list_to_set l ∪ acc) ∅ g.

(** What the loop of [find_path] still has to do: the queued currencies
    and the currencies not yet visited. *)
Definition bfs_measure (g : gmap string (list string)) (st : bfs_state) : nat :=
  (List.length (queue st) + size (targets g ∖ visited st))%nat.


(** The arguments of one [register_pair] call, and a converter built by a
    sequence of such calls. *)
Definition registration : Type := string * string * float * Z.

Definition register (r : registration) (c : t) : t :=
  let '(b, q, rate, ts) := r in register_pair b q rate ts c.

Definition registered_by (rs : list registration) : t :=
  fold_left (fun c r => register r c) rs empty.

(** Both currency codes of the registration are non-empty strings. *)
Definition named (r : registration) : Prop :=
  let '(b, q, _, _) := r in b <> ""%string /\ q <> ""%string.

(** Every adjacency entry belongs to a non-empty currency code, leads to a
    non-empty code that has an entry of its own, and is backed by a pair in
    one of the two directions. *)
Definition well_formed (c : t) : Prop :=
  (forall x l, graph_ c !! x = Some l -> x <> ""%string) /\
  (forall x y, edge (graph_ c) x y ->
     y <> ""%string /\ is_Some (graph_ c !! y) /\
     (is_Some (pairs_ c !! pair_id x y) \/ is_Some (pairs_ c !! pair_id y x))).

(** Consecutive currencies of the list are joined by conversion steps. *)
Fixpoint linked (g : gmap string (list string)) (l : list string) : Prop :=
  match l with
  | x :: ((y :: _) as rest) => edge g x y /\ linked g rest
  | _ => True
  end.

(** The parent pointers lead from [x] back to [from] along conversion
    steps; [path] lists the currencies met, [x] first. *)
Inductive chain (g : gmap string (list string)) (from : string)
  (par : gmap string string) : string -> list string -> Prop :=
| chain_root : par !! from = Some ""%string -> chain g from par from [from]
| chain_step x p path :
    x <> ""%string -> par !! x = Some p -> p <> ""%string -> edge g p x ->
    chain g from par p path -> chain g from par x (x :: path).






(** The state of the loop of [find_path] between two iterations. *)
Definition bfs_invariant (g : gmap string (list string)) (from to : string)
  (st : bfs_state) : Prop :=
  from ∈ visited st /\
  (forall x, x ∈ queue st -> x ∈ visited st) /\
  (forall x, is_Some (parent st !! x) -> x ∈ visited st) /\
  (forall x, x ∈ visited st ->
     exists path, chain g from (parent st) x path /\
                  (List.length path <= size (parent st))%nat) /\
  (forall x, x ∈ visited st -> x ∉ queue st ->
     x <> to /\ forall y, edge g x y -> y ∈ visited st).

End CurrencyConverterSpec.

(** ** write_ahead_log.hpp: the documented layout and stale memory *)

Module WriteAheadLogSpec.

Import WriteAheadLog.

(** The record layout the header comment documents:
    [magic:4][type:1][length:4][crc32:4][data:N], 13 header bytes. *)
Definition documented_record (ty : Z) (data : list byte) : list byte :=
  le32 MAGIC ++ [ty] ++ le32 (wrapU32 (Z.of_nat (List.length data))) ++
  le32 (calculate_crc32 data) ++ data.

(** The bytes [append] writes for one entry. *)
Definition record (pad : list byte) (entry : Z * list byte) : list byte :=
  take SIZE
    (object_bytes pad
       (mkHeader MAGIC (fst entry) (wrapU32 (Z.of_nat (List.length (snd entry))))
                 (calculate_crc32 (snd entry))))
  ++ snd entry.

(** The upper CRC bytes missing from the file are made up by the stale
    bytes [stale_i] of the header object that [read_all] reads into. *)
Definition crc_survives (stale_i : list byte) (data : list byte) : bool :=
  calculate_crc32 data
  =? le32_decode (Z.land (calculate_crc32 data) 255 :: drop 13 stale_i).

(** Some entry, read in iteration [i] and later, has a non-empty payload
    whose CRC does not survive. *)
Fixpoint crc_lost (stale : nat -> list byte) (i : nat)
  (es : list (Z * list byte)) : bool :=
  match es with
  | [] => false
  | (_, data) :: es' =>
      (negb (bool_decide (data = [])) && negb (crc_survives (stale i) data))
      || crc_lost stale (S i) es'
  end.

(** Indeterminate memory that happens to be all zero. *)
Definition zero_stale (_ : nat) : list byte := repeat 0 16.

(** Indeterminate memory that happens to hold the three upper bytes of the
    CRC-32 of the payload 01 02 03. *)
Definition lucky_stale (_ : nat) : list byte := repeat 0 13 ++ [0x80; 0xBC; 0x55].

End WriteAheadLogSpec.

(** ** costs_engine.hpp: the slippage of a fill and scenario S2 *)

Module CostsSpec.

Import Costs Fixtures.

Section Models.

Context {S C W P RNG : Type}.
Context `{!ISlippageModel S RNG, !ICommissionModel C, !ISwapModel W,
          !ISpreadModel P RNG}.

(** The slippage the engine's model reports for this fill. *)
Definition model_slippage (e : CostsEngine S C W P RNG)
  (side : ENUM_POSITION_TYPE) (vol : float) (tick : Tick.t)
  (info : SymbolInfo.t) : Z :=
  fst (slippage_calculate (slippage_model_ e) side vol tick info (rng_ e)).

End Models.

(** A concrete engine: zero slippage, commission and swap, historical
    spread; the generator state is not inspected by these models. *)
Definition zero_engine
  : CostsEngine ZeroSlippage ZeroCommission ZeroSwap HistoricalSpread unit :=
  mkEngine mkZeroSlippage mkZeroCommission mkZeroSwap (mkHistoricalSpread 0) tt ∅.

(** Scenario S2 of the specification: BUY 1.0 opened at 1.10000 with SL
    1.09500, and the tick bid 1.09000 / ask 1.09015. *)
Definition s2_position : Position :=
  mkPosition 1000 1 POSITION_TYPE_BUY 1%float 110000 109500 0 0 0 0.
Definition s2_tick : Tick.t := Tick.mk 1000000 109000 109015 0 0 1 15.

Definition buy_stop_at_ask : PendingOrder :=
  mkOrder 1001 1 ORDER_TYPE_BUY_STOP 1%float 109015 0 0 0.
Definition sell_limit_at_bid : PendingOrder :=
  mkOrder 1002 1 ORDER_TYPE_SELL_LIMIT 1%float 109000 0 0 0.

(** The length of a day in microseconds, the divisor
    [24LL * 3600LL * 1'000'000LL] of [calculate_swap]. *)
Definition MICROS_PER_DAY : Z := 24 * 3600 * 1000000.

(** An engine with the Islamic holding fee: a one-day grace period and a
    fee of 2.5 per lot and day. *)
Definition islamic_engine
  : CostsEngine ZeroSlippage ZeroCommission IslamicSwap HistoricalSpread unit :=
  mkEngine mkZeroSlippage mkZeroCommission (IslamicSwap_new 2.5 1)
           (mkHistoricalSpread 0) tt ∅.

End CostsSpec.

(** ** trade.cpp: what the modify commands store *)

Module ModifySpec.

Import CTrade Fixtures.

(** The position [PositionModify] stores for an existing ticket. *)
Definition modified_position (sl tp : float) (pos : PositionInfo.t)
  : PositionInfo.t :=
  let pos := if Double.gt sl 0 then PositionInfo.SetStopLoss sl pos else pos in
  if Double.gt tp 0 then PositionInfo.SetTakeProfit tp pos else pos.

(** The order [OrderModify] stores for an existing ticket. *)
Definition modified_order (price sl tp stop_limit : float) (expiration : Z)
  (order : OrderInfo.t) : OrderInfo.t :=
  let order := if Double.gt price 0 then OrderInfo.SetPriceOpen price order
               else order in
  let order := if Double.gt sl 0 then OrderInfo.SetStopLoss sl order else order in
  let order := if Double.gt tp 0 then OrderInfo.SetTakeProfit tp order else order in
  let order := if Double.gt stop_limit 0
               then OrderInfo.SetPriceStopLimit stop_limit order else order in
  if 0 <? expiration then OrderInfo.SetTimeExpiration expiration order else order.

End ModifySpec.

(** ** trade.cpp: the equity invariant *)

Module EquitySpec.

Import CTrade Fixtures.

(** The sum of [u] over the open positions, in the integers. *)
Definition sumZ (u : PositionInfo.t -> Z) (m : gmap Z PositionInfo.t) : Z :=
  map_fold (fun _ pos acc => acc + u pos) 0 m.

(** The equity is the balance plus the profits as [UpdateEquity] reads
    them, in 64-bit arithmetic. *)
Definition equity_ok (t0 : t) : Prop :=
  AccountInfo.equity_ (account_ t0)
  = wrap64 (AccountInfo.balance_ (account_ t0)
            + sumZ profit_units (positions_ t0)).

(** The equity of the specification's words: every position's profit is
    converted from the profit currency of its symbol to the currency of the
    account, and the converted amounts are added to the balance.  [None]
    when a symbol is unknown or a conversion fails. *)
Definition converted_profit_units (conv : CurrencyConverter.t) (t0 : t)
  (pos : PositionInfo.t) : option Z :=
  match GetSymbolInfo t0 (PositionInfo.Symbol pos) with
  | None => None
  | Some info =>
      match CurrencyConverter.convert conv (PositionInfo.Profit pos)
              (SymbolInfo.CurrencyProfit info)
              (AccountInfo.currency_ (account_ t0)) with
      | CurrencyConverter.Return x => Some (Double.to_int64 (x * 1000000)%float)
      | _ => None
      end
  end.

Definition converted_equity (conv : CurrencyConverter.t) (t0 : t) : option Z :=
  map_fold
    (fun _ pos acc =>
       match acc, converted_profit_units conv t0 pos with
       | Some a, Some u => Some (a + u)
       | _, _ => None
       end)
    (Some (AccountInfo.balance_ (account_ t0))) (positions_ t0).

End EquitySpec.

(** ** trade.cpp: the tickets of a ledger *)

Module TicketSpec.

Import CTrade Fixtures.

(** The tickets a ledger holds: the keys and the ticket fields of its
    positions and pending orders, and the tickets of its deals and of its
    history orders. *)
Definition pos_tickets (m : gmap Z PositionInfo.t) (k : Z) : Prop :=
  exists j pos, m !! j = Some pos /\ (k = j \/ k = PositionInfo.ticket_ pos).

Definition ord_tickets (m : gmap Z OrderInfo.t) (k : Z) : Prop :=
  exists j order, m !! j = Some order /\ (k = j \/ k = OrderInfo.ticket_ order).

Definition deal_tickets (l : list DealInfo.t) (k : Z) : Prop :=
  exists deal, deal ∈ l /\ k = DealInfo.ticket_ deal.

Definition hist_tickets (l : list HistoryOrderInfo.t) (k : Z) : Prop :=
  exists h, h ∈ l /\ k = HistoryOrderInfo.ticket_ h.

Definition issued (t0 : t) (k : Z) : Prop :=
  pos_tickets (positions_ t0) k \/ ord_tickets (orders_ t0) k \/
  deal_tickets (deals_ t0) k \/ hist_tickets (history_orders_ t0) k.

(** From [t0] to [t1] at most [n] tickets were drawn: unless the 64-bit
    counter would wrap, it has not gone down, it has advanced by at most
    [n], and every ticket of [t1] that [t0] did not hold was drawn from the
    counter in between. *)
Definition draws (n : Z) (t0 t1 : t) : Prop :=
  0 <= next_ticket_ t0 -> next_ticket_ t0 + n <= UINT64_MAX ->
  next_ticket_ t0 <= next_ticket_ t1 <= next_ticket_ t0 + n /\
  forall k, issued t1 k -> issued t0 k \/ next_ticket_ t0 <= k < next_ticket_ t1.

(** Every ticket of the ledger lies between 1000 and the counter. *)
Definition tickets_below_counter (t0 : t) : Prop :=
  1000 <= next_ticket_ t0 /\
  forall k, issued t0 k -> 1000 <= k < next_ticket_ t0.

End TicketSpec.

(** ** trade.cpp: the books of the ledger *)

Module LedgerSpec.

Import CTrade Fixtures.

(** Two ledgers that differ at most in the records of the last request,
    the last check and the last result. *)
Definition same_books (t0 t1 : t) : Prop :=
  account_ t1 = account_ t0 /\
  positions_ t1 = positions_ t0 /\
  orders_ t1 = orders_ t0 /\
  deals_ t1 = deals_ t0 /\
  history_orders_ t1 = history_orders_ t0 /\
  next_ticket_ t1 = next_ticket_ t0 /\
  symbols_ t1 = symbols_ t0 /\
  symbol_name_to_id_ t1 = symbol_name_to_id_ t0 /\
  magic_number_ t1 = magic_number_ t0 /\
  deviation_ t1 = deviation_ t0 /\
  type_filling_ t1 = type_filling_ t0 /\
  async_mode_ t1 = async_mode_ t0 /\
  log_level_ t1 = log_level_ t0 /\
  current_time_us_ t1 = current_time_us_ t0.

(** Every position and every pending order is stored under its own
    ticket. *)
Definition keyed_by_ticket (t0 : t) : Prop :=
  (forall k pos, positions_ t0 !! k = Some pos -> PositionInfo.Ticket pos = k) /\
  (forall k order, orders_ t0 !! k = Some order -> OrderInfo.Ticket order = k).

(** The identities between the members of the account, in 64-bit
    arithmetic, and the day's equity range. *)
Definition account_consistent (a : AccountInfo.t) : Prop :=
  AccountInfo.equity_ a = wrap64 (AccountInfo.balance_ a + AccountInfo.profit_ a) /\
  AccountInfo.margin_free_ a = wrap64 (AccountInfo.equity_ a - AccountInfo.margin_ a) /\
  AccountInfo.daily_low_equity_ a <= AccountInfo.equity_ a
    <= AccountInfo.daily_high_equity_ a.

(** The trade counters of the account count the deals of the ledger, and
    every deal closes (part of) a position. *)
Definition trades_counted (t0 : t) : Prop :=
  AccountInfo.total_trades_ (account_ t0)
    = wrapU32 (Z.of_nat (List.length (deals_ t0))) /\
  AccountInfo.daily_trades_ (account_ t0)
    = wrapU32 (Z.of_nat (List.length (deals_ t0))) /\
  Forall (fun deal => DealInfo.entry_ deal = DEAL_ENTRY_OUT) (deals_ t0).

(** EURUSD registered and quoted at 1.10000 / 1.10015, with nothing open. *)
Definition quoted_eurusd : t :=
  run (take 2 open_eurusd) fresh.

(** EURUSD as [ledger_eurusd] holds it, with the prices of the tick. *)
Definition eurusd_quoted : SymbolInfo.t :=
  default SymbolInfo.default (GetSymbolInfo ledger_eurusd "EURUSD").

(** [quoted_eurusd] with one pending order: a buy limit of one lot at
    1.00000, which gets ticket 1000. *)
Definition pending_eurusd : t :=
  run [CmdOrderOpen "EURUSD" ORDER_TYPE_BUY_LIMIT 1 1 0 0 0 ORDER_TIME_GTC 0 ""]
      quoted_eurusd.

Definition order_1000 : OrderInfo.t :=
  default OrderInfo.default (orders_ pending_eurusd !! 1000).

End LedgerSpec.

(** * Part III: proofs *)

Module IntFacts.

(** Closed comparisons between integer literals, decided by evaluation. *)
Ltac closed_Z_order :=
  first [apply Z.leb_le | apply Z.ltb_lt]; vm_compute; reflexivity.

Lemma wrap64_id z : in_int64 z -> wrap64 z = z.
Proof.
  unfold in_int64, INT64_MIN, INT64_MAX, wrap64. intros H.
  rewrite Z.mod_small; lia.
Qed.

Lemma wrap32_id z : in_int32 z -> wrap32 z = z.
Proof.
  unfold in_int32, INT32_MIN, INT32_MAX, wrap32. intros H.
  rewrite Z.mod_small; lia.
Qed.

Lemma wrapU64_id z : in_uint64 z -> wrapU64 z = z.
Proof.
  unfold in_uint64, UINT64_MAX, wrapU64. intros H.
  rewrite Z.mod_small; lia.
Qed.

Lemma wrap64_range z : in_int64 (wrap64 z).
Proof.
  unfold in_int64, INT64_MIN, INT64_MAX, wrap64.
  pose proof (Z.mod_pos_bound (z + 2 ^ 63) (2 ^ 64)). lia.
Qed.

(** Wrapping is a ring morphism modulo [2^64]: an inner wrap can be dropped. *)
Lemma wrap64_add_l a b : wrap64 (wrap64 a + b) = wrap64 (a + b).
Proof.
  unfold wrap64. f_equal.
  replace ((a + 2 ^ 63) mod 2 ^ 64 - 2 ^ 63 + b + 2 ^ 63)
    with ((a + 2 ^ 63) mod 2 ^ 64 + b) by lia.
  rewrite Zplus_mod_idemp_l. f_equal. lia.
Qed.

Lemma wrap64_add_r a b : wrap64 (a + wrap64 b) = wrap64 (a + b).
Proof. rewrite Z.add_comm, wrap64_add_l. f_equal. lia. Qed.

End IntFacts.

Import IntFacts.

(** ** fixed_point.hpp: division *)

Module FixedPointFacts.

Import FixedPoint FixedPointSpec.










Lemma quot_abs_le a b : Z.abs (a ÷ b) <= Z.abs a.
Proof.
  destruct (Z.eq_dec b 0) as [->|Hb].
  - replace (a ÷ 0) with 0 by (destruct a; reflexivity). lia.
  - rewrite <- Z.quot_abs by lia.
    rewrite Z.quot_div_nonneg by lia.
    apply Z.div_le_upper_bound; [lia|]. nia.
Qed.












End FixedPointFacts.

(** ** core/global_clock.hpp: [can_advance] *)

Module GlobalClockFacts.

Import GlobalClock GlobalClockSpec.

Lemma min_time_excluding_spec (m : gmap Z Z) symbol_id target :
  target <= INT64_MAX ->
  target <= min_time_excluding symbol_id m <->
  (forall k v, m !! k = Some v -> k <> symbol_id -> target <= v).
Proof.
  intros Hmax. unfold min_time_excluding.
  apply (map_fold_weak_ind
    (fun (r : Z) (m : gmap Z Z) =>
       target <= r <->
       (forall k v, m !! k = Some v -> k <> symbol_id -> target <= v))).
  - split; [|tauto]. intros _ k v Hk. rewrite lookup_empty in Hk. discriminate.
  - intros i x m' r Hi IH. split.
    + intros Hle k v Hk Hne.
      destruct (decide (k = i)) as [->|Hki].
      * rewrite lookup_insert_eq in Hk. injection Hk as <-.
        destruct (decide (i <> symbol_id)); [lia|contradiction].
      * rewrite lookup_insert_ne in Hk by congruence.
        apply IH with (k := k); [|assumption..].
        destruct (decide (i <> symbol_id)); lia.
    + intros Hall.
      assert (Hr : target <= r).
      { apply IH. intros k v Hk Hne. apply (Hall k v); [|assumption].
        rewrite lookup_insert_ne; [assumption|]. intros ->. congruence. }
      destruct (decide (i <> symbol_id)) as [Hne|_]; [|assumption].
      pose proof (Hall i x (lookup_insert_eq _ _ _) Hne). lia.
Qed.

(** The specification as stated fails: with the single tracked symbol 2 at
    time 100, [can_advance(1, 200)] is true although 200 exceeds the
    timestamp of the only tracked symbol other than 1. *)
Lemma can_advance_single_other_counterexample :
  let c := update_symbol 2 100 init in
  can_advance c 1 200 = true /\ ~ le_all_others c 1 200.
Proof.
  split; [reflexivity|].
  intros H. specialize (H 2 100). cbn in H.
  assert (200 <= 100); [|lia].
  apply H; [|lia]. vm_compute. reflexivity.
Qed.

(** C5 (amended).  With two or more tracked symbols [can_advance] holds
    exactly when the target is at most the minimum timestamp of the tracked
    symbols other than [symbol_id]; with at most one tracked symbol it holds
    for every id and every target. *)
Theorem can_advance_spec (c : t) (symbol_id target : Z) :
  in_int64 target ->
  ((size (symbol_timestamps_ c) <= 1)%nat -> can_advance c symbol_id target = true) /\
  ((2 <= size (symbol_timestamps_ c))%nat ->
   (can_advance c symbol_id target = true <-> le_all_others c symbol_id target)).
Proof.
  intros [_ Hmax]. unfold can_advance. split.
  - intros Hs. destruct (Nat.leb_spec (size (symbol_timestamps_ c)) 1); [reflexivity|lia].
  - intros Hs. destruct (Nat.leb_spec (size (symbol_timestamps_ c)) 1); [lia|].
    rewrite Z.leb_le. apply min_time_excluding_spec. exact Hmax.
Qed.

Lemma can_advance_spec_witness :
  let c := update_symbol 2 999000 (update_symbol 1 1000000 init) in
  in_int64 1001000 /\ (2 <= size (symbol_timestamps_ c))%nat /\
  (can_advance c 1 1001000 = true <-> le_all_others c 1 1001000) /\
  can_advance c 1 1001000 = false /\ can_advance c 2 999500 = true.
Proof.
  intros c.
  assert (Hr : in_int64 1001000) by (split; closed_Z_order).
  assert (Hs : (2 <= size (symbol_timestamps_ c))%nat) by (vm_compute; lia).
  split; [exact Hr|]. split; [exact Hs|]. split.
  - exact (proj2 (can_advance_spec c 1 1001000 Hr) Hs).
  - split; reflexivity.
Defined.

End GlobalClockFacts.

(** ** util/currency_converter.hpp: multi-hop conversion *)

Module CurrencyConverterFacts.

Import CurrencyConverter CurrencyConverterSpec.












(** The result does not depend on the registration order (which also fixes
    the order in which the neighbours of USD are visited). *)
Lemma convert_EUR_JPY_order_independent :
  find_path scenario_swapped "EUR" "JPY" = find_path scenario "EUR" "JPY" /\
  convert scenario_swapped 100 "EUR" "JPY" = convert scenario 100 "EUR" "JPY".
Proof. split; vm_compute; reflexivity. Qed.

(** *** Unreachable currencies, for any converter *)

Lemma elem_of_targets g x l y :
  g !! x = Some l -> y ∈ l -> y ∈ targets g.
Proof.
  intros Hx Hy. unfold targets. rewrite map_fold_foldr.
  apply elem_of_map_to_list in Hx.
  induction (map_to_list g) as [|[k l'] L IH]; [inversion Hx|].
  cbn. apply elem_of_cons in Hx as [Hx|Hx].
  - injection Hx as <- <-. apply elem_of_union_l, elem_of_list_to_set, Hy.
  - apply elem_of_union_r, IH, Hx.
Qed.

Lemma size_difference_le (X Y : gset string) : (size (X ∖ Y) <= size X)%nat.
Proof.
  apply subseteq_size. intros x Hx.
  apply elem_of_difference in Hx as [Hx _]. exact Hx.
Qed.

Lemma size_list_to_set_le (l : list string) :
  (size (list_to_set l : gset string) <= List.length l)%nat.
Proof.
  induction l as [|a l IH]; cbn [list_to_set List.length].
  - rewrite size_empty. lia.
  - rewrite size_union_alt, size_singleton.
    pose proof (size_difference_le (list_to_set l) {[a]}). lia.
Qed.

Lemma size_targets g :
  (S (S (size (targets g))) <= bfs_fuel g)%nat.
Proof.
  unfold targets, bfs_fuel. rewrite !map_fold_foldr.
  do 2 apply le_n_S.
  induction (map_to_list g) as [|[k l] L IH]; cbn.
  - rewrite size_empty. lia.
  - rewrite size_union_alt.
    pose proof (size_list_to_set_le l).
    match goal with
    | |- context [size (?Y ∖ ?X)] => pose proof (size_difference_le Y X)
    end.
    lia.
Qed.

(** Visiting one more currency of [T] leaves one fewer to visit. *)
Lemma size_difference_visit (T V : gset string) (n : string) :
  n ∈ T -> n ∉ V -> size (T ∖ V) = S (size (T ∖ ({[n]} ∪ V))).
Proof.
  intros HT HV.
  assert (E : T ∖ V = {[n]} ∪ T ∖ ({[n]} ∪ V)).
  { apply set_eq. intros x. rewrite elem_of_union, !elem_of_difference,
      elem_of_union, elem_of_singleton.
    destruct (decide (x = n)) as [->|]; tauto. }
  rewrite E at 1. rewrite size_union, size_singleton; [reflexivity|].
  apply disjoint_singleton_l. rewrite elem_of_difference, elem_of_union,
    elem_of_singleton. tauto.
Qed.

Section Unreachable.

Context (g : gmap string (list string)) (from to : string).
Hypothesis Hunreachable : ~ reachable g from to.





End Unreachable.


(** *** Converters built from plain currency codes *)

Lemma elem_of_set_insert x y l : y ∈ set_insert x l <-> y ∈ l \/ y = x.
Proof.
  unfold set_insert. destruct (decide (x ∈ l)) as [Hin|Hin].
  - split; [auto|]. intros [H| ->]; assumption.
  - rewrite elem_of_app, list_elem_of_singleton. reflexivity.
Qed.

Lemma edge_graph_insert k x g a y :
  edge (graph_insert k x g) a y <-> edge g a y \/ (a = k /\ y = x).
Proof.
  unfold edge, graph_insert. split.
  - intros (l & Hl & Hy). destruct (decide (a = k)) as [->|Hne].
    + rewrite lookup_insert_eq in Hl. injection Hl as <-.
      apply elem_of_set_insert in Hy as [Hy| ->]; [|auto].
      left. destruct (g !! k) as [l|]; [eauto|]. cbn in Hy. inversion Hy.
    + rewrite lookup_insert_ne in Hl by congruence. eauto.
  - intros [(l & Hl & Hy)|[-> ->]].
    + destruct (decide (a = k)) as [->|Hne].
      * eexists. rewrite lookup_insert_eq. split; [reflexivity|].
        rewrite Hl. cbn. apply elem_of_set_insert. auto.
      * exists l. rewrite lookup_insert_ne by congruence. auto.
    + eexists. rewrite lookup_insert_eq. split; [reflexivity|].
      apply elem_of_set_insert. auto.
Qed.














End CurrencyConverterFacts.

(** ** core/write_ahead_log.hpp: append then read_all *)

Module WriteAheadLogFacts.

Import WriteAheadLog WriteAheadLogSpec.

(** The CRC routine is the standard CRC-32 (check value of "123456789"). *)
Lemma calculate_crc32_check_value :
  calculate_crc32 [0x31; 0x32; 0x33; 0x34; 0x35; 0x36; 0x37; 0x38; 0x39]
  = 0xCBF43926.
Proof. vm_compute. reflexivity. Qed.

(** What [append(POSITION_OPEN, {1,2,3}, 3)] puts on disk: magic, type, the
    three padding bytes, length, and only the low byte of the CRC. *)
Lemma append_writes_padded_header p0 p1 p2 :
  append [p0; p1; p2] POSITION_OPEN [1; 2; 3] (open true [])
  = inr (mk [0x57; 0x54; 0x51; 0x48; 1; p0; p1; p2; 3; 0; 0; 0; 0x1D; 1; 2; 3]
            true 1 16 (-1)).
Proof. reflexivity. Qed.

(** *** The general case *)

Lemma testbit_255 n : 0 <= n -> Z.testbit 255 n = (n <? 8).
Proof.
  intros Hn. change 255 with (Z.ones 8).
  destruct (Z.ltb_spec n 8).
  - apply Z.ones_spec_low. lia.
  - apply Z.ones_spec_high. lia.
Qed.

(** Bit [n] of the byte of [v] at bit offset [k], put back in place. *)
Lemma testbit_byte_in_place v k n :
  0 <= k -> 0 <= n ->
  Z.testbit (Z.shiftl (Z.land (Z.shiftr v k) 255) k) n
  = Z.testbit v n && (k <=? n) && (n <? k + 8).
Proof.
  intros Hk Hn. rewrite Z.shiftl_spec by lia.
  destruct (Z.leb_spec k n).
  - rewrite Z.land_spec, Z.shiftr_spec, testbit_255 by lia.
    replace (n - k + k) with n by lia.
    replace (n - k <? 8) with (n <? k + 8)
      by (destruct (Z.ltb_spec n (k + 8)), (Z.ltb_spec (n - k) 8); lia).
    rewrite andb_true_r. reflexivity.
  - rewrite Z.testbit_neg_r by lia. rewrite andb_false_r. reflexivity.
Qed.

Lemma le32_decode_le32 v : 0 <= v < 2 ^ 32 -> le32_decode (le32 v) = v.
Proof.
  intros Hv. unfold le32, le32_decode.
  rewrite <- (Z.shiftl_0_r (Z.land v 255)).
  rewrite <- (Z.shiftr_0_r v) at 1.
  apply Z.bits_inj'. intros n Hn.
  rewrite !Z.lor_spec, !testbit_byte_in_place by lia.
  destruct (Z.ltb_spec n 32) as [Hlt|Hge].
  - destruct (Z.testbit v n); [|reflexivity]. cbn [andb].
    destruct (Z.leb_spec 0 n), (Z.leb_spec 8 n), (Z.leb_spec 16 n),
      (Z.leb_spec 24 n), (Z.ltb_spec n (0 + 8)), (Z.ltb_spec n (8 + 8)),
      (Z.ltb_spec n (16 + 8)), (Z.ltb_spec n (24 + 8)); try lia; reflexivity.
  - assert (Hv0 : Z.testbit v n = false).
    { destruct (Z.eq_dec v 0) as [->|Hnz]; [apply Z.bits_0|].
      apply Z.bits_above_log2; [lia|].
      assert (Z.log2 v < 32) by (apply Z.log2_lt_pow2; lia). lia. }
    rewrite Hv0. reflexivity.
Qed.

Lemma padding_three (pad : list byte) :
  exists p0 p1 p2, take 3 (pad ++ [0; 0; 0]) = [p0; p1; p2].
Proof. destruct pad as [|a [|b [|c ?]]]; cbn; eauto. Qed.

Lemma stale_tail (stale : list byte) :
  List.length stale = 16%nat ->
  exists s13 s14 s15, drop 13 stale = [s13; s14; s15].
Proof.
  intros H.
  do 16 (destruct stale as [|? stale]; [discriminate H|]).
  destruct stale; [|discriminate H]. cbn. eauto.
Qed.

(** The thirteen bytes [append] writes for a header. *)
Lemma written_header (pad : list byte) m ty len crc p0 p1 p2 :
  take 3 (pad ++ [0; 0; 0]) = [p0; p1; p2] ->
  take SIZE (object_bytes pad (mkHeader m ty len crc))
  = le32 m ++ [ty; p0; p1; p2] ++ le32 len ++ [Z.land crc 255].
Proof. intros H. unfold object_bytes. rewrite H. reflexivity. Qed.

(** The header [read_all] sees after reading those thirteen bytes over
    stale memory ending in [s13 s14 s15]. *)
Lemma read_header m ty p0 p1 p2 len c0 s13 s14 s15 :
  of_object_bytes
    ((le32 m ++ [ty; p0; p1; p2] ++ le32 len ++ [c0]) ++ [s13; s14; s15])
  = mkHeader (le32_decode (le32 m)) ty (le32_decode (le32 len))
             (le32_decode [c0; s13; s14; s15]).
Proof. reflexivity. Qed.

(** One iteration of the loop of [read_all] on a file that starts with a
    complete header. *)
Lemma read_loop_step fuel stale i (hdr rest : list byte) entries :
  List.length hdr = SIZE ->
  read_loop (S fuel) stale i (hdr ++ rest) entries
  = let header := of_object_bytes (hdr ++ drop SIZE (stale i)) in
    if negb (magic header =? MAGIC) then Some (inl InvalidMagic)
    else
      let n := Z.to_nat (length header) in
      if 0 <? length header then
        let data := take n rest in
        if negb (List.length data =? n)%nat then Some (inl IncompleteData)
        else if negb (calculate_crc32 data =? crc32 header)
        then Some (inl CRC32Mismatch)
        else read_loop fuel stale (S i) (drop n rest)
                       (entries ++ [(type header, data)])
      else read_loop fuel stale (S i) rest (entries ++ [(type header, [])]).
Proof.
  intros Hhdr. cbn [read_loop].
  rewrite (take_app_length' hdr rest SIZE) by (symmetry; exact Hhdr).
  rewrite (drop_app_length' hdr rest SIZE) by (symmetry; exact Hhdr).
  rewrite Hhdr, Nat.eqb_refl. cbn [negb].
  destruct hdr; [discriminate Hhdr|]. reflexivity.
Qed.

(** One record with a non-empty payload: [read_all] returns it exactly when
    the three stale bytes of [header.crc32] happen to complete the low CRC
    byte that was written, and throws "CRC32 mismatch" otherwise. *)
Lemma append_read_all_single (pad : list byte) ty (data : list byte) stale :
  data <> [] ->
  Z.of_nat (List.length data) < 2 ^ 32 ->
  List.length (stale O) = 16%nat ->
  exists w,
    append pad ty data (open true []) = inr w /\
    read_all stale w
    = Some (if calculate_crc32 data
               =? le32_decode (Z.land (calculate_crc32 data) 255
                                 :: drop 13 (stale O))
            then inr [(ty, data)] else inl CRC32Mismatch).
Proof.
  intros Hne Hlen Hstale.
  destruct (padding_three pad) as (p0 & p1 & p2 & Hpad).
  destruct (stale_tail (stale O) Hstale) as (s13 & s14 & s15 & Hs).
  eexists. split; [reflexivity|].
  unfold read_all. cbn [is_open_ negb file_ open app append]. unfold wrapU32.
  rewrite (written_header pad _ _ _ _ p0 p1 p2 Hpad).
  rewrite (Z.mod_small (Z.of_nat (List.length data))) by lia.
  rewrite read_loop_step by reflexivity.
  change (drop SIZE (stale O)) with (drop 13 (stale O)). rewrite Hs.
  rewrite read_header. cbv zeta. cbn [magic length crc32 type].
  rewrite (le32_decode_le32 MAGIC) by (split; closed_Z_order).
  rewrite (le32_decode_le32 (Z.of_nat (List.length data))) by (split; lia).
  rewrite Z.eqb_refl. cbn [negb].
  rewrite Nat2Z.id.
  assert (Hpos : (0 <? Z.of_nat (List.length data)) = true).
  { apply Z.ltb_lt. destruct data; [contradiction|]. cbn [List.length]. lia. }
  rewrite Hpos.
  rewrite (take_ge data) by lia. rewrite Nat.eqb_refl. cbn [negb].
  rewrite (drop_ge data) by lia.
  destruct (calculate_crc32 data =? _); cbn [negb]; [|reflexivity].
  destruct (List.length _); reflexivity.
Qed.

(** C8, in general and at the failing input.  For every entry with a
    non-empty payload, [append] then [read_all] returns the entry only when
    the three uninitialised upper bytes of [header.crc32] happen to agree
    with the CRC, and throws "CRC32 mismatch" otherwise.  After
    [open(true)] and [append(POSITION_OPEN, {1,2,3}, 3)] the file does not
    hold the documented 13-byte header, and [read_all] throws when those
    bytes are zero. *)
Theorem append_read_all_crc_mismatch :
  (forall (pad : list byte) ty (data : list byte) stale,
     data <> [] ->
     Z.of_nat (List.length data) < 2 ^ 32 ->
     List.length (stale O) = 16%nat ->
     exists w,
       append pad ty data (open true []) = inr w /\
       read_all stale w
       = Some (if calculate_crc32 data
                  =? le32_decode (Z.land (calculate_crc32 data) 255
                                    :: drop 13 (stale O))
               then inr [(ty, data)] else inl CRC32Mismatch)) /\
  exists w,
    append [0; 0; 0] POSITION_OPEN [1; 2; 3] (open true []) = inr w /\
    file_ w <> documented_record POSITION_OPEN [1; 2; 3] /\
    calculate_crc32 [1; 2; 3] = 0x55BC801D /\
    crc32 (of_object_bytes (take SIZE (file_ w) ++ drop SIZE (zero_stale O)))
    = 0x1D /\
    read_all zero_stale w = Some (inl CRC32Mismatch).
Proof.
  split; [exact append_read_all_single|].
  eexists. split; [reflexivity|].
  split; [vm_compute; discriminate|].
  split; [vm_compute; reflexivity|].
  split; vm_compute; reflexivity.
Qed.

(** The read succeeds when the stale memory happens to hold the upper CRC
    bytes: the outcome is decided by indeterminate memory. *)
Lemma append_read_all_lucky :
  exists w,
    append [0; 0; 0] POSITION_OPEN [1; 2; 3] (open true []) = inr w /\
    read_all lucky_stale w = Some (inr [(POSITION_OPEN, [1; 2; 3])]).
Proof. eexists. split; [reflexivity|]. vm_compute. reflexivity. Qed.

(** The repository's [ReadAll] test (payloads 01 02 03 and 04 05 06 07):
    with zeroed stale memory the first record already fails. *)
Lemma append_read_all_test_entries :
  exists w,
    append_all [0; 0; 0]
      [(POSITION_OPEN, [1; 2; 3]); (POSITION_CLOSE, [4; 5; 6; 7])]
      (open true []) = inr w /\
    read_all zero_stale w = Some (inl CRC32Mismatch).
Proof. eexists. split; [reflexivity|]. vm_compute. reflexivity. Qed.

(** Records with an empty payload skip the CRC comparison and do round-trip. *)
Lemma append_read_all_empty_payloads :
  exists w,
    append_all [0; 0; 0] [(CHECKPOINT, []); (POSITION_OPEN, [])]
      (open true []) = inr w /\
    read_all zero_stale w = Some (inr [(CHECKPOINT, []); (POSITION_OPEN, [])]).
Proof. eexists. split; [reflexivity|]. vm_compute. reflexivity. Qed.

End WriteAheadLogFacts.

(** ** costs/costs_engine.hpp: trigger detection and fill prices *)

Module CostsFacts.

Import Costs Fixtures CostsSpec.

Section Generic.

Context {S C W P RNG : Type}.
Context `{!ISlippageModel S RNG, !ICommissionModel C, !ISwapModel W,
          !ISpreadModel P RNG}.

Implicit Types (e : CostsEngine S C W P RNG) (tick : Tick.t) (info : SymbolInfo.t).

Lemma execute_result side vol trigger tick info e :
  let r := fst (execute side vol trigger tick info e) in
  executed r = true /\
  slippage r = model_slippage e side vol tick info /\
  fill_price r =
    match side with
    | POSITION_TYPE_BUY => wrap64 (trigger + slippage r)
    | POSITION_TYPE_SELL => wrap64 (trigger - slippage r)
    end.
Proof.
  unfold execute, model_slippage.
  destruct (slippage_calculate _ _ _ _ _ _) as [slip rng].
  destruct (spread_calculate _ _ _ _ _) as [[spread sm] rng'].
  cbn. destruct side; auto.
Qed.

(** C2.  A BUY position with [sl > 0] and a tick with [bid <= sl]: the
    position's exit triggers at [min(bid, sl)], the result is executed, the
    fill price is the trigger price minus the slippage, and when the
    slippage is non-negative (and the subtraction stays inside [int64_t])
    the fill is at or below the stop-loss. *)
Theorem evaluate_position_buy_stop_loss e (position : Position) tick info :
  type position = POSITION_TYPE_BUY ->
  0 < sl position ->
  Tick.bid tick <= sl position ->
  let r := fst (evaluate_position position tick info e) in
  position_trigger position tick = Some (Z.min (Tick.bid tick) (sl position)) /\
  executed r = true /\
  slippage r = model_slippage e POSITION_TYPE_SELL (volume position) tick info /\
  fill_price r = wrap64 (Z.min (Tick.bid tick) (sl position) - slippage r) /\
  (0 <= slippage r ->
   in_int64 (Z.min (Tick.bid tick) (sl position) - slippage r) ->
   fill_price r <= Tick.bid tick /\ fill_price r <= sl position).
Proof.
  intros Hty Hsl Hbid r.
  assert (Htrig : position_trigger position tick
                  = Some (Z.min (Tick.bid tick) (sl position))).
  { unfold position_trigger. rewrite Hty.
    destruct (Z.ltb_spec 0 (sl position)); [|lia].
    destruct (Z.leb_spec (Tick.bid tick) (sl position)); [|lia].
    reflexivity. }
  subst r. unfold evaluate_position. rewrite Htrig, Hty.
  destruct (execute_result POSITION_TYPE_SELL (volume position)
              (Z.min (Tick.bid tick) (sl position)) tick info e)
    as (Hex & Hslip & Hfill).
  cbv zeta in Hex, Hslip, Hfill.
  repeat split; try assumption.
  - rewrite Hfill, wrap64_id by assumption. lia.
  - rewrite Hfill, wrap64_id by assumption. lia.
Qed.

(** C3.  Inclusive comparisons: a BUY_STOP whose price equals [tick.ask]
    triggers at [tick.ask] and fills at the trigger plus the slippage; a
    SELL_LIMIT whose price equals [tick.bid] triggers at the order's price
    and fills at the trigger minus the slippage. *)
Theorem evaluate_order_inclusive e (order : PendingOrder) tick info :
  let r := fst (evaluate_order order tick info e) in
  (order_type order = ORDER_TYPE_BUY_STOP ->
   Tick.ask tick = order_price order ->
   order_trigger order tick = Some (Tick.ask tick) /\
   executed r = true /\
   slippage r = model_slippage e POSITION_TYPE_BUY (order_volume order) tick info /\
   fill_price r = wrap64 (Tick.ask tick + slippage r)) /\
  (order_type order = ORDER_TYPE_SELL_LIMIT ->
   Tick.bid tick = order_price order ->
   order_trigger order tick = Some (order_price order) /\
   executed r = true /\
   slippage r = model_slippage e POSITION_TYPE_SELL (order_volume order) tick info /\
   fill_price r = wrap64 (order_price order - slippage r)).
Proof.
  intros r. subst r. split; intros Hty Heq.
  - assert (Htrig : order_trigger order tick = Some (Tick.ask tick)).
    { unfold order_trigger. rewrite Hty.
      destruct (Z.leb_spec (order_price order) (Tick.ask tick)); [|lia].
      reflexivity. }
    unfold evaluate_order. rewrite Htrig, Hty. cbn [is_buy_order].
    destruct (execute_result POSITION_TYPE_BUY (order_volume order)
                (Tick.ask tick) tick info e) as (Hex & Hslip & Hfill).
    cbv zeta in Hex, Hslip, Hfill. repeat split; assumption.
  - assert (Htrig : order_trigger order tick = Some (order_price order)).
    { unfold order_trigger. rewrite Hty.
      destruct (Z.leb_spec (order_price order) (Tick.bid tick)); [|lia].
      reflexivity. }
    unfold evaluate_order. rewrite Htrig, Hty. cbn [is_buy_order].
    destruct (execute_result POSITION_TYPE_SELL (order_volume order)
                (order_price order) tick info e) as (Hex & Hslip & Hfill).
    cbv zeta in Hex, Hslip, Hfill. repeat split; assumption.
Qed.

End Generic.

Lemma evaluate_position_buy_stop_loss_witness :
  let r := fst (evaluate_position s2_position s2_tick eurusd zero_engine) in
  executed r = true /\ fill_price r = 109000 /\ fill_price r <= 109500.
Proof.
  assert (H1 : type s2_position = POSITION_TYPE_BUY) by reflexivity.
  assert (H2 : 0 < sl s2_position) by (vm_compute; reflexivity).
  assert (H3 : Tick.bid s2_tick <= sl s2_position) by closed_Z_order.
  destruct (evaluate_position_buy_stop_loss zero_engine s2_position s2_tick
              eurusd H1 H2 H3) as (_ & Hex & _ & Hfill & Hle).
  split; [exact Hex|]. split; [rewrite Hfill; vm_compute; reflexivity|].
  apply Hle; [closed_Z_order|split; closed_Z_order].
Defined.

Lemma evaluate_order_inclusive_witness :
  executed (fst (evaluate_order buy_stop_at_ask s2_tick eurusd zero_engine)) = true /\
  executed (fst (evaluate_order sell_limit_at_bid s2_tick eurusd zero_engine)) = true.
Proof.
  split.
  - apply (proj1 (evaluate_order_inclusive zero_engine buy_stop_at_ask s2_tick eurusd));
      reflexivity.
  - apply (proj2 (evaluate_order_inclusive zero_engine sell_limit_at_bid s2_tick eurusd));
      reflexivity.
Defined.

End CostsFacts.

(** ** trading/trade.cpp: modifying positions and orders *)

Module ModifyFacts.

Import CTrade Fixtures ModifySpec.

Lemma gt_zero_zero : Double.gt 0 0 = false.
Proof. reflexivity. Qed.

Lemma PositionModify_found t0 ticket sl tp pos :
  positions_ t0 !! ticket = Some pos ->
  fst (PositionModify ticket sl tp t0) = true /\
  MqlTradeResult.retcode (last_result_ (snd (PositionModify ticket sl tp t0)))
  = TRADE_RETCODE_DONE /\
  positions_ (snd (PositionModify ticket sl tp t0))
  = <[ticket := modified_position sl tp pos]> (positions_ t0).
Proof.
  intros H. unfold PositionModify. rewrite H. cbn. auto.
Qed.

Lemma PositionModify_missing t0 ticket sl tp :
  positions_ t0 !! ticket = None ->
  fst (PositionModify ticket sl tp t0) = false /\
  MqlTradeResult.retcode (last_result_ (snd (PositionModify ticket sl tp t0)))
  = TRADE_RETCODE_INVALID_ORDER /\
  positions_ (snd (PositionModify ticket sl tp t0)) = positions_ t0.
Proof.
  intros H. unfold PositionModify. rewrite H. cbn. auto.
Qed.

Lemma OrderModify_found t0 ticket price sl tp stop_limit expiration order :
  orders_ t0 !! ticket = Some order ->
  fst (OrderModify ticket price sl tp stop_limit expiration t0) = true /\
  orders_ (snd (OrderModify ticket price sl tp stop_limit expiration t0))
  = <[ticket := modified_order price sl tp stop_limit expiration order]>
      (orders_ t0).
Proof.
  intros H. unfold OrderModify. rewrite H. cbn. auto.
Qed.

Lemma modified_position_stop_loss sl tp pos :
  Double.gt sl 0 = false ->
  PositionInfo.stop_loss_ (modified_position sl tp pos) = PositionInfo.stop_loss_ pos.
Proof.
  intros H. unfold modified_position. rewrite H.
  destruct (Double.gt tp 0); reflexivity.
Qed.

Lemma modified_position_take_profit sl tp pos :
  Double.gt tp 0 = false ->
  PositionInfo.take_profit_ (modified_position sl tp pos)
  = PositionInfo.take_profit_ pos.
Proof.
  intros H. unfold modified_position. rewrite H.
  destruct (Double.gt sl 0); reflexivity.
Qed.

(** C10.  A zero stop-loss (take-profit) argument of [PositionModify] leaves
    the stored stop-loss (take-profit) of an existing position as it was,
    and every zero argument of [OrderModify] leaves the corresponding field
    of an existing order as it was: a level once set is not cleared by
    passing 0. *)
Theorem modify_ignores_zero (t0 : t) (ticket : Z) :
  (forall pos sl tp,
     positions_ t0 !! ticket = Some pos ->
     exists pos',
       positions_ (snd (PositionModify ticket sl tp t0)) !! ticket = Some pos' /\
       (sl = 0%float ->
        PositionInfo.stop_loss_ pos' = PositionInfo.stop_loss_ pos) /\
       (tp = 0%float ->
        PositionInfo.take_profit_ pos' = PositionInfo.take_profit_ pos)) /\
  (forall order price sl tp stop_limit expiration,
     orders_ t0 !! ticket = Some order ->
     exists order',
       orders_ (snd (OrderModify ticket price sl tp stop_limit expiration t0))
         !! ticket = Some order' /\
       (price = 0%float ->
        OrderInfo.price_open_ order' = OrderInfo.price_open_ order) /\
       (sl = 0%float ->
        OrderInfo.stop_loss_ order' = OrderInfo.stop_loss_ order) /\
       (tp = 0%float ->
        OrderInfo.take_profit_ order' = OrderInfo.take_profit_ order) /\
       (stop_limit = 0%float ->
        OrderInfo.price_stoplimit_ order' = OrderInfo.price_stoplimit_ order) /\
       (expiration = 0 ->
        OrderInfo.time_expiration_ order' = OrderInfo.time_expiration_ order)).
Proof.
  split.
  - intros pos sl tp H.
    destruct (PositionModify_found t0 ticket sl tp pos H) as (_ & _ & Hp).
    exists (modified_position sl tp pos). rewrite Hp, lookup_insert_eq.
    split; [reflexivity|]. split; intros ->.
    + apply modified_position_stop_loss. reflexivity.
    + apply modified_position_take_profit. reflexivity.
  - intros order price sl tp stop_limit expiration H.
    destruct (OrderModify_found t0 ticket price sl tp stop_limit expiration
                order H) as (_ & Ho).
    exists (modified_order price sl tp stop_limit expiration order).
    rewrite Ho, lookup_insert_eq. split; [reflexivity|].
    unfold modified_order.
    repeat split; intros ->; rewrite ?gt_zero_zero, ?Z.ltb_irrefl;
      repeat match goal with
             | |- context [if ?b then _ else _] => destruct b
             end; reflexivity.
Qed.

Lemma modify_ignores_zero_witness :
  positions_ ledger_eurusd !! 1000 = Some position_1000 /\
  PositionInfo.stop_loss_ position_1000 = 109500 /\
  exists pos',
    positions_ (snd (PositionModify 1000 0 0 ledger_eurusd)) !! 1000 = Some pos' /\
    PositionInfo.stop_loss_ pos' = 109500 /\
    PositionInfo.take_profit_ pos' = 110500.
Proof.
  assert (H : positions_ ledger_eurusd !! 1000 = Some position_1000)
    by (vm_compute; reflexivity).
  split; [exact H|]. split; [vm_compute; reflexivity|].
  destruct (proj1 (modify_ignores_zero ledger_eurusd 1000) position_1000 0%float
              0%float H) as (pos' & Hl & Hsl & Htp).
  exists pos'. split; [exact Hl|]. split.
  - rewrite (Hsl eq_refl). vm_compute. reflexivity.
  - rewrite (Htp eq_refl). vm_compute. reflexivity.
Defined.

(** The specification as stated fails: EURUSD has a stops level of 10 points and
    the bid is 1.10000, yet the request for a stop-loss at 1.09999, one
    point from the market, succeeds with DONE and replaces the stored
    stop-loss 1.09500. *)
Lemma position_modify_inside_stops_level :
  let r := PositionModify 1000 sl_one_point_below_bid 0 ledger_eurusd in
  (SymbolInfo.stops_level_ <$> GetSymbolInfo ledger_eurusd "EURUSD") = Some 10 /\
  (SymbolInfo.bid_ <$> GetSymbolInfo ledger_eurusd "EURUSD") = Some 110000 /\
  (PositionInfo.stop_loss_ <$> positions_ ledger_eurusd !! 1000) = Some 109500 /\
  fst r = true /\
  MqlTradeResult.retcode (last_result_ (snd r)) = TRADE_RETCODE_DONE /\
  (PositionInfo.stop_loss_ <$> positions_ (snd r) !! 1000) = Some 109999.
Proof. vm_compute. repeat split; reflexivity. Qed.

(** C4 (amended).  [PositionModify(ticket, sl, tp)] validates nothing
    against the stops level and never answers INVALID_STOPS: for an unknown
    ticket it fails with INVALID_ORDER and leaves the positions unchanged;
    for an existing position it succeeds with DONE and stores [sl] when
    [sl > 0] and [tp] when [tp > 0], whatever their distance from the
    market. *)
Theorem position_modify_no_stops_validation (t0 : t) (ticket : Z) (sl tp : float) :
  let r := PositionModify ticket sl tp t0 in
  MqlTradeResult.retcode (last_result_ (snd r)) <> TRADE_RETCODE_INVALID_STOPS /\
  (positions_ t0 !! ticket = None ->
   fst r = false /\
   MqlTradeResult.retcode (last_result_ (snd r)) = TRADE_RETCODE_INVALID_ORDER /\
   positions_ (snd r) = positions_ t0) /\
  (forall pos,
     positions_ t0 !! ticket = Some pos ->
     fst r = true /\
     MqlTradeResult.retcode (last_result_ (snd r)) = TRADE_RETCODE_DONE /\
     positions_ (snd r) = <[ticket := modified_position sl tp pos]> (positions_ t0) /\
     (Double.gt sl 0 = true ->
      PositionInfo.stop_loss_ (modified_position sl tp pos)
      = PositionInfo.to_fixed pos sl) /\
     (Double.gt tp 0 = true ->
      PositionInfo.take_profit_ (modified_position sl tp pos)
      = PositionInfo.to_fixed pos tp)).
Proof.
  intros r. subst r. split; [|split].
  - destruct (positions_ t0 !! ticket) as [pos|] eqn:H.
    + destruct (PositionModify_found t0 ticket sl tp pos H) as (_ & -> & _).
      discriminate.
    + destruct (PositionModify_missing t0 ticket sl tp H) as (_ & -> & _).
      discriminate.
  - apply PositionModify_missing.
  - intros pos H.
    destruct (PositionModify_found t0 ticket sl tp pos H) as (Hb & Hr & Hp).
    repeat split; try assumption.
    + intros Hsl. unfold modified_position. rewrite Hsl.
      destruct (Double.gt tp 0); reflexivity.
    + intros Htp. unfold modified_position. rewrite Htp.
      destruct (Double.gt sl 0); reflexivity.
Qed.

Lemma position_modify_no_stops_validation_witness :
  positions_ ledger_eurusd !! 1000 = Some position_1000 /\
  Double.gt sl_one_point_below_bid 0 = true /\
  fst (PositionModify 1000 sl_one_point_below_bid 0 ledger_eurusd) = true /\
  PositionInfo.stop_loss_ (modified_position sl_one_point_below_bid 0 position_1000)
  = 109999.
Proof.
  assert (H : positions_ ledger_eurusd !! 1000 = Some position_1000)
    by (vm_compute; reflexivity).
  assert (Hgt : Double.gt sl_one_point_below_bid 0 = true)
    by (vm_compute; reflexivity).
  destruct (position_modify_no_stops_validation ledger_eurusd 1000
              sl_one_point_below_bid 0%float) as (_ & _ & Hfound).
  destruct (Hfound position_1000 H) as (Hb & _ & _ & Hsl & _).
  split; [exact H|]. split; [exact Hgt|]. split; [exact Hb|].
  rewrite (Hsl Hgt). vm_compute. reflexivity.
Defined.

End ModifyFacts.

(** ** trade.cpp: the equity of the account *)

Module EquityFacts.

Import CTrade Fixtures EquitySpec.

Section Sums.

Context (u : PositionInfo.t -> Z).

Lemma sumZ_empty : sumZ u ∅ = 0.
Proof. reflexivity. Qed.

Lemma sumZ_insert m k pos :
  m !! k = None -> sumZ u (<[k := pos]> m) = sumZ u m + u pos.
Proof.
  intros H. unfold sumZ. rewrite map_fold_insert_L; [reflexivity| |exact H].
  intros. lia.
Qed.

Lemma sumZ_delete m k pos :
  m !! k = Some pos -> sumZ u m = sumZ u (delete k m) + u pos.
Proof.
  intros H. unfold sumZ.
  rewrite (map_fold_delete_L _ _ k pos m); [reflexivity| |exact H].
  intros. lia.
Qed.

(** Replacing a position by one of the same value leaves the sum alone. *)
Lemma sumZ_replace m k pos pos' :
  m !! k = Some pos -> u pos' = u pos -> sumZ u (<[k := pos']> m) = sumZ u m.
Proof.
  intros H E. rewrite <- insert_delete_eq.
  rewrite sumZ_insert by apply lookup_delete_eq.
  rewrite (sumZ_delete m k pos H). lia.
Qed.

Lemma sumZ_fmap (f : PositionInfo.t -> PositionInfo.t) m :
  (forall pos, u (f pos) = u pos) -> sumZ u (f <$> m) = sumZ u m.
Proof.
  intros E. induction m as [|k pos m Hk IH] using map_ind.
  - rewrite fmap_empty. reflexivity.
  - rewrite fmap_insert.
    rewrite !sumZ_insert by (rewrite ?lookup_fmap, Hk; reflexivity).
    rewrite IH, E. reflexivity.
Qed.

End Sums.

(** The loop of [UpdateEquity] computes the sum, wrapped to 64 bits, in
    whatever order the hash map is visited. *)
Lemma total_unrealized_pnl_sum m :
  total_unrealized_pnl m = wrap64 (sumZ profit_units m).
Proof.
  induction m as [|k pos m Hk IH] using map_ind.
  - reflexivity.
  - rewrite sumZ_insert by exact Hk. unfold total_unrealized_pnl.
    rewrite map_fold_insert_L; [|intros|exact Hk].
    + fold (total_unrealized_pnl m). rewrite IH. apply wrap64_add_l.
    + rewrite !wrap64_add_l. f_equal. lia.
Qed.

Lemma to_int64_range x : in_int64 (Double.to_int64 x).
Proof.
  unfold Double.to_int64.
  destruct (Double.trunc x) as [v|].
  - destruct ((INT64_MIN <=? v) && (v <=? INT64_MAX)) eqn:E.
    + apply andb_true_iff in E. destruct E as [E1 E2].
      apply Z.leb_le in E1, E2. split; assumption.
    + split; closed_Z_order.
  - split; closed_Z_order.
Qed.

(** *** [equity_ok] is established by [UpdateEquity] and kept by everything
    that leaves the account and the profits alone *)

Lemma UpdateEquity_ok t0 : equity_ok (UpdateEquity t0).
Proof.
  unfold equity_ok, UpdateEquity, AccountInfo.UpdateEquity.
  rewrite total_unrealized_pnl_sum. cbn.
  repeat match goal with |- context [if ?b then _ else _] => destruct b end;
    cbn; apply wrap64_add_r.
Qed.

Lemma equity_ok_frame t0 t1 :
  equity_ok t0 ->
  account_ t1 = account_ t0 ->
  sumZ profit_units (positions_ t1) = sumZ profit_units (positions_ t0) ->
  equity_ok t1.
Proof. unfold equity_ok. intros H -> ->. exact H. Qed.

Lemma init_ok initial_balance currency leverage :
  equity_ok (init initial_balance currency leverage).
Proof.
  unfold equity_ok. cbn. rewrite Z.add_0_r. symmetry.
  apply wrap64_id, to_int64_range.
Qed.

(** The steps that touch neither the account nor the positions. *)
Ltac framed H :=
  exact H || (apply (equity_ok_frame _ _ H); reflexivity).

Lemma profit_units_eq pos pos' :
  PositionInfo.profit_ pos' = PositionInfo.profit_ pos ->
  profit_units pos' = profit_units pos.
Proof.
  unfold profit_units, PositionInfo.Profit. intros ->. reflexivity.
Qed.

Lemma fail_with_ok rc msg t0 : equity_ok t0 -> equity_ok (snd (fail_with rc msg t0)).
Proof. intros H. framed H. Qed.

Lemma InternalPositionOpen_ok symbol type volume price sl tp comment t0 :
  equity_ok t0 ->
  equity_ok (snd (InternalPositionOpen symbol type volume price sl tp comment t0)).
Proof.
  intros H. unfold InternalPositionOpen.
  destruct (GetSymbolInfo t0 symbol); [apply UpdateEquity_ok | exact H].
Qed.

Lemma InternalPositionClose_ok ticket volume price t0 :
  equity_ok t0 -> equity_ok (snd (InternalPositionClose ticket volume price t0)).
Proof.
  intros H. unfold InternalPositionClose.
  destruct (positions_ t0 !! ticket) as [pos|]; [|exact H].
  destruct (GetSymbolInfo t0 (PositionInfo.Symbol pos)); [|exact H].
  cbv zeta. unfold take_ticket.
  match goal with
  | |- equity_ok (snd (_, with_last_result_ _ (UpdateEquity ?x))) =>
      apply (equity_ok_frame (UpdateEquity x) _ (UpdateEquity_ok x));
        reflexivity
  end.
Qed.

Lemma InternalOrderPlace_ok symbol type volume price stop_limit sl tp type_time
  expiration comment t0 :
  equity_ok t0 ->
  equity_ok (snd (InternalOrderPlace symbol type volume price stop_limit sl tp
                    type_time expiration comment t0)).
Proof.
  intros H. unfold InternalOrderPlace.
  destruct (GetSymbolInfo t0 symbol); framed H.
Qed.

Lemma ExecuteRequest_ok request t0 :
  equity_ok t0 -> equity_ok (snd (ExecuteRequest request t0)).
Proof.
  intros H. unfold ExecuteRequest.
  destruct (GetSymbolInfo t0 (MqlTradeRequest.symbol request)); [|framed H].
  destruct (MqlTradeRequest.action request); try framed H.
  - destruct (MqlTradeRequest.type request); try framed H;
      match goal with
      | |- context [InternalPositionOpen ?a ?b ?c ?d ?e ?f ?g t0] =>
          pose proof (InternalPositionOpen_ok a b c d e f g t0 H) as H';
          destruct (InternalPositionOpen a b c d e f g t0) as [ticket ledger1]
      end;
      destruct (0 <? ticket); framed H'.
  - match goal with
    | |- context [InternalOrderPlace ?a ?b ?c ?d ?e ?f ?g ?h ?i ?j t0] =>
        pose proof (InternalOrderPlace_ok a b c d e f g h i j t0 H) as H';
        destruct (InternalOrderPlace a b c d e f g h i j t0) as [ticket ledger1]
    end.
    destruct (0 <? ticket); framed H'.
Qed.

Lemma check_and_execute_ok t0 :
  equity_ok t0 -> equity_ok (snd (check_and_execute t0)).
Proof.
  intros H. unfold check_and_execute.
  destruct (CheckRequest t0 (last_request_ t0) (last_check_ t0)) as [ok check].
  destruct ok; cbn [negb].
  - apply ExecuteRequest_ok. framed H.
  - framed H.
Qed.

Lemma PositionOpen_ok symbol order_type volume price sl tp comment t0 :
  equity_ok t0 ->
  equity_ok (snd (PositionOpen symbol order_type volume price sl tp comment t0)).
Proof. intros H. apply check_and_execute_ok. framed H. Qed.

Lemma OrderOpen_ok symbol order_type volume limit_price stop_price sl tp type_time
  expiration comment t0 :
  equity_ok t0 ->
  equity_ok (snd (OrderOpen symbol order_type volume limit_price stop_price sl tp
                    type_time expiration comment t0)).
Proof. intros H. apply check_and_execute_ok. framed H. Qed.

Lemma PositionModify_ok ticket sl tp t0 :
  equity_ok t0 -> equity_ok (snd (PositionModify ticket sl tp t0)).
Proof.
  intros H. unfold PositionModify.
  destruct (positions_ t0 !! ticket) as [pos|] eqn:E; [|framed H].
  apply (equity_ok_frame t0 _ H); [reflexivity|].
  cbn. apply (sumZ_replace _ _ _ pos); [exact E|].
  apply profit_units_eq. unfold Double.gt.
  destruct (PrimFloat.ltb 0 sl), (PrimFloat.ltb 0 tp); reflexivity.
Qed.

Lemma PositionModifyBySymbol_ok symbol sl tp t0 :
  equity_ok t0 -> equity_ok (snd (PositionModifyBySymbol symbol sl tp t0)).
Proof.
  intros H. unfold PositionModifyBySymbol.
  destruct (find_position_by_symbol t0 symbol) as [[? pos]|].
  - apply PositionModify_ok, H.
  - framed H.
Qed.

Lemma PositionClose_ok ticket deviation t0 :
  equity_ok t0 -> equity_ok (snd (PositionClose ticket deviation t0)).
Proof.
  intros H. unfold PositionClose.
  destruct (positions_ t0 !! ticket) as [pos|]; [|framed H]. cbv zeta.
  match goal with |- context [GetSymbolInfo ?t1 ?s] => destruct (GetSymbolInfo t1 s) end.
  - apply InternalPositionClose_ok. framed H.
  - framed H.
Qed.

Lemma PositionCloseBySymbol_ok symbol deviation t0 :
  equity_ok t0 -> equity_ok (snd (PositionCloseBySymbol symbol deviation t0)).
Proof.
  intros H. unfold PositionCloseBySymbol.
  destruct (find_position_by_symbol t0 symbol) as [[ticket ?]|]; [|framed H].
  destruct (ticket =? 0); [framed H | apply PositionClose_ok, H].
Qed.

Lemma PositionClosePartial_ok ticket volume deviation t0 :
  equity_ok t0 ->
  equity_ok (snd (PositionClosePartial ticket volume deviation t0)).
Proof.
  intros H. unfold PositionClosePartial.
  destruct (positions_ t0 !! ticket) as [pos|]; [|framed H].
  destruct (Double.ge volume (PositionInfo.Volume pos));
    [apply PositionClose_ok, H|].
  destruct (GetSymbolInfo t0 (PositionInfo.Symbol pos)); [|framed H].
  apply InternalPositionClose_ok. framed H.
Qed.

Lemma PositionClosePartialBySymbol_ok symbol volume deviation t0 :
  equity_ok t0 ->
  equity_ok (snd (PositionClosePartialBySymbol symbol volume deviation t0)).
Proof.
  intros H. unfold PositionClosePartialBySymbol.
  destruct (find_position_by_symbol t0 symbol) as [[ticket ?]|]; [|framed H].
  destruct (ticket =? 0); [framed H | apply PositionClosePartial_ok, H].
Qed.

Lemma PositionCloseBy_ok ticket ticket_by t0 :
  equity_ok t0 -> equity_ok (snd (PositionCloseBy ticket ticket_by t0)).
Proof.
  intros H. unfold PositionCloseBy.
  destruct (positions_ t0 !! ticket) as [pos1|]; [|framed H].
  destruct (positions_ t0 !! ticket_by) as [pos2|]; [|framed H].
  destruct (negb _); [framed H|].
  destruct (bool_decide _); [framed H|]. cbv zeta.
  match goal with |- context [GetSymbolInfo ?t1 ?s] => destruct (GetSymbolInfo t1 s) end;
    [|framed H].
  match goal with
  | |- context [InternalPositionClose ?a ?b ?c ?t1] =>
      assert (H' : equity_ok (snd (InternalPositionClose a b c t1)))
        by (apply InternalPositionClose_ok; framed H);
      destruct (InternalPositionClose a b c t1) as [success ledger2]
  end.
  destruct success; [|exact H'].
  apply InternalPositionClose_ok, H'.
Qed.

Lemma OrderModify_ok ticket price sl tp stop_limit expiration t0 :
  equity_ok t0 ->
  equity_ok (snd (OrderModify ticket price sl tp stop_limit expiration t0)).
Proof.
  intros H. unfold OrderModify. destruct (orders_ t0 !! ticket); framed H.
Qed.

Lemma OrderDelete_ok ticket t0 :
  equity_ok t0 -> equity_ok (snd (OrderDelete ticket t0)).
Proof.
  intros H. unfold OrderDelete. destruct (orders_ t0 !! ticket); framed H.
Qed.

Lemma UpdatePrices_ok symbol bid ask timestamp t0 :
  equity_ok t0 -> equity_ok (UpdatePrices symbol bid ask timestamp t0).
Proof.
  intros H. unfold UpdatePrices.
  destruct (symbol_name_to_id_ t0 !! symbol) as [id|]; [|exact H].
  destruct (symbols_ t0 !! id); [apply UpdateEquity_ok | exact H].
Qed.

Lemma TrailingStopEnable_ok ticket distance step t0 :
  equity_ok t0 -> equity_ok (snd (TrailingStopEnable ticket distance step t0)).
Proof.
  intros H. unfold TrailingStopEnable.
  destruct (positions_ t0 !! ticket) as [pos|] eqn:E; [|exact H].
  apply (equity_ok_frame t0 _ H); [reflexivity|].
  apply (sumZ_replace _ _ _ pos); [exact E|]. apply profit_units_eq. reflexivity.
Qed.

Lemma TrailingStopDisable_ok ticket t0 :
  equity_ok t0 -> equity_ok (snd (TrailingStopDisable ticket t0)).
Proof.
  intros H. unfold TrailingStopDisable.
  destruct (positions_ t0 !! ticket) as [pos|] eqn:E; [|exact H].
  apply (equity_ok_frame t0 _ H); [reflexivity|].
  apply (sumZ_replace _ _ _ pos); [exact E|]. apply profit_units_eq. reflexivity.
Qed.

Lemma trail_position_profit t0 pos :
  PositionInfo.profit_ (trail_position t0 pos) = PositionInfo.profit_ pos.
Proof.
  unfold trail_position.
  repeat match goal with
         | |- context [match ?x with _ => _ end] => destruct x
         end; reflexivity.
Qed.

Lemma UpdateTrailingStops_ok t0 : equity_ok t0 -> equity_ok (UpdateTrailingStops t0).
Proof.
  intros H. apply (equity_ok_frame t0 _ H); [reflexivity|].
  apply sumZ_fmap. intros pos. apply profit_units_eq, trail_position_profit.
Qed.

Lemma exec_ok c t0 : equity_ok t0 -> equity_ok (snd (exec c t0)).
Proof.
  intros H. destruct c; cbn [exec snd];
    auto using PositionOpen_ok, PositionModify_ok, PositionModifyBySymbol_ok,
      PositionClose_ok, PositionCloseBySymbol_ok, PositionClosePartial_ok,
      PositionClosePartialBySymbol_ok, PositionCloseBy_ok, OrderOpen_ok,
      OrderModify_ok, OrderDelete_ok, UpdatePrices_ok, TrailingStopEnable_ok,
      TrailingStopDisable_ok, UpdateTrailingStops_ok;
    framed H.
Qed.

Lemma run_ok cs t0 : equity_ok t0 -> equity_ok (run cs t0).
Proof.
  revert t0. induction cs as [|c cs IH]; intros t0 H; [exact H|].
  apply IH, exec_ok, H.
Qed.

Lemma sumZ_ext (u v : PositionInfo.t -> Z) m :
  (forall k pos, m !! k = Some pos -> u pos = v pos) -> sumZ u m = sumZ v m.
Proof.
  induction m as [|k pos m Hk IH] using map_ind; intros E; [reflexivity|].
  rewrite !sumZ_insert by exact Hk.
  rewrite (E k pos) by apply lookup_insert_eq.
  rewrite IH; [reflexivity|].
  intros j q Hj. apply (E j). rewrite lookup_insert_ne; [exact Hj|].
  intros ->. rewrite Hk in Hj. discriminate.
Qed.

(** The specification as stated fails: on a USD account the position on EURGBP has
    a profit of 8.5 GBP; converted at 1.25 the equity would be 10010.625,
    but the ledger adds the 8.5 to the balance as if they were dollars. *)
Lemma equity_adds_unconverted_profit :
  AccountInfo.currency_ (account_ ledger_eurgbp) = "USD"%string /\
  (SymbolInfo.CurrencyProfit <$> GetSymbolInfo ledger_eurgbp "EURGBP")
  = Some "GBP"%string /\
  (PositionInfo.profit_ <$> positions_ ledger_eurgbp !! 1000) = Some 8500000 /\
  AccountInfo.balance_ (account_ ledger_eurgbp) = 10000000000 /\
  converted_equity gbp_usd_rates ledger_eurgbp = Some 10010625000 /\
  AccountInfo.equity_ (account_ ledger_eurgbp) = 10008500000.
Proof. vm_compute. repeat split; reflexivity. Qed.

(** [UpdateEquity] reads a profit back through [Profit()], a [double], and
    truncates: the stored 249 micro-units come back as 248, and the equity
    is one micro-unit below the balance plus the stored profit. *)
Lemma equity_truncates_profit :
  (PositionInfo.profit_ <$> positions_ ledger_unit_cfd !! 1000) = Some 249 /\
  (profit_units <$> positions_ ledger_unit_cfd !! 1000) = Some 248 /\
  AccountInfo.balance_ (account_ ledger_unit_cfd) = 10000000000 /\
  AccountInfo.equity_ (account_ ledger_unit_cfd) = 10000000248.
Proof. vm_compute. repeat split; reflexivity. Qed.

(** C1 (amended).  After any sequence of public ledger commands on a fresh
    ledger (position open, modify, close, partial close, close-by, order
    open, modify and delete, symbol registration, price update, the
    setters and the trailing-stop commands) the equity of the account is,
    in 64-bit arithmetic, the balance plus the sum over the open positions
    of the position's profit, with no currency conversion: each profit is
    added as the number it is, whatever the profit currency of its symbol.
    This is stated for the ledgers in which [UpdateEquity] reads every open
    position's profit as it is stored. *)
Theorem equity_is_balance_plus_profits (cs : list Command)
  (initial_balance : float) (currency : string) (leverage : Z) :
  let t1 := run cs (init initial_balance currency leverage) in
  (forall k pos,
     positions_ t1 !! k = Some pos ->
     profit_units pos = PositionInfo.profit_ pos) ->
  AccountInfo.equity_ (account_ t1)
  = wrap64 (AccountInfo.balance_ (account_ t1)
            + sumZ PositionInfo.profit_ (positions_ t1)).
Proof.
  intros t1 E.
  assert (H : equity_ok t1) by apply run_ok, init_ok.
  rewrite <- (sumZ_ext profit_units PositionInfo.profit_ _ E). exact H.
Qed.

(** When the only open position is [pos] and its profit survives the
    reading of [UpdateEquity], every open position's does. *)
Lemma round_trip_singleton (m : gmap Z PositionInfo.t) ticket pos :
  m = {[ticket := pos]} ->
  profit_units pos = PositionInfo.profit_ pos ->
  forall k q, m !! k = Some q -> profit_units q = PositionInfo.profit_ q.
Proof.
  intros -> E k q Hq. apply lookup_singleton_Some in Hq as [_ <-]. exact E.
Qed.

Lemma equity_is_balance_plus_profits_witness :
  (forall k pos,
     positions_ (run open_eurgbp (init 10000 "USD" 100)) !! k = Some pos ->
     profit_units pos = PositionInfo.profit_ pos) /\
  AccountInfo.equity_ (account_ (run open_eurgbp (init 10000 "USD" 100)))
  = wrap64 (AccountInfo.balance_ (account_ (run open_eurgbp (init 10000 "USD" 100)))
            + sumZ PositionInfo.profit_
                (positions_ (run open_eurgbp (init 10000 "USD" 100)))).
Proof.
  assert (E : forall k pos,
             positions_ (run open_eurgbp (init 10000 "USD" 100)) !! k = Some pos ->
             profit_units pos = PositionInfo.profit_ pos).
  { apply (round_trip_singleton _ 1000 position_eurgbp);
      vm_compute; reflexivity. }
  split; [exact E|].
  exact (equity_is_balance_plus_profits open_eurgbp 10000 "USD" 100 E).
Defined.

End EquityFacts.

(** ** trade.cpp: the ticket counter *)

Module TicketFacts.

Import CTrade Fixtures TicketSpec.

(** *** The containers *)

Lemma pos_tickets_insert m j pos k :
  pos_tickets (<[j := pos]> m) k ->
  pos_tickets m k \/ k = j \/ k = PositionInfo.ticket_ pos.
Proof.
  intros (i & q & Hq & Hk).
  destruct (decide (i = j)) as [->|Hij].
  - rewrite lookup_insert_eq in Hq. injection Hq as <-. tauto.
  - rewrite lookup_insert_ne in Hq by (intros E; apply Hij; symmetry; exact E).
    left. exists i, q. auto.
Qed.

Lemma pos_tickets_delete m j k :
  pos_tickets (delete j m) k -> pos_tickets m k.
Proof.
  intros (i & q & Hq & Hk). apply lookup_delete_Some in Hq as [_ Hq].
  exists i, q. auto.
Qed.

Lemma pos_tickets_fmap (f : PositionInfo.t -> PositionInfo.t) m k :
  (forall pos, PositionInfo.ticket_ (f pos) = PositionInfo.ticket_ pos) ->
  pos_tickets (f <$> m) k -> pos_tickets m k.
Proof.
  intros E (i & q & Hq & Hk).
  apply lookup_fmap_Some in Hq as (p & <- & Hp).
  exists i, p. rewrite E in Hk. auto.
Qed.

Lemma pos_tickets_lookup m j pos :
  m !! j = Some pos -> pos_tickets m j /\ pos_tickets m (PositionInfo.ticket_ pos).
Proof. intros H. split; exists j, pos; auto. Qed.

Lemma ord_tickets_insert m j order k :
  ord_tickets (<[j := order]> m) k ->
  ord_tickets m k \/ k = j \/ k = OrderInfo.ticket_ order.
Proof.
  intros (i & q & Hq & Hk).
  destruct (decide (i = j)) as [->|Hij].
  - rewrite lookup_insert_eq in Hq. injection Hq as <-. tauto.
  - rewrite lookup_insert_ne in Hq by (intros E; apply Hij; symmetry; exact E).
    left. exists i, q. auto.
Qed.

Lemma ord_tickets_delete m j k :
  ord_tickets (delete j m) k -> ord_tickets m k.
Proof.
  intros (i & q & Hq & Hk). apply lookup_delete_Some in Hq as [_ Hq].
  exists i, q. auto.
Qed.

Lemma ord_tickets_lookup m j order :
  m !! j = Some order -> ord_tickets m j /\ ord_tickets m (OrderInfo.ticket_ order).
Proof. intros H. split; exists j, order; auto. Qed.

Lemma deal_tickets_snoc l deal k :
  deal_tickets (l ++ [deal]) k -> deal_tickets l k \/ k = DealInfo.ticket_ deal.
Proof.
  intros (d & Hd & Hk). apply elem_of_app in Hd as [Hd|Hd].
  - left. exists d. auto.
  - apply list_elem_of_singleton in Hd. subst d. auto.
Qed.

Lemma hist_tickets_snoc l h k :
  hist_tickets (l ++ [h]) k -> hist_tickets l k \/ k = HistoryOrderInfo.ticket_ h.
Proof.
  intros (d & Hd & Hk). apply elem_of_app in Hd as [Hd|Hd].
  - left. exists d. auto.
  - apply list_elem_of_singleton in Hd. subst d. auto.
Qed.

(** *** The relation [draws] *)

Lemma draws_frame n t0 t1 :
  0 <= n ->
  next_ticket_ t1 = next_ticket_ t0 ->
  (forall k, issued t1 k -> issued t0 k) ->
  draws n t0 t1.
Proof.
  intros Hn Hc Hi _ _. rewrite Hc. split; [lia|]. intros k Hk. left. auto.
Qed.

Lemma draws_refl n t0 : 0 <= n -> draws n t0 t0.
Proof. intros Hn. apply draws_frame; auto. Qed.

Lemma draws_trans n m t0 t1 t2 :
  0 <= n -> 0 <= m -> draws n t0 t1 -> draws m t1 t2 -> draws (n + m) t0 t2.
Proof.
  intros Hn Hm H1 H2 Hlo Hhi.
  destruct H1 as [Hc1 Hi1]; [lia..|].
  destruct H2 as [Hc2 Hi2]; [lia..|].
  split; [lia|]. intros k Hk.
  destruct (Hi2 k Hk) as [Hk1|Hk1]; [|right; lia].
  destruct (Hi1 k Hk1) as [Hk0|Hk0]; [left; exact Hk0 | right; lia].
Qed.

Lemma draws_weaken n m t0 t1 : n <= m -> draws n t0 t1 -> draws m t0 t1.
Proof.
  intros Hnm H Hlo Hhi. destruct H as [Hc Hi]; [lia..|]. split; [lia|exact Hi].
Qed.

Lemma issued_pos t0 k : pos_tickets (positions_ t0) k -> issued t0 k.
Proof. unfold issued. auto. Qed.

Lemma issued_ord t0 k : ord_tickets (orders_ t0) k -> issued t0 k.
Proof. unfold issued. auto. Qed.

Lemma issued_deal t0 k : deal_tickets (deals_ t0) k -> issued t0 k.
Proof. unfold issued. auto. Qed.

Lemma issued_hist t0 k : hist_tickets (history_orders_ t0) k -> issued t0 k.
Proof. unfold issued. auto. Qed.

Lemma take_ticket_no_wrap t0 :
  0 <= next_ticket_ t0 -> next_ticket_ t0 + 1 <= UINT64_MAX ->
  wrapU64 (next_ticket_ t0 + 1) = next_ticket_ t0 + 1.
Proof. intros. apply wrapU64_id. split; lia. Qed.

(** The steps that change no ticket and leave the counter alone. *)
Ltac same_tickets :=
  apply draws_frame; [lia | reflexivity | intros ? Hk; exact Hk].

(** *** The three issuance sites *)

Lemma InternalPositionOpen_draws symbol type volume price sl tp comment t0 :
  draws 1 t0 (snd (InternalPositionOpen symbol type volume price sl tp comment t0)).
Proof.
  unfold InternalPositionOpen.
  destruct (GetSymbolInfo t0 symbol); [|apply draws_refl; lia].
  intros Hlo Hhi. pose proof (take_ticket_no_wrap t0 Hlo Hhi) as Hw.
  cbn. rewrite Hw. split; [lia|].
  intros k [Hk|[Hk|[Hk|Hk]]]; cbn in Hk.
  - apply pos_tickets_insert in Hk as [Hk|[->| ->]].
    + left. apply issued_pos, Hk.
    + right. lia.
    + right. cbn. lia.
  - left. apply issued_ord, Hk.
  - left. apply issued_deal, Hk.
  - left. apply issued_hist, Hk.
Qed.

Lemma InternalOrderPlace_draws symbol type volume price stop_limit sl tp type_time
  expiration comment t0 :
  draws 1 t0 (snd (InternalOrderPlace symbol type volume price stop_limit sl tp
                     type_time expiration comment t0)).
Proof.
  unfold InternalOrderPlace.
  destruct (GetSymbolInfo t0 symbol); [|apply draws_refl; lia].
  intros Hlo Hhi. pose proof (take_ticket_no_wrap t0 Hlo Hhi) as Hw.
  cbn. rewrite Hw. split; [lia|].
  intros k [Hk|[Hk|[Hk|Hk]]]; cbn in Hk.
  - left. apply issued_pos, Hk.
  - apply ord_tickets_insert in Hk as [Hk|[->| ->]].
    + left. apply issued_ord, Hk.
    + right. lia.
    + right. cbn. lia.
  - left. apply issued_deal, Hk.
  - left. apply issued_hist, Hk.
Qed.

(** What a successful [InternalPositionClose] leaves behind. *)
Lemma InternalPositionClose_shape ticket volume price t0 pos info :
  positions_ t0 !! ticket = Some pos ->
  GetSymbolInfo t0 (PositionInfo.Symbol pos) = Some info ->
  exists deal pos',
    let t1 := snd (InternalPositionClose ticket volume price t0) in
    fst (InternalPositionClose ticket volume price t0) = true /\
    DealInfo.ticket_ deal = next_ticket_ t0 /\
    PositionInfo.ticket_ pos' = PositionInfo.ticket_ pos /\
    next_ticket_ t1 = wrapU64 (next_ticket_ t0 + 1) /\
    deals_ t1 = deals_ t0 ++ [deal] /\
    orders_ t1 = orders_ t0 /\
    history_orders_ t1 = history_orders_ t0 /\
    (positions_ t1 = delete ticket (positions_ t0) \/
     positions_ t1 = <[ticket := pos']> (positions_ t0)).
Proof.
  intros E1 E2. unfold InternalPositionClose. rewrite E1, E2.
  cbv zeta. unfold take_ticket.
  destruct (Double.ge _ _);
    eexists; eexists; cbv zeta;
    (split; [reflexivity|]); (split; [|split; [|split; [reflexivity|
     split; [reflexivity|split; [reflexivity|split; [reflexivity|]]]]]]).
  3: left; reflexivity.
  5: right; reflexivity.
  all: reflexivity.
Qed.

Lemma InternalPositionClose_draws ticket volume price t0 :
  draws 1 t0 (snd (InternalPositionClose ticket volume price t0)).
Proof.
  destruct (positions_ t0 !! ticket) as [pos|] eqn:E1.
  2: { unfold InternalPositionClose. rewrite E1. apply draws_refl. lia. }
  destruct (GetSymbolInfo t0 (PositionInfo.Symbol pos)) as [info|] eqn:E2.
  2: { unfold InternalPositionClose. rewrite E1, E2. apply draws_refl. lia. }
  destruct (InternalPositionClose_shape ticket volume price t0 pos info E1 E2)
    as (deal & pos' & _ & Hd & Hp & Hn & Hds & Ho & Hh & Hps).
  cbv zeta in Hn, Hds, Ho, Hh, Hps.
  intros Hlo Hhi. rewrite Hn, (take_ticket_no_wrap t0 Hlo Hhi).
  split; [lia|].
  apply pos_tickets_lookup in E1 as [K1 K2].
  intros k [Hk|[Hk|[Hk|Hk]]].
  - left. apply issued_pos. destruct Hps as [Hps|Hps]; rewrite Hps in Hk.
    + eapply pos_tickets_delete, Hk.
    + apply pos_tickets_insert in Hk as [Hk|[->| ->]];
        [exact Hk | exact K1 | rewrite Hp; exact K2].
  - left. apply issued_ord. rewrite Ho in Hk. exact Hk.
  - rewrite Hds in Hk. apply deal_tickets_snoc in Hk as [Hk| ->].
    + left. apply issued_deal, Hk.
    + right. lia.
  - left. apply issued_hist. rewrite Hh in Hk. exact Hk.
Qed.

(** *** The public commands *)

Lemma fail_with_draws rc msg t0 : draws 0 t0 (snd (fail_with rc msg t0)).
Proof. same_tickets. Qed.

Lemma draws_last_result n r t0 t1 :
  draws n t0 t1 -> draws n t0 (with_last_result_ r t1).
Proof. intros H. exact H. Qed.

Lemma draws_from_last_request n r t0 t1 :
  draws n (with_last_request_ r t0) t1 -> draws n t0 t1.
Proof. intros H. exact H. Qed.

Lemma draws_from_last_check n c t0 t1 :
  draws n (with_last_check_ c t0) t1 -> draws n t0 t1.
Proof. intros H. exact H. Qed.

Lemma ExecuteRequest_draws request t0 : draws 1 t0 (snd (ExecuteRequest request t0)).
Proof.
  unfold ExecuteRequest.
  destruct (GetSymbolInfo t0 (MqlTradeRequest.symbol request));
    [|same_tickets].
  destruct (MqlTradeRequest.action request); try (same_tickets).
  - destruct (MqlTradeRequest.type request); try (same_tickets);
      match goal with
      | |- context [InternalPositionOpen ?a ?b ?c ?d ?e ?f ?g t0] =>
          pose proof (InternalPositionOpen_draws a b c d e f g t0) as H';
          destruct (InternalPositionOpen a b c d e f g t0) as [ticket ledger1]
      end;
      destruct (0 <? ticket); exact H'.
  - match goal with
    | |- context [InternalOrderPlace ?a ?b ?c ?d ?e ?f ?g ?h ?i ?j t0] =>
        pose proof (InternalOrderPlace_draws a b c d e f g h i j t0) as H';
        destruct (InternalOrderPlace a b c d e f g h i j t0) as [ticket ledger1]
    end.
    destruct (0 <? ticket); exact H'.
Qed.

Lemma check_and_execute_draws t0 : draws 1 t0 (snd (check_and_execute t0)).
Proof.
  unfold check_and_execute.
  destruct (CheckRequest t0 (last_request_ t0) (last_check_ t0)) as [ok check].
  destruct ok; cbn [negb].
  - eapply draws_from_last_check, ExecuteRequest_draws.
  - same_tickets.
Qed.

Lemma PositionOpen_draws symbol order_type volume price sl tp comment t0 :
  draws 1 t0 (snd (PositionOpen symbol order_type volume price sl tp comment t0)).
Proof. eapply draws_from_last_request, check_and_execute_draws. Qed.

Lemma OrderOpen_draws symbol order_type volume limit_price stop_price sl tp
  type_time expiration comment t0 :
  draws 1 t0 (snd (OrderOpen symbol order_type volume limit_price stop_price sl tp
                     type_time expiration comment t0)).
Proof. eapply draws_from_last_request, check_and_execute_draws. Qed.

(** Replacing a position under its own key by one with the same ticket. *)
Lemma draws_replace_position t0 t1 j pos pos' :
  positions_ t0 !! j = Some pos ->
  next_ticket_ t1 = next_ticket_ t0 ->
  positions_ t1 = <[j := pos']> (positions_ t0) ->
  orders_ t1 = orders_ t0 ->
  deals_ t1 = deals_ t0 ->
  history_orders_ t1 = history_orders_ t0 ->
  PositionInfo.ticket_ pos' = PositionInfo.ticket_ pos ->
  draws 0 t0 t1.
Proof.
  intros E Hn Hp Ho Hd Hh Ht. apply draws_frame; [lia|exact Hn|].
  apply pos_tickets_lookup in E as [K1 K2].
  unfold issued. rewrite Hp, Ho, Hd, Hh.
  intros k [Hk|Hk]; [|auto]. left.
  apply pos_tickets_insert in Hk as [Hk|[->| ->]];
    [exact Hk | exact K1 | rewrite Ht; exact K2].
Qed.

Lemma PositionModify_draws ticket sl tp t0 :
  draws 0 t0 (snd (PositionModify ticket sl tp t0)).
Proof.
  unfold PositionModify.
  destruct (positions_ t0 !! ticket) as [pos|] eqn:E; [|same_tickets].
  eapply (draws_replace_position t0 _ ticket pos);
    [exact E | reflexivity | reflexivity | reflexivity | reflexivity
    | reflexivity |].
  unfold Double.gt.
  destruct (PrimFloat.ltb 0 sl), (PrimFloat.ltb 0 tp); reflexivity.
Qed.

Lemma PositionModifyBySymbol_draws symbol sl tp t0 :
  draws 0 t0 (snd (PositionModifyBySymbol symbol sl tp t0)).
Proof.
  unfold PositionModifyBySymbol.
  destruct (find_position_by_symbol t0 symbol) as [[? pos]|].
  - apply PositionModify_draws.
  - same_tickets.
Qed.

Lemma PositionClose_draws ticket deviation t0 :
  draws 1 t0 (snd (PositionClose ticket deviation t0)).
Proof.
  unfold PositionClose.
  destruct (positions_ t0 !! ticket) as [pos|]; [|same_tickets].
  cbv zeta.
  match goal with |- context [GetSymbolInfo ?t1 ?s] => destruct (GetSymbolInfo t1 s) end.
  - eapply draws_from_last_request, InternalPositionClose_draws.
  - same_tickets.
Qed.

Lemma PositionCloseBySymbol_draws symbol deviation t0 :
  draws 1 t0 (snd (PositionCloseBySymbol symbol deviation t0)).
Proof.
  unfold PositionCloseBySymbol.
  destruct (find_position_by_symbol t0 symbol) as [[ticket ?]|];
    [|same_tickets].
  destruct (ticket =? 0); [same_tickets | apply PositionClose_draws].
Qed.

Lemma PositionClosePartial_draws ticket volume deviation t0 :
  draws 1 t0 (snd (PositionClosePartial ticket volume deviation t0)).
Proof.
  unfold PositionClosePartial.
  destruct (positions_ t0 !! ticket) as [pos|]; [|same_tickets].
  destruct (Double.ge volume (PositionInfo.Volume pos));
    [apply PositionClose_draws|].
  destruct (GetSymbolInfo t0 (PositionInfo.Symbol pos)); [|same_tickets].
  eapply draws_from_last_request, InternalPositionClose_draws.
Qed.

Lemma PositionClosePartialBySymbol_draws symbol volume deviation t0 :
  draws 1 t0 (snd (PositionClosePartialBySymbol symbol volume deviation t0)).
Proof.
  unfold PositionClosePartialBySymbol.
  destruct (find_position_by_symbol t0 symbol) as [[ticket ?]|];
    [|same_tickets].
  destruct (ticket =? 0); [same_tickets | apply PositionClosePartial_draws].
Qed.

Lemma PositionCloseBy_draws ticket ticket_by t0 :
  draws 2 t0 (snd (PositionCloseBy ticket ticket_by t0)).
Proof.
  unfold PositionCloseBy.
  destruct (positions_ t0 !! ticket) as [pos1|]; [|same_tickets].
  destruct (positions_ t0 !! ticket_by) as [pos2|]; [|same_tickets].
  destruct (negb _); [same_tickets|].
  destruct (bool_decide _); [same_tickets|]. cbv zeta.
  match goal with |- context [GetSymbolInfo ?t1 ?s] => destruct (GetSymbolInfo t1 s) end;
    [|same_tickets].
  match goal with
  | |- context [InternalPositionClose ?a ?b ?c ?t1] =>
      pose proof (draws_from_last_request _ _ t0 _
                    (InternalPositionClose_draws a b c t1)) as H';
      destruct (InternalPositionClose a b c t1) as [success ledger2]
  end.
  destruct success.
  - apply (draws_trans 1 1 t0 ledger2); [lia | lia | exact H' |].
    apply InternalPositionClose_draws.
  - apply (draws_weaken 1); [lia | exact H'].
Qed.

Lemma OrderModify_draws ticket price sl tp stop_limit expiration t0 :
  draws 0 t0 (snd (OrderModify ticket price sl tp stop_limit expiration t0)).
Proof.
  unfold OrderModify.
  destruct (orders_ t0 !! ticket) as [order|] eqn:E; [|same_tickets].
  apply draws_frame; [lia | reflexivity |].
  apply ord_tickets_lookup in E as [K1 K2].
  intros k [Hk|[Hk|Hk]]; [apply issued_pos, Hk | | unfold issued; auto].
  apply issued_ord. cbn in Hk.
  apply ord_tickets_insert in Hk as [Hk|[->|Hk]]; [exact Hk | exact K1 |].
  replace k with (OrderInfo.ticket_ order); [exact K2|].
  rewrite Hk. unfold Double.gt.
  destruct (PrimFloat.ltb 0 price), (PrimFloat.ltb 0 sl), (PrimFloat.ltb 0 tp),
    (PrimFloat.ltb 0 stop_limit), (0 <? expiration); reflexivity.
Qed.

Lemma OrderDelete_draws ticket t0 : draws 0 t0 (snd (OrderDelete ticket t0)).
Proof.
  unfold OrderDelete.
  destruct (orders_ t0 !! ticket) as [order|] eqn:E; [|same_tickets].
  apply draws_frame; [lia | reflexivity |].
  apply ord_tickets_lookup in E as [K1 K2].
  intros k [Hk|[Hk|[Hk|Hk]]]; cbn in Hk.
  - apply issued_pos, Hk.
  - apply issued_ord. eapply ord_tickets_delete, Hk.
  - apply issued_deal, Hk.
  - apply hist_tickets_snoc in Hk as [Hk| ->].
    + apply issued_hist, Hk.
    + apply issued_ord, K2.
Qed.

(** Rewriting every position without touching its ticket. *)
Lemma draws_fmap_positions (f : PositionInfo.t -> PositionInfo.t) t0 t1 :
  (forall pos, PositionInfo.ticket_ (f pos) = PositionInfo.ticket_ pos) ->
  next_ticket_ t1 = next_ticket_ t0 ->
  positions_ t1 = f <$> positions_ t0 ->
  orders_ t1 = orders_ t0 ->
  deals_ t1 = deals_ t0 ->
  history_orders_ t1 = history_orders_ t0 ->
  draws 0 t0 t1.
Proof.
  intros Hf Hn Hp Ho Hd Hh. apply draws_frame; [lia|exact Hn|].
  unfold issued. rewrite Hp, Ho, Hd, Hh.
  intros k [Hk|Hk]; [|auto]. left. eapply pos_tickets_fmap, Hk. exact Hf.
Qed.

Lemma UpdatePrices_draws symbol bid ask timestamp t0 :
  draws 0 t0 (UpdatePrices symbol bid ask timestamp t0).
Proof.
  unfold UpdatePrices.
  destruct (symbol_name_to_id_ t0 !! symbol) as [id|]; [|same_tickets].
  destruct (symbols_ t0 !! id); [|same_tickets].
  cbv zeta.
  match goal with
  | |- context [?f <$> positions_ _] =>
      apply (draws_fmap_positions f)
  end; try (destruct (0 <? timestamp); reflexivity).
  intros pos. destruct (bool_decide _); reflexivity.
Qed.

Lemma TrailingStopEnable_draws ticket distance step t0 :
  draws 0 t0 (snd (TrailingStopEnable ticket distance step t0)).
Proof.
  unfold TrailingStopEnable.
  destruct (positions_ t0 !! ticket) as [pos|] eqn:E; [|same_tickets].
  eapply (draws_replace_position t0 _ ticket pos); [exact E | reflexivity..].
Qed.

Lemma TrailingStopDisable_draws ticket t0 :
  draws 0 t0 (snd (TrailingStopDisable ticket t0)).
Proof.
  unfold TrailingStopDisable.
  destruct (positions_ t0 !! ticket) as [pos|] eqn:E; [|same_tickets].
  eapply (draws_replace_position t0 _ ticket pos); [exact E | reflexivity..].
Qed.

Lemma trail_position_ticket t0 pos :
  PositionInfo.ticket_ (trail_position t0 pos) = PositionInfo.ticket_ pos.
Proof.
  unfold trail_position.
  repeat match goal with
         | |- context [match ?x with _ => _ end] => destruct x
         end; reflexivity.
Qed.

Lemma UpdateTrailingStops_draws t0 : draws 0 t0 (UpdateTrailingStops t0).
Proof.
  apply (draws_fmap_positions (trail_position t0)); try reflexivity.
  apply trail_position_ticket.
Qed.

Lemma exec_draws c t0 : draws 2 t0 (snd (exec c t0)).
Proof.
  destruct c; cbn [exec snd].
  - apply (draws_weaken 1); [lia | apply PositionOpen_draws].
  - apply (draws_weaken 0); [lia | apply PositionModify_draws].
  - apply (draws_weaken 0); [lia | apply PositionModifyBySymbol_draws].
  - apply (draws_weaken 1); [lia | apply PositionClose_draws].
  - apply (draws_weaken 1); [lia | apply PositionCloseBySymbol_draws].
  - apply (draws_weaken 1); [lia | apply PositionClosePartial_draws].
  - apply (draws_weaken 1); [lia | apply PositionClosePartialBySymbol_draws].
  - apply PositionCloseBy_draws.
  - apply (draws_weaken 1); [lia | apply OrderOpen_draws].
  - apply (draws_weaken 0); [lia | apply OrderModify_draws].
  - apply (draws_weaken 0); [lia | apply OrderDelete_draws].
  - same_tickets.
  - apply (draws_weaken 0); [lia | apply UpdatePrices_draws].
  - same_tickets.
  - same_tickets.
  - same_tickets.
  - same_tickets.
  - same_tickets.
  - same_tickets.
  - apply (draws_weaken 0); [lia | apply TrailingStopEnable_draws].
  - apply (draws_weaken 0); [lia | apply TrailingStopDisable_draws].
  - apply (draws_weaken 0); [lia | apply UpdateTrailingStops_draws].
Qed.

Lemma run_draws cs t0 : draws (2 * Z.of_nat (length cs)) t0 (run cs t0).
Proof.
  revert t0. induction cs as [|c cs IH]; intros t0.
  - apply draws_refl. lia.
  - replace (2 * Z.of_nat (length (c :: cs)))
      with (2 + 2 * Z.of_nat (length cs)) by (cbn [length]; lia).
    apply (draws_trans 2 _ t0 (snd (exec c t0))); [lia | lia | apply exec_draws |].
    apply IH.
Qed.

Lemma init_tickets initial_balance currency leverage :
  tickets_below_counter (init initial_balance currency leverage).
Proof.
  split; [cbn; lia|].
  intros k Hk. unfold issued in Hk. cbn in Hk.
  destruct Hk as [(j & p & H & _)|[(j & o & H & _)|[(d & H & _)|(h & H & _)]]].
  - rewrite lookup_empty in H. discriminate.
  - rewrite lookup_empty in H. discriminate.
  - apply elem_of_nil in H. contradiction.
  - apply elem_of_nil in H. contradiction.
Qed.

Lemma draws_tickets_below n t0 t1 :
  next_ticket_ t0 + n <= UINT64_MAX ->
  draws n t0 t1 -> tickets_below_counter t0 -> tickets_below_counter t1.
Proof.
  intros Hhi H [Hlo Hi]. destruct H as [Hc Hk]; [lia | lia |].
  split; [lia|]. intros k Hk1.
  destruct (Hk k Hk1) as [Hk0|Hk0]; [apply Hi in Hk0|]; lia.
Qed.

(** The three sites draw the value of the counter and advance it by one. *)
Lemma InternalPositionOpen_ticket symbol type volume price sl tp comment t0 info :
  GetSymbolInfo t0 symbol = Some info ->
  let r := InternalPositionOpen symbol type volume price sl tp comment t0 in
  fst r = next_ticket_ t0 /\
  next_ticket_ (snd r) = wrapU64 (next_ticket_ t0 + 1) /\
  (PositionInfo.ticket_ <$> positions_ (snd r) !! next_ticket_ t0)
  = Some (next_ticket_ t0).
Proof.
  intros E. unfold InternalPositionOpen. rewrite E. cbn.
  rewrite lookup_insert_eq. auto.
Qed.

Lemma InternalOrderPlace_ticket symbol type volume price stop_limit sl tp
  type_time expiration comment t0 info :
  GetSymbolInfo t0 symbol = Some info ->
  let r := InternalOrderPlace symbol type volume price stop_limit sl tp type_time
             expiration comment t0 in
  fst r = next_ticket_ t0 /\
  next_ticket_ (snd r) = wrapU64 (next_ticket_ t0 + 1) /\
  (OrderInfo.ticket_ <$> orders_ (snd r) !! next_ticket_ t0)
  = Some (next_ticket_ t0).
Proof.
  intros E. unfold InternalOrderPlace. rewrite E. cbn.
  rewrite lookup_insert_eq. auto.
Qed.

Lemma InternalPositionClose_ticket ticket volume price t0 pos info :
  positions_ t0 !! ticket = Some pos ->
  GetSymbolInfo t0 (PositionInfo.Symbol pos) = Some info ->
  let r := InternalPositionClose ticket volume price t0 in
  fst r = true /\
  next_ticket_ (snd r) = wrapU64 (next_ticket_ t0 + 1) /\
  exists deal,
    deals_ (snd r) = deals_ t0 ++ [deal] /\
    DealInfo.ticket_ deal = next_ticket_ t0.
Proof.
  intros E1 E2.
  destruct (InternalPositionClose_shape ticket volume price t0 pos info E1 E2)
    as (deal & pos' & Hb & Hd & _ & Hn & Hds & _).
  split; [exact Hb|]. split; [exact Hn|]. exists deal. auto.
Qed.

Lemma RestoreSnapshot_counter snap t0 :
  next_ticket_ (RestoreSnapshot snap t0) = snap_next_ticket snap.
Proof. reflexivity. Qed.

(** Restoring the snapshot of a fresh ledger takes the counter from 1001
    back to 1000. *)
Lemma RestoreSnapshot_lowers_counter :
  next_ticket_ ledger_eurusd = 1001 /\
  next_ticket_ (RestoreSnapshot (CreateSnapshot fresh) ledger_eurusd) = 1000.
Proof. vm_compute. split; reflexivity. Qed.

(** C7.  The counter of a new ledger is 1000.  As long as the 64-bit
    counter does not wrap, along any sequence of public commands (which
    do not include [RestoreSnapshot]) it never decreases; every ticket the
    ledger holds (position, pending order, deal or history order) lies
    between 1000 and the counter; and every ticket that appears later was
    drawn from the counter at or above its earlier value, so it is
    strictly greater than every ticket issued before, of any kind.  Each
    of the three issuance sites (position open, pending-order placement,
    the deal of a close) takes the current value of the one counter and
    advances it by one.  [RestoreSnapshot] sets the counter to the
    snapshot's value. *)
Theorem ticket_counter_monotonic (cs1 cs2 : list Command)
  (initial_balance : float) (currency : string) (leverage : Z)
  (Hfits : 1000 + 2 * Z.of_nat (length cs1 + length cs2) <= UINT64_MAX) :
  let t0 := init initial_balance currency leverage in
  let t1 := run cs1 t0 in
  let t2 := run cs2 t1 in
  next_ticket_ t0 = 1000 /\
  1000 <= next_ticket_ t1 <= next_ticket_ t2 /\
  (forall k, issued t1 k -> 1000 <= k < next_ticket_ t1) /\
  (forall k, issued t2 k ->
             issued t1 k \/ next_ticket_ t1 <= k < next_ticket_ t2) /\
  (forall k k', issued t1 k' -> issued t2 k -> ~ issued t1 k -> k' < k) /\
  (forall symbol type volume price sl tp comment info,
     GetSymbolInfo t1 symbol = Some info ->
     let r := InternalPositionOpen symbol type volume price sl tp comment t1 in
     fst r = next_ticket_ t1 /\
     next_ticket_ (snd r) = next_ticket_ t1 + 1 /\
     (PositionInfo.ticket_ <$> positions_ (snd r) !! next_ticket_ t1)
     = Some (next_ticket_ t1)) /\
  (forall symbol type volume price stop_limit sl tp type_time expiration comment
          info,
     GetSymbolInfo t1 symbol = Some info ->
     let r := InternalOrderPlace symbol type volume price stop_limit sl tp
                type_time expiration comment t1 in
     fst r = next_ticket_ t1 /\
     next_ticket_ (snd r) = next_ticket_ t1 + 1 /\
     (OrderInfo.ticket_ <$> orders_ (snd r) !! next_ticket_ t1)
     = Some (next_ticket_ t1)) /\
  (forall ticket volume price pos info,
     positions_ t1 !! ticket = Some pos ->
     GetSymbolInfo t1 (PositionInfo.Symbol pos) = Some info ->
     let r := InternalPositionClose ticket volume price t1 in
     fst r = true /\
     next_ticket_ (snd r) = next_ticket_ t1 + 1 /\
     exists deal,
       deals_ (snd r) = deals_ t1 ++ [deal] /\
       DealInfo.ticket_ deal = next_ticket_ t1) /\
  (forall snap, next_ticket_ (RestoreSnapshot snap t1) = snap_next_ticket snap).
Proof.
  intros t0 t1 t2.
  rewrite Nat2Z.inj_add in Hfits.
  assert (H0 : tickets_below_counter t0) by apply init_tickets.
  assert (Hn0 : next_ticket_ t0 = 1000) by reflexivity.
  pose proof (run_draws cs1 t0) as D1. fold t1 in D1.
  pose proof (run_draws cs2 t1) as D2. fold t2 in D2.
  assert (H1 : tickets_below_counter t1).
  { apply (draws_tickets_below (2 * Z.of_nat (length cs1)) t0 t1);
      [lia | exact D1 | exact H0]. }
  destruct D1 as [C1 _]; [lia | lia |].
  destruct D2 as [C2 I2]; [lia | lia |].
  destruct H1 as [L1 I1].
  assert (Hw : wrapU64 (next_ticket_ t1 + 1) = next_ticket_ t1 + 1).
  { apply take_ticket_no_wrap; unfold UINT64_MAX in *; lia. }
  split; [exact Hn0|]. split; [lia|]. split; [exact I1|]. split; [exact I2|].
  split.
  { intros k k' Hk' Hk Hnew. apply I1 in Hk'.
    destruct (I2 k Hk) as [Hold|Hk1]; [contradiction | lia]. }
  split.
  { intros symbol type volume price sl tp comment info E.
    rewrite <- Hw.
    exact (InternalPositionOpen_ticket symbol type volume price sl tp comment
             t1 info E). }
  split.
  { intros symbol type volume price stop_limit sl tp type_time expiration
           comment info E.
    rewrite <- Hw.
    exact (InternalOrderPlace_ticket symbol type volume price stop_limit sl tp
             type_time expiration comment t1 info E). }
  split.
  { intros ticket volume price pos info E1 E2. rewrite <- Hw.
    exact (InternalPositionClose_ticket ticket volume price t1 pos info E1 E2). }
  intros snap. apply RestoreSnapshot_counter.
Qed.

Lemma ticket_counter_monotonic_witness :
  1000 + 2 * Z.of_nat (length open_eurusd + length tick_and_close) <= UINT64_MAX /\
  next_ticket_ (init 10000 "USD" 100) = 1000 /\
  1000 <= next_ticket_ (run open_eurusd (init 10000 "USD" 100))
  <= next_ticket_ (run tick_and_close
                     (run open_eurusd (init 10000 "USD" 100))).
Proof.
  assert (Hfits : 1000 + 2 * Z.of_nat (length open_eurusd + length tick_and_close)
                  <= UINT64_MAX) by closed_Z_order.
  split; [exact Hfits|].
  destruct (ticket_counter_monotonic open_eurusd tick_and_close 10000 "USD" 100
              Hfits) as (H0 & H1 & _).
  split; [exact H0 | exact H1].
Defined.

End TicketFacts.

(** ** core/global_clock.hpp: the global time as a minimum *)

Module GlobalClockMinimum.

Import GlobalClock GlobalClockSpec IntFacts.

(** The loop of [recalculate_global_time_locked]: the result is at most
    [INT64_MAX] and every value, and is [INT64_MAX] or one of the values. *)
Lemma fold_min_spec (m : gmap Z Z) :
  let r := map_fold (fun (_ : Z) timestamp min_time => Z.min min_time timestamp)
                    INT64_MAX m in
  r <= INT64_MAX /\
  (forall k v, m !! k = Some v -> r <= v) /\
  (r = INT64_MAX \/ exists k, m !! k = Some r).
Proof.
  cbv zeta.
  apply (map_fold_weak_ind
    (fun (r : Z) (m : gmap Z Z) =>
       r <= INT64_MAX /\
       (forall k v, m !! k = Some v -> r <= v) /\
       (r = INT64_MAX \/ exists k, m !! k = Some r))).
  - split; [lia|]. split; [|left; reflexivity].
    intros k v Hk. rewrite lookup_empty in Hk. discriminate.
  - intros i x m' r Hi (Hmax & Hle & Hin). split; [lia|]. split.
    + intros k v Hk. destruct (decide (k = i)) as [->|Hne].
      * rewrite lookup_insert_eq in Hk. injection Hk as <-. lia.
      * rewrite lookup_insert_ne in Hk by congruence.
        specialize (Hle k v Hk). lia.
    + destruct (Z.min_spec r x) as [[Hlt ->]|[Hge ->]].
      * destruct Hin as [->|[k Hk]]; [left; reflexivity|].
        right. exists k. rewrite lookup_insert_ne; [exact Hk|].
        intros <-. rewrite Hi in Hk. discriminate.
      * right. exists i. apply lookup_insert_eq.
Qed.

Lemma recalculate_timestamps c :
  symbol_timestamps_ (recalculate_global_time_locked c) = symbol_timestamps_ c.
Proof.
  unfold recalculate_global_time_locked.
  destruct (decide (symbol_timestamps_ c = ∅)); reflexivity.
Qed.

(** The recalculation reads the map only. *)
Lemma recalculate_ignores_time m g g' :
  recalculate_global_time_locked (mk m g) = recalculate_global_time_locked (mk m g').
Proof.
  unfold recalculate_global_time_locked. cbn [symbol_timestamps_].
  destruct (decide (m = ∅)); reflexivity.
Qed.

Lemma recalculate_is_minimum c :
  (forall k v, symbol_timestamps_ c !! k = Some v -> v <= INT64_MAX) ->
  is_minimum (recalculate_global_time_locked c).
Proof.
  intros Hmax. unfold is_minimum. rewrite recalculate_timestamps.
  unfold recalculate_global_time_locked.
  destruct (decide (symbol_timestamps_ c = ∅)) as [He|Hne]; cbn [global_time_].
  - split; [|contradiction].
    intros k v Hk. rewrite He, lookup_empty in Hk. discriminate.
  - destruct (fold_min_spec (symbol_timestamps_ c)) as (_ & Hle & Hin).
    split; [exact Hle|]. intros _.
    destruct Hin as [Hr|Hin]; [|exact Hin].
    destruct (map_choose _ Hne) as (k & v & Hk). exists k.
    rewrite Hk. f_equal.
    pose proof (Hle k v Hk). pose proof (Hmax k v Hk). lia.
Qed.

(** What [update_batch] stores: the entries of [updates] over the old
    ones. *)
Lemma batch_timestamps (updates m : gmap Z Z) :
  map_fold (fun symbol_id timestamp acc => <[symbol_id := timestamp]> acc) m updates
  = updates ∪ m.
Proof.
  apply (map_fold_weak_ind (fun (r u : gmap Z Z) => r = u ∪ m)).
  - symmetry. apply (left_id_L ∅ (∪)).
  - intros i x u r _ ->. apply insert_union_l.
Qed.

Lemma apply_tracked lo o c :
  timestamps_from lo o -> tracked_from lo c -> tracked_from lo (apply o c).
Proof.
  unfold tracked_from. intros Ho Hc k v.
  destruct o as [id ts|updates|id| |t0]; cbn [apply timestamps_from] in *.
  - unfold update_symbol. rewrite recalculate_timestamps. cbn [symbol_timestamps_].
    destruct (decide (k = id)) as [->|Hne].
    + rewrite lookup_insert_eq. intros [= <-]. exact Ho.
    + rewrite lookup_insert_ne by congruence. apply Hc.
  - unfold update_batch. rewrite recalculate_timestamps. cbn [symbol_timestamps_].
    rewrite batch_timestamps. intros Hk.
    apply lookup_union_Some_raw in Hk as [Hk|[_ Hk]]; [eapply Ho|eapply Hc]; eauto.
  - unfold remove_symbol. rewrite recalculate_timestamps. cbn [symbol_timestamps_].
    intros Hk. apply lookup_delete_Some in Hk as [_ Hk]. eapply Hc; eauto.
  - cbn. rewrite lookup_empty. discriminate.
  - cbn. rewrite lookup_empty. discriminate.
Qed.

Lemma empty_is_minimum g : is_minimum (mk ∅ g).
Proof.
  split; cbn [symbol_timestamps_]; [|contradiction].
  intros k v Hk. rewrite lookup_empty in Hk. discriminate.
Qed.

Lemma apply_is_minimum lo o c :
  timestamps_from lo o -> tracked_from lo c -> is_minimum (apply o c).
Proof.
  intros Ho Hc.
  pose proof (apply_tracked lo o c Ho Hc) as Ht. unfold tracked_from in Ht.
  destruct o as [id ts|updates|id| |t0]; cbn [apply] in *;
    try apply empty_is_minimum.
  - unfold update_symbol in *. rewrite recalculate_timestamps in Ht.
    apply recalculate_is_minimum. intros k v Hk. apply (Ht k v Hk).
  - unfold update_batch in *. rewrite recalculate_timestamps in Ht.
    apply recalculate_is_minimum. intros k v Hk. apply (Ht k v Hk).
  - unfold remove_symbol in *. rewrite recalculate_timestamps in Ht.
    apply recalculate_is_minimum. intros k v Hk. apply (Ht k v Hk).
Qed.

Lemma run_snoc os o c : run (os ++ [o]) c = apply o (run os c).
Proof. unfold run. rewrite fold_left_app. reflexivity. Qed.

Lemma run_invariant lo os :
  Forall (timestamps_from lo) os ->
  tracked_from lo (run os init) /\ is_minimum (run os init).
Proof.
  induction os as [|o os IH] using rev_ind; intros Hos.
  - split; [|apply empty_is_minimum].
    intros k v Hk. cbn in Hk. rewrite lookup_empty in Hk. discriminate.
  - apply Forall_app in Hos as [Hos Ho]. apply Forall_cons in Ho as [Ho _].
    destruct (IH Hos) as [Ht _]. rewrite run_snoc.
    split; [apply apply_tracked | eapply apply_is_minimum]; eassumption.
Qed.

(** X1.  After any sequence of [update_symbol], [update_batch],
    [remove_symbol], [clear] and [reset] calls on a new clock,
    [current_time] is at most the timestamp of every tracked symbol, and
    when some symbol is tracked it is the timestamp of one of them: the
    global time is the minimum of the tracked timestamps. *)
Theorem current_time_is_minimum (os : list Operation) :
  Forall (timestamps_from INT64_MIN) os ->
  let c := run os init in
  (forall k v, get_all_timestamps c !! k = Some v -> current_time c <= v) /\
  (symbol_count c <> 0%nat ->
   exists k, get_all_timestamps c !! k = Some (current_time c)).
Proof.
  intros Hos c. destruct (run_invariant _ os Hos) as [_ [Hle Hin]].
  split; [exact Hle|]. intros Hn. apply Hin.
  intros He. apply Hn. unfold symbol_count, c. rewrite He. apply map_size_empty.
Qed.

Lemma current_time_is_minimum_witness :
  let c := run [OpUpdateSymbol 1 1000000; OpUpdateBatch {[2 := 999000; 3 := 1002000]};
                OpRemoveSymbol 3] init in
  current_time c = 999000 /\
  (forall k v, get_all_timestamps c !! k = Some v -> current_time c <= v).
Proof.
  intros c. split; [vm_compute; reflexivity|].
  apply (current_time_is_minimum
           [OpUpdateSymbol 1 1000000; OpUpdateBatch {[2 := 999000; 3 := 1002000]};
            OpRemoveSymbol 3]).
  apply Forall_cons. split; [split; closed_Z_order|].
  apply Forall_cons. split.
  - intros k v Hk.
    apply lookup_insert_Some in Hk as [[_ <-]|[_ Hk]]; [split; closed_Z_order|].
    apply lookup_singleton_Some in Hk as [_ <-]. split; closed_Z_order.
  - apply Forall_cons. split; [exact I|apply Forall_nil_2].
Defined.

(** The loop of [get_slowest_symbol]: either nothing below [INT64_MAX] was
    met and the pair is still [(0, INT64_MAX)], or the pair is an entry of
    the map with the least timestamp. *)
Lemma slowest_cases (m : gmap Z Z) :
  let acc := map_fold
               (fun symbol_id timestamp (acc : Z * Z) =>
                  if timestamp <? snd acc then (symbol_id, timestamp) else acc)
               (0, INT64_MAX) m in
  (acc = (0, INT64_MAX) /\ forall k v, m !! k = Some v -> INT64_MAX <= v) \/
  (m !! fst acc = Some (snd acc) /\ snd acc < INT64_MAX /\
   forall k v, m !! k = Some v -> snd acc <= v).
Proof.
  cbv zeta.
  apply (map_fold_weak_ind
    (fun (acc : Z * Z) (m : gmap Z Z) =>
       (acc = (0, INT64_MAX) /\ forall k v, m !! k = Some v -> INT64_MAX <= v) \/
       (m !! fst acc = Some (snd acc) /\ snd acc < INT64_MAX /\
        forall k v, m !! k = Some v -> snd acc <= v))).
  - left. split; [reflexivity|]. intros k v Hk. rewrite lookup_empty in Hk. discriminate.
  - intros i x m' [id t0] Hi IH. cbn [fst snd] in *.
    destruct (Z.ltb_spec x t0) as [Hlt|Hge]; cbn [fst snd].
    + right. split; [apply lookup_insert_eq|].
      destruct IH as [[[= -> ->] Hall]|(Hid & Hlt' & Hall)].
      * split; [exact Hlt|]. intros k v Hk.
        destruct (decide (k = i)) as [->|Hne].
        -- rewrite lookup_insert_eq in Hk. injection Hk as <-. lia.
        -- rewrite lookup_insert_ne in Hk by congruence.
           specialize (Hall k v Hk). lia.
      * split; [lia|]. intros k v Hk.
        destruct (decide (k = i)) as [->|Hne].
        -- rewrite lookup_insert_eq in Hk. injection Hk as <-. lia.
        -- rewrite lookup_insert_ne in Hk by congruence.
           specialize (Hall k v Hk). lia.
    + destruct IH as [[[= -> ->] Hall]|(Hid & Hlt' & Hall)].
      * left. split; [reflexivity|]. intros k v Hk.
        destruct (decide (k = i)) as [->|Hne].
        -- rewrite lookup_insert_eq in Hk. injection Hk as <-. lia.
        -- rewrite lookup_insert_ne in Hk by congruence. eauto.
      * right. split.
        -- rewrite lookup_insert_ne; [exact Hid|]. intros <-.
           rewrite Hi in Hid. discriminate.
        -- split; [exact Hlt'|]. intros k v Hk.
           destruct (decide (k = i)) as [->|Hne].
           ++ rewrite lookup_insert_eq in Hk. injection Hk as <-. lia.
           ++ rewrite lookup_insert_ne in Hk by congruence. eauto.
Qed.

(** X2.  [get_slowest_symbol] returns 0 on an empty clock; when some
    tracked timestamp is below [INT64_MAX] it returns a tracked symbol whose
    timestamp is the least of all; and when every tracked timestamp is
    [INT64_MAX] it returns 0, whether or not symbol 0 is tracked. *)
Theorem get_slowest_symbol_spec (c : t) :
  (symbol_timestamps_ c = ∅ -> get_slowest_symbol c = 0) /\
  ((exists k v, symbol_timestamps_ c !! k = Some v /\ v < INT64_MAX) ->
   exists v, symbol_timestamps_ c !! get_slowest_symbol c = Some v /\
             forall k' v', symbol_timestamps_ c !! k' = Some v' -> v <= v') /\
  ((forall k v, symbol_timestamps_ c !! k = Some v -> v = INT64_MAX) ->
   get_slowest_symbol c = 0).
Proof.
  unfold get_slowest_symbol.
  destruct (decide (symbol_timestamps_ c = ∅)) as [He|Hne].
  - split; [reflexivity|]. split; [|reflexivity].
    intros (k & v & Hk & _). rewrite He, lookup_empty in Hk. discriminate.
  - split; [contradiction|].
    destruct (slowest_cases (symbol_timestamps_ c)) as [[-> Hall]|(Hid & Hlt & Hall)].
    + split; [|reflexivity].
      intros (k & v & Hk & Hv). specialize (Hall k v Hk). lia.
    + split.
      * intros _. eexists. split; [exact Hid|exact Hall].
      * intros Hmax. specialize (Hmax _ _ Hid). lia.
Qed.

(** X3.  On a clock built by the public operations with timestamps in
    [[0, INT64_MAX]], the lag of every symbol is its timestamp minus the
    global time and is never negative, an untracked symbol has lag 0, and
    the symbol [get_slowest_symbol] names has lag 0. *)
Theorem lag_nonnegative (os : list Operation) :
  Forall (timestamps_from 0) os ->
  let c := run os init in
  (forall k v, symbol_timestamps_ c !! k = Some v ->
     get_symbol_lag c k = v - current_time c /\ 0 <= get_symbol_lag c k) /\
  (forall k, symbol_timestamps_ c !! k = None -> get_symbol_lag c k = 0) /\
  get_symbol_lag c (get_slowest_symbol c) = 0.
Proof.
  intros Hos c. destruct (run_invariant _ os Hos) as [Ht [Hle Hin]]. fold c in Ht, Hle, Hin.
  assert (Hg : symbol_timestamps_ c <> ∅ -> 0 <= global_time_ c <= INT64_MAX).
  { intros Hne. destruct (Hin Hne) as [k Hk]. apply (Ht k _ Hk). }
  assert (Hlag : forall k v, symbol_timestamps_ c !! k = Some v ->
                   get_symbol_lag c k = v - current_time c /\ 0 <= get_symbol_lag c k).
  { intros k v Hk. unfold get_symbol_lag, current_time. rewrite Hk.
    assert (Hne : symbol_timestamps_ c <> ∅).
    { intros He. rewrite He, lookup_empty in Hk. discriminate. }
    pose proof (Hg Hne). pose proof (Ht k v Hk). pose proof (Hle k v Hk).
    rewrite wrap64_id by (unfold in_int64, INT64_MIN, INT64_MAX in *; lia). lia. }
  split; [exact Hlag|]. split.
  - intros k Hk. unfold get_symbol_lag. rewrite Hk. reflexivity.
  - destruct (symbol_timestamps_ c !! get_slowest_symbol c) as [v|] eqn:Hs;
      [|unfold get_symbol_lag; rewrite Hs; reflexivity].
    destruct (Hlag _ _ Hs) as [-> _].
    assert (Hne : symbol_timestamps_ c <> ∅).
    { intros He. rewrite He, lookup_empty in Hs. discriminate. }
    destruct (Hin Hne) as [k0 Hk0]. unfold current_time.
    pose proof (Hle _ _ Hs) as H1.
    revert Hs. unfold get_slowest_symbol.
    destruct (decide (symbol_timestamps_ c = ∅)); [contradiction|].
    destruct (slowest_cases (symbol_timestamps_ c)) as [[-> Hall]|(Hid & _ & Hall)];
      cbn [fst]; intros Hs.
    + pose proof (Hall _ _ Hk0). pose proof (Ht _ _ Hs). pose proof (Ht _ _ Hk0). lia.
    + rewrite Hid in Hs. injection Hs as <-. specialize (Hall _ _ Hk0). lia.
Qed.

Lemma lag_nonnegative_witness :
  let c := run [OpUpdateSymbol 1 1000000; OpUpdateSymbol 2 999000] init in
  get_slowest_symbol c = 2 /\ get_symbol_lag c 1 = 1000 /\
  get_symbol_lag c (get_slowest_symbol c) = 0.
Proof.
  intros c. split; [vm_compute; reflexivity|]. split; [vm_compute; reflexivity|].
  apply (lag_nonnegative [OpUpdateSymbol 1 1000000; OpUpdateSymbol 2 999000]).
  apply Forall_cons. split; [split; closed_Z_order|].
  apply Forall_cons. split; [split; closed_Z_order|apply Forall_nil_2].
Defined.

(** X4.  No look-ahead: on a clock built by the public operations, the
    clamped query time never exceeds the query or the global time, hence no
    tracked symbol's timestamp; it is itself a valid query; and a query is
    valid exactly when clamping leaves it unchanged. *)
Theorem clamp_query_time_no_lookahead (os : list Operation) (query_time : Z) :
  Forall (timestamps_from INT64_MIN) os ->
  let c := run os init in
  PITEnforcer.clamp_query_time c query_time <= query_time /\
  PITEnforcer.clamp_query_time c query_time <= PITEnforcer.max_query_time c /\
  (forall k v, symbol_timestamps_ c !! k = Some v ->
     PITEnforcer.clamp_query_time c query_time <= v) /\
  PITEnforcer.is_valid_query c (PITEnforcer.clamp_query_time c query_time) = true /\
  (PITEnforcer.is_valid_query c query_time = true <->
   PITEnforcer.clamp_query_time c query_time = query_time).
Proof.
  intros Hos c. destruct (run_invariant _ os Hos) as [_ [Hle _]]. fold c in Hle.
  unfold PITEnforcer.clamp_query_time, PITEnforcer.is_valid_query,
    PITEnforcer.max_query_time, current_time. cbv zeta.
  split; [lia|]. split; [lia|]. split.
  - intros k v Hk. specialize (Hle k v Hk). lia.
  - split; [apply Z.leb_le; lia|]. rewrite Z.leb_le. lia.
Qed.

Lemma clamp_query_time_no_lookahead_witness :
  let c := run [OpUpdateSymbol 1 1000000; OpUpdateSymbol 2 999000] init in
  PITEnforcer.clamp_query_time c 1000500 = 999000 /\
  PITEnforcer.clamp_query_time c 1000500 <= 1000500.
Proof.
  intros c. split; [vm_compute; reflexivity|].
  apply (clamp_query_time_no_lookahead
           [OpUpdateSymbol 1 1000000; OpUpdateSymbol 2 999000] 1000500).
  apply Forall_cons. split; [split; closed_Z_order|].
  apply Forall_cons. split; [split; closed_Z_order|apply Forall_nil_2].
Defined.

(** X5.  A permitted advance decides the global time: when [can_advance]
    allows [symbol_id] to move to [target], and the symbol is tracked or
    the clock does not track exactly one symbol, then after
    [update_symbol(symbol_id, target)] the global time is [target]. *)
Theorem permitted_advance_sets_time (c : t) (symbol_id target : Z) :
  in_int64 target ->
  can_advance c symbol_id target = true ->
  is_Some (symbol_timestamps_ c !! symbol_id) \/ symbol_count c <> 1%nat ->
  current_time (update_symbol symbol_id target c) = target.
Proof.
  intros [_ Hmax] Hadv Hcase.
  assert (Hothers : forall k v, symbol_timestamps_ c !! k = Some v ->
                      k <> symbol_id -> target <= v).
  { unfold can_advance in Hadv.
    destruct (Nat.leb_spec (size (symbol_timestamps_ c)) 1) as [Hs|Hs].
    - intros k v Hk Hne. exfalso.
      destruct Hcase as [[w Hw]|Hc].
      + assert (H2 : {[symbol_id := w; k := v]} ⊆ symbol_timestamps_ c).
        { apply map_subseteq_spec. intros j x Hj.
          destruct (decide (j = symbol_id)) as [->|Hjs].
          - rewrite lookup_insert_eq in Hj. congruence.
          - rewrite lookup_insert_ne in Hj by congruence.
            apply lookup_singleton_Some in Hj as [<- <-]. exact Hk. }
        apply map_subseteq_size in H2.
        rewrite map_size_insert_None in H2
          by (rewrite lookup_singleton_ne by congruence; reflexivity).
        rewrite map_size_singleton in H2. lia.
      + unfold symbol_count in Hc.
        assert (size (symbol_timestamps_ c) = 0%nat) by lia.
        apply map_size_empty_inv in H. rewrite H, lookup_empty in Hk. discriminate.
    - apply Z.leb_le in Hadv.
      apply (proj1 (GlobalClockFacts.min_time_excluding_spec _ _ _ Hmax) Hadv). }
  unfold update_symbol, current_time, recalculate_global_time_locked.
  cbn [symbol_timestamps_ global_time_].
  destruct (decide (<[symbol_id:=target]> (symbol_timestamps_ c) = ∅)) as [He|_].
  { exfalso. exact (insert_non_empty _ _ _ He). }
  cbn [global_time_].
  destruct (fold_min_spec (<[symbol_id:=target]> (symbol_timestamps_ c)))
    as (_ & Hle & Hin). cbv zeta in Hle, Hin.
  pose proof (Hle symbol_id target (lookup_insert_eq _ _ _)) as Ht.
  destruct Hin as [Hr|[k Hk]]; [lia|].
  destruct (decide (k = symbol_id)) as [->|Hne].
  - rewrite lookup_insert_eq in Hk. congruence.
  - rewrite lookup_insert_ne in Hk by congruence.
    specialize (Hothers k _ Hk Hne). lia.
Qed.

Lemma permitted_advance_sets_time_witness :
  let c := update_symbol 2 999000 (update_symbol 1 1000000 init) in
  can_advance c 2 999500 = true /\
  current_time (update_symbol 2 999500 c) = 999500.
Proof.
  intros c. split; [reflexivity|].
  apply (permitted_advance_sets_time c 2 999500).
  - split; closed_Z_order.
  - reflexivity.
  - left. vm_compute. eauto.
Defined.

(** X6.  [update_batch] stores the entries of [updates] over the old ones;
    with a non-empty [updates] the clock is the one that [update_symbol],
    called for each entry, produces; and with an empty [updates] it still
    recalculates, so a time set by [reset] falls back to 0. *)
Theorem update_batch_spec (updates : gmap Z Z) (c : t) :
  get_all_timestamps (update_batch updates c) = updates ∪ get_all_timestamps c /\
  (updates <> ∅ ->
   update_batch updates c
   = map_fold (fun symbol_id timestamp acc => update_symbol symbol_id timestamp acc)
              c updates) /\
  (forall initial_time, current_time (update_batch ∅ (reset initial_time c)) = 0).
Proof.
  split; [|split].
  - unfold get_all_timestamps, update_batch. rewrite recalculate_timestamps.
    cbn [symbol_timestamps_]. apply batch_timestamps.
  - unfold update_batch. rewrite batch_timestamps.
    apply (map_fold_weak_ind
      (fun (r : t) (u : gmap Z Z) =>
         (u = ∅ -> r = c) /\
         (u <> ∅ ->
          recalculate_global_time_locked (mk (u ∪ symbol_timestamps_ c) (global_time_ c))
          = r))).
    + split; [reflexivity|contradiction].
    + intros i x u r Hi [He Hne]. split.
      { intros H. exfalso. exact (insert_non_empty _ _ _ H). }
      intros _. unfold update_symbol.
      rewrite <- insert_union_l.
      destruct (decide (u = ∅)) as [->|Hu].
      * rewrite (He eq_refl). rewrite (left_id_L ∅ (∪)). reflexivity.
      * rewrite <- (Hne Hu). rewrite recalculate_timestamps. cbn [symbol_timestamps_].
        apply recalculate_ignores_time.
  - intros initial_time. reflexivity.
Qed.

End GlobalClockMinimum.

(** ** costs/costs_engine.hpp: trigger prices, the unused price memory, swaps *)

Module CostsTriggerFacts.

Import Costs Fixtures CostsSpec IntFacts.

Section Generic.

Context {S C W P RNG : Type}.
Context `{!ISlippageModel S RNG, !ICommissionModel C, !ISwapModel W,
          !ISpreadModel P RNG}.

Implicit Types (e : CostsEngine S C W P RNG) (tick : Tick.t) (info : SymbolInfo.t).

Lemma position_trigger_market (position : Position) tick p :
  position_trigger position tick = Some p ->
  p = match type position with
      | POSITION_TYPE_BUY => Tick.bid tick
      | POSITION_TYPE_SELL => Tick.ask tick
      end.
Proof.
  unfold position_trigger. destruct (type position).
  - destruct (Z.ltb_spec 0 (sl position)), (Z.leb_spec (Tick.bid tick) (sl position));
      cbn [andb]; try (intros [= <-]; lia);
      destruct (Z.ltb_spec 0 (tp position)), (Z.leb_spec (tp position) (Tick.bid tick));
      cbn [andb]; try discriminate; intros [= <-]; lia.
  - destruct (Z.ltb_spec 0 (sl position)), (Z.leb_spec (sl position) (Tick.ask tick));
      cbn [andb]; try (intros [= <-]; lia);
      destruct (Z.ltb_spec 0 (tp position)), (Z.leb_spec (Tick.ask tick) (tp position));
      cbn [andb]; try discriminate; intros [= <-]; lia.
Qed.

(** X7.  The exit of a position is always priced at the market: whenever
    [evaluate_position] executes, by stop-loss or by take-profit, with or
    without a gap, the fill is the bid minus the slippage for a BUY
    position and the ask plus the slippage for a SELL position; the
    stop-loss or take-profit level itself never is the price.  When it does
    not execute, the result is the empty [ExecutionResult] and the engine
    (generator and models) is as before. *)
Theorem evaluate_position_fills_at_market e (position : Position) tick info :
  let r := fst (evaluate_position position tick info e) in
  (executed r = true ->
   is_Some (position_trigger position tick) /\
   fill_price r =
     match type position with
     | POSITION_TYPE_BUY => wrap64 (Tick.bid tick - slippage r)
     | POSITION_TYPE_SELL => wrap64 (Tick.ask tick + slippage r)
     end) /\
  (executed r = false ->
   position_trigger position tick = None /\
   evaluate_position position tick info e = (no_execution, e)).
Proof.
  cbv zeta. unfold evaluate_position.
  destruct (position_trigger position tick) as [p|] eqn:Htrig.
  - apply position_trigger_market in Htrig.
    match goal with
    | |- context [execute ?s ?v ?p ?t ?i ?e] =>
        destruct (CostsFacts.execute_result s v p t i e) as (Hex & _ & Hfill)
    end.
    cbv zeta in Hex, Hfill. split.
    + intros _. split; [eauto|]. rewrite Hfill, Htrig.
      destruct (type position); reflexivity.
    + intros Hno. rewrite Hex in Hno. discriminate.
  - split; [discriminate|]. intros _. split; reflexivity.
Qed.

(** The price a triggered order is filled at, before slippage. *)
Lemma order_trigger_price (order : PendingOrder) tick p :
  order_trigger order tick = Some p ->
  match order_type order with
  | ORDER_TYPE_BUY | ORDER_TYPE_BUY_STOP => p = Tick.ask tick
  | ORDER_TYPE_SELL | ORDER_TYPE_SELL_STOP => p = Tick.bid tick
  | ORDER_TYPE_BUY_LIMIT => p = order_price order /\ Tick.ask tick <= p
  | ORDER_TYPE_SELL_LIMIT => p = order_price order /\ p <= Tick.bid tick
  | ORDER_TYPE_BUY_STOP_LIMIT => p = order_price order /\ p <= Tick.ask tick
  | ORDER_TYPE_SELL_STOP_LIMIT => p = order_price order /\ Tick.bid tick <= p
  end.
Proof.
  unfold order_trigger. destruct (order_type order); cbn [is_buy_order].
  - intros [= <-]. reflexivity.
  - intros [= <-]. reflexivity.
  - destruct (Z.leb_spec (Tick.ask tick) (order_price order)); [|discriminate].
    intros [= <-]. lia.
  - destruct (Z.leb_spec (order_price order) (Tick.bid tick)); [|discriminate].
    intros [= <-]. lia.
  - destruct (Z.leb_spec (order_price order) (Tick.ask tick)); [|discriminate].
    intros [= <-]. lia.
  - destruct (Z.leb_spec (Tick.bid tick) (order_price order)); [|discriminate].
    intros [= <-]. lia.
  - destruct (Z.leb_spec (order_price order) (Tick.ask tick)); [|discriminate].
    intros [= <-]. lia.
  - destruct (Z.leb_spec (Tick.bid tick) (order_price order)); [|discriminate].
    intros [= <-]. lia.
Qed.

(** X8.  Where a triggered order is filled.  Market and stop orders fill at
    the market (ask for buys, bid for sells), so a stop order takes the
    whole gap.  Limit and stop-limit orders fill at the order's own price:
    a limit order never gets the better market price, and a stop-limit
    order that the market has gapped through is still filled at its price.
    The slippage is added for buys and subtracted for sells. *)
Theorem evaluate_order_fill_price e (order : PendingOrder) tick info :
  let r := fst (evaluate_order order tick info e) in
  executed r = true ->
  exists p,
    order_trigger order tick = Some p /\
    fill_price r = (if is_buy_order (order_type order)
                    then wrap64 (p + slippage r) else wrap64 (p - slippage r)) /\
    match order_type order with
    | ORDER_TYPE_BUY | ORDER_TYPE_BUY_STOP => p = Tick.ask tick
    | ORDER_TYPE_SELL | ORDER_TYPE_SELL_STOP => p = Tick.bid tick
    | ORDER_TYPE_BUY_LIMIT => p = order_price order /\ Tick.ask tick <= p
    | ORDER_TYPE_SELL_LIMIT => p = order_price order /\ p <= Tick.bid tick
    | ORDER_TYPE_BUY_STOP_LIMIT => p = order_price order /\ p <= Tick.ask tick
    | ORDER_TYPE_SELL_STOP_LIMIT => p = order_price order /\ Tick.bid tick <= p
    end.
Proof.
  cbv zeta. unfold evaluate_order.
  destruct (order_trigger order tick) as [p|] eqn:Htrig; [|discriminate].
  intros _. exists p. split; [reflexivity|].
  split; [|apply order_trigger_price; exact Htrig].
  match goal with
  | |- context [execute ?s ?v ?p ?t ?i ?e] =>
      destruct (CostsFacts.execute_result s v p t i e) as (_ & _ & Hfill)
  end.
  cbv zeta in Hfill. rewrite Hfill.
  destruct (is_buy_order (order_type order)); reflexivity.
Qed.

(** X9.  The prices that [update_market] records "for gap detection" are
    never read: recording a tick changes no result, and commutes with every
    evaluation. *)
Theorem update_market_never_read e id (seen : Tick.t) (order : PendingOrder)
  (position : Position) side vol current_price timestamp_us tick info :
  evaluate_order order tick info (update_market id seen e)
  = (fst (evaluate_order order tick info e),
     update_market id seen (snd (evaluate_order order tick info e))) /\
  evaluate_position position tick info (update_market id seen e)
  = (fst (evaluate_position position tick info e),
     update_market id seen (snd (evaluate_position position tick info e))) /\
  execute_market_order side vol tick info (update_market id seen e)
  = (fst (execute_market_order side vol tick info e),
     update_market id seen (snd (execute_market_order side vol tick info e))) /\
  calculate_swap position current_price info timestamp_us (update_market id seen e)
  = calculate_swap position current_price info timestamp_us e.
Proof.
  assert (Hexec : forall s v p,
            execute s v p tick info (update_market id seen e)
            = (fst (execute s v p tick info e),
               update_market id seen (snd (execute s v p tick info e)))).
  { intros s v p. unfold execute, update_market. cbn [slippage_model_ rng_ spread_model_
      commission_model_ swap_model_ last_prices_].
    destruct (slippage_calculate _ _ _ _ _ _) as [slip rng].
    destruct (spread_calculate _ _ _ _ _) as [[spread sm] rng'].
    reflexivity. }
  assert (Hord : forall o,
            evaluate_order o tick info (update_market id seen e)
            = (fst (evaluate_order o tick info e),
               update_market id seen (snd (evaluate_order o tick info e)))).
  { intros o. unfold evaluate_order.
    destruct (order_trigger o tick); [apply Hexec|reflexivity]. }
  split; [apply Hord|]. split.
  - unfold evaluate_position.
    destruct (position_trigger position tick); [apply Hexec|reflexivity].
  - split; [apply Hord|reflexivity].
Qed.

Lemma days_held_in_int32 d :
  in_int64 d -> wrap32 (div64 d (24 * 3600 * 1000000)) = d ÷ MICROS_PER_DAY.
Proof.
  intros [Hlo Hhi]. unfold div64.
  change (24 * 3600 * 1000000) with MICROS_PER_DAY.
  assert (Hq : - 2 ^ 27 <= d ÷ MICROS_PER_DAY <= 2 ^ 27).
  { unfold INT64_MIN, INT64_MAX, MICROS_PER_DAY in *.
    destruct (Z.le_ge_cases 0 d) as [Hd|Hd].
    - rewrite Z.quot_div_nonneg by lia.
      split; [apply Z.le_trans with 0; [lia|apply Z.div_pos; lia]|].
      apply Z.div_le_upper_bound; lia.
    - replace d with (- (- d)) by lia. rewrite Z.quot_opp_l by lia.
      rewrite Z.quot_div_nonneg by lia.
      assert (0 <= - d / (24 * 3600 * 1000000)) by (apply Z.div_pos; lia).
      assert (- d / (24 * 3600 * 1000000) <= 2 ^ 27)
        by (apply Z.div_le_upper_bound; lia).
      lia. }
  rewrite wrap64_id by (unfold in_int64, INT64_MIN, INT64_MAX; lia).
  apply wrap32_id. unfold in_int32, INT32_MIN, INT32_MAX. lia.
Qed.

(** X10.  No swap inside the first day, whatever the model: when less than
    24 hours lie between the opening time and the timestamp (in either
    direction), [calculate_swap] returns 0; and it returns 0 whenever the
    model's [should_apply] says no. *)
Theorem calculate_swap_first_day e (position : Position) current_price info
  timestamp_us :
  in_int64 (timestamp_us - open_time_us position) ->
  (- MICROS_PER_DAY < timestamp_us - open_time_us position < MICROS_PER_DAY
   \/ should_apply (swap_model_ e) timestamp_us = false) ->
  calculate_swap position current_price info timestamp_us e = 0.
Proof.
  intros Hd Hcase. unfold calculate_swap.
  destruct (should_apply (swap_model_ e) timestamp_us); cbn [negb]; [|reflexivity].
  destruct Hcase as [Hsmall|Hno]; [|discriminate].
  rewrite (wrap64_id _ Hd), (days_held_in_int32 _ Hd).
  replace ((timestamp_us - open_time_us position) ÷ MICROS_PER_DAY) with 0;
    [reflexivity|].
  symmetry. destruct (Z.le_ge_cases 0 (timestamp_us - open_time_us position)).
  - apply Z.quot_small. lia.
  - replace (timestamp_us - open_time_us position)
      with (- (- (timestamp_us - open_time_us position))) by lia.
    rewrite Z.quot_opp_l by (unfold MICROS_PER_DAY; lia).
    rewrite Z.quot_small by lia. reflexivity.
Qed.

End Generic.

Lemma evaluate_order_fill_price_witness :
  exists p,
    order_trigger sell_limit_at_bid s2_tick = Some p /\
    fill_price (fst (evaluate_order sell_limit_at_bid s2_tick eurusd zero_engine))
    = wrap64 (p - 0) /\
    p = 109000.
Proof.
  assert (He : executed (fst (evaluate_order sell_limit_at_bid s2_tick eurusd
                                 zero_engine)) = true) by reflexivity.
  destruct (evaluate_order_fill_price zero_engine sell_limit_at_bid s2_tick eurusd
              He) as (p & Htrig & Hfill & Hp & _).
  exists p. split; [exact Htrig|]. split; [exact Hfill|exact Hp].
Defined.

Lemma calculate_swap_first_day_witness :
  calculate_swap s2_position 109000 eurusd 86399999999 zero_engine = 0.
Proof.
  apply calculate_swap_first_day.
  - split; closed_Z_order.
  - left. split; closed_Z_order.
Defined.

Section Islamic.

Context {S C P RNG : Type}.
Context `{!ISlippageModel S RNG, !ICommissionModel C, !ISpreadModel P RNG}.

(** X11.  The Islamic holding fee: nothing is charged while the position
    has been held for at most the grace period (in whole days), and from
    the next whole day on the charge is volume times fee times the days
    beyond the grace period, truncated to an integer. *)
Theorem islamic_swap_grace_period (e : CostsEngine S C IslamicSwap P RNG)
  (position : Position) current_price info timestamp_us :
  let held := timestamp_us - open_time_us position in
  let grace := grace_period_days_ (swap_model_ e) in
  in_int64 held -> 0 <= grace ->
  (held < (grace + 1) * MICROS_PER_DAY ->
   calculate_swap position current_price info timestamp_us e = 0) /\
  ((grace + 1) * MICROS_PER_DAY <= held ->
   calculate_swap position current_price info timestamp_us e
   = Double.to_int64
       (volume position * Double.of_int (holding_fee_ (swap_model_ e))
        * Double.of_int (held / MICROS_PER_DAY - grace))%float).
Proof.
  intros held grace Hd Hg. unfold calculate_swap.
  cbn [should_apply get_multiplier swap_calculate IslamicSwap_model negb].
  fold held. rewrite (wrap64_id _ Hd), (days_held_in_int32 _ Hd).
  fold grace.
  assert (Hday : 0 < MICROS_PER_DAY) by (unfold MICROS_PER_DAY; lia).
  split.
  - intros Hlt.
    destruct (Z.eqb_spec (held ÷ MICROS_PER_DAY) 0); [reflexivity|].
    assert (Hle : held ÷ MICROS_PER_DAY <= grace).
    { destruct (Z.le_ge_cases 0 held) as [Hpos|Hneg].
      - rewrite Z.quot_div_nonneg by lia.
        assert (held / MICROS_PER_DAY < grace + 1)
          by (apply Z.div_lt_upper_bound; lia).
        lia.
      - replace held with (- (- held)) by lia. rewrite Z.quot_opp_l by lia.
        rewrite Z.quot_div_nonneg by lia.
        assert (0 <= - held / MICROS_PER_DAY) by (apply Z.div_pos; lia). lia. }
    destruct (Z.leb_spec (held ÷ MICROS_PER_DAY) grace); [reflexivity|lia].
  - intros Hge.
    assert (Hpos : 0 <= held) by nia.
    rewrite Z.quot_div_nonneg by lia.
    assert (Hq : grace + 1 <= held / MICROS_PER_DAY)
      by (apply Z.div_le_lower_bound; lia).
    assert (Hq' : held / MICROS_PER_DAY <= 2 ^ 27).
    { destruct Hd as [_ Hhi]. unfold INT64_MAX, MICROS_PER_DAY in *.
      apply Z.div_le_upper_bound; lia. }
    destruct (Z.eqb_spec (held / MICROS_PER_DAY) 0); [lia|].
    destruct (Z.leb_spec (held / MICROS_PER_DAY) grace); [lia|].
    rewrite wrap32_id by (unfold in_int32, INT32_MIN, INT32_MAX; lia).
    rewrite Z.mul_1_r. apply wrap64_id. apply EquityFacts.to_int64_range.
Qed.

End Islamic.

Lemma islamic_swap_grace_period_witness :
  calculate_swap s2_position 109000 eurusd (2 * MICROS_PER_DAY - 1) islamic_engine = 0 /\
  calculate_swap s2_position 109000 eurusd (3 * MICROS_PER_DAY) islamic_engine
  = 5000000.
Proof.
  assert (H1 : in_int64 (2 * MICROS_PER_DAY - 1 - open_time_us s2_position))
    by (split; closed_Z_order).
  assert (H2 : in_int64 (3 * MICROS_PER_DAY - open_time_us s2_position))
    by (split; closed_Z_order).
  assert (Hg : 0 <= grace_period_days_ (swap_model_ islamic_engine))
    by closed_Z_order.
  split.
  - apply (proj1 (islamic_swap_grace_period islamic_engine s2_position 109000 eurusd
                    (2 * MICROS_PER_DAY - 1) H1 Hg)).
    closed_Z_order.
  - rewrite (proj2 (islamic_swap_grace_period islamic_engine s2_position 109000 eurusd
                      (3 * MICROS_PER_DAY) H2 Hg)) by closed_Z_order.
    vm_compute. reflexivity.
Defined.

End CostsTriggerFacts.

(** ** util/fixed_point.hpp: multiplication *)

Module FixedPointMultiplyFacts.

Import FixedPoint FixedPointSpec IntFacts FixedPointFacts.




End FixedPointMultiplyFacts.

(** ** util/timestamp.hpp: rounding to the day, hour and minute *)

Module TimestampFacts.

Import Timestamp IntFacts.

(** [(t / unit) * unit] in C++: the multiple of [unit] next to [t] on the
    side of zero. *)
Lemma truncate_to_unit unit t :
  0 < unit -> in_int64 t ->
  let f := wrap64 (div64 t unit * unit) in
  f = t - Z.rem t unit /\
  Z.rem f unit = 0 /\
  Z.abs f <= Z.abs t /\ Z.abs (t - f) < unit /\
  (0 <= t -> f <= t < f + unit) /\
  (t < 0 -> t <= f < t + unit) /\
  (t < 0 -> Z.rem t unit <> 0 -> t < f) /\
  wrap64 (div64 f unit * unit) = f.
Proof.
  intros Hu Ht f.
  pose proof (Z.quot_rem' t unit) as Hqr.
  pose proof (FixedPointFacts.quot_abs_le t unit) as Hq.
  assert (Hrem : Z.abs (Z.rem t unit) < unit).
  { pose proof (Z.rem_bound_abs t unit ltac:(lia)). lia. }
  assert (Hsgn : 0 <= t -> 0 <= Z.rem t unit).
  { intros. apply Z.rem_nonneg; lia. }
  assert (Hsgn' : t <= 0 -> Z.rem t unit <= 0).
  { intros. apply Z.rem_nonpos; lia. }
  assert (Hqs : (0 <= t -> 0 <= t ÷ unit) /\ (t <= 0 -> t ÷ unit <= 0)).
  { split; intros.
    - apply Z.quot_pos; lia.
    - replace t with (- (- t)) by lia. rewrite Z.quot_opp_l by lia.
      assert (0 <= - t ÷ unit) by (apply Z.quot_pos; lia). lia. }
  destruct Hqs as [Hqs Hqs'].
  assert (Hf : f = t - Z.rem t unit).
  { subst f. unfold div64.
    rewrite (wrap64_id (t ÷ unit))
      by (unfold in_int64, INT64_MIN, INT64_MAX in *; lia).
    replace (t ÷ unit * unit) with (t - Z.rem t unit) by lia.
    apply wrap64_id. unfold in_int64, INT64_MIN, INT64_MAX in *.
    destruct (Z.le_ge_cases 0 t); [specialize (Hsgn ltac:(lia))
                                   |specialize (Hsgn' ltac:(lia))]; lia. }
  assert (Hmul : f = unit * (t ÷ unit)) by lia.
  assert (Hfr : Z.rem f unit = 0).
  { rewrite Hmul, Z.mul_comm. apply Z.rem_mul. lia. }
  split; [exact Hf|]. split; [exact Hfr|].
  destruct (Z.le_ge_cases 0 t) as [Hpos|Hneg].
  - specialize (Hsgn Hpos).
    repeat split; try lia.
    rewrite Hf. unfold div64.
    assert (Hq' : (t - Z.rem t unit) ÷ unit = t ÷ unit).
    { replace (t - Z.rem t unit) with (t ÷ unit * unit) by lia.
      apply Z.quot_mul. lia. }
    rewrite Hq'.
    rewrite (wrap64_id (t ÷ unit))
      by (unfold in_int64, INT64_MIN, INT64_MAX in *; lia).
    replace (t ÷ unit * unit) with (t - Z.rem t unit) by lia.
    apply wrap64_id. unfold in_int64, INT64_MIN, INT64_MAX in *. lia.
  - specialize (Hsgn' ltac:(lia)).
    repeat split; try lia.
    rewrite Hf. unfold div64.
    assert (Hq' : (t - Z.rem t unit) ÷ unit = t ÷ unit).
    { replace (t - Z.rem t unit) with (t ÷ unit * unit) by lia.
      apply Z.quot_mul. lia. }
    rewrite Hq'.
    rewrite (wrap64_id (t ÷ unit))
      by (unfold in_int64, INT64_MIN, INT64_MAX in *; lia).
    replace (t ÷ unit * unit) with (t - Z.rem t unit) by lia.
    apply wrap64_id. unfold in_int64, INT64_MIN, INT64_MAX in *. lia.
Qed.

(** X13.  [floor_to_day], [floor_to_hour] and [floor_to_minute] round
    toward zero, not down.  The result is a multiple of the unit, less than
    one unit away from the timestamp and idempotent.  At or after the epoch
    it is the start of the unit that contains the timestamp; before the
    epoch it is the end of that unit, so a timestamp that is not on a
    boundary is moved forward in time. *)
Theorem floor_rounds_toward_zero (t : Z) :
  in_int64 t ->
  let spec (unit f : Z) :=
    Z.rem f unit = 0 /\ Z.abs (t - f) < unit /\
    (0 <= t -> f <= t < f + unit) /\
    (t < 0 -> t <= f < t + unit) /\
    (t < 0 -> Z.rem t unit <> 0 -> t < f) in
  spec MICROS_PER_DAY (floor_to_day t) /\
  spec MICROS_PER_HOUR (floor_to_hour t) /\
  spec MICROS_PER_MINUTE (floor_to_minute t) /\
  floor_to_day (floor_to_day t) = floor_to_day t /\
  floor_to_hour (floor_to_hour t) = floor_to_hour t /\
  floor_to_minute (floor_to_minute t) = floor_to_minute t.
Proof.
  intros Ht spec. unfold spec, floor_to_day, floor_to_hour, floor_to_minute.
  destruct (truncate_to_unit MICROS_PER_DAY t ltac:(unfold MICROS_PER_DAY; lia) Ht)
    as (_ & D1 & _ & D2 & D3 & D4 & D5 & D6).
  destruct (truncate_to_unit MICROS_PER_HOUR t ltac:(unfold MICROS_PER_HOUR; lia) Ht)
    as (_ & H1 & _ & H2 & H3 & H4 & H5 & H6).
  destruct (truncate_to_unit MICROS_PER_MINUTE t
              ltac:(unfold MICROS_PER_MINUTE; lia) Ht)
    as (_ & M1 & _ & M2 & M3 & M4 & M5 & M6).
  cbv zeta in *. repeat split; try assumption; try tauto.
  all: try (apply D3; assumption); try (apply D4; assumption);
    try (apply H3; assumption); try (apply H4; assumption);
    try (apply M3; assumption); try (apply M4; assumption).
Qed.

Lemma floor_rounds_toward_zero_witness :
  floor_to_day (-1) = 0 /\ -1 < floor_to_day (-1) /\
  floor_to_hour 3600000001 = 3600000000.
Proof.
  assert (Ht : in_int64 (-1)) by (split; closed_Z_order).
  destruct (floor_rounds_toward_zero (-1) Ht) as ((_ & _ & _ & _ & Hup) & _).
  split; [vm_compute; reflexivity|]. split; [|vm_compute; reflexivity].
  apply Hup; [closed_Z_order|vm_compute; discriminate].
Defined.

End TimestampFacts.

(** ** core/write_ahead_log.hpp: sequences of entries, counters, checkpoints *)

Module WriteAheadLogSequenceFacts.

Import WriteAheadLog WriteAheadLogSpec IntFacts WriteAheadLogFacts.

Lemma record_length pad (entry : Z * list byte) :
  List.length (record pad entry) = (SIZE + List.length (snd entry))%nat.
Proof.
  unfold record. destruct (padding_three pad) as (p0 & p1 & p2 & Hpad).
  rewrite length_app, (written_header pad _ _ _ _ p0 p1 p2 Hpad). reflexivity.
Qed.

Lemma wrapU64_add_l a b : wrapU64 (wrapU64 a + b) = wrapU64 (a + b).
Proof. unfold wrapU64. apply Z.add_mod_idemp_l. lia. Qed.

(** [append] on an open log never fails; the record goes to the end of the
    file and both counters advance. *)
Lemma append_open pad ty data w :
  is_open_ w = true ->
  append pad ty data w
  = inr (mk (file_ w ++ record pad (ty, data)) true
            (wrapU64 (entry_count_ w + 1))
            (wrapU64 (bytes_written_ w
                      + Z.of_nat (List.length (record pad (ty, data)))))
            (last_checkpoint_pos_ w)).
Proof.
  intros Ho. unfold append. rewrite Ho. cbn [negb]. cbv zeta.
  rewrite record_length. cbn [snd]. rewrite Nat2Z.inj_add, Z.add_assoc.
  reflexivity.
Qed.

Lemma append_all_open pad es w :
  is_open_ w = true ->
  exists w',
    append_all pad es w = inr w' /\
    is_open_ w' = true /\
    file_ w' = file_ w ++ flat_map (record pad) es /\
    wrapU64 (entry_count_ w')
    = wrapU64 (entry_count_ w + Z.of_nat (List.length es)) /\
    wrapU64 (bytes_written_ w')
    = wrapU64 (bytes_written_ w
               + Z.of_nat (List.length (flat_map (record pad) es))) /\
    last_checkpoint_pos_ w' = last_checkpoint_pos_ w /\
    (es <> [] -> entry_count_ w' = wrapU64 (entry_count_ w')
                 /\ bytes_written_ w' = wrapU64 (bytes_written_ w')).
Proof.
  revert w. induction es as [|[ty data] es IH]; intros w Ho.
  - exists w. cbn. rewrite app_nil_r, !Z.add_0_r. tauto.
  - cbn [append_all]. rewrite (append_open pad ty data w Ho).
    match goal with |- context [append_all pad es ?x] => set (w1 := x) end.
    destruct (IH w1 eq_refl) as (w' & E & Ho' & Hf & Hc & Hb & Hl & Hr).
    exists w'. split; [exact E|]. split; [exact Ho'|].
    subst w1. cbn [file_ entry_count_ bytes_written_ last_checkpoint_pos_] in *.
    split; [rewrite Hf, <- app_assoc; reflexivity|].
    split.
    { rewrite Hc, wrapU64_add_l. f_equal. cbn [List.length]. lia. }
    split.
    { rewrite Hb, wrapU64_add_l. f_equal. cbn [flat_map].
      rewrite length_app. lia. }
    split; [exact Hl|]. intros _.
    destruct es as [|e es'].
    + cbn in E. injection E as <-. cbn [entry_count_ bytes_written_].
      unfold wrapU64. rewrite !Z.mod_mod by lia. tauto.
    + apply Hr. discriminate.
Qed.

(** X14.  The counters of an open log.  After [open] and any sequence of
    [append] calls, every call has succeeded, the file is the old content
    (none after a truncating open) followed by the records, [bytes_written]
    is the size of the file and [entry_count] the number of entries
    appended since [open] (entries already in the file are not counted), as
    long as the file is smaller than [2^64] bytes.  On a log that is not
    open, [append] and [read_all] throw. *)
Theorem append_counters pad (es : list (Z * list byte)) truncate content :
  (exists w,
     append_all pad es (open truncate content) = inr w /\
     is_wal_open w = true /\
     file_ w = (if truncate then [] else content) ++ flat_map (record pad) es /\
     (Z.of_nat (List.length (file_ w)) <= UINT64_MAX ->
      bytes_written w = Z.of_nat (List.length (file_ w)) /\
      entry_count w = Z.of_nat (List.length es))) /\
  (forall w ty data stale,
     is_wal_open w = false ->
     append pad ty data w = inl NotOpen /\ read_all stale w = Some (inl NotOpen) /\
     close w = w).
Proof.
  split.
  - destruct (append_all_open pad es (open truncate content) eq_refl)
      as (w & E & Ho & Hf & Hc & Hb & _ & Hr).
    exists w. split; [exact E|]. split; [exact Ho|].
    cbn [open file_ entry_count_ bytes_written_] in *.
    split; [exact Hf|]. intros Hsize. unfold bytes_written, entry_count.
    assert (Hlen : Z.of_nat (List.length (file_ w))
                   = Z.of_nat (List.length (if truncate then [] else content))
                     + Z.of_nat (List.length (flat_map (record pad) es))).
    { rewrite Hf, length_app. lia. }
    assert (Hes : Z.of_nat (List.length es)
                  <= Z.of_nat (List.length (flat_map (record pad) es))).
    { clear. induction es as [|e es IH]; [reflexivity|].
      cbn [flat_map List.length]. rewrite length_app, record_length.
      unfold SIZE. lia. }
    destruct es as [|e es'].
    + cbn in E. injection E as <-.
      cbn [file_ bytes_written_ entry_count_ List.length]. split; reflexivity.
    + destruct (Hr ltac:(discriminate)) as [Hc' Hb'].
      rewrite Hc', Hb', Hc, Hb. rewrite Z.add_0_l.
      rewrite <- Hlen.
      unfold UINT64_MAX in Hsize.
      rewrite !wrapU64_id by (unfold in_uint64, UINT64_MAX; lia).
      split; reflexivity.
  - intros w ty data stale Hc. unfold is_wal_open in Hc.
    unfold append, read_all, close. rewrite Hc. cbn [negb]. auto.
Qed.

(** One iteration of the loop of [read_all] on a record written by
    [append]. *)
Lemma read_loop_record pad ty (data rest : list byte) fuel stale i entries :
  List.length (stale i) = 16%nat ->
  Z.of_nat (List.length data) < 2 ^ 32 ->
  read_loop (S fuel) stale i (record pad (ty, data) ++ rest) entries
  = if negb (bool_decide (data = [])) && negb (crc_survives (stale i) data)
    then Some (inl CRC32Mismatch)
    else read_loop fuel stale (S i) rest (entries ++ [(ty, data)]).
Proof.
  intros Hstale Hlen.
  destruct (padding_three pad) as (p0 & p1 & p2 & Hpad).
  destruct (stale_tail (stale i) Hstale) as (s13 & s14 & s15 & Hs).
  unfold record, crc_survives. cbn [fst snd]. unfold wrapU32.
  rewrite (written_header pad _ _ _ _ p0 p1 p2 Hpad).
  rewrite (Z.mod_small (Z.of_nat (List.length data))) by lia.
  rewrite <- app_assoc.
  rewrite read_loop_step by reflexivity.
  change (drop SIZE (stale i)) with (drop 13 (stale i)). rewrite Hs.
  rewrite read_header. cbv zeta. cbn [magic length crc32 type].
  rewrite (le32_decode_le32 MAGIC) by (split; closed_Z_order).
  rewrite (le32_decode_le32 (Z.of_nat (List.length data))) by (split; lia).
  rewrite Z.eqb_refl. cbn [negb].
  rewrite Nat2Z.id.
  destruct data as [|b data'].
  - cbn [List.length Z.of_nat]. rewrite bool_decide_eq_true_2 by reflexivity.
    reflexivity.
  - rewrite bool_decide_eq_false_2 by discriminate. cbn [negb andb].
    assert (Hpos : (0 <? Z.of_nat (List.length (b :: data'))) = true).
    { apply Z.ltb_lt. cbn [List.length]. lia. }
    rewrite Hpos.
    rewrite (take_app_length' (b :: data') rest) by reflexivity.
    rewrite (drop_app_length' (b :: data') rest) by reflexivity.
    rewrite Nat.eqb_refl. cbn [negb].
    destruct (calculate_crc32 (b :: data') =? _); reflexivity.
Qed.

Lemma read_loop_records pad stale (es : list (Z * list byte)) :
  (forall i, List.length (stale i) = 16%nat) ->
  Forall (fun e => Z.of_nat (List.length (snd e)) < 2 ^ 32) es ->
  forall fuel i entries,
    (List.length es < fuel)%nat ->
    read_loop fuel stale i (flat_map (record pad) es) entries
    = Some (if crc_lost stale i es then inl CRC32Mismatch
            else inr (entries ++ es)).
Proof.
  intros Hstale. induction es as [|[ty data] es IH]; intros Hes fuel i entries Hfuel.
  - destruct fuel; [cbn in Hfuel; lia|]. cbn. rewrite app_nil_r. reflexivity.
  - apply Forall_cons in Hes as [He Hes]. cbn [snd] in He.
    destruct fuel as [|fuel]; [cbn in Hfuel; lia|].
    cbn [flat_map]. rewrite (read_loop_record pad ty data _ fuel stale i entries
                               (Hstale i) He).
    cbn [crc_lost].
    destruct (negb (bool_decide (data = [])) && negb (crc_survives (stale i) data));
      cbn [orb]; [reflexivity|].
    rewrite (IH Hes) by (cbn [List.length] in Hfuel; lia).
    rewrite <- app_assoc. reflexivity.
Qed.

Lemma records_length pad (es : list (Z * list byte)) :
  (List.length es <= List.length (flat_map (record pad) es))%nat.
Proof.
  induction es as [|e es IH]; [reflexivity|].
  cbn [flat_map List.length]. rewrite length_app, record_length. unfold SIZE. lia.
Qed.

Lemma crc_lost_empty stale i (es : list (Z * list byte)) :
  Forall (fun e => snd e = []) es -> crc_lost stale i es = false.
Proof.
  revert i. induction es as [|[ty data] es IH]; intros i Hes; [reflexivity|].
  apply Forall_cons in Hes as [He Hes]. cbn [snd] in He. subst data.
  cbn [crc_lost]. rewrite bool_decide_eq_true_2 by reflexivity.
  cbn [negb andb orb]. apply IH, Hes.
Qed.

(** X15.  Any sequence of entries, appended to a new log and read back.
    [read_all] returns exactly the appended sequence unless some entry with
    a non-empty payload meets stale bytes that do not complete its CRC, in
    which case it throws "CRC32 mismatch"; no other error occurs and the
    loop ends.  A sequence of entries with empty payloads is always read
    back exactly. *)
Theorem append_all_read_all pad (es : list (Z * list byte)) stale :
  (forall i, List.length (stale i) = 16%nat) ->
  Forall (fun e => Z.of_nat (List.length (snd e)) < 2 ^ 32) es ->
  exists w,
    append_all pad es (open true []) = inr w /\
    read_all stale w
    = Some (if crc_lost stale 0 es then inl CRC32Mismatch else inr es) /\
    (Forall (fun e => snd e = []) es -> read_all stale w = Some (inr es)).
Proof.
  intros Hstale Hes.
  destruct (append_all_open pad es (open true []) eq_refl)
    as (w & E & Ho & Hf & _).
  cbn [open file_ app] in Hf.
  assert (R : read_all stale w
              = Some (if crc_lost stale 0 es then inl CRC32Mismatch else inr es)).
  { unfold read_all. rewrite Ho, Hf. cbn [negb].
    rewrite (read_loop_records pad stale es Hstale Hes)
      by (pose proof (records_length pad es); lia).
    reflexivity. }
  exists w. split; [exact E|]. split; [exact R|].
  intros Hempty. rewrite R, (crc_lost_empty stale 0 es Hempty). reflexivity.
Qed.

Lemma append_all_read_all_witness :
  exists w,
    append_all [0; 0; 0]
      [(CHECKPOINT, []); (POSITION_OPEN, [1; 2; 3]); (ORDER_PLACE, [])]
      (open true []) = inr w /\
    read_all zero_stale w = Some (inl CRC32Mismatch) /\
    read_all (fun i => match i with 1%nat => lucky_stale i | _ => zero_stale i end) w
    = Some (inr [(CHECKPOINT, []); (POSITION_OPEN, [1; 2; 3]); (ORDER_PLACE, [])]).
Proof.
  assert (Hes : Forall (fun e : Z * list byte => Z.of_nat (List.length (snd e)) < 2 ^ 32)
                  [(CHECKPOINT, []); (POSITION_OPEN, [1; 2; 3]); (ORDER_PLACE, [])]).
  { apply Forall_cons. split; [closed_Z_order|].
    apply Forall_cons. split; [closed_Z_order|].
    apply Forall_cons. split; [closed_Z_order|apply Forall_nil_2]. }
  destruct (append_all_read_all [0; 0; 0] _ zero_stale
              ltac:(intros; reflexivity) Hes) as (w & E & R & _).
  destruct (append_all_read_all [0; 0; 0] _
              (fun i => match i with 1%nat => lucky_stale i | _ => zero_stale i end)
              ltac:(intros [|[|i]]; reflexivity) Hes) as (w' & E' & R' & _).
  rewrite E in E'. injection E' as <-.
  exists w. split; [exact E|]. split; [exact R|exact R'].
Defined.

(** The first loop of [read_uncommitted]. *)
Lemma checkpoint_index_spec (es : list (Z * list byte)) :
  fold_left
    (fun (acc : nat * nat) (entry : Z * list byte) =>
       let '(checkpoint_idx, i) := acc in
       (if fst entry =? CHECKPOINT then S i else checkpoint_idx, S i))
    es (O, O)
  = (checkpoint_index es, List.length es) /\
  (checkpoint_index es <= List.length es)%nat /\
  Forall (fun e => fst e <> CHECKPOINT) (drop (checkpoint_index es) es) /\
  (checkpoint_index es = O \/
   exists pre d, take (checkpoint_index es) es = pre ++ [(CHECKPOINT, d)]).
Proof.
  unfold checkpoint_index.
  induction es as [|e es IH] using rev_ind.
  - cbn. split; [reflexivity|]. split; [lia|]. split; [constructor|left; reflexivity].
  - rewrite fold_left_app. cbn [fold_left].
    destruct IH as (E & Hle & Hdrop & Htake). rewrite E. cbn [fst].
    rewrite length_app. cbn [List.length].
    replace (List.length es + 1)%nat with (S (List.length es)) by lia.
    destruct (Z.eqb_spec (fst e) CHECKPOINT) as [Hcp|Hcp].
    + split; [reflexivity|]. split; [lia|]. split.
      * rewrite drop_ge by (rewrite length_app; cbn; lia). constructor.
      * right. exists es, (snd e).
        rewrite take_ge by (rewrite length_app; cbn; lia).
        destruct e as [ty d]. cbn in *. subst ty. reflexivity.
    + split; [reflexivity|]. split; [lia|]. split.
      * rewrite drop_app_le by exact Hle. apply Forall_app. split; [exact Hdrop|].
        constructor; [exact Hcp|constructor].
      * destruct Htake as [H0|(pre & d & Hpre)]; [left; exact H0|].
        right. exists pre, d. rewrite take_app_le by exact Hle. exact Hpre.
Qed.

(** X16.  [read_uncommitted] returns the entries that follow the last
    CHECKPOINT entry of the log: the log is a committed part, empty or
    ending in a CHECKPOINT entry, followed by the returned entries, none of
    which is a CHECKPOINT; a log without a checkpoint is returned whole.
    An exception of [read_all] passes through. *)
Theorem read_uncommitted_spec stale (w : t) :
  (forall es, read_all stale w = Some (inr es) ->
     exists committed pending,
       es = committed ++ pending /\
       read_uncommitted stale w = Some (inr pending) /\
       Forall (fun e => fst e <> CHECKPOINT) pending /\
       (committed = [] \/ exists pre d, committed = pre ++ [(CHECKPOINT, d)]) /\
       (Forall (fun e => fst e <> CHECKPOINT) es -> pending = es)) /\
  (forall err, read_all stale w = Some (inl err) ->
     read_uncommitted stale w = Some (inl err)).
Proof.
  split.
  - intros es R. unfold read_uncommitted. rewrite R. cbv zeta.
    destruct (checkpoint_index_spec es) as (_ & Hle & Hdrop & Htake).
    exists (take (checkpoint_index es) es), (drop (checkpoint_index es) es).
    split; [symmetry; apply take_drop|]. split.
    { destruct (Nat.ltb_spec (checkpoint_index es) (List.length es)); [reflexivity|].
      rewrite drop_ge by lia. reflexivity. }
    split; [exact Hdrop|]. split.
    { destruct Htake as [H0|H]; [left; rewrite H0; reflexivity|right; exact H]. }
    intros Hnone.
    destruct Htake as [H0|(pre & d & Hpre)]; [rewrite H0; reflexivity|].
    exfalso.
    assert (Hin : (CHECKPOINT, d) ∈ es).
    { rewrite <- (take_drop (checkpoint_index es) es), Hpre.
      apply elem_of_app. left. apply elem_of_app. right. left. }
    rewrite Forall_forall in Hnone. apply (Hnone _ Hin). reflexivity.
  - intros err R. unfold read_uncommitted. rewrite R. reflexivity.
Qed.

End WriteAheadLogSequenceFacts.

(** ** util/currency_converter.hpp: registration, rates and the search *)

Module CurrencyConverterPathFacts.

Import CurrencyConverter CurrencyConverterSpec CurrencyConverterFacts.

(** *** Registering and updating pairs *)

(** X17.  After [register_pair(base, quote, rate)] the pair exists,
    [get_rate] returns the rate just given (a second registration
    replaces the first), a conversion from base to quote multiplies by it,
    and, unless the opposite pair quote/base is registered as well, a
    conversion from quote to base divides by it. *)
Theorem register_pair_then_convert (c : t) (b q : string) (r : float) (ts : Z)
  (amount : float) :
  let c' := register_pair b q r ts c in
  has_pair c' b q = true /\
  get_rate c' b q = inr r /\
  (forall r' ts', get_rate (register_pair b q r' ts' c') b q = inr r') /\
  (b <> q -> convert c' amount b q = Return (amount * r)%float) /\
  (b <> q -> has_pair c' q b = false ->
   convert c' amount q b = Return (amount / r)%float).
Proof.
  cbv zeta. unfold has_pair, get_rate, register_pair. cbn [pairs_].
  rewrite !lookup_insert_eq. cbn [rate].
  split; [apply bool_decide_eq_true_2; eauto|]. split; [reflexivity|].
  split; [intros r' ts'; rewrite lookup_insert_eq; reflexivity|]. split.
  - intros Hne. unfold convert. cbn [pairs_].
    rewrite (proj2 (String.eqb_neq b q) Hne), lookup_insert_eq. reflexivity.
  - intros Hne Hno. apply bool_decide_eq_false in Hno.
    unfold convert. cbn [pairs_].
    assert (Hne' : q <> b) by congruence.
    rewrite (proj2 (String.eqb_neq q b) Hne').
    destruct (<[pair_id b q:=mkPair b q r ts]> (pairs_ c) !! pair_id q b) eqn:E.
    + exfalso. apply Hno. eauto.
    + rewrite lookup_insert_eq. reflexivity.
Qed.

(** X18.  [update_rate] throws when the pair is not registered and changes
    nothing else: on success the pair has the new rate, exactly the pairs
    that existed before exist afterwards, every other rate is as before,
    and the graph, hence every path that [find_path] finds, is unchanged.
    It never creates a pair. *)
Theorem update_rate_spec (c : t) (b q : string) (r : float) (ts : Z) :
  match update_rate b q r ts c with
  | inl e => has_pair c b q = false /\ e = PairNotRegistered (pair_id b q)
  | inr c' =>
      has_pair c b q = true /\
      get_rate c' b q = inr r /\
      (forall x y, has_pair c' x y = has_pair c x y) /\
      (forall x y, pair_id x y <> pair_id b q -> get_rate c' x y = get_rate c x y) /\
      graph_ c' = graph_ c /\
      (forall from to, find_path c' from to = find_path c from to) /\
      pair_count c' = pair_count c
  end.
Proof.
  unfold update_rate, has_pair, get_rate, pair_count.
  destruct (pairs_ c !! pair_id b q) as [p|] eqn:E.
  - cbn [pairs_ graph_].
    split; [apply bool_decide_eq_true_2; eauto|].
    split; [rewrite lookup_insert_eq; reflexivity|].
    split.
    { intros x y. destruct (decide (pair_id x y = pair_id b q)) as [->|Hne].
      - rewrite lookup_insert_eq, E.
        rewrite !bool_decide_eq_true_2 by eauto. reflexivity.
      - rewrite lookup_insert_ne by congruence. reflexivity. }
    split.
    { intros x y Hne. rewrite lookup_insert_ne by congruence. reflexivity. }
    split; [reflexivity|]. split; [reflexivity|].
    apply map_size_insert_Some. eauto.
  - split; [|reflexivity]. apply bool_decide_eq_false_2. intros [? H]. discriminate.
Qed.

(** *** Converters built by [register_pair] are well formed *)

Lemma graph_insert_key k x g a :
  is_Some (graph_insert k x g !! a) <-> is_Some (g !! a) \/ a = k.
Proof.
  unfold graph_insert. destruct (decide (a = k)) as [->|Hne].
  - rewrite lookup_insert_eq. split; eauto.
  - rewrite lookup_insert_ne by congruence. split; [auto|]. intros [H|H]; [exact H|].
    contradiction.
Qed.

Lemma register_pair_well_formed b q r ts c :
  b <> ""%string -> q <> ""%string ->
  well_formed c -> well_formed (register_pair b q r ts c).
Proof.
  intros Hb Hq [Hkeys Hedges]. unfold register_pair. split; cbn [graph_ pairs_].
  - intros x l Hx.
    assert (Hs : is_Some (graph_insert q b (graph_insert b q (graph_ c)) !! x))
      by eauto.
    apply graph_insert_key in Hs as [Hs| ->]; [|exact Hq].
    apply graph_insert_key in Hs as [[l' Hs]| ->]; [|exact Hb].
    eapply Hkeys, Hs.
  - intros x y He.
    assert (Hmono : forall k, is_Some (pairs_ c !! k) ->
                      is_Some (<[pair_id b q:=mkPair b q r ts]> (pairs_ c) !! k)).
    { intros k Hk. destruct (decide (k = pair_id b q)) as [->|Hne].
      - rewrite lookup_insert_eq. eauto.
      - rewrite lookup_insert_ne by congruence. exact Hk. }
    assert (Hnew : is_Some (<[pair_id b q:=mkPair b q r ts]> (pairs_ c)
                              !! pair_id b q))
      by (rewrite lookup_insert_eq; eauto).
    apply edge_graph_insert in He as [He|[-> ->]].
    + apply edge_graph_insert in He as [He|[-> ->]].
      * destruct (Hedges x y He) as (Hy & Hsy & Hp).
        split; [exact Hy|]. split.
        -- apply graph_insert_key. left. apply graph_insert_key. left. exact Hsy.
        -- destruct Hp as [Hp|Hp]; [left|right]; apply Hmono, Hp.
      * split; [exact Hq|]. split; [|left; exact Hnew].
        apply graph_insert_key. right. reflexivity.
    + split; [exact Hb|]. split; [|right; exact Hnew].
      apply graph_insert_key. left. apply graph_insert_key. right. reflexivity.
Qed.

Lemma empty_well_formed : well_formed empty.
Proof.
  split; cbn.
  - intros x l H. rewrite lookup_empty in H. discriminate.
  - intros x y (l & H & _). rewrite lookup_empty in H. discriminate.
Qed.

Lemma registered_by_well_formed rs :
  Forall named rs -> well_formed (registered_by rs).
Proof.
  unfold registered_by.
  induction rs as [|[[[b q] r] ts] rs IH] using rev_ind; intros Hrs.
  - apply empty_well_formed.
  - apply Forall_app in Hrs as [Hrs Hr]. apply Forall_cons in Hr as [[Hb Hq] _].
    rewrite fold_left_app. cbn [fold_left register].
    apply register_pair_well_formed; auto.
Qed.

(** *** The search *)

Section Search.

Context (g : gmap string (list string)) (from to : string).
Hypothesis Hnames : forall x y, edge g x y -> y <> ""%string.
Hypothesis Hfrom : from <> ""%string.

Lemma chain_insert par k v x path :
  par !! k = None ->
  chain g from par x path -> chain g from (<[k := v]> par) x path.
Proof.
  intros Hk Hc. induction Hc as [Hr|x p path Hx Hp Hpn He Hc IH].
  - apply chain_root. rewrite lookup_insert_ne; [exact Hr|].
    intros <-. rewrite Hk in Hr. discriminate.
  - eapply chain_step; eauto. rewrite lookup_insert_ne; [exact Hp|].
    intros <-. rewrite Hk in Hp. discriminate.
Qed.

Lemma chain_head par x path : chain g from par x path -> exists tl, path = x :: tl.
Proof. intros [|]; eauto. Qed.

Lemma chain_reconstruct par x path fuel :
  chain g from par x path -> (List.length path < fuel)%nat ->
  reconstruct fuel par x = Some path.
Proof.
  intros Hc. revert fuel. induction Hc as [Hr|x p path Hx Hp Hpn He Hc IH];
    intros fuel Hfuel.
  - destruct fuel as [|[|fuel]]; [cbn in Hfuel; lia..|].
    cbn [reconstruct]. rewrite (proj2 (String.eqb_neq from "") Hfrom).
    rewrite Hr. reflexivity.
  - destruct fuel as [|fuel]; [cbn in Hfuel; lia|].
    cbn [reconstruct]. rewrite (proj2 (String.eqb_neq x "") Hx).
    rewrite Hp. cbn [default].
    rewrite IH by (cbn [List.length] in Hfuel; lia). reflexivity.
Qed.

Lemma chain_linked par x path :
  chain g from par x path ->
  forall tl, linked g (x :: tl) -> linked g (rev path ++ tl).
Proof.
  intros Hc. induction Hc as [Hr|x p path Hx Hp Hpn He Hc IH]; intros tl Hl.
  - exact Hl.
  - cbn [rev]. rewrite <- app_assoc. apply IH. cbn [app linked]. auto.
Qed.

(** What one call of [explore] does to the state. *)
Lemma explore_step current n st :
  current ∈ visited st -> current <> ""%string -> edge g current n ->
  n ∈ targets g ->
  (forall x, is_Some (parent st !! x) -> x ∈ visited st) ->
  (forall x, x ∈ visited st ->
     exists path, chain g from (parent st) x path /\
                  (List.length path <= size (parent st))%nat) ->
  let st' := explore current st n in
  (forall x, is_Some (parent st' !! x) -> x ∈ visited st') /\
  (forall x, x ∈ visited st' ->
     exists path, chain g from (parent st') x path /\
                  (List.length path <= size (parent st'))%nat) /\
  (forall x, x ∈ visited st -> x ∈ visited st') /\
  n ∈ visited st' /\
  (forall x, x ∈ queue st' <-> x ∈ queue st \/ (x ∈ visited st' /\ x ∉ visited st)) /\
  (forall x, x ∈ visited st' -> x ∈ visited st \/ x ∈ queue st') /\
  bfs_measure g st' = bfs_measure g st.
Proof.
  intros Hcur Hcn He Ht Hdom Hchains. cbv zeta. unfold explore.
  destruct (decide (n ∈ visited st)) as [Hv|Hv].
  - split; [exact Hdom|]. split; [exact Hchains|]. split; [auto|].
    split; [exact Hv|]. split; [|split; [auto|reflexivity]].
    intros x. split; [auto|]. intros [H|[H1 H2]]; [exact H|contradiction].
  - assert (Hn : parent st !! n = None).
    { destruct (parent st !! n) eqn:E; [|reflexivity].
      exfalso. apply Hv, Hdom. eauto. }
    cbn [parent visited queue]. split.
    { intros x Hx. destruct (decide (x = n)) as [->|Hne].
      - apply elem_of_union_l, elem_of_singleton. reflexivity.
      - rewrite lookup_insert_ne in Hx by congruence.
        apply elem_of_union_r, Hdom, Hx. }
    split.
    { intros x Hx. rewrite map_size_insert_None by exact Hn.
      apply elem_of_union in Hx as [Hx|Hx].
      - apply elem_of_singleton in Hx. subst x.
        destruct (Hchains current Hcur) as (path & Hc & Hlen).
        exists (n :: path). split; [|cbn [List.length]; lia].
        eapply chain_step; [eapply Hnames, He| apply lookup_insert_eq | exact Hcn
                           | exact He | apply chain_insert; assumption].
      - destruct (Hchains x Hx) as (path & Hc & Hlen).
        exists path. split; [apply chain_insert; assumption|lia]. }
    split; [intros x Hx; apply elem_of_union_r, Hx|].
    split; [apply elem_of_union_l, elem_of_singleton; reflexivity|].
    split.
    { intros x. rewrite elem_of_app, list_elem_of_singleton, elem_of_union,
        elem_of_singleton.
      split.
      - intros [H| ->]; [auto|]. right. auto.
      - intros [H|[[->|H1] H2]]; [auto|auto|contradiction]. }
    split.
    { intros x Hx. apply elem_of_union in Hx as [Hx|Hx]; [|auto].
      right. apply elem_of_app. right. apply elem_of_singleton in Hx. subst x.
      left. }
    unfold bfs_measure. cbn [queue visited]. rewrite length_app. cbn [List.length].
    rewrite (size_difference_visit (targets g) (visited st) n Ht Hv). lia.
Qed.

(** The whole [for] loop over the neighbours of [current]. *)
Lemma explore_all current ns st :
  current <> ""%string ->
  (forall n, n ∈ ns -> edge g current n /\ n ∈ targets g) ->
  current ∈ visited st ->
  (forall x, is_Some (parent st !! x) -> x ∈ visited st) ->
  (forall x, x ∈ visited st ->
     exists path, chain g from (parent st) x path /\
                  (List.length path <= size (parent st))%nat) ->
  let st' := fold_left (explore current) ns st in
  (forall x, is_Some (parent st' !! x) -> x ∈ visited st') /\
  (forall x, x ∈ visited st' ->
     exists path, chain g from (parent st') x path /\
                  (List.length path <= size (parent st'))%nat) /\
  (forall x, x ∈ visited st -> x ∈ visited st') /\
  (forall n, n ∈ ns -> n ∈ visited st') /\
  (forall x, x ∈ queue st' <-> x ∈ queue st \/ (x ∈ visited st' /\ x ∉ visited st)) /\
  (forall x, x ∈ visited st' -> x ∈ visited st \/ x ∈ queue st') /\
  bfs_measure g st' = bfs_measure g st.
Proof.
  intros Hcn. revert st. induction ns as [|n ns IH]; intros st Hns Hcur Hdom Hchains.
  - cbn [fold_left]. split; [exact Hdom|]. split; [exact Hchains|].
    split; [auto|]. split; [intros n Hn; inversion Hn|].
    split; [|split; [auto|reflexivity]].
    intros x. split; [auto|]. intros [H|[H1 H2]]; [exact H|contradiction].
  - cbn [fold_left].
    destruct (Hns n ltac:(left)) as [He Ht].
    destruct (explore_step current n st Hcur Hcn He Ht Hdom Hchains)
      as (Hdom1 & Hch1 & Hmono1 & Hn1 & Hq1 & Hv1 & Hm1).
    cbv zeta in *.
    destruct (IH (explore current st n)) as (Hdom2 & Hch2 & Hmono2 & Hns2 & Hq2 & Hv2 & Hm2);
      [intros m Hm; apply Hns; right; exact Hm | apply Hmono1, Hcur
      | exact Hdom1 | exact Hch1 |].
    cbv zeta in *.
    split; [exact Hdom2|]. split; [exact Hch2|].
    split; [intros x Hx; apply Hmono2, Hmono1, Hx|].
    split.
    { intros m Hm. apply elem_of_cons in Hm as [->|Hm]; [apply Hmono2, Hn1|].
      apply Hns2, Hm. }
    split.
    { intros x. rewrite Hq2, Hq1. split.
      - intros [[H|[H1 H2]]|[H1 H2]]; [auto| |].
        + right. split; [apply Hmono2, H1|exact H2].
        + right. split; [exact H1|]. intros H. apply H2, Hmono1, H.
      - intros [H|[H1 H2]]; [auto|].
        destruct (decide (x ∈ visited (explore current st n))) as [Hin|Hout].
        + left. right. auto.
        + right. auto. }
    split.
    { intros x Hx. destruct (Hv2 x Hx) as [H|H]; [|auto].
      destruct (Hv1 x H) as [H'|H']; [auto|].
      right. apply Hq2. auto. }
    rewrite Hm2. exact Hm1.
Qed.

Lemma invariant_visits_reachable st :
  bfs_invariant g from to st -> queue st = [] ->
  forall x, reachable g from x -> x ∈ visited st.
Proof.
  intros (Hf & _ & _ & _ & Hclosed) Hq. unfold reachable.
  apply (rtc_ind_r (fun x => x ∈ visited st)); [exact Hf|].
  intros y z _ Hedge Hy.
  destruct (Hclosed y Hy) as [_ Hall]; [rewrite Hq; apply not_elem_of_nil|].
  apply Hall, Hedge.
Qed.

(** The loop of [find_path] ends within its fuel, with no path only when
    the target cannot be reached, and otherwise with a list of currencies
    that starts a chain of conversion steps. *)
Lemma bfs_result fuel st :
  bfs_invariant g from to st ->
  (bfs_measure g st < fuel)%nat ->
  exists l,
    bfs fuel g to st = Some l /\
    ((l = [] /\ ~ reachable g from to) \/ (l <> [] /\ linked g l)).
Proof.
  revert st. induction fuel as [|fuel IH]; intros st Hinv Hm; [lia|].
  cbn [bfs]. destruct st as [par vis q]. cbn [queue parent visited] in *.
  destruct q as [|current rest].
  - exists []. split; [reflexivity|]. left. split; [reflexivity|].
    intros Hr.
    pose proof (invariant_visits_reachable _ Hinv eq_refl to Hr) as Hto.
    destruct Hinv as (_ & _ & _ & _ & Hclosed). cbn [queue visited] in *.
    destruct (Hclosed to Hto (not_elem_of_nil _)) as [Hne _]. contradiction.
  - destruct Hinv as (Hf & Hqv & Hdom & Hchains & Hclosed).
    cbn [queue parent visited] in *.
    assert (Hcur : current ∈ vis) by (apply Hqv; left).
    destruct (String.eqb_spec current to) as [->|Hne].
    + destruct (Hchains to Hcur) as (path & Hc & Hlen).
      rewrite (chain_reconstruct par to path (S (size par)) Hc) by lia.
      cbn [option_map]. eexists. split; [reflexivity|]. right.
      destruct (chain_head _ _ _ Hc) as [tl ->]. split.
      * cbn [rev]. intros H. apply app_eq_nil in H as [_ H]. discriminate.
      * rewrite <- (app_nil_r (rev (to :: tl))).
        apply (chain_linked par to (to :: tl) Hc []). exact I.
    + assert (Hcn : current <> ""%string).
      { destruct (Hchains current Hcur) as (path & Hc & _).
        destruct Hc; assumption. }
      set (st1 := mkBfs par vis rest).
      assert (Hm1 : (bfs_measure g st1 < fuel)%nat).
      { unfold bfs_measure, st1 in *. cbn [queue visited List.length] in *. lia. }
      destruct (g !! current) as [neighbors|] eqn:E.
      * destruct (explore_all current neighbors st1 Hcn) as
          (Hdom2 & Hch2 & Hmono2 & Hns2 & Hq2 & Hv2 & Hm2);
          [ intros n Hn; split; [exists neighbors; auto|eapply elem_of_targets; eauto]
          | exact Hcur | exact Hdom | exact Hchains |].
        cbv zeta in *. cbn [queue visited parent] in *.
        apply IH; [|rewrite Hm2; exact Hm1].
        split; [apply Hmono2, Hf|]. split.
        { intros x Hx. apply Hq2 in Hx as [Hx|[Hx _]]; [|exact Hx].
          apply Hmono2, Hqv. right. exact Hx. }
        split; [exact Hdom2|]. split; [exact Hch2|].
        intros x Hx Hnq.
        destruct (decide (x = current)) as [->|Hxc].
        -- split; [exact Hne|]. intros y (l & Hl & Hy).
           rewrite E in Hl. injection Hl as <-. apply Hns2, Hy.
        -- destruct (Hv2 x Hx) as [Hold|Hnew]; [|contradiction].
           destruct (Hclosed x Hold) as [Hxto Hall].
           { intros Hin. apply elem_of_cons in Hin as [->|Hin]; [contradiction|].
             apply Hnq, Hq2. left. exact Hin. }
           split; [exact Hxto|]. intros y Hy. apply Hmono2, Hall, Hy.
      * apply IH; [|exact Hm1].
        split; [exact Hf|]. split; [intros x Hx; apply Hqv; right; exact Hx|].
        split; [exact Hdom|]. split; [exact Hchains|].
        intros x Hx Hnq. cbn [queue visited] in *.
        destruct (decide (x = current)) as [->|Hxc].
        -- split; [exact Hne|]. intros y (l & Hl & _). rewrite E in Hl. discriminate.
        -- apply Hclosed; [exact Hx|].
           intros Hin. apply elem_of_cons in Hin as [->|Hin]; [contradiction|].
           contradiction.
Qed.

Lemma initial_invariant :
  bfs_invariant g from to (mkBfs {[from := ""%string]} {[from]} [from]).
Proof.
  unfold bfs_invariant. cbn [queue parent visited].
  split; [apply elem_of_singleton; reflexivity|].
  split; [intros x Hx; apply list_elem_of_singleton in Hx; subst x;
          apply elem_of_singleton; reflexivity|].
  split.
  { intros x [v Hx]. apply lookup_singleton_Some in Hx as [<- _].
    apply elem_of_singleton. reflexivity. }
  split.
  { intros x Hx. apply elem_of_singleton in Hx. subst x.
    exists [from]. split; [apply chain_root, lookup_singleton_eq|].
    rewrite map_size_singleton. cbn. lia. }
  intros x Hx Hnq. exfalso. apply Hnq.
  apply elem_of_singleton in Hx. subst x. left.
Qed.

End Search.

Lemma apply_path_linked (c : t) (l : list string) (amount : float) :
  well_formed c -> linked (graph_ c) l ->
  exists r, apply_path (pairs_ c) l amount = Return r.
Proof.
  intros [_ Hedges]. revert amount.
  induction l as [|x [|y rest] IH]; intros amount Hl; [cbn; eauto..|].
  destruct Hl as [He Hl]. cbn [apply_path].
  destruct (Hedges x y He) as (_ & _ & [[p Hp]|[p Hp]]).
  - rewrite Hp. apply IH, Hl.
  - destruct (pairs_ c !! pair_id x y); [apply IH, Hl|].
    rewrite Hp. apply IH, Hl.
Qed.

Lemma find_path_result (c : t) from to :
  well_formed c -> from <> to ->
  exists l,
    find_path c from to = Some l /\
    ((l = [] /\ ~ reachable (graph_ c) from to) \/
     (l <> [] /\ linked (graph_ c) l)).
Proof.
  intros [Hkeys Hedges] Hne. unfold find_path.
  rewrite (proj2 (String.eqb_neq from to) Hne).
  destruct (graph_ c !! from) as [lf|] eqn:Ef.
  2: { rewrite bool_decide_eq_true_2 by reflexivity.
       exists []. split; [reflexivity|]. left. split; [reflexivity|].
       intros Hr. apply rtc_inv in Hr as [->|(y & (l & Hl & _) & _)];
         [contradiction|]. rewrite Ef in Hl. discriminate. }
  rewrite bool_decide_eq_false_2 by discriminate.
  destruct (graph_ c !! to) as [lt|] eqn:Et.
  2: { rewrite bool_decide_eq_true_2 by reflexivity.
       exists []. split; [reflexivity|]. left. split; [reflexivity|].
       intros Hr. apply rtc_inv_r in Hr as [->|(y & _ & He)]; [contradiction|].
       destruct (Hedges y to He) as (_ & [? Hs] & _). rewrite Et in Hs.
       discriminate. }
  rewrite bool_decide_eq_false_2 by discriminate.
  apply bfs_result.
  - intros x y He. apply (Hedges x y He).
  - eapply Hkeys, Ef.
  - apply initial_invariant.
  - unfold bfs_measure. cbn [queue visited List.length].
    pose proof (size_targets (graph_ c)).
    pose proof (size_difference_le (targets (graph_ c)) {[from]}). lia.
Qed.

(** X19.  The search is sound and complete on every converter built by
    [register_pair] with non-empty currency codes: [convert] either returns
    a value or throws the no-path error, never the path-validation error,
    and its loops always end; and whenever a chain of registered pairs
    connects the two currencies, it returns a value. *)
Theorem convert_total (rs : list registration) (amount : float) (from to : string) :
  Forall named rs ->
  let c := registered_by rs in
  ((exists r, convert c amount from to = Return r) \/
   convert c amount from to = Throw (NoConversionPath from to)) /\
  (reachable (graph_ c) from to -> exists r, convert c amount from to = Return r).
Proof.
  intros Hrs c.
  pose proof (registered_by_well_formed rs Hrs) as Hwf. fold c in Hwf.
  unfold convert.
  destruct (String.eqb_spec from to) as [->|Hne]; [split; eauto|].
  destruct (pairs_ c !! pair_id from to); [split; eauto|].
  destruct (pairs_ c !! pair_id to from); [split; eauto|].
  destruct (find_path_result c from to Hwf Hne) as (l & -> & [[-> Hno]|[Hl Hlinked]]).
  - split; [right; reflexivity|]. intros Hr. contradiction.
  - destruct (apply_path_linked c l amount Hwf Hlinked) as [r Hr].
    destruct l as [|x l']; [contradiction|]. rewrite Hr. split; eauto.
Qed.

Lemma convert_total_witness :
  exists r,
    convert (registered_by [("EUR", "USD", rate_1_10, 0); ("USD", "JPY", 150%float, 0);
                            ("GBP", "JPY", 180%float, 0)]%string)
            100 "EUR" "GBP" = Return r.
Proof.
  apply (convert_total [("EUR", "USD", rate_1_10, 0); ("USD", "JPY", 150%float, 0);
                        ("GBP", "JPY", 180%float, 0)]%string 100 "EUR" "GBP").
  - apply Forall_cons. split; [split; discriminate|].
    apply Forall_cons. split; [split; discriminate|].
    apply Forall_cons. split; [split; discriminate|apply Forall_nil_2].
  - eapply rtc_l; [exists ["USD"%string]; split; [vm_compute; reflexivity|left]|].
    eapply rtc_l; [exists ["EUR"; "JPY"]%string; split;
                     [vm_compute; reflexivity|right; left]|].
    eapply rtc_l; [exists ["USD"; "GBP"]%string; split;
                     [vm_compute; reflexivity|right; left]|].
    apply rtc_refl.
Defined.

End CurrencyConverterPathFacts.

(** ** trading/trade.cpp: the books of the ledger *)

Module LedgerFacts.

Import CTrade Fixtures LedgerSpec IntFacts.

(** *** Preservation by every command, from preservation by the steps *)

Section Preservation.

Context (P : t -> Prop).

Hypothesis P_request : forall r t0, P t0 -> P (with_last_request_ r t0).
Hypothesis P_check : forall c t0, P t0 -> P (with_last_check_ c t0).
Hypothesis P_result : forall r t0, P t0 -> P (with_last_result_ r t0).
Hypothesis P_open : forall symbol type volume price sl tp comment t0,
  P t0 -> P (snd (InternalPositionOpen symbol type volume price sl tp comment t0)).
Hypothesis P_close : forall ticket volume price t0,
  P t0 -> P (snd (InternalPositionClose ticket volume price t0)).
Hypothesis P_place : forall symbol type volume price stop_limit sl tp type_time
  expiration comment t0,
  P t0 -> P (snd (InternalOrderPlace symbol type volume price stop_limit sl tp
                    type_time expiration comment t0)).
Hypothesis P_modify : forall ticket sl tp t0,
  P t0 -> P (snd (PositionModify ticket sl tp t0)).
Hypothesis P_order_modify : forall ticket price sl tp stop_limit expiration t0,
  P t0 -> P (snd (OrderModify ticket price sl tp stop_limit expiration t0)).
Hypothesis P_order_delete : forall ticket t0, P t0 -> P (snd (OrderDelete ticket t0)).
Hypothesis P_register : forall info t0, P t0 -> P (RegisterSymbol info t0).
Hypothesis P_prices : forall symbol bid ask timestamp t0,
  P t0 -> P (UpdatePrices symbol bid ask timestamp t0).
Hypothesis P_time : forall ts t0, P t0 -> P (SetCurrentTime ts t0).
Hypothesis P_magic : forall m t0, P t0 -> P (SetExpertMagicNumber m t0).
Hypothesis P_deviation : forall d t0, P t0 -> P (SetDeviationInPoints d t0).
Hypothesis P_filling : forall f t0, P t0 -> P (SetTypeFilling f t0).
Hypothesis P_log : forall l t0, P t0 -> P (LogLevel l t0).
Hypothesis P_async : forall m t0, P t0 -> P (SetAsyncMode m t0).
Hypothesis P_enable : forall ticket distance step t0,
  P t0 -> P (snd (TrailingStopEnable ticket distance step t0)).
Hypothesis P_disable : forall ticket t0, P t0 -> P (snd (TrailingStopDisable ticket t0)).
Hypothesis P_trailing : forall t0, P t0 -> P (UpdateTrailingStops t0).

Lemma fail_with_preserves rc msg t0 : P t0 -> P (snd (fail_with rc msg t0)).
Proof. intros H. apply P_result, H. Qed.

Lemma ExecuteRequest_preserves request t0 :
  P t0 -> P (snd (ExecuteRequest request t0)).
Proof.
  intros H. unfold ExecuteRequest.
  destruct (GetSymbolInfo t0 (MqlTradeRequest.symbol request)); [|apply P_result, H].
  destruct (MqlTradeRequest.action request); try (apply P_result, H).
  - destruct (MqlTradeRequest.type request); try (apply P_result, H);
      match goal with
      | |- context [InternalPositionOpen ?a ?b ?c ?d ?e ?f ?g t0] =>
          pose proof (P_open a b c d e f g t0 H) as H';
          destruct (InternalPositionOpen a b c d e f g t0) as [ticket ledger1]
      end;
      destruct (0 <? ticket); apply P_result, H'.
  - match goal with
    | |- context [InternalOrderPlace ?a ?b ?c ?d ?e ?f ?g ?h ?i ?j t0] =>
        pose proof (P_place a b c d e f g h i j t0 H) as H';
        destruct (InternalOrderPlace a b c d e f g h i j t0) as [ticket ledger1]
    end.
    destruct (0 <? ticket); apply P_result, H'.
Qed.

Lemma check_and_execute_preserves t0 : P t0 -> P (snd (check_and_execute t0)).
Proof.
  intros H. unfold check_and_execute.
  destruct (CheckRequest t0 (last_request_ t0) (last_check_ t0)) as [ok check].
  destruct ok; cbn [negb].
  - apply ExecuteRequest_preserves, P_check, H.
  - apply P_result, P_check, H.
Qed.

Lemma PositionClose_preserves ticket deviation t0 :
  P t0 -> P (snd (PositionClose ticket deviation t0)).
Proof.
  intros H. unfold PositionClose.
  destruct (positions_ t0 !! ticket) as [pos|]; [|apply P_result, H]. cbv zeta.
  match goal with |- context [GetSymbolInfo ?t1 ?s] => destruct (GetSymbolInfo t1 s) end.
  - apply P_close, P_request, H.
  - apply P_result, P_request, H.
Qed.

Lemma PositionClosePartial_preserves ticket volume deviation t0 :
  P t0 -> P (snd (PositionClosePartial ticket volume deviation t0)).
Proof.
  intros H. unfold PositionClosePartial.
  destruct (positions_ t0 !! ticket) as [pos|]; [|apply P_result, H].
  destruct (Double.ge volume (PositionInfo.Volume pos));
    [apply PositionClose_preserves, H|].
  destruct (GetSymbolInfo t0 (PositionInfo.Symbol pos)); [|apply P_result, H].
  apply P_close, P_request, H.
Qed.

Lemma PositionCloseBy_preserves ticket ticket_by t0 :
  P t0 -> P (snd (PositionCloseBy ticket ticket_by t0)).
Proof.
  intros H. unfold PositionCloseBy.
  destruct (positions_ t0 !! ticket) as [pos1|]; [|apply P_result, H].
  destruct (positions_ t0 !! ticket_by) as [pos2|]; [|apply P_result, H].
  destruct (negb _); [apply P_result, H|].
  destruct (bool_decide _); [apply P_result, H|]. cbv zeta.
  match goal with |- context [GetSymbolInfo ?t1 ?s] => destruct (GetSymbolInfo t1 s) end;
    [|apply P_result, P_request, H].
  match goal with
  | |- context [InternalPositionClose ?a ?b ?c ?t1] =>
      assert (H' : P (snd (InternalPositionClose a b c t1)))
        by (apply P_close, P_request, H);
      destruct (InternalPositionClose a b c t1) as [success ledger2]
  end.
  destruct success; [|exact H'].
  apply P_close, H'.
Qed.

Lemma exec_preserves c t0 : P t0 -> P (snd (exec c t0)).
Proof.
  intros H. destruct c; cbn [exec snd].
  - apply check_and_execute_preserves, P_request, H.
  - apply P_modify, H.
  - unfold PositionModifyBySymbol.
    destruct (find_position_by_symbol t0 symbol) as [[? pos]|];
      [apply P_modify, H|apply P_result, H].
  - apply PositionClose_preserves, H.
  - unfold PositionCloseBySymbol.
    destruct (find_position_by_symbol t0 symbol) as [[ticket ?]|];
      [|apply P_result, H].
    destruct (ticket =? 0); [apply P_result, H|apply PositionClose_preserves, H].
  - apply PositionClosePartial_preserves, H.
  - unfold PositionClosePartialBySymbol.
    destruct (find_position_by_symbol t0 symbol) as [[ticket ?]|];
      [|apply P_result, H].
    destruct (ticket =? 0);
      [apply P_result, H|apply PositionClosePartial_preserves, H].
  - apply PositionCloseBy_preserves, H.
  - apply check_and_execute_preserves, P_request, H.
  - apply P_order_modify, H.
  - apply P_order_delete, H.
  - apply P_register, H.
  - apply P_prices, H.
  - apply P_time, H.
  - apply P_magic, H.
  - apply P_deviation, H.
  - apply P_filling, H.
  - apply P_log, H.
  - apply P_async, H.
  - apply P_enable, H.
  - apply P_disable, H.
  - apply P_trailing, H.
Qed.

Lemma run_preserves cs t0 : P t0 -> P (run cs t0).
Proof.
  unfold run. revert t0. induction cs as [|c cs IH]; intros t0 H; [exact H|].
  cbn [fold_left]. apply IH, exec_preserves, H.
Qed.

End Preservation.

(** *** The account *)

Lemma UpdateEquity_consistent x a :
  account_consistent (AccountInfo.UpdateEquity x a).
Proof.
  unfold account_consistent, AccountInfo.UpdateEquity. cbv zeta.
  destruct (0 <? AccountInfo.margin_ (AccountInfo.with_equity_ _ _)); cbn.
  all: match goal with
       | |- context [if (?u <? ?v) then _ else _] => destruct (Z.ltb_spec u v)
       end; cbn.
  all: match goal with
       | |- context [if (?u <? ?v) || (?w =? ?z) then _ else _] =>
           destruct (Z.ltb_spec u v), (Z.eqb_spec w z)
       end; cbn.
  all: repeat split; try reflexivity; lia.
Qed.

Lemma CTrade_UpdateEquity_consistent t0 :
  account_consistent (account_ (UpdateEquity t0)).
Proof. apply UpdateEquity_consistent. Qed.

Lemma InternalPositionOpen_consistent symbol type volume price sl tp comment t0 :
  account_consistent (account_ t0) ->
  account_consistent
    (account_ (snd (InternalPositionOpen symbol type volume price sl tp comment t0))).
Proof.
  intros H. unfold InternalPositionOpen.
  destruct (GetSymbolInfo t0 symbol); [apply UpdateEquity_consistent | exact H].
Qed.

Lemma InternalPositionClose_consistent ticket volume price t0 :
  account_consistent (account_ t0) ->
  account_consistent (account_ (snd (InternalPositionClose ticket volume price t0))).
Proof.
  intros H. unfold InternalPositionClose.
  destruct (positions_ t0 !! ticket) as [pos|]; [|exact H].
  destruct (GetSymbolInfo t0 (PositionInfo.Symbol pos)); [|exact H].
  cbv zeta. unfold take_ticket.
  match goal with
  | |- account_consistent (account_ (snd (_, with_last_result_ _ (UpdateEquity ?x)))) =>
      exact (CTrade_UpdateEquity_consistent x)
  end.
Qed.

Lemma UpdatePrices_consistent symbol bid ask timestamp t0 :
  account_consistent (account_ t0) ->
  account_consistent (account_ (UpdatePrices symbol bid ask timestamp t0)).
Proof.
  intros H. unfold UpdatePrices.
  destruct (symbol_name_to_id_ t0 !! symbol) as [id|]; [|exact H].
  destruct (symbols_ t0 !! id); [apply UpdateEquity_consistent | exact H].
Qed.

Lemma init_consistent initial_balance currency leverage :
  account_consistent (account_ (init initial_balance currency leverage)).
Proof.
  unfold account_consistent. cbn.
  pose proof (EquityFacts.to_int64_range (initial_balance * 1000000)%float) as Hr.
  rewrite Z.add_0_r, Z.sub_0_r, !wrap64_id by exact Hr.
  repeat split; lia.
Qed.

(** X20.  The account keeps its books: after every command on a ledger
    built from a new one, the equity is the balance plus the floating
    profit, the free margin is the equity minus the used margin (both in
    64-bit arithmetic), and the equity lies between the lowest and the
    highest equity recorded for the day. *)
Theorem account_stays_consistent (cs : list Command) initial_balance currency
  leverage :
  let a := account_ (run cs (init initial_balance currency leverage)) in
  AccountInfo.equity_ a = wrap64 (AccountInfo.balance_ a + AccountInfo.profit_ a) /\
  AccountInfo.margin_free_ a = wrap64 (AccountInfo.equity_ a - AccountInfo.margin_ a) /\
  AccountInfo.daily_low_equity_ a <= AccountInfo.equity_ a
    <= AccountInfo.daily_high_equity_ a.
Proof.
  cbv zeta.
  apply (run_preserves (fun t0 => account_consistent (account_ t0))).
  all: try (intros; assumption).
  - intros. apply InternalPositionOpen_consistent. assumption.
  - intros. apply InternalPositionClose_consistent. assumption.
  - intros ? ? ? ? ? ? ? ? ? ? t0 H. unfold InternalOrderPlace.
    destruct (GetSymbolInfo t0 _); exact H.
  - intros ? ? ? t0 H. unfold PositionModify.
    destruct (positions_ t0 !! _); exact H.
  - intros ? ? ? ? ? ? t0 H. unfold OrderModify.
    destruct (orders_ t0 !! _); exact H.
  - intros ? t0 H. unfold OrderDelete. destruct (orders_ t0 !! _); exact H.
  - intros. apply UpdatePrices_consistent. assumption.
  - intros ? ? ? t0 H. unfold TrailingStopEnable.
    destruct (positions_ t0 !! _); exact H.
  - intros ? t0 H. unfold TrailingStopDisable.
    destruct (positions_ t0 !! _); exact H.
  - apply init_consistent.
Qed.

(** *** What the three internal steps do to the books *)

Lemma InternalPositionOpen_books symbol type volume price sl tp comment t0 info :
  GetSymbolInfo t0 symbol = Some info ->
  exists pos x m,
    let r := InternalPositionOpen symbol type volume price sl tp comment t0 in
    fst r = next_ticket_ t0 /\
    positions_ (snd r) = <[next_ticket_ t0 := pos]> (positions_ t0) /\
    PositionInfo.ticket_ pos = next_ticket_ t0 /\
    account_ (snd r)
    = AccountInfo.UpdateEquity x (AccountInfo.AddMargin m (account_ t0)) /\
    orders_ (snd r) = orders_ t0 /\
    deals_ (snd r) = deals_ t0 /\
    history_orders_ (snd r) = history_orders_ t0.
Proof.
  intros E. unfold InternalPositionOpen. rewrite E. cbv zeta. unfold take_ticket.
  do 3 eexists. cbv zeta.
  split; [reflexivity|]. split; [reflexivity|]. split; [reflexivity|].
  split; [reflexivity|]. split; [reflexivity|]. split; reflexivity.
Qed.

Lemma InternalPositionClose_books ticket volume price t0 pos info :
  positions_ t0 !! ticket = Some pos ->
  GetSymbolInfo t0 (PositionInfo.Symbol pos) = Some info ->
  exists deal x m p c s,
    let t1 := snd (InternalPositionClose ticket volume price t0) in
    deals_ t1 = deals_ t0 ++ [deal] /\
    DealInfo.entry_ deal = DEAL_ENTRY_OUT /\
    DealInfo.position_id_ deal = ticket /\
    DealInfo.volume_ deal
    = Double.min volume (PositionInfo.Volume (PositionInfo.UpdatePrice price pos)) /\
    account_ t1
    = AccountInfo.UpdateEquity x
        (AccountInfo.SubtractMargin m
           (AccountInfo.ApplyRealizedPnL p c s (account_ t0))).
Proof.
  intros E1 E2. unfold InternalPositionClose. rewrite E1, E2.
  cbv zeta. unfold take_ticket.
  destruct (Double.ge _ _);
    cbn [snd fst account_ deals_ positions_ next_ticket_ with_last_result_
         with_account_ with_positions_ with_deals_ with_next_ticket_ UpdateEquity];
    do 6 eexists;
    (split; [reflexivity|]); (split; [reflexivity|]); (split; [reflexivity|]);
    (split; [reflexivity|]); reflexivity.
Qed.

Lemma InternalOrderPlace_books symbol type volume price stop_limit sl tp type_time
  expiration comment t0 info :
  GetSymbolInfo t0 symbol = Some info ->
  exists order,
    let r := InternalOrderPlace symbol type volume price stop_limit sl tp type_time
               expiration comment t0 in
    fst r = next_ticket_ t0 /\
    orders_ (snd r) = <[next_ticket_ t0 := order]> (orders_ t0) /\
    OrderInfo.ticket_ order = next_ticket_ t0 /\
    positions_ (snd r) = positions_ t0 /\
    account_ (snd r) = account_ t0 /\
    deals_ (snd r) = deals_ t0 /\
    history_orders_ (snd r) = history_orders_ t0.
Proof.
  intros E. unfold InternalOrderPlace. rewrite E. cbv zeta. unfold take_ticket.
  eexists. cbv zeta.
  split; [reflexivity|]. split; [reflexivity|]. split; [reflexivity|].
  split; [reflexivity|]. split; [reflexivity|]. split; reflexivity.
Qed.

(** *** The trade counters *)

Lemma UpdateEquity_trades x a :
  AccountInfo.total_trades_ (AccountInfo.UpdateEquity x a) = AccountInfo.total_trades_ a /\
  AccountInfo.daily_trades_ (AccountInfo.UpdateEquity x a) = AccountInfo.daily_trades_ a.
Proof.
  unfold AccountInfo.UpdateEquity. cbv zeta.
  destruct (0 <? AccountInfo.margin_ (AccountInfo.with_equity_ _ _)); cbn.
  all: match goal with
       | |- context [if (?u <? ?v) then _ else _] => destruct (u <? v)
       end; cbn.
  all: match goal with
       | |- context [if ?b then _ else _] => destruct b
       end; cbn.
  all: split; reflexivity.
Qed.

Lemma AddMargin_trades m a :
  AccountInfo.total_trades_ (AccountInfo.AddMargin m a) = AccountInfo.total_trades_ a /\
  AccountInfo.daily_trades_ (AccountInfo.AddMargin m a) = AccountInfo.daily_trades_ a.
Proof.
  unfold AccountInfo.AddMargin. cbv zeta.
  rewrite (proj1 (UpdateEquity_trades _ _)), (proj2 (UpdateEquity_trades _ _)).
  split; reflexivity.
Qed.

Lemma SubtractMargin_trades m a :
  AccountInfo.total_trades_ (AccountInfo.SubtractMargin m a)
  = AccountInfo.total_trades_ a /\
  AccountInfo.daily_trades_ (AccountInfo.SubtractMargin m a)
  = AccountInfo.daily_trades_ a.
Proof.
  unfold AccountInfo.SubtractMargin. cbv zeta.
  rewrite (proj1 (UpdateEquity_trades _ _)), (proj2 (UpdateEquity_trades _ _)).
  split; reflexivity.
Qed.

Lemma ApplyRealizedPnL_trades p c s a :
  AccountInfo.total_trades_ (AccountInfo.ApplyRealizedPnL p c s a)
  = wrapU32 (AccountInfo.total_trades_ a + 1) /\
  AccountInfo.daily_trades_ (AccountInfo.ApplyRealizedPnL p c s a)
  = wrapU32 (AccountInfo.daily_trades_ a + 1).
Proof.
  unfold AccountInfo.ApplyRealizedPnL. cbv zeta.
  destruct (0 <? p); [split; reflexivity|].
  destruct (p <? 0); split; reflexivity.
Qed.

Lemma wrapU32_succ n : wrapU32 (wrapU32 n + 1) = wrapU32 (n + 1).
Proof. unfold wrapU32. apply Z.add_mod_idemp_l. lia. Qed.

Lemma trades_counted_frame t0 t1 :
  trades_counted t0 ->
  AccountInfo.total_trades_ (account_ t1) = AccountInfo.total_trades_ (account_ t0) ->
  AccountInfo.daily_trades_ (account_ t1) = AccountInfo.daily_trades_ (account_ t0) ->
  deals_ t1 = deals_ t0 ->
  trades_counted t1.
Proof. unfold trades_counted. intros H -> -> ->. exact H. Qed.

Lemma InternalPositionOpen_counted symbol type volume price sl tp comment t0 :
  trades_counted t0 ->
  trades_counted (snd (InternalPositionOpen symbol type volume price sl tp comment t0)).
Proof.
  intros H. destruct (GetSymbolInfo t0 symbol) as [info|] eqn:E.
  2: { unfold InternalPositionOpen. rewrite E. exact H. }
  destruct (InternalPositionOpen_books symbol type volume price sl tp comment t0 info E)
    as (pos & x & m & _ & _ & _ & Ha & _ & Hd & _). cbv zeta in Ha, Hd.
  apply (trades_counted_frame t0 _ H); [| |exact Hd]; rewrite Ha.
  - rewrite (proj1 (UpdateEquity_trades _ _)). apply AddMargin_trades.
  - rewrite (proj2 (UpdateEquity_trades _ _)). apply AddMargin_trades.
Qed.

Lemma InternalPositionClose_counted ticket volume price t0 :
  trades_counted t0 ->
  trades_counted (snd (InternalPositionClose ticket volume price t0)).
Proof.
  intros H.
  destruct (positions_ t0 !! ticket) as [pos|] eqn:E1.
  2: { unfold InternalPositionClose. rewrite E1. exact H. }
  destruct (GetSymbolInfo t0 (PositionInfo.Symbol pos)) as [info|] eqn:E2.
  2: { unfold InternalPositionClose. rewrite E1, E2. exact H. }
  destruct (InternalPositionClose_books ticket volume price t0 pos info E1 E2)
    as (deal & x & m & p & c & s & Hd & He & _ & _ & Ha). cbv zeta in Hd, Ha.
  destruct H as (Ht & Hdaily & Hall).
  unfold trades_counted. rewrite Hd, Ha, length_app. cbn [List.length].
  rewrite (proj1 (UpdateEquity_trades _ _)), (proj2 (UpdateEquity_trades _ _)).
  rewrite (proj1 (SubtractMargin_trades _ _)), (proj2 (SubtractMargin_trades _ _)).
  rewrite (proj1 (ApplyRealizedPnL_trades _ _ _ _)),
    (proj2 (ApplyRealizedPnL_trades _ _ _ _)).
  rewrite Ht, Hdaily, wrapU32_succ.
  replace (Z.of_nat (List.length (deals_ t0) + 1))
    with (Z.of_nat (List.length (deals_ t0)) + 1) by lia.
  split; [reflexivity|]. split; [reflexivity|].
  apply Forall_app. split; [exact Hall|]. constructor; [exact He|constructor].
Qed.

Lemma UpdatePrices_counted symbol bid ask timestamp t0 :
  trades_counted t0 -> trades_counted (UpdatePrices symbol bid ask timestamp t0).
Proof.
  intros H. unfold UpdatePrices.
  destruct (symbol_name_to_id_ t0 !! symbol) as [id|]; [|exact H].
  destruct (symbols_ t0 !! id); [|exact H].
  cbv zeta. unfold UpdateEquity.
  apply (trades_counted_frame t0 _ H); [| |destruct (0 <? timestamp); reflexivity].
  - cbn [account_ with_account_]. rewrite (proj1 (UpdateEquity_trades _ _)).
    destruct (0 <? timestamp); reflexivity.
  - cbn [account_ with_account_]. rewrite (proj2 (UpdateEquity_trades _ _)).
    destruct (0 <? timestamp); reflexivity.
Qed.

(** X21.  The account counts the deals.  After every command on a ledger
    built from a new one, [total_trades] and [daily_trades] of the account
    equal the number of deals in the ledger's history (as [uint32_t]
    values), and every deal is an exit deal: opening a position records no
    deal, each close or partial close records exactly one. *)
Theorem trades_are_counted (cs : list Command) initial_balance currency leverage :
  let t1 := run cs (init initial_balance currency leverage) in
  AccountInfo.total_trades_ (account_ t1)
    = wrapU32 (Z.of_nat (List.length (deals_ t1))) /\
  AccountInfo.daily_trades_ (account_ t1)
    = wrapU32 (Z.of_nat (List.length (deals_ t1))) /\
  Forall (fun deal => DealInfo.entry_ deal = DEAL_ENTRY_OUT) (deals_ t1).
Proof.
  cbv zeta. apply (run_preserves trades_counted).
  all: try (intros; assumption).
  - intros. apply InternalPositionOpen_counted. assumption.
  - intros. apply InternalPositionClose_counted. assumption.
  - intros ? ? ? ? ? ? ? ? ? ? t0 H. unfold InternalOrderPlace.
    destruct (GetSymbolInfo t0 _); exact H.
  - intros ? ? ? t0 H. unfold PositionModify.
    destruct (positions_ t0 !! _); exact H.
  - intros ? ? ? ? ? ? t0 H. unfold OrderModify.
    destruct (orders_ t0 !! _); exact H.
  - intros ? t0 H. unfold OrderDelete. destruct (orders_ t0 !! _); exact H.
  - intros. apply UpdatePrices_counted. assumption.
  - intros ? ? ? t0 H. unfold TrailingStopEnable.
    destruct (positions_ t0 !! _); exact H.
  - intros ? t0 H. unfold TrailingStopDisable.
    destruct (positions_ t0 !! _); exact H.
  - unfold trades_counted. cbn. repeat split. constructor.
Qed.

(** *** Positions and orders are stored under their tickets *)

Lemma keyed_frame t0 t1 :
  keyed_by_ticket t0 ->
  positions_ t1 = positions_ t0 -> orders_ t1 = orders_ t0 ->
  keyed_by_ticket t1.
Proof. unfold keyed_by_ticket. intros H -> ->. exact H. Qed.

Lemma keyed_insert_position t0 t1 k pos :
  keyed_by_ticket t0 ->
  positions_ t1 = <[k := pos]> (positions_ t0) ->
  PositionInfo.ticket_ pos = k ->
  orders_ t1 = orders_ t0 ->
  keyed_by_ticket t1.
Proof.
  intros [Hp Ho] Ep Et Eo. split; [|rewrite Eo; exact Ho].
  rewrite Ep. intros j q Hq. destruct (decide (j = k)) as [->|Hne].
  - rewrite lookup_insert_eq in Hq. injection Hq as <-. exact Et.
  - rewrite lookup_insert_ne in Hq by congruence. apply Hp, Hq.
Qed.

Lemma keyed_delete_position t0 t1 k :
  keyed_by_ticket t0 ->
  positions_ t1 = delete k (positions_ t0) ->
  orders_ t1 = orders_ t0 ->
  keyed_by_ticket t1.
Proof.
  intros [Hp Ho] Ep Eo. split; [|rewrite Eo; exact Ho].
  rewrite Ep. intros j q Hq. apply lookup_delete_Some in Hq as [_ Hq]. apply Hp, Hq.
Qed.

Lemma keyed_fmap_positions (f : PositionInfo.t -> PositionInfo.t) t0 t1 :
  (forall pos, PositionInfo.ticket_ (f pos) = PositionInfo.ticket_ pos) ->
  keyed_by_ticket t0 ->
  positions_ t1 = f <$> positions_ t0 ->
  orders_ t1 = orders_ t0 ->
  keyed_by_ticket t1.
Proof.
  intros Hf [Hp Ho] Ep Eo. split; [|rewrite Eo; exact Ho].
  rewrite Ep. intros j q Hq. apply lookup_fmap_Some in Hq as (p & <- & Hq).
  unfold PositionInfo.Ticket. rewrite Hf. apply Hp, Hq.
Qed.

Lemma keyed_insert_order t0 t1 k order :
  keyed_by_ticket t0 ->
  orders_ t1 = <[k := order]> (orders_ t0) ->
  OrderInfo.ticket_ order = k ->
  positions_ t1 = positions_ t0 ->
  keyed_by_ticket t1.
Proof.
  intros [Hp Ho] Eo Et Ep. split; [rewrite Ep; exact Hp|].
  rewrite Eo. intros j q Hq. destruct (decide (j = k)) as [->|Hne].
  - rewrite lookup_insert_eq in Hq. injection Hq as <-. exact Et.
  - rewrite lookup_insert_ne in Hq by congruence. apply Ho, Hq.
Qed.

Lemma InternalPositionOpen_keyed symbol type volume price sl tp comment t0 :
  keyed_by_ticket t0 ->
  keyed_by_ticket (snd (InternalPositionOpen symbol type volume price sl tp comment t0)).
Proof.
  intros H. destruct (GetSymbolInfo t0 symbol) as [info|] eqn:E.
  2: { unfold InternalPositionOpen. rewrite E. exact H. }
  destruct (InternalPositionOpen_books symbol type volume price sl tp comment t0 info E)
    as (pos & x & m & _ & Hp & Ht & _ & Ho & _). cbv zeta in Hp, Ho.
  exact (keyed_insert_position t0 _ _ pos H Hp Ht Ho).
Qed.

Lemma InternalPositionClose_keyed ticket volume price t0 :
  keyed_by_ticket t0 ->
  keyed_by_ticket (snd (InternalPositionClose ticket volume price t0)).
Proof.
  intros H.
  destruct (positions_ t0 !! ticket) as [pos|] eqn:E1.
  2: { unfold InternalPositionClose. rewrite E1. exact H. }
  destruct (GetSymbolInfo t0 (PositionInfo.Symbol pos)) as [info|] eqn:E2.
  2: { unfold InternalPositionClose. rewrite E1, E2. exact H. }
  destruct (TicketFacts.InternalPositionClose_shape ticket volume price t0 pos info
              E1 E2) as (deal & pos' & _ & _ & Hp & _ & _ & Ho & _ & Hps).
  cbv zeta in Ho, Hps. destruct Hps as [Hps|Hps].
  - exact (keyed_delete_position t0 _ ticket H Hps Ho).
  - apply (keyed_insert_position t0 _ ticket pos' H Hps); [|exact Ho].
    rewrite Hp. apply (proj1 H), E1.
Qed.

Lemma InternalOrderPlace_keyed symbol type volume price stop_limit sl tp type_time
  expiration comment t0 :
  keyed_by_ticket t0 ->
  keyed_by_ticket (snd (InternalOrderPlace symbol type volume price stop_limit sl tp
                          type_time expiration comment t0)).
Proof.
  intros H. destruct (GetSymbolInfo t0 symbol) as [info|] eqn:E.
  2: { unfold InternalOrderPlace. rewrite E. exact H. }
  destruct (InternalOrderPlace_books symbol type volume price stop_limit sl tp
              type_time expiration comment t0 info E)
    as (order & _ & Ho & Ht & Hp & _). cbv zeta in Hp, Ho.
  exact (keyed_insert_order t0 _ _ order H Ho Ht Hp).
Qed.

Lemma PositionModify_keyed ticket sl tp t0 :
  keyed_by_ticket t0 -> keyed_by_ticket (snd (PositionModify ticket sl tp t0)).
Proof.
  intros H. unfold PositionModify.
  destruct (positions_ t0 !! ticket) as [pos|] eqn:E; [|exact H].
  eapply (keyed_insert_position t0 _ ticket); [exact H|reflexivity| |reflexivity].
  transitivity (PositionInfo.ticket_ pos); [|apply (proj1 H), E].
  unfold Double.gt. destruct (PrimFloat.ltb 0 sl), (PrimFloat.ltb 0 tp); reflexivity.
Qed.

Lemma OrderModify_keyed ticket price sl tp stop_limit expiration t0 :
  keyed_by_ticket t0 ->
  keyed_by_ticket (snd (OrderModify ticket price sl tp stop_limit expiration t0)).
Proof.
  intros H. unfold OrderModify.
  destruct (orders_ t0 !! ticket) as [order|] eqn:E; [|exact H].
  eapply (keyed_insert_order t0 _ ticket); [exact H|reflexivity| |reflexivity].
  transitivity (OrderInfo.ticket_ order); [|apply (proj2 H), E].
  unfold Double.gt.
  destruct (PrimFloat.ltb 0 price), (PrimFloat.ltb 0 sl), (PrimFloat.ltb 0 tp),
    (PrimFloat.ltb 0 stop_limit), (0 <? expiration); reflexivity.
Qed.

Lemma OrderDelete_keyed ticket t0 :
  keyed_by_ticket t0 -> keyed_by_ticket (snd (OrderDelete ticket t0)).
Proof.
  intros [Hp Ho]. unfold OrderDelete.
  destruct (orders_ t0 !! ticket) as [order|] eqn:E; [|split; assumption].
  split; [exact Hp|]. cbn. intros j q Hq.
  apply lookup_delete_Some in Hq as [_ Hq]. apply Ho, Hq.
Qed.

Lemma UpdatePrices_keyed symbol bid ask timestamp t0 :
  keyed_by_ticket t0 -> keyed_by_ticket (UpdatePrices symbol bid ask timestamp t0).
Proof.
  intros H. unfold UpdatePrices.
  destruct (symbol_name_to_id_ t0 !! symbol) as [id|]; [|exact H].
  destruct (symbols_ t0 !! id); [|exact H].
  cbv zeta.
  match goal with
  | |- context [with_positions_ (?f <$> _)] =>
      apply (keyed_fmap_positions f t0)
  end; [|exact H|destruct (0 <? timestamp); reflexivity
         |destruct (0 <? timestamp); reflexivity].
  intros pos. destruct (bool_decide _); [|reflexivity].
  destruct (PositionInfo.PositionType pos); reflexivity.
Qed.

Lemma TrailingStopEnable_keyed ticket distance step t0 :
  keyed_by_ticket t0 ->
  keyed_by_ticket (snd (TrailingStopEnable ticket distance step t0)).
Proof.
  intros H. unfold TrailingStopEnable.
  destruct (positions_ t0 !! ticket) as [pos|] eqn:E; [|exact H].
  eapply (keyed_insert_position t0 _ ticket); [exact H|reflexivity| |reflexivity].
  apply (proj1 H _ _ E).
Qed.

Lemma TrailingStopDisable_keyed ticket t0 :
  keyed_by_ticket t0 -> keyed_by_ticket (snd (TrailingStopDisable ticket t0)).
Proof.
  intros H. unfold TrailingStopDisable.
  destruct (positions_ t0 !! ticket) as [pos|] eqn:E; [|exact H].
  eapply (keyed_insert_position t0 _ ticket); [exact H|reflexivity| |reflexivity].
  apply (proj1 H _ _ E).
Qed.

Lemma run_keyed cs initial_balance currency leverage :
  keyed_by_ticket (run cs (init initial_balance currency leverage)).
Proof.
  apply (run_preserves keyed_by_ticket).
  all: try (intros; assumption).
  - intros. apply InternalPositionOpen_keyed. assumption.
  - intros. apply InternalPositionClose_keyed. assumption.
  - intros. apply InternalOrderPlace_keyed. assumption.
  - intros. apply PositionModify_keyed. assumption.
  - intros. apply OrderModify_keyed. assumption.
  - intros. apply OrderDelete_keyed. assumption.
  - intros. apply UpdatePrices_keyed. assumption.
  - intros. apply TrailingStopEnable_keyed. assumption.
  - intros. apply TrailingStopDisable_keyed. assumption.
  - intros t0 H.
    apply (keyed_fmap_positions (trail_position t0) t0);
      [apply TicketFacts.trail_position_ticket|exact H|reflexivity|reflexivity].
  - split; cbn; intros k x Hk; rewrite lookup_empty in Hk; discriminate.
Qed.

(** Storing the values of a map again, each under its own key, gives the
    map back. *)
Lemma restore_map {A} (key : A -> Z) (m : gmap Z A) :
  (forall k a, m !! k = Some a -> key a = k) ->
  fold_left (fun acc a => <[key a := a]> acc) (snd <$> map_to_list m) ∅ = m.
Proof.
  intros Hkey.
  assert (E : forall (l : list (Z * A)) (acc : gmap Z A),
            (forall k a, (k, a) ∈ l -> key a = k) ->
            fold_left (fun (acc : gmap Z A) a => <[key a := a]> acc) (snd <$> l) acc
            = fold_left (fun (acc : gmap Z A) (ka : Z * A) => <[fst ka := snd ka]> acc)
                l acc).
  { induction l as [|[k a] l IH]; intros acc Hl; [reflexivity|].
    cbn [fmap list_fmap fold_left fst snd].
    rewrite (Hl k a) by left. apply IH. intros k' a' H'. apply Hl. right. exact H'. }
  rewrite E by (intros k a Hk; apply Hkey, elem_of_map_to_list, Hk).
  rewrite <- fold_left_rev_right.
  change (fold_right (fun (y : Z * A) (x : gmap Z A) => <[fst y := snd y]> x) ∅
            (rev (map_to_list m)))
    with (list_to_map (rev (map_to_list m)) : gmap Z A).
  etransitivity; [|apply list_to_map_to_list].
  symmetry. apply list_to_map_proper.
  - apply NoDup_fst_map_to_list.
  - apply Permutation_rev.
Qed.

(** X22.  Snapshots round-trip.  On a ledger built from a new one by any
    commands, every position and every pending order is stored under its
    own ticket, and restoring a snapshot of that ledger into any ledger
    brings back its account, positions, orders, deals, history, ticket
    counter and symbol table exactly.  The snapshot does not hold the
    index of symbol names, which stays that of the ledger restored into: a
    symbol absent from that index cannot be looked up by name after the
    restore. *)
Theorem snapshot_round_trip (cs : list Command) initial_balance currency leverage
  (target : t) :
  let t0 := run cs (init initial_balance currency leverage) in
  let t1 := RestoreSnapshot (CreateSnapshot t0) target in
  (forall k pos, positions_ t0 !! k = Some pos -> PositionInfo.Ticket pos = k) /\
  (forall k order, orders_ t0 !! k = Some order -> OrderInfo.Ticket order = k) /\
  account_ t1 = account_ t0 /\
  positions_ t1 = positions_ t0 /\
  orders_ t1 = orders_ t0 /\
  deals_ t1 = deals_ t0 /\
  history_orders_ t1 = history_orders_ t0 /\
  next_ticket_ t1 = next_ticket_ t0 /\
  symbols_ t1 = symbols_ t0 /\
  symbol_name_to_id_ t1 = symbol_name_to_id_ target /\
  (forall symbol, symbol_name_to_id_ target !! symbol = None ->
     GetSymbolInfo t1 symbol = None).
Proof.
  intros t0 t1. destruct (run_keyed cs initial_balance currency leverage) as [Hp Ho].
  fold t0 in Hp, Ho.
  split; [exact Hp|]. split; [exact Ho|].
  split; [reflexivity|]. split.
  { unfold t1, RestoreSnapshot, CreateSnapshot. cbn [positions_ with_orders_
      with_positions_ snap_positions]. apply restore_map. exact Hp. }
  split.
  { unfold t1, RestoreSnapshot, CreateSnapshot. cbn [orders_ with_orders_
      snap_orders]. apply restore_map. exact Ho. }
  split; [reflexivity|]. split; [reflexivity|]. split; [reflexivity|].
  split; [reflexivity|]. split; [reflexivity|].
  intros symbol Hs. unfold GetSymbolInfo.
  change (symbol_name_to_id_ t1) with (symbol_name_to_id_ target).
  rewrite Hs. reflexivity.
Qed.

(** *** Commands that fail *)

Lemma same_books_refl t0 : same_books t0 t0.
Proof. unfold same_books. repeat split; reflexivity. Qed.

Lemma same_books_trans t0 t1 t2 :
  same_books t0 t1 -> same_books t1 t2 -> same_books t0 t2.
Proof.
  unfold same_books.
  intros (A1 & A2 & A3 & A4 & A5 & A6 & A7 & A8 & A9 & A10 & A11 & A12 & A13 & A14)
         (B1 & B2 & B3 & B4 & B5 & B6 & B7 & B8 & B9 & B10 & B11 & B12 & B13 & B14).
  rewrite B1, B2, B3, B4, B5, B6, B7, B8, B9, B10, B11, B12, B13, B14.
  repeat split; assumption.
Qed.

Lemma same_books_request r t0 : same_books t0 (with_last_request_ r t0).
Proof. unfold same_books. repeat split; reflexivity. Qed.

Lemma same_books_check c t0 : same_books t0 (with_last_check_ c t0).
Proof. unfold same_books. repeat split; reflexivity. Qed.

Lemma same_books_result r t0 : same_books t0 (with_last_result_ r t0).
Proof. unfold same_books. repeat split; reflexivity. Qed.

Lemma fail_with_books rc msg t0 : same_books t0 (snd (fail_with rc msg t0)).
Proof. apply same_books_result. Qed.

Lemma ExecuteRequest_failed request t0 :
  0 < next_ticket_ t0 ->
  fst (ExecuteRequest request t0) = false ->
  same_books t0 (snd (ExecuteRequest request t0)).
Proof.
  intros Hn. unfold ExecuteRequest.
  destruct (GetSymbolInfo t0 (MqlTradeRequest.symbol request)) as [info|] eqn:E;
    [|intros _; apply same_books_result].
  destruct (MqlTradeRequest.action request);
    try (intros _; apply same_books_result).
  - destruct (MqlTradeRequest.type request);
      try (intros _; apply same_books_result);
      match goal with
      | |- context [InternalPositionOpen ?a ?b ?c ?d ?e ?f ?g t0] =>
          destruct (InternalPositionOpen_books a b c d e f g t0 info E)
            as (pos & x & m & Ht & _);
          cbv zeta in Ht;
          destruct (InternalPositionOpen a b c d e f g t0) as [ticket ledger1]
      end;
      cbn [fst] in Ht; subst ticket;
      rewrite (proj2 (Z.ltb_lt 0 _) Hn); intros Hf; discriminate Hf.
  - match goal with
    | |- context [InternalOrderPlace ?a ?b ?c ?d ?e ?f ?g ?h ?i ?j t0] =>
        destruct (InternalOrderPlace_books a b c d e f g h i j t0 info E)
          as (order & Ht & _);
        cbv zeta in Ht;
        destruct (InternalOrderPlace a b c d e f g h i j t0) as [ticket ledger1]
    end.
    cbn [fst] in Ht. subst ticket.
    rewrite (proj2 (Z.ltb_lt 0 _) Hn). intros Hf. discriminate Hf.
Qed.

Lemma check_and_execute_failed t0 :
  0 < next_ticket_ t0 ->
  fst (check_and_execute t0) = false ->
  same_books t0 (snd (check_and_execute t0)).
Proof.
  intros Hn. unfold check_and_execute.
  destruct (CheckRequest t0 (last_request_ t0) (last_check_ t0)) as [ok check].
  destruct ok; cbn [negb].
  - intros Hf.
    apply (same_books_trans _ (with_last_check_ check t0));
      [apply same_books_check|].
    apply ExecuteRequest_failed; assumption.
  - intros _.
    apply (same_books_trans _ (with_last_check_ check t0));
      [apply same_books_check|apply same_books_result].
Qed.

Lemma PositionClose_failed ticket deviation t0 :
  fst (PositionClose ticket deviation t0) = false ->
  same_books t0 (snd (PositionClose ticket deviation t0)).
Proof.
  unfold PositionClose.
  destruct (positions_ t0 !! ticket) as [pos|] eqn:E;
    [|intros _; apply fail_with_books].
  cbv zeta.
  match goal with
  | |- context [GetSymbolInfo ?t1 ?s] =>
      destruct (GetSymbolInfo t1 s) as [info|] eqn:E2
  end.
  - match goal with
    | |- context [InternalPositionClose ?a ?b ?c ?t1] =>
        destruct (TicketFacts.InternalPositionClose_shape a b c t1 pos info E E2)
          as (deal & pos' & Hf & _)
    end.
    rewrite Hf. intros H. discriminate H.
  - intros _.
    match goal with
    | |- same_books t0 (snd (fail_with _ _ ?t1)) =>
        apply (same_books_trans _ t1);
          [apply same_books_request|apply fail_with_books]
    end.
Qed.

Lemma PositionClosePartial_failed ticket volume deviation t0 :
  fst (PositionClosePartial ticket volume deviation t0) = false ->
  same_books t0 (snd (PositionClosePartial ticket volume deviation t0)).
Proof.
  unfold PositionClosePartial.
  destruct (positions_ t0 !! ticket) as [pos|] eqn:E;
    [|intros _; apply fail_with_books].
  destruct (Double.ge volume (PositionInfo.Volume pos));
    [apply PositionClose_failed|].
  destruct (GetSymbolInfo t0 (PositionInfo.Symbol pos)) as [info|] eqn:E2;
    [|intros _; apply fail_with_books].
  cbv zeta.
  match goal with
  | |- context [InternalPositionClose ?a ?b ?c ?t1] =>
      destruct (TicketFacts.InternalPositionClose_shape a b c t1 pos info E E2)
        as (deal & pos' & Hf & _)
  end.
  rewrite Hf. intros H. discriminate H.
Qed.

Lemma PositionCloseBy_failed ticket ticket_by t0 :
  fst (PositionCloseBy ticket ticket_by t0) = false ->
  same_books t0 (snd (PositionCloseBy ticket ticket_by t0)).
Proof.
  unfold PositionCloseBy.
  destruct (positions_ t0 !! ticket) as [pos1|] eqn:E1;
    [|intros _; apply fail_with_books].
  destruct (positions_ t0 !! ticket_by) as [pos2|];
    [|intros _; apply fail_with_books].
  destruct (negb _); [intros _; apply fail_with_books|].
  destruct (bool_decide _); [intros _; apply fail_with_books|]. cbv zeta.
  match goal with
  | |- context [GetSymbolInfo ?t1 ?s] =>
      destruct (GetSymbolInfo t1 s) as [info|] eqn:E2
  end.
  - match goal with
    | |- context [InternalPositionClose ?a ?b ?c ?t1] =>
        destruct (TicketFacts.InternalPositionClose_shape a b c t1 pos1 info E1 E2)
          as (deal & pos' & Hf & _);
        destruct (InternalPositionClose a b c t1) as [success ledger2]
    end.
    cbn [fst] in Hf. subst success. intros H. discriminate H.
  - intros _.
    match goal with
    | |- same_books t0 (snd (fail_with _ _ ?t1)) =>
        apply (same_books_trans _ t1);
          [apply same_books_request|apply fail_with_books]
    end.
Qed.

(** X23.  A command that fails changes nothing but the records of the
    last request, check and result: when a command returns [false] on a
    ledger whose ticket counter is positive, the account, the positions,
    the orders, the deals, the order history, the ticket counter, the
    symbols and the settings are all as before. *)
Theorem failed_command_changes_nothing (c : Command) (t0 : t) :
  0 < next_ticket_ t0 ->
  fst (exec c t0) = false ->
  same_books t0 (snd (exec c t0)).
Proof.
  intros Hn. destruct c; cbn [exec fst snd]; try (intros H; discriminate H).
  - intros Hf. unfold PositionOpen in *. cbv zeta in *.
    match goal with
    | |- same_books t0 (snd (check_and_execute ?t1)) =>
        apply (same_books_trans _ t1);
          [apply same_books_request
          |apply (check_and_execute_failed t1 Hn Hf)]
    end.
  - unfold PositionModify.
    destruct (positions_ t0 !! ticket);
      [intros H; discriminate H|intros _; apply fail_with_books].
  - unfold PositionModifyBySymbol.
    destruct (find_position_by_symbol t0 symbol) as [[? pos]|];
      [|intros _; apply fail_with_books].
    unfold PositionModify.
    destruct (positions_ t0 !! PositionInfo.Ticket pos);
      [intros H; discriminate H|intros _; apply fail_with_books].
  - apply PositionClose_failed.
  - unfold PositionCloseBySymbol.
    destruct (find_position_by_symbol t0 symbol) as [[ticket ?]|];
      [|intros _; apply fail_with_books].
    destruct (ticket =? 0);
      [intros _; apply fail_with_books|apply PositionClose_failed].
  - apply PositionClosePartial_failed.
  - unfold PositionClosePartialBySymbol.
    destruct (find_position_by_symbol t0 symbol) as [[ticket ?]|];
      [|intros _; apply fail_with_books].
    destruct (ticket =? 0);
      [intros _; apply fail_with_books|apply PositionClosePartial_failed].
  - apply PositionCloseBy_failed.
  - intros Hf. unfold OrderOpen in *. cbv zeta in *.
    match goal with
    | |- same_books t0 (snd (check_and_execute ?t1)) =>
        apply (same_books_trans _ t1);
          [apply same_books_request
          |apply (check_and_execute_failed t1 Hn Hf)]
    end.
  - unfold OrderModify.
    destruct (orders_ t0 !! ticket);
      [intros H; discriminate H|intros _; apply fail_with_books].
  - unfold OrderDelete.
    destruct (orders_ t0 !! ticket);
      [intros H; discriminate H|intros _; apply fail_with_books].
  - unfold TrailingStopEnable.
    destruct (positions_ t0 !! ticket);
      [intros H; discriminate H|intros _; apply same_books_refl].
  - unfold TrailingStopDisable.
    destruct (positions_ t0 !! ticket);
      [intros H; discriminate H|intros _; apply same_books_refl].
Qed.

Lemma failed_command_changes_nothing_witness :
  0 < next_ticket_ ledger_eurusd /\
  fst (exec (CmdPositionClose 7 0) ledger_eurusd) = false /\
  same_books ledger_eurusd (snd (exec (CmdPositionClose 7 0) ledger_eurusd)).
Proof.
  assert (H1 : 0 < next_ticket_ ledger_eurusd) by (vm_compute; reflexivity).
  assert (H2 : fst (exec (CmdPositionClose 7 0) ledger_eurusd) = false)
    by (vm_compute; reflexivity).
  split; [exact H1|]. split; [exact H2|].
  exact (failed_command_changes_nothing (CmdPositionClose 7 0) ledger_eurusd H1 H2).
Defined.

(** *** Partial closes *)

Lemma not_ge_not_lt (a b : float) : Double.ge a b = false -> PrimFloat.ltb b a = false.
Proof.
  unfold Double.ge. rewrite FloatAxioms.leb_spec, FloatAxioms.ltb_spec.
  unfold SpecFloat.SFleb, SpecFloat.SFltb.
  destruct (SFcompare (Prim2SF b) (Prim2SF a)) as [[]|]; congruence.
Qed.

Lemma InternalPositionClose_partial ticket volume price t0 pos info :
  positions_ t0 !! ticket = Some pos ->
  GetSymbolInfo t0 (PositionInfo.Symbol pos) = Some info ->
  Double.ge volume (PositionInfo.Volume pos) = false ->
  exists pos' deal,
    let r := InternalPositionClose ticket volume price t0 in
    fst r = true /\
    positions_ (snd r) = <[ticket := pos']> (positions_ t0) /\
    PositionInfo.Volume pos' = (PositionInfo.Volume pos - volume)%float /\
    deals_ (snd r) = deals_ t0 ++ [deal] /\
    DealInfo.volume_ deal = volume.
Proof.
  intros E1 E2 Hge. pose proof (not_ge_not_lt _ _ Hge) as Hlt.
  unfold InternalPositionClose. rewrite E1, E2. cbv zeta. unfold take_ticket.
  change (PositionInfo.Volume (PositionInfo.UpdatePrice price pos))
    with (PositionInfo.Volume pos).
  unfold Double.min. rewrite Hlt, Hge.
  cbn [snd fst account_ deals_ positions_ next_ticket_ with_last_result_
       with_account_ with_positions_ with_deals_ with_next_ticket_ UpdateEquity].
  do 2 eexists.
  split; [reflexivity|]. split; [reflexivity|]. split; [reflexivity|].
  split; reflexivity.
Qed.

(** X24.  [PositionClosePartial] does not check the volume it is given.
    For an existing position on a registered symbol and any volume for which
    [volume >= position volume] is false (a smaller, zero or negative
    volume, or NaN), the call succeeds, records one deal of exactly that
    volume and leaves the position open with the volume
    [position volume - volume]. *)
Theorem partial_close_takes_any_volume ticket volume deviation t0 pos info :
  positions_ t0 !! ticket = Some pos ->
  GetSymbolInfo t0 (PositionInfo.Symbol pos) = Some info ->
  Double.ge volume (PositionInfo.Volume pos) = false ->
  let r := PositionClosePartial ticket volume deviation t0 in
  fst r = true /\
  exists pos' deal,
    positions_ (snd r) = <[ticket := pos']> (positions_ t0) /\
    PositionInfo.Volume pos' = (PositionInfo.Volume pos - volume)%float /\
    deals_ (snd r) = deals_ t0 ++ [deal] /\
    DealInfo.volume_ deal = volume.
Proof.
  intros E1 E2 Hge. cbv zeta. unfold PositionClosePartial.
  rewrite E1, Hge, E2. cbv zeta.
  match goal with
  | |- context [InternalPositionClose ?a ?b ?c ?t1] =>
      destruct (InternalPositionClose_partial a b c t1 pos info E1 E2 Hge)
        as (pos' & deal & Hf & Hp & Hv & Hd & Hdv)
  end.
  cbv zeta in Hf, Hp, Hd. split; [exact Hf|].
  exists pos', deal. split; [exact Hp|]. split; [exact Hv|]. split; [exact Hd|].
  exact Hdv.
Qed.

Lemma partial_close_takes_any_volume_witness :
  positions_ ledger_eurusd !! 1000 = Some position_1000 /\
  Double.ge (-1) (PositionInfo.Volume position_1000) = false /\
  fst (PositionClosePartial 1000 (-1) 0 ledger_eurusd) = true.
Proof.
  assert (H1 : positions_ ledger_eurusd !! 1000 = Some position_1000)
    by (vm_compute; reflexivity).
  assert (H2 : GetSymbolInfo ledger_eurusd (PositionInfo.Symbol position_1000)
               = Some eurusd_quoted) by (vm_compute; reflexivity).
  assert (H3 : Double.ge (-1) (PositionInfo.Volume position_1000) = false)
    by (vm_compute; reflexivity).
  split; [exact H1|]. split; [exact H3|].
  exact (proj1 (partial_close_takes_any_volume 1000 (-1) 0 ledger_eurusd
                  position_1000 eurusd_quoted H1 H2 H3)).
Defined.

(** *** Deleting an order *)

(** X25.  [OrderDelete] of an existing pending order succeeds, removes the
    order and appends one record to the order history: the record has the
    order's ticket and volume, the state CANCELED and the ledger's current
    time as its done time, and its prices, stop-loss and take-profit are
    zero whatever the order held.  Positions, deals and account are as
    before, and deleting the same ticket again fails with INVALID_ORDER. *)
Theorem order_delete_archives ticket t0 order :
  orders_ t0 !! ticket = Some order ->
  let r := OrderDelete ticket t0 in
  fst r = true /\
  orders_ (snd r) = delete ticket (orders_ t0) /\
  (exists h,
     history_orders_ (snd r) = history_orders_ t0 ++ [h] /\
     HistoryOrderInfo.ticket_ h = OrderInfo.Ticket order /\
     HistoryOrderInfo.volume_initial_ h = OrderInfo.volume_initial_ order /\
     HistoryOrderInfo.state_ h = ORDER_STATE_CANCELED /\
     HistoryOrderInfo.time_done_ h = current_time_us_ t0 /\
     HistoryOrderInfo.price_open_ h = 0 /\
     HistoryOrderInfo.price_stoplimit_ h = 0 /\
     HistoryOrderInfo.stop_loss_ h = 0 /\
     HistoryOrderInfo.take_profit_ h = 0) /\
  positions_ (snd r) = positions_ t0 /\
  deals_ (snd r) = deals_ t0 /\
  account_ (snd r) = account_ t0 /\
  fst (OrderDelete ticket (snd r)) = false /\
  MqlTradeResult.retcode (last_result_ (snd (OrderDelete ticket (snd r))))
  = TRADE_RETCODE_INVALID_ORDER.
Proof.
  intros E. cbv zeta.
  assert (Hd : orders_ (snd (OrderDelete ticket t0)) = delete ticket (orders_ t0)).
  { unfold OrderDelete. rewrite E. reflexivity. }
  assert (Hagain : orders_ (snd (OrderDelete ticket t0)) !! ticket = None).
  { rewrite Hd. apply lookup_delete_eq. }
  split; [unfold OrderDelete; rewrite E; reflexivity|].
  split; [exact Hd|]. split.
  { unfold OrderDelete. rewrite E. eexists. split; [reflexivity|].
    repeat split; reflexivity. }
  split; [unfold OrderDelete; rewrite E; reflexivity|].
  split; [unfold OrderDelete; rewrite E; reflexivity|].
  split; [unfold OrderDelete; rewrite E; reflexivity|].
  generalize dependent (snd (OrderDelete ticket t0)). intros t1 _ Hagain.
  unfold OrderDelete. rewrite Hagain. split; reflexivity.
Qed.

Lemma order_delete_archives_witness :
  orders_ pending_eurusd !! 1000 = Some order_1000 /\
  fst (OrderDelete 1000 pending_eurusd) = true /\
  orders_ (snd (OrderDelete 1000 pending_eurusd))
  = delete 1000 (orders_ pending_eurusd).
Proof.
  assert (H : orders_ pending_eurusd !! 1000 = Some order_1000)
    by (vm_compute; reflexivity).
  destruct (order_delete_archives 1000 pending_eurusd order_1000 H)
    as (Hf & Hd & _).
  split; [exact H|]. split; [exact Hf|exact Hd].
Defined.

(** *** Market orders *)

Lemma InternalPositionOpen_position symbol type volume price sl tp comment t0 info :
  GetSymbolInfo t0 symbol = Some info ->
  exists pos,
    let r := InternalPositionOpen symbol type volume price sl tp comment t0 in
    fst r = next_ticket_ t0 /\
    positions_ (snd r) = <[next_ticket_ t0 := pos]> (positions_ t0) /\
    PositionInfo.price_open_ pos
    = Double.to_int64 (price * Double.pow10 5 + 0.5)%float /\
    PositionInfo.digits_ pos = SymbolInfo.Digits info /\
    PositionInfo.volume_ pos = volume /\
    PositionInfo.type_ pos = type.
Proof.
  intros E. unfold InternalPositionOpen. rewrite E. cbv zeta. unfold take_ticket.
  cbn [snd fst account_ deals_ positions_ next_ticket_ with_last_result_
       with_account_ with_positions_ with_deals_ with_next_ticket_ UpdateEquity].
  eexists.
  split; [reflexivity|]. split; [reflexivity|]. split; [reflexivity|].
  split; [reflexivity|]. split; reflexivity.
Qed.

Lemma ExecuteRequest_deal request t0 :
  MqlTradeRequest.action request = TRADE_ACTION_DEAL ->
  fst (ExecuteRequest request t0) = true ->
  exists info pos market,
    GetSymbolInfo t0 (MqlTradeRequest.symbol request) = Some info /\
    (MqlTradeRequest.type request = ORDER_TYPE_BUY /\
     PositionInfo.type_ pos = POSITION_TYPE_BUY /\ market = SymbolInfo.Ask info \/
     MqlTradeRequest.type request = ORDER_TYPE_SELL /\
     PositionInfo.type_ pos = POSITION_TYPE_SELL /\ market = SymbolInfo.Bid info) /\
    positions_ (snd (ExecuteRequest request t0))
    = <[next_ticket_ t0 := pos]> (positions_ t0) /\
    PositionInfo.price_open_ pos
    = Double.to_int64 (market * Double.pow10 5 + 0.5)%float /\
    PositionInfo.digits_ pos = SymbolInfo.Digits info /\
    PositionInfo.volume_ pos = MqlTradeRequest.volume request.
Proof.
  intros Ha. unfold ExecuteRequest. rewrite Ha.
  destruct (GetSymbolInfo t0 (MqlTradeRequest.symbol request)) as [info|] eqn:E;
    [|intros H; discriminate H].
  destruct (MqlTradeRequest.type request) eqn:Et;
    try (intros H; discriminate H);
    match goal with
    | |- context [InternalPositionOpen ?a ?b ?c ?d ?e ?f ?g t0] =>
        destruct (InternalPositionOpen_position a b c d e f g t0 info E)
          as (pos & Ht & Hp & Hpo & Hdg & Hv & Hty);
        cbv zeta in Ht, Hp;
        destruct (InternalPositionOpen a b c d e f g t0) as [ticket ledger1]
    end;
    cbn [fst snd] in Ht, Hp; intros _;
    (exists info, pos); eexists;
    (split; [reflexivity|]);
    (split; [first [left; split; [reflexivity|split; [exact Hty|reflexivity]]
                   |right; split; [reflexivity|split; [exact Hty|reflexivity]]]|]);
    (split; [destruct (0 <? ticket); exact Hp|]);
    (split; [exact Hpo|]); (split; [exact Hdg|exact Hv]).
Qed.

(** X26.  A market order is filled at the symbol's price, not at the price
    the caller passes.  When [PositionOpen] succeeds, the symbol is
    registered, the order type is BUY or SELL, and the new position is
    stored under the next ticket with the requested volume and with an open
    price taken from the symbol's ask (BUY) or bid (SELL).  The open price
    is stored scaled by [10^5], the digits of a new [PositionInfo], before
    the position's digits are set to those of the symbol. *)
Theorem position_open_fills_at_market symbol order_type volume price sl tp comment
  t0 :
  let r := PositionOpen symbol order_type volume price sl tp comment t0 in
  fst r = true ->
  exists info pos market,
    GetSymbolInfo t0 symbol = Some info /\
    (order_type = ORDER_TYPE_BUY /\
     PositionInfo.type_ pos = POSITION_TYPE_BUY /\ market = SymbolInfo.Ask info \/
     order_type = ORDER_TYPE_SELL /\
     PositionInfo.type_ pos = POSITION_TYPE_SELL /\ market = SymbolInfo.Bid info) /\
    positions_ (snd r) = <[next_ticket_ t0 := pos]> (positions_ t0) /\
    PositionInfo.price_open_ pos
    = Double.to_int64 (market * Double.pow10 5 + 0.5)%float /\
    PositionInfo.digits_ pos = SymbolInfo.Digits info /\
    PositionInfo.volume_ pos = volume.
Proof.
  cbv zeta. unfold PositionOpen. cbv zeta. unfold check_and_execute.
  match goal with
  | |- context [CheckRequest ?t1 ?r ?c] => destruct (CheckRequest t1 r c) as [ok check]
  end.
  destruct ok; cbn [negb]; [|intros H; discriminate H].
  intros Hf.
  match goal with
  | _ : fst (ExecuteRequest ?r ?t1) = true |- _ =>
      destruct (ExecuteRequest_deal r t1 eq_refl Hf)
        as (info & pos & market & Hi & Hty & Hp & Hpo & Hdg & Hv)
  end.
  exists info, pos, market.
  split; [exact Hi|]. split; [exact Hty|]. split; [exact Hp|].
  split; [exact Hpo|]. split; [exact Hdg|exact Hv].
Qed.

Lemma position_open_fills_at_market_witness :
  fst (PositionOpen "EURUSD" ORDER_TYPE_BUY 1 0 0 0 "" quoted_eurusd) = true /\
  exists pos,
    positions_ (snd (PositionOpen "EURUSD" ORDER_TYPE_BUY 1 0 0 0 "" quoted_eurusd))
    = <[next_ticket_ quoted_eurusd := pos]> (positions_ quoted_eurusd) /\
    PositionInfo.volume_ pos = 1%float.
Proof.
  assert (H : fst (PositionOpen "EURUSD" ORDER_TYPE_BUY 1 0 0 0 "" quoted_eurusd)
              = true) by (vm_compute; reflexivity).
  split; [exact H|].
  destruct (position_open_fills_at_market "EURUSD" ORDER_TYPE_BUY 1 0 0 0 ""
              quoted_eurusd H)
    as (info & pos & market & _ & _ & Hp & _ & _ & Hv).
  exists pos. split; [exact Hp|exact Hv].
Defined.

(** *** Price updates *)

Lemma UpdateEquity_balance x a :
  AccountInfo.balance_ (AccountInfo.UpdateEquity x a) = AccountInfo.balance_ a /\
  AccountInfo.margin_ (AccountInfo.UpdateEquity x a) = AccountInfo.margin_ a.
Proof.
  unfold AccountInfo.UpdateEquity. cbv zeta.
  destruct (0 <? AccountInfo.margin_ (AccountInfo.with_equity_ _ _)); cbn.
  all: match goal with
       | |- context [if (?u <? ?v) then _ else _] => destruct (u <? v)
       end; cbn.
  all: match goal with
       | |- context [if ?b then _ else _] => destruct b
       end; cbn.
  all: split; reflexivity.
Qed.

Lemma UpdatePrice_keeps new_price pos :
  let pos' := PositionInfo.UpdatePrice new_price pos in
  PositionInfo.ticket_ pos' = PositionInfo.ticket_ pos /\
  PositionInfo.volume_ pos' = PositionInfo.volume_ pos /\
  PositionInfo.price_open_ pos' = PositionInfo.price_open_ pos /\
  PositionInfo.stop_loss_ pos' = PositionInfo.stop_loss_ pos /\
  PositionInfo.take_profit_ pos' = PositionInfo.take_profit_ pos.
Proof. cbv zeta. repeat split; reflexivity. Qed.

(** X27.  A price update triggers nothing.  [UpdatePrices] keeps every
    position open with its ticket, volume, open price, stop-loss and
    take-profit, adds and removes none, and leaves the pending orders, the
    deals, the order history, the ticket counter, the balance and the used
    margin untouched, whatever the new bid and ask are: stops, take-profits
    and pending orders are not executed by the ledger. *)
Theorem update_prices_triggers_nothing symbol bid ask timestamp t0 :
  let t1 := UpdatePrices symbol bid ask timestamp t0 in
  orders_ t1 = orders_ t0 /\
  deals_ t1 = deals_ t0 /\
  history_orders_ t1 = history_orders_ t0 /\
  next_ticket_ t1 = next_ticket_ t0 /\
  AccountInfo.balance_ (account_ t1) = AccountInfo.balance_ (account_ t0) /\
  AccountInfo.margin_ (account_ t1) = AccountInfo.margin_ (account_ t0) /\
  (forall k, positions_ t1 !! k = None <-> positions_ t0 !! k = None) /\
  (forall k pos', positions_ t1 !! k = Some pos' ->
     exists pos,
       positions_ t0 !! k = Some pos /\
       PositionInfo.ticket_ pos' = PositionInfo.ticket_ pos /\
       PositionInfo.volume_ pos' = PositionInfo.volume_ pos /\
       PositionInfo.price_open_ pos' = PositionInfo.price_open_ pos /\
       PositionInfo.stop_loss_ pos' = PositionInfo.stop_loss_ pos /\
       PositionInfo.take_profit_ pos' = PositionInfo.take_profit_ pos).
Proof.
  cbv zeta. unfold UpdatePrices.
  assert (Hsame : forall t0 : t,
    orders_ t0 = orders_ t0 /\ deals_ t0 = deals_ t0 /\
    history_orders_ t0 = history_orders_ t0 /\ next_ticket_ t0 = next_ticket_ t0 /\
    AccountInfo.balance_ (account_ t0) = AccountInfo.balance_ (account_ t0) /\
    AccountInfo.margin_ (account_ t0) = AccountInfo.margin_ (account_ t0) /\
    (forall k, positions_ t0 !! k = None <-> positions_ t0 !! k = None) /\
    (forall k pos', positions_ t0 !! k = Some pos' ->
       exists pos,
         positions_ t0 !! k = Some pos /\
         PositionInfo.ticket_ pos' = PositionInfo.ticket_ pos /\
         PositionInfo.volume_ pos' = PositionInfo.volume_ pos /\
         PositionInfo.price_open_ pos' = PositionInfo.price_open_ pos /\
         PositionInfo.stop_loss_ pos' = PositionInfo.stop_loss_ pos /\
         PositionInfo.take_profit_ pos' = PositionInfo.take_profit_ pos)).
  { intros t'. repeat split; try reflexivity; try (intros H; exact H).
    intros k pos' H. exists pos'. repeat split. exact H. }
  destruct (symbol_name_to_id_ t0 !! symbol) as [id|]; [|apply Hsame].
  destruct (symbols_ t0 !! id) as [sym|]; [|apply Hsame].
  clear Hsame. cbv zeta. unfold UpdateEquity.
  split; [destruct (0 <? timestamp); reflexivity|].
  split; [destruct (0 <? timestamp); reflexivity|].
  split; [destruct (0 <? timestamp); reflexivity|].
  split; [destruct (0 <? timestamp); reflexivity|].
  split.
  { cbn [account_ with_account_].
    rewrite (proj1 (UpdateEquity_balance _ _)).
    destruct (0 <? timestamp); reflexivity. }
  split.
  { cbn [account_ with_account_].
    rewrite (proj2 (UpdateEquity_balance _ _)).
    destruct (0 <? timestamp); reflexivity. }
  match goal with
  | |- context [with_positions_ (?f <$> _)] => set (update := f)
  end.
  assert (Hp : forall t' a,
             positions_ (with_account_ a (with_positions_ (update <$> positions_ t') t'))
             = update <$> positions_ t') by reflexivity.
  split.
  - intros k. cbn [positions_ with_account_ with_positions_].
    rewrite lookup_fmap.
    replace (positions_ (if 0 <? timestamp
                         then with_current_time_us_ timestamp
                                (with_symbols_
                                   (<[id := SymbolInfo.UpdatePrice bid ask timestamp sym]>
                                      (symbols_ t0)) t0)
                         else with_symbols_
                                (<[id := SymbolInfo.UpdatePrice bid ask timestamp sym]>
                                   (symbols_ t0)) t0))
      with (positions_ t0) by (destruct (0 <? timestamp); reflexivity).
    destruct (positions_ t0 !! k); cbn; split; intros H; congruence.
  - intros k pos'. cbn [positions_ with_account_ with_positions_].
    rewrite lookup_fmap.
    replace (positions_ (if 0 <? timestamp
                         then with_current_time_us_ timestamp
                                (with_symbols_
                                   (<[id := SymbolInfo.UpdatePrice bid ask timestamp sym]>
                                      (symbols_ t0)) t0)
                         else with_symbols_
                                (<[id := SymbolInfo.UpdatePrice bid ask timestamp sym]>
                                   (symbols_ t0)) t0))
      with (positions_ t0) by (destruct (0 <? timestamp); reflexivity).
    destruct (positions_ t0 !! k) as [pos|]; cbn; [|intros H; discriminate H].
    intros H. injection H as <-. exists pos. split; [reflexivity|].
    unfold update. destruct (bool_decide _); [|repeat split; reflexivity].
    apply UpdatePrice_keeps.
Qed.

End LedgerFacts.
